(* ===== verification/_CoqProject ===== *)
-Q . S2P
Prelude.v
CInt.v
CLib.v
Prog.v
Calls.v
Crc32.v
Crc32Order.v
Crc32Errors.v
RawPacket.v
ClApi.v
Posix.v
LookupAddr.v
IbHeaders.v
OpenClUtils.v
FpgaHost.v
RawIbverbs.v
PrintRead.v
Layout.v
VerbsTypes.v
Verbs.v
VerbsDispatch.v
VerbsEnums.v
VerbsRules.v
Rdma.v
VerbsStructs.v
RdmaCalls.v
QueueSpec.v
RdmaRing.v
RdmaMemory.v
RdmaDriver.v
RdmaResources.v
RdmaClient.v
RdmaServer.v
ClientServer.v
RawPath.v
FrameErrors.v
Ipv4Check.v
RawUdp.v
Udp.v
UdpPath.v
Fpga.v
FpgaPath.v
Termination.v
Progress.v
Cooperative.v
