(* ===== verification/Prelude.v ===== *)
(** * A verification development for the ibverbs prototype

    The repository holds small C programs that exchange numbered messages with
    an InfiniBand (RoCEv1) card in several ways: through libibverbs
    (rdma_client.c and rdma_server.c over rdma.c), by building raw Ethernet
    frames (raw_ibverbs.c, raw_udp.c), by handing headers to an FPGA kernel
    (raw_ibverbs.c with fpga_host.cc and ibverbs.cl), and over plain UDP sockets
    (udp.c).

    ** How code is modelled

    A C function is a pure Rocq function where it has no effects. Otherwise it
    is a computation of the monad [M] of [Prog]: from the program's global state
    to a tree of its calls to the outside, each node branching on the answer,
    that ends in a return, an exit, undefined behaviour with its reason, or a
    loop out of fuel. A program's static variables and main's locals that
    outlive an iteration are a Record ([rdma], [client], [raw_state], ...).
    [while] loops take fuel. Machine integers are [Z] with their conversions
    written out ([CInt]); memory is [list Z] of bytes; the host is
    little-endian, as raw_packet.h requires.

    The outside is an [EnvSpec]: which answers are legal in a ghost state, and
    how the ghost state moves. Theorems are weakest preconditions [wp] against
    every legal environment, hence for every interleaving of failures and every
    SIGINT schedule: [sigint n] is whether the signal has been delivered by the
    [n]-th test of the loop flag. [wp_exec] relates [wp] to executions. Ghost
    states record what a program sent, what it asked of the resolver, the kernel
    and the ARP table with the answers ([lookups]) and how many calls failed
    ([faults]), so that statements can say why it exits ([net] of Posix.v); for
    libibverbs, the live objects, the requests the card owns, memory, and every
    broken rule of the library ([nic] of Verbs.v). An object may be released only
    when nothing alive was created from it; a memory region counts as created
    from the block it registers. For OpenCL, a buffer a copy reads while it is
    mapped leaves the copy's target undefined, and commands of different queues
    are unordered: a kernel then may find any bytes ([may_read] of ClApi.v).

    ** Files

    - Prelude, CInt, CLib, Prog, Calls: bit-level automation; C integers, byte
      order and memory copies; printf's numbers, snprintf, atoi, strncpy; the
      monad, [wp] and the rules of loops; which calls a computation can make.
    - Crc32 (crc32.h): [crc32] against the bitwise polynomial division
      [crc32_ref]; chaining, the receiver's residue, detection of bursts.
      Crc32Order: the period of its bit machine. Crc32Errors: its distance, by
      that period for two wrong bits and, for three in strings as long as the
      programs' frames, by a computation over the error patterns.
    - RawPacket (raw_packet.h, raw_packet.c, constants.h): the structures, their
      bytes, printing; [Wire] reads the same bytes by the InfiniBand layouts.
    - ClApi, Posix, LookupAddr (lookup_addr.c): the OpenCL interface; system
      calls; the address lookups.
    - OpenClUtils (opencl_utils.cc, opencl_utils.hpp): the set-up of OpenCL and
      the class Kernel, with C++ exceptions as values. FpgaHost (fpga_host.cc):
      [ib_fpga_send_loop].
    - IbHeaders, RawIbverbs (raw_ibverbs.c): checksums and headers; the send
      loop, the command line and main. PrintRead: what it prints about its
      frames, read back.
    - Fpga (ibverbs.cl): the kernel and the lines it sends, against their
      reassembly by the port. FpgaPath: from main to the port.
    - Layout, VerbsTypes, VerbsDispatch (sys/verbs.h): how C lays out
      structures; the header's structures; its inline functions, which find the
      provider's code for a context. VerbsEnums: its enumerations as written,
      and its masks. VerbsStructs: its other structures, and the casts between
      them.
    - Verbs, VerbsRules: verbs.h's data as the programs use it, libibverbs as an
      environment, and the proof rules of its calls ([holds]: the resources a
      program owns).
    - Rdma (rdma.c): every function. RdmaCalls: what initialisation and cleanup
      cannot do. RdmaRing: the rings of work requests and posting from them; the
      class [Linked] is what a ring needs of a work request, with instances for
      sends and receives. RdmaMemory: the same rings in memory, as a provider's
      code reads them (class [InMemory]). RdmaDriver: the programs' loops over
      that memory, against a provider that keeps a queue ([Driver]).
      RdmaResources: initialisation and cleanup on every error path.
    - QueueSpec: traces of abstract machines; the bounded queue [fifo].
    - RdmaClient, RdmaServer (rdma_client.c, rdma_server.c): the programs, and
      that they refine [fifo] and [server_spec]. ClientServer: the two composed
      through a network. RawPath: raw_ibverbs' frames received by the server's
      card; FrameErrors: the same frames damaged on the way.
    - Ipv4Check, RawUdp (raw_udp.c); Udp (udp.c). UdpPath: udp.c's receiver
      composed with its sender and with raw_udp.
    - Termination: all five programs stop after SIGINT. Progress: when no call
      fails, the socket programs do a turn per test of the flag and succeed.
    - Cooperative: an environment in which nothing fails, and the client's and
      the server's successful runs in it.

    Operations keep the C names (a program's [main], [stop_loop] and [send_body]
    are told apart by their file). A C loop body is a definition of its own
    ([client_turn], [send_body], [recv_ring_step]); a C label is the function
    that continues at it ([clean_device], ...).

    ** What is proved

    Functional: the checksums and headers are what InfiniBand and IPv4 ask for
    ([crc32_correct], [ib_checksum_correct], [init_headers_wire],
    [ipv4check_correct]); what each program transmits, byte by byte
    ([main_transmissions], [raw_udp_main_correct], [udp_client_correct],
    [udp_server_correct], [write_ibverb_packet_correct], [fpga_frame_accepted],
    [client_main_correct]), and what the server prints about it
    ([server_reports_messages], [server_reports_raw_frames]); what udp.c's
    receiver prints of what the two UDP senders send ([udp_messages_shown],
    [raw_udp_messages_shown]). Errors on the line: the checksum has distance
    three on strings below 2^29 bytes and four on strings of a frame's length
    ([crc32_distance]), so a frame with up to three bits altered is dropped or
    carries the payload that was sent ([damaged_frames_dropped]). Resources:
    nothing is used after its release, released twice, or destroyed while in
    use, and everything is released at the end, up to the leaks the statements
    name ([rdma_init_correct] and the other theorems of RdmaResources).
    Concurrency with the card: no buffer is touched while the card owns it, and
    the ring is as before after each post ([post_sends_correct],
    [post_recvs_correct], [client_main_correct], [server_main_correct]).
    Refinement: what the two RDMA programs are seen to do are traces of abstract
    machines ([client_refines_fifo], [server_refines_spec]); the lists of
    requests that the model of libibverbs is given are what a provider reads
    from memory by the pointers rdma.c writes ([posts_in_memory]), and the loops
    drive such a provider as a queue, for ever and with the ring whole in memory
    ([loop_drives_card]). What raw_ibverbs prints about a frame can be read back
    and is what the frame's bytes say ([printed_headers_sent]). The path through
    verbs.h: which function of which provider a call reaches, and that no older
    provider's table is read past its end ([extended_operations_correct]); which
    structures can be read as others ([views_readable]), and that the masks say
    what was put in them ([masks_roundtrip]). Termination: SIGINT ends each
    program, but for undefined behaviours listed per program
    ([programs_terminate]). Progress: without failing calls the socket programs
    get their work done in every environment ([programs_progress]); for the two
    RDMA programs, Cooperative has a successful run each. Several theorems state
    where the code leaves defined behaviour ([host_send_loop_overflow],
    [post_none_undefined], [udp_server_correct], [ipv4check_edges],
    [ibv_close_xrcd_undefined]).

    ** Fuel and bounds

    Only the [while] loops and the FPGA's line loop have fuel. [Termination]
    shows that a number of iterations above the index of the test that sees
    SIGINT is enough; the FPGA loop needs one more than its number of lines
    ([write_ibverb_packet_correct]). The provider's walk of a ring of [n]
    requests needs [n], and the fuel of [loop_drives_card] is the number of turns.
    The distance four of [crc32_distance] holds up to [CODE_BYTES], the longest
    string that raw_ibverbs' checksum covers. Counters are bounded by the fuel: statements that count messages ask that [INT_MAX]
    is not reached, the definitions treat that overflow as undefined.

    ** Parameters

    [AddrText] (inet_ntop, inet_pton, ether_aton, ...) is the C library's text
    conversions; [AddrTextOk] says the sizes and ranges their results have,
    [AddrTextLines] that an IPv6 address is printed on one line and read back by
    inet_pton. [Junk] is uninitialised memory, about which nothing is assumed.
    [Pthread] is the sizes of the C library's mutex and condition. The OpenCL
    library, the kernel, libibverbs and the card are environments: their answers
    are arbitrary within what their documentation allows.

    ** Not modelled

    The Makefile, the inside of libibverbs, of OpenCL and of the kernel;
    reference counts and destructors of the OpenCL handles; asynchronous signals
    other than SIGINT's flag; strict aliasing and alignment of accesses. The
    function prototypes of verbs.h, and its macros for symbol versions, have no
    body to model: what the programs use of them is the environment's. Standard
    error output of the RDMA programs is a call whose text is kept by the model
    and not by the ghost state. *)
From stdpp Require Export base list numbers strings.
From Stdlib Require Export ZArith Lia.
From Stdlib Require Export Btauto.

#[export] Set Default Goal Selector "!".

Declare Scope c_scope.
Delimit Scope c_scope with C.

(** Rewriting database for [Z.testbit] of the bit operations. *)
Create Rewrite HintDb zbits.

#[export] Hint Rewrite Z.lxor_spec Z.land_spec Z.lor_spec Z.bits_0 : zbits.
#[export] Hint Rewrite Z.shiftr_spec Z.shiftl_spec using lia : zbits.

(** [zbitwise] proves an equation between bit expressions bit by bit. *)
Ltac zbitwise :=
  apply Z.bits_inj'; let i := fresh "i" in intros i ?; autorewrite with zbits; try btauto.

(** Splits the conjunctions and bounds [a <= b < c] of the context. *)
Ltac split_and_hyps := repeat match goal with H : _ /\ _ |- _ => destruct H end.

(** Machine-integer side conditions and byte-order rewriting. *)
Create HintDb cint.
Create Rewrite HintDb cint.

Section bits.
Local Open Scope Z_scope.

Lemma testbit_high (w x i : Z) : 0 <= x < 2 ^ w -> w <= i -> Z.testbit x i = false.
Proof.
  intros Hx Hi. destruct (decide (x = 0)) as [->|]; [apply Z.bits_0|].
  apply Z.bits_above_log2; [lia|]. apply Z.lt_le_trans with w; [|lia].
  apply Z.log2_lt_pow2; lia.
Qed.

Lemma bits_bounded (w x : Z) :
  0 <= w -> 0 <= x -> (forall i, w <= i -> Z.testbit x i = false) -> x < 2 ^ w.
Proof.
  intros Hw Hx H. destruct (Z.eq_dec x 0) as [->|Hn]; [lia|].
  destruct (Z.lt_ge_cases x (2 ^ w)) as [|Hge]; [done|].
  apply Z.log2_le_pow2 in Hge; [|lia].
  specialize (H (Z.log2 x) Hge). rewrite Z.bit_log2 in H by lia. done.
Qed.

Lemma lxor_range (w a b : Z) :
  0 <= w -> 0 <= a < 2 ^ w -> 0 <= b < 2 ^ w -> 0 <= Z.lxor a b < 2 ^ w.
Proof.
  intros Hw Ha Hb.
  assert (0 <= Z.lxor a b) by (apply Z.lxor_nonneg; lia).
  split; [done|]. apply bits_bounded; [done..|].
  intros i Hi. rewrite Z.lxor_spec, (testbit_high w a), (testbit_high w b) by done. done.
Qed.

Lemma shiftr_range (w n a : Z) :
  0 <= n <= w -> 0 <= a < 2 ^ w -> 0 <= Z.shiftr a n < 2 ^ (w - n).
Proof.
  intros Hn Ha. rewrite Z.shiftr_div_pow2 by lia. split.
  - apply Z.div_pos; lia.
  - apply Z.div_lt_upper_bound; [lia|]. rewrite <- Z.pow_add_r by lia.
    replace (n + (w - n)) with w by lia. lia.
Qed.

Lemma lor_shift_add (w x y : Z) :
  0 <= w -> 0 <= x < 2 ^ w -> Z.lor x (Z.shiftl y w) = x + y * 2 ^ w.
Proof.
  intros Hw Hx. rewrite <- Z.shiftl_mul_pow2 by done.
  rewrite Z.add_nocarry_lxor, Z.lxor_lor.
  - done.
  - apply Z.bits_inj'. intros i Hi. autorewrite with zbits.
    destruct (Z.lt_ge_cases i w).
    + rewrite (Z.testbit_neg_r y) by lia. by rewrite andb_false_r.
    + by rewrite (testbit_high w x).
  - apply Z.bits_inj'. intros i Hi. autorewrite with zbits.
    destruct (Z.lt_ge_cases i w).
    + rewrite (Z.testbit_neg_r y) by lia. by rewrite andb_false_r.
    + by rewrite (testbit_high w x).
Qed.

End bits.
