(* ===== verification/CInt.v ===== *)
(** C integers and object representations.

    Machine integers are [Z]; [u8 .. u64] are the conversions to the unsigned
    types (reduction modulo [2^w]) and [i32] the conversion to [int]
    (two's complement).  Bytes are [Z] in [0, 256), memory is [list Z].
    The host is little-endian: [raw_packet.h] refuses to compile otherwise. *)
From S2P Require Import Prelude.
Local Open Scope Z_scope.

Definition u8 (x : Z) : Z := x mod 2 ^ 8.
Definition u16 (x : Z) : Z := x mod 2 ^ 16.
Definition u32 (x : Z) : Z := x mod 2 ^ 32.
Definition u64 (x : Z) : Z := x mod 2 ^ 64.
Definition i32 (x : Z) : Z := (x + 2 ^ 31) mod 2 ^ 32 - 2 ^ 31.

Definition INT_MAX : Z := 2147483647.
Definition INT_MIN : Z := -2147483648.

Definition is_byte (b : Z) : Prop := 0 <= b < 256.
Definition is_u (w x : Z) : Prop := 0 <= x < 2 ^ w.
Abbreviation wf_bytes := (Forall is_byte).

(** The little-endian object representation of an [n]-byte integer. *)
Fixpoint le_bytes (n : nat) (x : Z) : list Z :=
  match n with
  | O => []
  | S n => Z.land x 255 :: le_bytes n (Z.shiftr x 8)
  end.

Fixpoint le_val (l : list Z) : Z :=
  match l with
  | [] => 0
  | b :: l => Z.lor b (Z.shiftl (le_val l) 8)
  end.

(** Network byte order. *)
Definition be_bytes (n : nat) (x : Z) : list Z := rev (le_bytes n x).
Definition be_val (l : list Z) : Z := le_val (rev l).

(** [htons], [htonl] and their inverses on a little-endian host; the argument
    is converted to the parameter type first. *)
Definition htons (x : Z) : Z := le_val (be_bytes 2 (u16 x)).
Definition htonl (x : Z) : Z := le_val (be_bytes 4 (u32 x)).
Definition ntohs (x : Z) : Z := htons x.
Definition ntohl (x : Z) : Z := htonl x.

(** [memcpy(dst + off, src, |src|)] inside an object: [None] when the copy
    leaves the object (undefined behaviour). *)
Definition store_bytes (off : nat) (src dst : list Z) : option (list Z) :=
  if (off + length src <=? length dst)%nat
  then Some (take off dst ++ src ++ drop (off + length src) dst)
  else None.

(** ** Conversions *)

Lemma u_range (w x : Z) : 0 <= w -> is_u w (x mod 2 ^ w).
Proof. intros. apply Z.mod_pos_bound. lia. Qed.

Lemma u32_range x : is_u 32 (u32 x).
Proof. by apply u_range. Qed.

Lemma u16_range x : is_u 16 (u16 x).
Proof. by apply u_range. Qed.

Lemma u_small (w x : Z) : is_u w x -> x mod 2 ^ w = x.
Proof. intros. by apply Z.mod_small. Qed.

Lemma i32_small x : INT_MIN <= x <= INT_MAX -> i32 x = x.
Proof. unfold INT_MIN, INT_MAX, i32. intros. rewrite Z.mod_small; lia. Qed.

Lemma i32_range x : INT_MIN <= i32 x <= INT_MAX.
Proof.
  unfold INT_MIN, INT_MAX, i32.
  pose proof (Z.mod_pos_bound (x + 2 ^ 31) (2 ^ 32)). lia.
Qed.

Lemma i32_land_ones (n x : Z) : 0 <= n <= 31 -> Z.land (i32 x) (Z.ones n) = Z.land x (Z.ones n).
Proof.
  intros Hn. rewrite !Z.land_ones by lia. unfold i32.
  assert (D : forall m, n <= m -> (2 ^ n | 2 ^ m)).
  { intros m Hm. exists (2 ^ (m - n)). rewrite <- Z.pow_add_r by lia. f_equal. lia. }
  rewrite Zminus_mod, Z.mod_mod_divide by (apply D; lia).
  assert (H31 : 2 ^ 31 mod 2 ^ n = 0) by (apply Z.mod_divide; [lia|apply D; lia]).
  rewrite (Zplus_mod x), H31, Z.add_0_r, Z.sub_0_r, !Z.mod_mod by lia. done.
Qed.

(** ** Bytes *)

Lemma is_byte_land x : is_byte (Z.land x 255).
Proof.
  unfold is_byte. change 255 with (Z.ones 8). rewrite Z.land_ones by lia.
  apply (Z.mod_pos_bound x 256). lia.
Qed.

Lemma length_le_bytes n x : length (le_bytes n x) = n.
Proof. revert x. induction n as [|n IH]; intros x; simpl; [done|]. by rewrite IH. Qed.

Lemma wf_le_bytes n x : wf_bytes (le_bytes n x).
Proof.
  revert x. induction n as [|n IH]; intros x; simpl; constructor; [|done].
  apply is_byte_land.
Qed.

Lemma length_be_bytes n x : length (be_bytes n x) = n.
Proof. unfold be_bytes. by rewrite length_rev, length_le_bytes. Qed.

Lemma wf_be_bytes n x : wf_bytes (be_bytes n x).
Proof. apply Forall_rev, wf_le_bytes. Qed.

Lemma le_val_le_bytes n x : le_val (le_bytes n x) = x mod 2 ^ (8 * Z.of_nat n).
Proof.
  revert x. induction n as [|n IH]; intros x; [by rewrite Z.mod_1_r|].
  cbn [le_bytes le_val]. rewrite IH.
  replace (8 * Z.of_nat (S n)) with (8 + 8 * Z.of_nat n) by lia.
  change 255 with (Z.ones 8). rewrite Z.land_ones by lia.
  rewrite lor_shift_add by (try apply Z.mod_pos_bound; lia).
  rewrite Z.shiftr_div_pow2 by lia.
  rewrite (Z.pow_add_r 2 8) by lia. rewrite Z.rem_mul_r by lia. lia.
Qed.

Lemma le_val_range l : wf_bytes l -> is_u (8 * Z.of_nat (length l)) (le_val l).
Proof.
  unfold is_u. induction 1 as [|b l Hb Hl IH]; [simpl; lia|].
  cbn [le_val length]. unfold is_byte in Hb. rewrite lor_shift_add by lia.
  replace (8 * Z.of_nat (S (length l))) with (8 + 8 * Z.of_nat (length l)) by lia.
  rewrite Z.pow_add_r by lia. nia.
Qed.

Lemma le_bytes_le_val l : wf_bytes l -> le_bytes (length l) (le_val l) = l.
Proof.
  induction 1 as [|b l Hb Hl IH]; [done|]. cbn [le_val le_bytes length].
  unfold is_byte in Hb. rewrite lor_shift_add by lia. f_equal.
  - change 255 with (Z.ones 8). rewrite Z.land_ones by lia.
    rewrite Z.mod_add by lia. by apply Z.mod_small.
  - rewrite Z.shiftr_div_pow2 by lia. rewrite Z.div_add by lia.
    by rewrite Z.div_small, Z.add_0_l by lia.
Qed.

Lemma le_bytes_mod n x : le_bytes n (x mod 2 ^ (8 * Z.of_nat n)) = le_bytes n x.
Proof.
  rewrite <- le_val_le_bytes.
  rewrite <- (length_le_bytes n x) at 1. apply le_bytes_le_val, wf_le_bytes.
Qed.

Lemma le_bytes_htons x : le_bytes 2 (htons x) = be_bytes 2 x.
Proof.
  unfold htons. change 2%nat with (length (be_bytes 2 (u16 x))) at 1.
  rewrite le_bytes_le_val by apply wf_be_bytes.
  unfold be_bytes. f_equal. apply (le_bytes_mod 2).
Qed.

Lemma le_bytes_htonl x : le_bytes 4 (htonl x) = be_bytes 4 x.
Proof.
  unfold htonl. change 4%nat with (length (be_bytes 4 (u32 x))) at 1.
  rewrite le_bytes_le_val by apply wf_be_bytes.
  unfold be_bytes. f_equal. apply (le_bytes_mod 4).
Qed.

Lemma htons_range x : is_u 16 (htons x).
Proof. apply (le_val_range (be_bytes 2 (u16 x))), wf_be_bytes. Qed.

Lemma htonl_range x : is_u 32 (htonl x).
Proof. apply (le_val_range (be_bytes 4 (u32 x))), wf_be_bytes. Qed.

Lemma ntohs_htons x : ntohs (htons x) = u16 x.
Proof.
  unfold ntohs. unfold htons at 1. unfold u16 at 1. rewrite (u_small 16) by apply htons_range.
  unfold be_bytes. rewrite le_bytes_htons. unfold be_bytes.
  rewrite rev_involutive. apply (le_val_le_bytes 2).
Qed.

Lemma ntohl_htonl x : ntohl (htonl x) = u32 x.
Proof.
  unfold ntohl. unfold htonl at 1. unfold u32 at 1. rewrite (u_small 32) by apply htonl_range.
  unfold be_bytes. rewrite le_bytes_htonl. unfold be_bytes.
  rewrite rev_involutive. apply (le_val_le_bytes 4).
Qed.

Lemma be_val_be_bytes n x : be_val (be_bytes n x) = x mod 2 ^ (8 * Z.of_nat n).
Proof. unfold be_val, be_bytes. rewrite rev_involutive. apply le_val_le_bytes. Qed.

Lemma store_bytes_Some off src dst :
  (off + length src <= length dst)%nat ->
  store_bytes off src dst = Some (take off dst ++ src ++ drop (off + length src) dst).
Proof. intros H. unfold store_bytes. by rewrite (proj2 (Nat.leb_le _ _) H). Qed.

Lemma store_bytes_length off src dst dst' :
  store_bytes off src dst = Some dst' -> length dst' = length dst.
Proof.
  unfold store_bytes. destruct (Nat.leb_spec (off + length src) (length dst)) as [H|H]; [|done].
  intros [= <-]. rewrite !length_app, length_take, length_drop. lia.
Qed.

#[export] Hint Resolve is_byte_land wf_le_bytes wf_be_bytes htons_range htonl_range
  u32_range u16_range : cint.
#[export] Hint Rewrite length_le_bytes length_be_bytes ntohs_htons ntohl_htonl
  le_bytes_htons le_bytes_htonl : cint.

(** ** Byte order of partial words *)

Lemma le_bytes_app n m x :
  le_bytes (n + m) x = le_bytes n x ++ le_bytes m (Z.shiftr x (8 * Z.of_nat n)).
Proof.
  revert x. induction n as [|n IH]; intros x; [by rewrite Z.shiftr_0_r|].
  cbn [Nat.add le_bytes app]. rewrite IH, Z.shiftr_shiftr by lia.
  by replace (8 * Z.of_nat (S n)) with (8 + 8 * Z.of_nat n) by lia.
Qed.

Lemma be_val_snoc l b : be_val (l ++ [b]) = Z.lor b (Z.shiftl (be_val l) 8).
Proof. unfold be_val. by rewrite rev_unit. Qed.

Lemma ntohs_be_val x : is_u 16 x -> ntohs x = be_val (le_bytes 2 x).
Proof. intros. unfold ntohs, htons, u16. by rewrite (u_small 16). Qed.

Lemma ntohl_be_val x : is_u 32 x -> ntohl x = be_val (le_bytes 4 x).
Proof. intros. unfold ntohl, htonl, u32. by rewrite (u_small 32). Qed.

(** A 24-bit field in network order, read with [ntohl(x) >> 8]. *)
Lemma ntohl_24 x : is_u 24 x -> Z.shiftr (ntohl x) 8 = be_val (le_bytes 3 x).
Proof.
  intros Hx. rewrite ntohl_be_val by (unfold is_u in *; lia).
  change 4%nat with (3 + 1)%nat. rewrite le_bytes_app. cbn [le_bytes].
  assert (Z.shiftr x (8 * Z.of_nat 3) = 0) as ->.
  { rewrite Z.shiftr_div_pow2 by lia. by apply Z.div_small. }
  rewrite be_val_snoc, Z.lor_0_l.
  rewrite Z.shiftr_shiftl_l, Z.sub_diag, Z.shiftl_0_r by lia. done.
Qed.

(** The three high bytes of [htonl(x << 8)], as the code stores a 24-bit
    number, are the number in network order. *)
Lemma htonl_shift8 x : is_u 24 (htonl (u32 (Z.shiftl x 8))).
Proof.
  unfold htonl, u32. rewrite Z.mod_mod by lia. unfold be_bytes.
  assert (Hb : Z.land (Z.shiftl x 8 mod 2 ^ 32) 255 = 0).
  { change 255 with (Z.ones 8). rewrite Z.land_ones by lia.
    rewrite Z.mod_mod_divide by (exists (2 ^ 24); done).
    rewrite Z.shiftl_mul_pow2, Z.mod_mul by lia. done. }
  cbn [le_bytes]. rewrite Hb. cbn [rev app].
  match goal with |- is_u 24 (le_val [?a; ?b; ?c; 0]) =>
    pose proof (le_val_range [a; b; c]) as Hr end.
  apply Hr. repeat constructor; apply is_byte_land.
Qed.

Lemma be_val_htonl_shift8 x : is_u 24 x -> Z.shiftr (ntohl (htonl (u32 (Z.shiftl x 8)))) 8 = x.
Proof.
  intros Hx. rewrite ntohl_htonl. unfold u32, is_u in *.
  rewrite Z.mod_mod by lia. rewrite Z.shiftl_mul_pow2 by lia.
  rewrite Z.mod_small by lia. rewrite Z.shiftr_div_pow2 by lia. apply Z.div_mul. lia.
Qed.

(** Big-endian readings as arithmetic. *)
Lemma be_val_nil : be_val [] = 0.
Proof. done. Qed.

Lemma be_val_snoc_add l b : is_byte b -> be_val (l ++ [b]) = be_val l * 2 ^ 8 + b.
Proof. intros Hb. rewrite be_val_snoc, lor_shift_add by (done || lia). lia. Qed.

Lemma be_val_1 b : is_byte b -> be_val [b] = b.
Proof. intros. change [b] with ([] ++ [b]). by rewrite be_val_snoc_add. Qed.

Lemma be_val_le_bytes_4 x :
  be_val (le_bytes 4 x) =
    (((x mod 256) * 2 ^ 8 + (x / 2 ^ 8) mod 256) * 2 ^ 8 + (x / 2 ^ 16) mod 256) * 2 ^ 8 +
    (x / 2 ^ 24) mod 256.
Proof.
  cbn [le_bytes]. rewrite !Z.shiftr_shiftr, !Z.shiftr_div_pow2 by lia.
  change [?a; ?b; ?c; ?d] with (((([] ++ [a]) ++ [b]) ++ [c]) ++ [d]).
  rewrite !be_val_snoc_add by apply is_byte_land. change 255 with (Z.ones 8).
  by rewrite !Z.land_ones by lia.
Qed.
