(* ===== verification/CLib.v ===== *)
(** The parts of the C library the programs rely on: decimal and hexadecimal
    conversions of [printf], [snprintf], [atoi], [strncpy]. *)
From S2P Require Import Prelude CInt.
Local Open Scope Z_scope.

Definition string_bytes (s : string) : list Z :=
  (fun c => Z.of_N (Ascii.N_of_ascii c)) <$> String.list_ascii_of_string s.

Definition digit_char (d : Z) : Z := if d <? 10 then 48 + d else 87 + d.

(** The digits of a non-negative number in base [b], most significant first. *)
Fixpoint digits (fuel : nat) (b n : Z) (acc : list Z) : list Z :=
  match fuel with
  | O => acc
  | S fuel =>
      if n <? b then digit_char n :: acc
      else digits fuel b (n / b) (digit_char (n mod b) :: acc)
  end.

(** [%d] of an [int], [%x] of an [unsigned int]; 40 digits exceed both. *)
Definition fmt_d (n : Z) : list Z :=
  if n <? 0 then 45 :: digits 40 10 (- n) [] else digits 40 10 n [].
Definition fmt_x (n : Z) : list Z := digits 40 16 n [].

(** [snprintf(buf, size, ...)] whose output is [out]: the result is the length
    of the whole output; at most [size - 1] bytes and a terminating zero are
    stored. *)
Definition snprintf (buf : list Z) (size : Z) (out : list Z) : Z * option (list Z) :=
  (Z.of_nat (length out),
   if size =? 0 then Some buf
   else store_bytes 0 (take (Z.to_nat (size - 1)) out ++ [0]) buf).

(** [strncpy(dst, src, n)], as the [n] bytes stored; [src] is the string
    without its terminating zero. *)
Definition strncpy (src : list Z) (n : nat) : list Z :=
  take n src ++ replicate (n - length src) 0.

Definition isspace (c : Z) : bool := (c =? 32) || ((9 <=? c) && (c <=? 13)).
Definition isdigit (c : Z) : bool := (48 <=? c) && (c <=? 57).

Fixpoint atoi_digits (acc : Z) (l : list Z) : Z :=
  match l with
  | c :: l => if isdigit c then atoi_digits (acc * 10 + (c - 48)) l else acc
  | [] => acc
  end.

Fixpoint skip_space (l : list Z) : list Z :=
  match l with
  | c :: l' => if isspace c then skip_space l' else l
  | [] => []
  end.

Definition atoi_value (l : list Z) : Z :=
  match skip_space l with
  | c :: l' => if c =? 45 then - atoi_digits 0 l'
               else if c =? 43 then atoi_digits 0 l' else atoi_digits 0 (c :: l')
  | [] => 0
  end.

(** [atoi] is undefined when the value is not an [int]. *)
Definition atoi (l : list Z) : option Z :=
  let v := atoi_value l in
  if (INT_MIN <=? v) && (v <=? INT_MAX) then Some v else None.

Arguments digits : simpl never.

(** ** Digits *)

Fixpoint ndigits (fuel : nat) (b n : Z) : nat :=
  match fuel with
  | O => O
  | S fuel => if n <? b then 1%nat else S (ndigits fuel b (n / b))
  end.

Lemma digits_S fuel b n acc :
  digits (S fuel) b n acc =
    if n <? b then digit_char n :: acc
    else digits fuel b (n / b) (digit_char (n mod b) :: acc).
Proof. done. Qed.

Lemma length_digits fuel b n acc :
  length (digits fuel b n acc) = (ndigits fuel b n + length acc)%nat.
Proof.
  revert n acc. induction fuel as [|fuel IH]; intros n acc; [done|].
  rewrite digits_S. cbn [ndigits]. destruct (n <? b); [done|].
  rewrite IH. simpl. lia.
Qed.

Lemma ndigits_mono fuel b n m :
  1 < b -> 0 <= n <= m -> (ndigits fuel b n <= ndigits fuel b m)%nat.
Proof.
  intros Hb. revert n m. induction fuel as [|fuel IH]; intros n m Hnm; cbn [ndigits]; [lia|].
  destruct (Z.ltb_spec n b), (Z.ltb_spec m b); try lia.
  apply le_n_S, IH. split; [apply Z.div_pos; lia|]. apply Z.div_le_mono; lia.
Qed.

Lemma ndigits_bound fuel b n : (ndigits fuel b n <= fuel)%nat.
Proof.
  revert n. induction fuel as [|fuel IH]; intros n; cbn [ndigits]; [lia|].
  destruct (n <? b); [lia|]. specialize (IH (n / b)). lia.
Qed.

Lemma digits_app fuel b n acc : digits fuel b n acc = digits fuel b n [] ++ acc.
Proof.
  revert n acc. induction fuel as [|fuel IH]; intros n acc; [done|].
  rewrite !digits_S. destruct (n <? b); [done|].
  rewrite IH, (IH _ [_]), <- app_assoc. done.
Qed.

Lemma atoi_digits_app acc l l' :
  Forall (fun c => isdigit c = true) l ->
  atoi_digits acc (l ++ l') = atoi_digits (atoi_digits acc l) l'.
Proof.
  intros Hl. revert acc. induction Hl as [|c l Hc Hl IH]; intros acc; simpl; [done|].
  rewrite Hc. apply IH.
Qed.

Lemma isdigit_digit_char d : 0 <= d < 10 -> isdigit (digit_char d) = true.
Proof.
  intros Hd. unfold digit_char, isdigit. rewrite (proj2 (Z.ltb_lt _ _)) by lia.
  rewrite andb_true_iff, !Z.leb_le. lia.
Qed.

(** Every character is a digit's. *)
Lemma digits_Forall (P : Z -> Prop) fuel b n acc :
  1 < b -> (forall d, 0 <= d < b -> P (digit_char d)) -> 0 <= n -> Forall P acc ->
  Forall P (digits fuel b n acc).
Proof.
  intros Hb Hd. revert n acc. induction fuel as [|fuel IH]; intros n acc Hn Hacc; [done|].
  rewrite digits_S. destruct (Z.ltb_spec n b).
  - constructor; [apply Hd; lia|done].
  - apply IH; [apply Z.div_pos; lia|]. constructor; [|done]. apply Hd, Z.mod_pos_bound. lia.
Qed.

Lemma digits_isdigit fuel n : 0 <= n -> Forall (fun c => isdigit c = true) (digits fuel 10 n []).
Proof. intros Hn. by apply digits_Forall; [lia|apply isdigit_digit_char|..]. Qed.

Lemma atoi_digits_digits fuel n :
  0 <= n < 10 ^ Z.of_nat fuel -> atoi_digits 0 (digits fuel 10 n []) = n.
Proof.
  revert n. induction fuel as [|fuel IH]; intros n Hn; [simpl in *; lia|].
  rewrite digits_S. destruct (Z.ltb_spec n 10).
  - cbn [atoi_digits]. rewrite isdigit_digit_char by lia.
    unfold digit_char. rewrite (proj2 (Z.ltb_lt _ _)) by lia. lia.
  - rewrite digits_app, atoi_digits_app by (apply digits_isdigit, Z.div_pos; lia).
    rewrite Nat2Z.inj_succ, Z.pow_succ_r in Hn by lia.
    rewrite IH by (split; [apply Z.div_pos; lia|apply Z.div_lt_upper_bound; lia]).
    pose proof (Z.mod_pos_bound n 10). cbn [atoi_digits].
    rewrite isdigit_digit_char by lia. unfold digit_char.
    rewrite (proj2 (Z.ltb_lt _ _)) by lia. pose proof (Z.div_mod n 10). lia.
Qed.

Lemma wf_digits fuel b n acc :
  1 < b <= 16 -> 0 <= n -> wf_bytes acc -> wf_bytes (digits fuel b n acc).
Proof.
  intros Hb. apply digits_Forall; [lia|]. intros d Hd. unfold is_byte, digit_char.
  destruct (Z.ltb_spec d 10); lia.
Qed.

Lemma fmt_d_eq n : 0 <= n -> fmt_d n = digits 40 10 n [].
Proof. intros Hn. unfold fmt_d. by rewrite (proj2 (Z.ltb_ge _ _)). Qed.

Lemma fmt_d_bytes n : wf_bytes (fmt_d n).
Proof.
  unfold fmt_d. destruct (Z.ltb_spec n 0); [constructor; [done|]|];
    apply wf_digits; (lia || constructor).
Qed.

Lemma length_fmt_d n : (length (fmt_d n) <= 41)%nat.
Proof.
  unfold fmt_d. destruct (n <? 0); cbn [length]; rewrite length_digits; cbn [length];
    pose proof (ndigits_bound 40 10 n); pose proof (ndigits_bound 40 10 (- n)); lia.
Qed.

Lemma fmt_d_length_mono n m : 0 <= n <= m -> (length (fmt_d n) <= length (fmt_d m))%nat.
Proof.
  intros H. rewrite !fmt_d_eq by lia. rewrite !length_digits.
  pose proof (ndigits_mono 40 10 n m). lia.
Qed.

Lemma digits_head fuel n :
  0 <= n -> (fuel <> 0)%nat -> exists c l, digits fuel 10 n [] = c :: l /\ isdigit c = true.
Proof.
  intros Hn Hf. pose proof (digits_isdigit fuel n Hn) as H.
  pose proof (length_digits fuel 10 n []) as Hl.
  destruct (digits fuel 10 n []) as [|c l].
  - destruct fuel; [done|]. cbn [ndigits] in Hl. destruct (n <? 10); simpl in Hl; lia.
  - inversion H. eauto.
Qed.

(** [atoi] reads back what [%d] printed. *)
Lemma atoi_fmt_d n : INT_MIN <= n <= INT_MAX -> atoi (fmt_d n) = Some n.
Proof.
  unfold INT_MIN, INT_MAX. intros Hn.
  assert (Hv : atoi_value (fmt_d n) = n).
  { unfold fmt_d, atoi_value. destruct (Z.ltb_spec n 0).
    - change (skip_space (45 :: ?l)) with (45 :: l). cbn iota. rewrite Z.eqb_refl.
      rewrite atoi_digits_digits; [lia|]. change (Z.of_nat 40) with 40. lia.
    - destruct (digits_head 40 n) as (c & l & E & Hc); [done|done|].
      rewrite <- (atoi_digits_digits 40 n) at 2 by (change (Z.of_nat 40) with 40; lia).
      rewrite E. unfold isdigit in Hc. rewrite andb_true_iff, !Z.leb_le in Hc.
      assert (isspace c = false) as Hs.
      { unfold isspace. rewrite orb_false_iff, andb_false_iff, Z.eqb_neq, !Z.leb_gt. lia. }
      cbn [skip_space]. rewrite Hs.
      by rewrite !(proj2 (Z.eqb_neq _ _)) by lia. }
  unfold atoi. rewrite Hv. unfold INT_MIN, INT_MAX.
  by rewrite !(proj2 (Z.leb_le _ _)) by lia.
Qed.

Lemma snprintf_fits buf size out :
  Z.of_nat (length out) < size -> size <= Z.of_nat (length buf) ->
  snprintf buf size out =
    (Z.of_nat (length out), Some (out ++ 0 :: drop (S (length out)) buf)).
Proof.
  intros Ho Hs. unfold snprintf. rewrite (proj2 (Z.eqb_neq _ _)) by lia.
  rewrite take_ge by lia. rewrite store_bytes_Some by (rewrite length_app; simpl; lia).
  rewrite length_app. simpl. rewrite Nat.add_1_r, <- app_assoc. done.
Qed.

#[export] Hint Resolve fmt_d_bytes : cint.

(** ** The numbered messages all programs send: ["Message: %d"] *)

Definition message (n : Z) : list Z := string_bytes "Message: " ++ fmt_d n.

Lemma length_message n : (length (message n) <= 50)%nat.
Proof.
  unfold message. rewrite length_app. pose proof (length_fmt_d n).
  change (length (string_bytes "Message: ")) with 9%nat. lia.
Qed.

Lemma message_mono n m : 0 <= n <= m -> (length (message n) <= length (message m))%nat.
Proof. intros H. unfold message. rewrite !length_app. pose proof (fmt_d_length_mono n m H). lia. Qed.

Lemma wf_message n : wf_bytes (message n).
Proof.
  unfold message. apply Forall_app_2; [|auto with cint].
  vm_compute. repeat constructor; discriminate.
Qed.

(** It is text: no character is zero, whatever the number. *)
Lemma message_text n : Forall (fun c => c <> 0) (message n).
Proof.
  assert (Hd : forall d, 0 <= d < 10 -> digit_char d <> 0).
  { intros d Hd. unfold digit_char. destruct (Z.ltb_spec d 10); lia. }
  unfold message. apply Forall_app_2; [vm_compute; repeat constructor; discriminate|].
  unfold fmt_d. destruct (Z.ltb_spec n 0); [constructor; [done|]|];
    apply digits_Forall; (done || lia || constructor).
Qed.
