(* ===== verification/Prog.v ===== *)
(** Effectful C code as trees of calls.

    A C function is a function from the program's global state to a tree of
    the calls it makes to code outside the program (system calls, libibverbs,
    memory shared with the network card), each node branching on the answer.
    A tree ends in an [outcome]: a normal return, [exit(code)], undefined
    behaviour, or a [while] loop out of fuel.

    An [EnvSpec] says which answers the environment may give, as a transition
    system over a ghost state; [wp] is the weakest precondition of a tree
    against every such environment, [exec] the executions, [run] an execution
    by one concrete environment. *)
From S2P Require Import Prelude.

(** ** Trees, outcomes and the monad *)

Inductive prog (E : Type -> Type) (A : Type) : Type :=
| Ret (a : A)
| Vis {X : Type} (e : E X) (k : X -> prog E A).
Arguments Ret {E A} a.
Arguments Vis {E A X} e k.

Inductive outcome (S A : Type) : Type :=
| Done (a : A) (s : S)
| Exit (code : Z) (s : S)
| Undef (why : string)
| NoFuel (s : S).
Arguments Done {S A} a s.
Arguments Exit {S A} code s.
Arguments Undef {S A} why.
Arguments NoFuel {S A} s.

Definition M (E : Type -> Type) (S A : Type) : Type := S -> prog E (outcome S A).

Fixpoint pbind {E A B} (p : prog E A) (f : A -> prog E B) : prog E B :=
  match p with
  | Ret a => f a
  | Vis e k => Vis e (fun x => pbind (k x) f)
  end.

(** What a caller does with the outcome of its callee. *)
Definition continue {E S A B} (f : A -> M E S B) (o : outcome S A) : prog E (outcome S B) :=
  match o with
  | Done a s => f a s
  | Exit c s => Ret (Exit c s)
  | Undef w => Ret (Undef w)
  | NoFuel s => Ret (NoFuel s)
  end.

(** A function of one source file called from another: its state [S] is part
    of the caller's state [T]. *)
Definition zoomed {S T A} (put : S -> T) (o : outcome S A) : outcome T A :=
  match o with
  | Done a s => Done a (put s)
  | Exit c s => Exit c (put s)
  | Undef w => Undef w
  | NoFuel s => NoFuel (put s)
  end.

Definition zoom {E S T A} (get : T -> S) (put : S -> T -> T) (m : M E S A) : M E T A :=
  fun t => pbind (m (get t)) (fun o => Ret (zoomed (fun s => put s t) o)).

Section monad.
Context {E : Type -> Type} {S : Type}.

Definition ret {A} (a : A) : M E S A := fun s => Ret (Done a s).
Definition bind {A B} (m : M E S A) (f : A -> M E S B) : M E S B :=
  fun s => pbind (m s) (continue f).
Definition gets {A} (f : S -> A) : M E S A := fun s => Ret (Done (f s) s).
Definition modify (f : S -> S) : M E S unit := fun s => Ret (Done tt (f s)).
Definition exit_ {A} (code : Z) : M E S A := fun s => Ret (Exit code s).
Definition undef {A} (why : string) : M E S A := fun _ => Ret (Undef why).
Definition call {X} (e : E X) : M E S X := fun s => Vis e (fun x => Ret (Done x s)).

(** A pure computation that is undefined behaviour when it is [None]. *)
Definition defined {A} (why : string) (o : option A) : M E S A :=
  match o with Some a => ret a | None => undef why end.

(** [while (1) body] where the body leaves the loop with [Some r]. *)
Fixpoint loop {R} (fuel : nat) (body : M E S (option R)) : M E S R :=
  match fuel with
  | O => fun s => Ret (NoFuel s)
  | Datatypes.S fuel =>
      bind body (fun r => match r with Some r => ret r | None => loop fuel body end)
  end.

(** [for (int i = from; i < from + n; i++) body(i)], left early with [Some r]. *)
Fixpoint for_upto {R} (n : nat) (i : Z) (body : Z -> M E S (option R)) : M E S (option R) :=
  match n with
  | O => ret None
  | Datatypes.S n =>
      bind (body i) (fun r => match r with Some r => ret (Some r)
                                         | None => for_upto n (i + 1) body end)
  end.

End monad.

Notation "'let!' x := m 'in' k" := (bind m (fun x => k))
  (at level 10, x pattern, k at level 200) : c_scope.
Notation "m ;! k" := (bind m (fun _ => k)) (at level 199, right associativity) : c_scope.

(** ** Environments *)

Class EnvSpec (E : Type -> Type) (G : Type) := {
  legal : forall X, G -> E X -> X -> Prop;
  gnext : forall X, G -> E X -> X -> G
}.
Arguments legal {E G _ X} g e x.
Arguments gnext {E G _ X} g e x.

Section logic.
Context {E : Type -> Type} {G : Type} `{!EnvSpec E G}.

Fixpoint wp {A} (p : prog E A) (Q : A -> G -> Prop) (g : G) : Prop :=
  match p with
  | Ret a => Q a g
  | Vis e k => forall x, legal g e x -> wp (k x) Q (gnext g e x)
  end.

(** [exec p g a g']: some legal environment takes [p] from [g] to the result
    [a], ending in [g']. *)
Fixpoint exec {A} (p : prog E A) (g : G) (a : A) (g' : G) : Prop :=
  match p with
  | Ret b => a = b /\ g' = g
  | Vis e k => exists x, legal g e x /\ exec (k x) (gnext g e x) a g'
  end.

(** Execution by a concrete environment. *)
Fixpoint run {A} (h : forall X, G -> E X -> X) (p : prog E A) (g : G) : A * G :=
  match p with
  | Ret a => (a, g)
  | Vis e k => let x := h _ g e in run h (k x) (gnext g e x)
  end.

Lemma wp_exec {A} (p : prog E A) Q g :
  wp p Q g <-> (forall a g', exec p g a g' -> Q a g').
Proof.
  revert g. induction p as [a|X e k IH]; intros g; simpl.
  - split; [by intros H a' g' [-> ->]|]. intros H. by apply H.
  - split.
    + intros H a g' (x & Hx & He). by apply (proj1 (IH x _) (H x Hx)).
    + intros H x Hx. apply IH. intros a g' He. apply H. eauto.
Qed.

Lemma run_exec {A} (h : forall X, G -> E X -> X) (p : prog E A) g :
  (forall X g (e : E X), legal g e (h X g e)) -> exec p g (run h p g).1 (run h p g).2.
Proof.
  intros Hh. revert g. induction p as [a|X e k IH]; intros g; simpl; [done|].
  exists (h X g e). split; [apply Hh|apply IH].
Qed.

Lemma wp_run {A} h (p : prog E A) Q g :
  (forall X g (e : E X), legal g e (h X g e)) ->
  wp p Q g -> Q (run h p g).1 (run h p g).2.
Proof. intros Hh Hw. by eapply wp_exec, run_exec. Qed.

Lemma wp_mono {A} (p : prog E A) (Q Q' : A -> G -> Prop) g :
  wp p Q g -> (forall a g', Q a g' -> Q' a g') -> wp p Q' g.
Proof.
  revert g. induction p as [a|X e k IH]; intros g H HQ; simpl in *; [by apply HQ|].
  intros x Hx. apply IH; [by apply H|done].
Qed.

Lemma wp_pbind {A B} (p : prog E A) (f : A -> prog E B) Q g :
  wp (pbind p f) Q g <-> wp p (fun a => wp (f a) Q) g.
Proof.
  revert g. induction p as [a|X e k IH]; intros g; simpl; [done|].
  split; intros H x Hx; apply IH, H, Hx.
Qed.

Lemma wp_zoom {S T A} (get : T -> S) (put : S -> T -> T) (m : M E S A) t Q g :
  wp (m (get t)) (fun o => Q (zoomed (fun s => put s t) o)) g -> wp (zoom get put m t) Q g.
Proof. intros H. by apply wp_pbind. Qed.

#[export] Instance wp_proper {A} (p : prog E A) :
  Proper (pointwise_relation A (pointwise_relation G iff) ==> eq ==> iff) (wp p).
Proof.
  intros Q Q' HQ g ? <-. split; intros H; (eapply wp_mono; [exact H|]); intros a g'; apply HQ.
Qed.

Lemma wp_and {A} (p : prog E A) (Q Q' : A -> G -> Prop) g :
  wp p Q g -> wp p Q' g -> wp p (fun a g' => Q a g' /\ Q' a g') g.
Proof. rewrite !wp_exec. eauto. Qed.

Section rules.
Context {S : Type}.

Lemma wp_bind {A B} (m : M E S A) (f : A -> M E S B) s Q g :
  wp (bind m f s) Q g <-> wp (m s) (fun o => wp (continue f o) Q) g.
Proof. apply wp_pbind. Qed.

(** The invariant rule of [loop]; the invariant may depend on the number of
    iterations done, and holds at [fuel] iterations when the fuel runs out. *)
Lemma wp_loop {R} (I : nat -> S -> G -> Prop) (Q : outcome S R -> G -> Prop) fuel body s g :
  I O s g ->
  (forall n s g, (n < fuel)%nat -> I n s g ->
     wp (body s) (fun o g' => match o with
                              | Done None s' => I (Datatypes.S n) s' g'
                              | Done (Some r) s' => Q (Done r s') g'
                              | Exit c s' => Q (Exit c s') g'
                              | Undef w => Q (Undef w) g'
                              | NoFuel s' => Q (NoFuel s') g'
                              end) g) ->
  (forall s g, I fuel s g -> Q (NoFuel s) g) ->
  wp (loop fuel body s) Q g.
Proof.
  revert I s g. induction fuel as [|fuel IH]; intros I s g HI Hbody Hfuel; simpl;
    [by apply Hfuel|].
  apply wp_bind. eapply wp_mono; [apply (Hbody O); [lia|done]|].
  intros [[r|] s'|c s'|w|s'] g' H; simpl; [done| |done..].
  apply (IH (fun n => I (Datatypes.S n))); [done| |done].
  intros n s2 g2 Hn. apply Hbody. lia.
Qed.

(** The invariant rule of [for_upto]. *)
Lemma wp_for {R} (I : Z -> S -> G -> Prop) (Q : outcome S (option R) -> G -> Prop) n i body s g :
  I i s g ->
  (forall j s g, (i <= j < i + Z.of_nat n)%Z -> I j s g ->
     wp (body j s) (fun o g' => match o with
                                | Done None s' => I (j + 1)%Z s' g'
                                | Done (Some r) s' => Q (Done (Some r) s') g'
                                | Exit c s' => Q (Exit c s') g'
                                | Undef w => Q (Undef w) g'
                                | NoFuel s' => Q (NoFuel s') g'
                                end) g) ->
  (forall s g, I (i + Z.of_nat n)%Z s g -> Q (Done None s) g) ->
  wp (for_upto n i body s) Q g.
Proof.
  revert i s g. induction n as [|n IH]; intros i s g HI Hbody Hend; simpl.
  - apply Hend. by rewrite Z.add_0_r.
  - apply wp_bind. eapply wp_mono; [apply Hbody; [lia|done]|].
    intros [[r|] s'|c s'|w|s'] g' H; simpl; [done| |done..].
    apply IH; [done| |].
    + intros j s2 g2 Hj. apply Hbody. lia.
    + intros s2 g2. replace (i + 1 + Z.of_nat n)%Z with (i + Z.of_nat (Datatypes.S n))%Z by lia.
      apply Hend.
Qed.

End rules.
End logic.

(** Whether a run returned [code]. *)
Definition returned {S A} (code : A) (o : outcome S A) : Prop :=
  match o with Done c _ => c = code | _ => False end.

Lemma returned_Done {S A} (code : A) (o : outcome S A) :
  returned code o -> exists s, o = Done code s.
Proof. destruct o as [c s|c s|w|s]; intros H; [|done..]. exists s. by rewrite <- H. Qed.

(** One step of symbolic execution: the next call, or the continuation of a
    return. *)
Ltac wp_step :=
  lazymatch goal with
  | |- wp (bind _ _ _) _ _ => apply wp_bind
  | |- wp (Vis _ _) _ _ => let x := fresh "x" in let H := fresh "Hx" in intros x H
  | |- forall x, legal _ _ x -> _ => let y := fresh x in let H := fresh "Hx" in intros y H
  | |- _ => progress cbn [wp continue ret gets modify exit_ undef call defined]
  end.
Ltac wp_steps := repeat wp_step.
