(* ===== verification/Calls.v ===== *)
(** Which calls a computation makes.

    [calls_only P m]: every call [m] can make satisfies [P], whatever the
    answers, and [m] has no loop that runs out of fuel.  It is proved by the
    shape of [m]; [wp_calls] turns it into what such calls leave unchanged in an
    environment. *)
From S2P Require Import Prelude Prog.
Local Open Scope c_scope.

Section calls.
Context {E : Type -> Type} (P : forall X, E X -> Prop).

Fixpoint all_calls {A} (p : prog E A) (Q : A -> Prop) : Prop :=
  match p with
  | Ret a => Q a
  | Vis e k => P _ e /\ forall x, all_calls (k x) Q
  end.

(** The outcomes of a computation without loops. *)
Definition ends {S A} (o : outcome S A) : Prop := forall s, o <> NoFuel s.

Definition calls_only {S A} (m : M E S A) : Prop := forall s, all_calls (m s) ends.

Lemma all_calls_mono {A} (p : prog E A) (Q Q' : A -> Prop) :
  all_calls p Q -> (forall a, Q a -> Q' a) -> all_calls p Q'.
Proof.
  intros H HQ. induction p as [a|X e k IH]; simpl in *; [by apply HQ|].
  destruct H as [He Hk]. split; [done|]. intros x. by apply IH.
Qed.

Lemma all_calls_pbind {A B} (p : prog E A) (f : A -> prog E B) Q :
  all_calls p (fun a => all_calls (f a) Q) -> all_calls (pbind p f) Q.
Proof.
  induction p as [a|X e k IH]; simpl; [done|]. intros [He Hk]. split; [done|]. intros x. by apply IH.
Qed.

Context {S : Type}.

Lemma calls_ret {A} (a : A) : calls_only (ret (S:=S) a).
Proof. by intros s. Qed.

Lemma calls_gets {A} (f : S -> A) : calls_only (gets f).
Proof. by intros s. Qed.

Lemma calls_modify (f : S -> S) : calls_only (modify f).
Proof. by intros s. Qed.

Lemma calls_exit {A} code : calls_only (exit_ (S:=S) (A:=A) code).
Proof. by intros s. Qed.

Lemma calls_undef {A} why : calls_only (undef (S:=S) (A:=A) why).
Proof. by intros s. Qed.

Lemma calls_defined {A} why (o : option A) : calls_only (defined (S:=S) why o).
Proof. by destruct o; intros s. Qed.

Lemma calls_call {X} (e : E X) : P X e -> calls_only (call (S:=S) e).
Proof. intros He s. by split. Qed.

Lemma calls_bind {A B} (m : M E S A) (f : A -> M E S B) :
  calls_only m -> (forall a, calls_only (f a)) -> calls_only (bind m f).
Proof.
  intros Hm Hf s. apply all_calls_pbind. eapply all_calls_mono; [apply Hm|].
  intros [a s'|c s'|w|s'] Ho; [apply Hf|done|done|by destruct (Ho s')].
Qed.

Lemma calls_for {R} n i (body : Z -> M E S (option R)) :
  (forall j, calls_only (body j)) -> calls_only (for_upto n i body).
Proof.
  intros Hb. revert i. induction n as [|n IH]; intros i; [apply calls_ret|].
  apply calls_bind; [apply Hb|]. intros [r|]; [apply calls_ret|apply IH].
Qed.

Lemma calls_zoom {T A} (get : T -> S) (put : S -> T -> T) (m : M E S A) :
  calls_only m -> calls_only (zoom get put m).
Proof.
  intros Hm t. apply all_calls_pbind. eapply all_calls_mono; [apply Hm|].
  intros [a s|c s|w|s] Ho; try done. by destruct (Ho s).
Qed.

(** What every such call leaves as it is: a preorder on the environment's
    states. *)
Lemma wp_calls {G A} `{!EnvSpec E G} (R : G -> G -> Prop) `{!PreOrder R} (m : M E S A) s g :
  (forall X (e : E X) g x, P X e -> R g (gnext g e x)) -> calls_only m ->
  wp (m s) (fun o g' => R g g' /\ ends o) g.
Proof.
  intros HR Hm. specialize (Hm s). revert g Hm. generalize (m s).
  induction p as [o|X e k IH]; intros g Hm; simpl in *; [by split|].
  intros x _. destruct Hm as [He Hk]. eapply wp_mono; [by apply IH|].
  intros o g' [Hg Ho]. split; [|done]. etransitivity; [by apply HR|done].
Qed.

End calls.

Lemma calls_mono {E S A} (P P' : forall X, E X -> Prop) (m : M E S A) :
  (forall X e, P X e -> P' X e) -> calls_only P m -> calls_only P' m.
Proof.
  intros HP Hm s. specialize (Hm s). revert Hm. generalize (m s).
  induction p as [o|X e k IH]; simpl; [done|]. intros [He Hk]. split; [by apply HP|]. intros x.
  by apply IH.
Qed.

Create HintDb calls.

#[export] Hint Resolve calls_ret calls_gets calls_modify calls_exit calls_undef calls_defined : calls.

(** Proves [calls_only P m] by following the structure of [m]. *)
Ltac calls_step :=
  lazymatch goal with
  | |- forall _, _ => intros ?
  | |- calls_only _ (bind _ _) => apply calls_bind
  | |- calls_only _ (call _) => apply calls_call; done
  | |- calls_only _ (for_upto _ _ _) => apply calls_for
  | |- calls_only _ (match ?x with _ => _ end) => destruct x
  | |- calls_only _ (let _ := _ in _) => cbv zeta
  | |- _ => solve [eauto 3 with calls]
  end.
Ltac calls := repeat calls_step.
