(* ===== verification/Crc32.v ===== *)
(** crc32.h: the table-driven CRC-32, its bitwise reference and the facts a
    receiver relies on.

    [crc32table], [crc32_step] and [crc32] are the code; [bit_step],
    [crc_bits] and [crc32_ref] are the specification (the reflected CRC-32 with
    polynomial 0xEDB88320, computed one bit at a time).  The array access
    [data\[i\]] is undefined past the end of the object: the loop then returns
    [None]. *)
From S2P Require Import Prelude CInt.
Local Open Scope Z_scope.

(** ** The code *)

Definition crc32table : list Z :=
  [
0x00000000; 0x77073096; 0xEE0E612C; 0x990951BA;
   0x076DC419; 0x706AF48F; 0xE963A535; 0x9E6495A3;
   0x0EDB8832; 0x79DCB8A4; 0xE0D5E91E; 0x97D2D988;
   0x09B64C2B; 0x7EB17CBD; 0xE7B82D07; 0x90BF1D91;
   0x1DB71064; 0x6AB020F2; 0xF3B97148; 0x84BE41DE;
   0x1ADAD47D; 0x6DDDE4EB; 0xF4D4B551; 0x83D385C7;
   0x136C9856; 0x646BA8C0; 0xFD62F97A; 0x8A65C9EC;
   0x14015C4F; 0x63066CD9; 0xFA0F3D63; 0x8D080DF5;
   0x3B6E20C8; 0x4C69105E; 0xD56041E4; 0xA2677172;
   0x3C03E4D1; 0x4B04D447; 0xD20D85FD; 0xA50AB56B;
   0x35B5A8FA; 0x42B2986C; 0xDBBBC9D6; 0xACBCF940;
   0x32D86CE3; 0x45DF5C75; 0xDCD60DCF; 0xABD13D59;
   0x26D930AC; 0x51DE003A; 0xC8D75180; 0xBFD06116;
   0x21B4F4B5; 0x56B3C423; 0xCFBA9599; 0xB8BDA50F;
   0x2802B89E; 0x5F058808; 0xC60CD9B2; 0xB10BE924;
   0x2F6F7C87; 0x58684C11; 0xC1611DAB; 0xB6662D3D;
   0x76DC4190; 0x01DB7106; 0x98D220BC; 0xEFD5102A;
   0x71B18589; 0x06B6B51F; 0x9FBFE4A5; 0xE8B8D433;
   0x7807C9A2; 0x0F00F934; 0x9609A88E; 0xE10E9818;
   0x7F6A0DBB; 0x086D3D2D; 0x91646C97; 0xE6635C01;
   0x6B6B51F4; 0x1C6C6162; 0x856530D8; 0xF262004E;
   0x6C0695ED; 0x1B01A57B; 0x8208F4C1; 0xF50FC457;
   0x65B0D9C6; 0x12B7E950; 0x8BBEB8EA; 0xFCB9887C;
   0x62DD1DDF; 0x15DA2D49; 0x8CD37CF3; 0xFBD44C65;
   0x4DB26158; 0x3AB551CE; 0xA3BC0074; 0xD4BB30E2;
   0x4ADFA541; 0x3DD895D7; 0xA4D1C46D; 0xD3D6F4FB;
   0x4369E96A; 0x346ED9FC; 0xAD678846; 0xDA60B8D0;
   0x44042D73; 0x33031DE5; 0xAA0A4C5F; 0xDD0D7CC9;
   0x5005713C; 0x270241AA; 0xBE0B1010; 0xC90C2086;
   0x5768B525; 0x206F85B3; 0xB966D409; 0xCE61E49F;
   0x5EDEF90E; 0x29D9C998; 0xB0D09822; 0xC7D7A8B4;
   0x59B33D17; 0x2EB40D81; 0xB7BD5C3B; 0xC0BA6CAD;
   0xEDB88320; 0x9ABFB3B6; 0x03B6E20C; 0x74B1D29A;
   0xEAD54739; 0x9DD277AF; 0x04DB2615; 0x73DC1683;
   0xE3630B12; 0x94643B84; 0x0D6D6A3E; 0x7A6A5AA8;
   0xE40ECF0B; 0x9309FF9D; 0x0A00AE27; 0x7D079EB1;
   0xF00F9344; 0x8708A3D2; 0x1E01F268; 0x6906C2FE;
   0xF762575D; 0x806567CB; 0x196C3671; 0x6E6B06E7;
   0xFED41B76; 0x89D32BE0; 0x10DA7A5A; 0x67DD4ACC;
   0xF9B9DF6F; 0x8EBEEFF9; 0x17B7BE43; 0x60B08ED5;
   0xD6D6A3E8; 0xA1D1937E; 0x38D8C2C4; 0x4FDFF252;
   0xD1BB67F1; 0xA6BC5767; 0x3FB506DD; 0x48B2364B;
   0xD80D2BDA; 0xAF0A1B4C; 0x36034AF6; 0x41047A60;
   0xDF60EFC3; 0xA867DF55; 0x316E8EEF; 0x4669BE79;
   0xCB61B38C; 0xBC66831A; 0x256FD2A0; 0x5268E236;
   0xCC0C7795; 0xBB0B4703; 0x220216B9; 0x5505262F;
   0xC5BA3BBE; 0xB2BD0B28; 0x2BB45A92; 0x5CB36A04;
   0xC2D7FFA7; 0xB5D0CF31; 0x2CD99E8B; 0x5BDEAE1D;
   0x9B64C2B0; 0xEC63F226; 0x756AA39C; 0x026D930A;
   0x9C0906A9; 0xEB0E363F; 0x72076785; 0x05005713;
   0x95BF4A82; 0xE2B87A14; 0x7BB12BAE; 0x0CB61B38;
   0x92D28E9B; 0xE5D5BE0D; 0x7CDCEFB7; 0x0BDBDF21;
   0x86D3D2D4; 0xF1D4E242; 0x68DDB3F8; 0x1FDA836E;
   0x81BE16CD; 0xF6B9265B; 0x6FB077E1; 0x18B74777;
   0x88085AE6; 0xFF0F6A70; 0x66063BCA; 0x11010B5C;
   0x8F659EFF; 0xF862AE69; 0x616BFFD3; 0x166CCF45;
   0xA00AE278; 0xD70DD2EE; 0x4E048354; 0x3903B3C2;
   0xA7672661; 0xD06016F7; 0x4969474D; 0x3E6E77DB;
   0xAED16A4A; 0xD9D65ADC; 0x40DF0B66; 0x37D83BF0;
   0xA9BCAE53; 0xDEBB9EC5; 0x47B2CF7F; 0x30B5FFE9;
   0xBDBDF21C; 0xCABAC28A; 0x53B39330; 0x24B4A3A6;
   0xBAD03605; 0xCDD70693; 0x54DE5729; 0x23D967BF;
   0xB3667A2E; 0xC4614AB8; 0x5D681B02; 0x2A6F2B94;
   0xB40BBE37; 0xC30C8EA1; 0x5A05DF1B; 0x2D02EF8D
  ].

Definition crc32_step (crc b : Z) : option Z :=
  t ← crc32table !! Z.to_nat (Z.lxor (Z.land (i32 crc) 0xFF) b);
  Some (Z.lxor t (Z.shiftr crc 8)).

(** The [for] loop: [n] iterations remain, [data] is what [data + i] points to. *)
Fixpoint crc32_loop (n : nat) (crc : Z) (data : list Z) : option Z :=
  match n with
  | O => Some crc
  | S n =>
      match data with
      | [] => None
      | b :: data => crc' ← crc32_step crc b; crc32_loop n crc' data
      end
  end.

Definition crc32 (crc : Z) (data : list Z) (size : Z) : option Z :=
  crc' ← crc32_loop (Z.to_nat (i32 size)) (Z.lxor crc 0xFFFFFFFF) data;
  Some (Z.lxor crc' 0xFFFFFFFF).

(** ** The specification *)

Definition POLY : Z := 0xEDB88320.

Definition bit_step (s : Z) : Z :=
  if Z.odd s then Z.lxor (Z.shiftr s 1) POLY else Z.shiftr s 1.

Fixpoint crc_bits (n : nat) (s : Z) : Z :=
  match n with
  | O => s
  | S n => crc_bits n (bit_step s)
  end.

Definition byte_step (s b : Z) : Z := crc_bits 8 (Z.lxor s b).

Definition crc_state (s : Z) (data : list Z) : Z := fold_left byte_step data s.

Definition crc32_ref (crc : Z) (data : list Z) : Z :=
  Z.lxor (crc_state (Z.lxor crc 0xFFFFFFFF) data) 0xFFFFFFFF.

(** ** The bit machine *)

Lemma POLY_range : is_u 32 POLY.
Proof. unfold is_u, POLY. lia. Qed.

Lemma bit_step_range s : is_u 32 s -> is_u 32 (bit_step s).
Proof.
  intros H. unfold bit_step.
  assert (is_u 32 (Z.shiftr s 1)) as H1.
  { unfold is_u in *. pose proof (shiftr_range 32 1 s). lia. }
  destruct (Z.odd s); [|done].
  apply lxor_range; [lia|done|apply POLY_range].
Qed.

Lemma crc_bits_range n s : is_u 32 s -> is_u 32 (crc_bits n s).
Proof.
  revert s. induction n as [|n IH]; intros s H; simpl; [done|].
  apply IH, bit_step_range, H.
Qed.

Lemma odd_lxor a b : Z.odd (Z.lxor a b) = xorb (Z.odd a) (Z.odd b).
Proof. by rewrite <- !Z.bit0_odd, Z.lxor_spec. Qed.

(** The bit machine is linear over GF(2). *)
Lemma bit_step_lxor a b : bit_step (Z.lxor a b) = Z.lxor (bit_step a) (bit_step b).
Proof.
  unfold bit_step. rewrite odd_lxor, Z.shiftr_lxor.
  destruct (Z.odd a), (Z.odd b); simpl; zbitwise.
Qed.

Lemma crc_bits_lxor n a b : crc_bits n (Z.lxor a b) = Z.lxor (crc_bits n a) (crc_bits n b).
Proof.
  revert a b. induction n as [|n IH]; intros a b; simpl; [done|].
  by rewrite bit_step_lxor, IH.
Qed.

Lemma crc_bits_add n m s : crc_bits (n + m) s = crc_bits m (crc_bits n s).
Proof. revert s. induction n as [|n IH]; intros s; simpl; [done|]. apply IH. Qed.

(** A state whose low [n] bits are zero is only shifted. *)
Lemma crc_bits_shift n s : 0 <= s -> crc_bits n (Z.shiftl s (Z.of_nat n)) = s.
Proof.
  intros Hs. induction n as [|n IH]; [apply Z.shiftl_0_r|].
  cbn [crc_bits]. rewrite <- IH at 2. f_equal. unfold bit_step.
  rewrite <- Z.bit0_odd, Z.shiftl_spec_low by lia.
  rewrite Z.shiftr_shiftl_l by lia. f_equal. lia.
Qed.

(** [bit_step] is injective on 32-bit states: the polynomial has bit 31 set. *)
Lemma bit_step_zero s : is_u 32 s -> bit_step s = 0 -> s = 0.
Proof.
  unfold is_u, bit_step. intros Hs H.
  destruct (Z.odd s) eqn:E.
  - apply Z.lxor_eq in H. apply (f_equal (fun x => Z.testbit x 31)) in H.
    rewrite Z.shiftr_spec, (testbit_high 32) in H by lia. done.
  - rewrite Z.shiftr_div_pow2 in H by lia.
    apply Z.div_small_iff in H; [|lia].
    assert (s = 0 \/ s = 1) as [|] by lia; [done|]. by subst.
Qed.

Lemma crc_bits_zero n s : is_u 32 s -> crc_bits n s = 0 -> s = 0.
Proof.
  revert s. induction n as [|n IH]; intros s Hs H; simpl in H; [done|].
  apply bit_step_zero; [done|]. apply IH; [|done]. by apply bit_step_range.
Qed.

Lemma crc_bits_inj n s t : is_u 32 s -> is_u 32 t -> crc_bits n s = crc_bits n t -> s = t.
Proof.
  intros Hs Ht H. apply Z.lxor_eq, (crc_bits_zero n); [by apply lxor_range|].
  by rewrite crc_bits_lxor, H, Z.lxor_nilpotent.
Qed.

Lemma is_byte_u32 b : is_byte b -> is_u 32 b.
Proof. unfold is_byte, is_u. lia. Qed.

Lemma byte_step_range s b : is_u 32 s -> is_byte b -> is_u 32 (byte_step s b).
Proof.
  intros Hs Hb. apply crc_bits_range, lxor_range; [lia|done|by apply is_byte_u32].
Qed.

Lemma crc_state_range s data : is_u 32 s -> wf_bytes data -> is_u 32 (crc_state s data).
Proof.
  intros Hs Hd. revert s Hs. induction Hd as [|b l Hb Hl IH]; intros s Hs; simpl; [done|].
  by apply IH, byte_step_range.
Qed.

Lemma crc_state_app s a b : crc_state s (a ++ b) = crc_state (crc_state s a) b.
Proof. apply fold_left_app. Qed.

(** Feeding bytes is one run of the bit machine over the state XOR the data. *)
Lemma crc_state_word s l :
  is_u 32 s -> wf_bytes l -> (length l <= 4)%nat ->
  crc_state s l = crc_bits (8 * length l) (Z.lxor s (le_val l)).
Proof.
  intros Hs Hl. revert s Hs.
  induction Hl as [|b l Hb Hl IH]; intros s Hs Hlen; [by rewrite Z.lxor_0_r|].
  cbn [length] in *. cbn [crc_state fold_left]. fold (crc_state (byte_step s b) l).
  rewrite IH; [|by apply byte_step_range|lia].
  replace (8 * S (length l))%nat with (8 + 8 * length l)%nat by lia.
  rewrite crc_bits_add. f_equal. cbn [le_val].
  assert (Hor : Z.lor b (Z.shiftl (le_val l) 8) = Z.lxor b (Z.shiftl (le_val l) 8)).
  { symmetry. apply Z.lxor_lor. apply Z.bits_inj'. intros i Hi. autorewrite with zbits.
    destruct (Z.lt_ge_cases i 8).
    - rewrite (Z.testbit_neg_r (le_val l)) by lia. by rewrite andb_false_r.
    - by rewrite (testbit_high 8 b). }
  rewrite Hor, <- Z.lxor_assoc, crc_bits_lxor.
  f_equal. symmetry. apply (crc_bits_shift 8). apply le_val_range. done.
Qed.

(** ** The table *)

Lemma crc32table_spec : crc32table = (fun i => crc_bits 8 (Z.of_nat i)) <$> seq 0 256.
Proof. vm_compute. reflexivity. Qed.

Lemma crc32table_lookup i :
  0 <= i < 256 -> crc32table !! Z.to_nat i = Some (crc_bits 8 i).
Proof.
  intros Hi. rewrite crc32table_spec. rewrite list_lookup_fmap, lookup_seq_lt by lia. simpl. by rewrite Z2Nat.id by lia.
Qed.

Lemma crc32_step_spec s b :
  is_u 32 s -> is_byte b -> crc32_step s b = Some (byte_step s b).
Proof.
  intros Hs Hb. unfold crc32_step. change 0xFF with (Z.ones 8).
  rewrite i32_land_ones by lia.
  assert (Hlow : 0 <= Z.land s (Z.ones 8) < 2 ^ 8).
  { rewrite Z.land_ones by lia. apply Z.mod_pos_bound. lia. }
  rewrite crc32table_lookup by (apply (lxor_range 8); [lia|done|done]).
  cbv [mbind option_bind]. f_equal. unfold byte_step.
  rewrite <- (crc_bits_shift 8 (Z.shiftr s 8)) at 1.
  2: { unfold is_u in Hs. apply Z.shiftr_nonneg. lia. }
  rewrite <- crc_bits_lxor. f_equal.
  apply Z.bits_inj'. intros i Hi. autorewrite with zbits. rewrite Z.testbit_ones_nonneg by lia.
  destruct (Z.ltb_spec i 8).
  - rewrite (Z.testbit_neg_r _ (i - Z.of_nat 8)) by lia. btauto.
  - rewrite Z.shiftr_spec by lia. replace (i - Z.of_nat 8 + 8) with i by lia. btauto.
Qed.

Lemma crc32_loop_spec n s data :
  is_u 32 s -> wf_bytes data -> (n <= length data)%nat ->
  crc32_loop n s data = Some (crc_state s (take n data)).
Proof.
  intros Hs Hd. revert n s Hs.
  induction Hd as [|b l Hb Hl IH]; intros [|n] s Hs Hn; simpl in *; try done; [lia|].
  rewrite crc32_step_spec by done. simpl. rewrite IH; [done|by apply byte_step_range|lia].
Qed.

Lemma crc32_loop_oob n s data :
  (length data < n)%nat -> crc32_loop n s data = None.
Proof.
  revert s data. induction n as [|n IH]; intros s data Hn; [lia|].
  destruct data as [|b l]; simpl in *; [done|].
  destruct (crc32_step s b); simpl; [|done]. apply IH. lia.
Qed.

Lemma u32_ones : is_u 32 0xFFFFFFFF.
Proof. unfold is_u. lia. Qed.

Lemma lxor_u32 a b : is_u 32 a -> is_u 32 b -> is_u 32 (Z.lxor a b).
Proof. apply lxor_range. lia. Qed.

Lemma crc32_ref_range crc data : is_u 32 crc -> wf_bytes data -> is_u 32 (crc32_ref crc data).
Proof.
  intros. apply lxor_u32; [|apply u32_ones].
  apply crc_state_range; [|done]. apply lxor_u32; [done|apply u32_ones].
Qed.

Lemma crc32_ref_app crc a b : crc32_ref crc (a ++ b) = crc32_ref (crc32_ref crc a) b.
Proof.
  unfold crc32_ref. rewrite Z.lxor_assoc, Z.lxor_nilpotent, Z.lxor_0_r.
  by rewrite crc_state_app.
Qed.

#[export] Hint Resolve u32_ones lxor_u32 crc32_ref_range crc_state_range : cint.

(** A message followed by its own CRC, least significant byte first. *)
Lemma crc32_ref_residue crc data :
  is_u 32 crc -> wf_bytes data ->
  crc32_ref crc (data ++ le_bytes 4 (crc32_ref crc data)) = 0x2144DF1C.
Proof.
  intros Hc Hd. unfold crc32_ref at 1. rewrite crc_state_app.
  rewrite crc_state_word by auto with cint.
  rewrite le_val_le_bytes, length_le_bytes, u_small by auto with cint. unfold crc32_ref.
  by rewrite <- Z.lxor_assoc, Z.lxor_nilpotent, Z.lxor_0_l.
Qed.

Lemma crc32_eq crc data size :
  is_u 32 crc -> wf_bytes data -> 0 <= size <= INT_MAX -> size <= Z.of_nat (length data) ->
  crc32 crc data size = Some (crc32_ref crc (take (Z.to_nat size) data)).
Proof.
  intros Hc Hd Hs Hl. unfold crc32. rewrite i32_small by (unfold INT_MIN; lia).
  rewrite crc32_loop_spec; [done|auto with cint|done|lia].
Qed.

(** No iteration: the two complements cancel. *)
Lemma crc32_nonpos crc data size : i32 size <= 0 -> crc32 crc data size = Some crc.
Proof.
  intros H. unfold crc32. replace (Z.to_nat (i32 size)) with O by lia.
  cbn [crc32_loop mbind option_bind]. by rewrite Z.lxor_assoc, Z.lxor_nilpotent, Z.lxor_0_r.
Qed.

Lemma crc_state_inj s t l :
  is_u 32 s -> is_u 32 t -> wf_bytes l -> crc_state s l = crc_state t l -> s = t.
Proof.
  intros Hs Ht Hl. revert s t Hs Ht.
  induction Hl as [|b l Hb Hl IH]; intros s t Hs Ht H; simpl in H; [done|].
  apply IH in H; [|by apply byte_step_range..].
  apply crc_bits_inj in H; [|by apply lxor_u32, is_byte_u32..].
  apply (f_equal (fun x => Z.lxor x b)) in H.
  by rewrite !Z.lxor_assoc, Z.lxor_nilpotent, !Z.lxor_0_r in H.
Qed.

Lemma le_val_inj l l' :
  wf_bytes l -> wf_bytes l' -> length l = length l' -> le_val l = le_val l' -> l = l'.
Proof.
  intros Hl Hl' Hlen H. rewrite <- (le_bytes_le_val l), <- (le_bytes_le_val l') by done.
  by rewrite Hlen, H.
Qed.

(** ** Properties *)

(** C1: the table-driven [crc32] computes the bitwise reflected CRC-32 of the
    first [size] bytes, for every initial CRC, and chains across calls. *)
Theorem crc32_correct crc data size :
  is_u 32 crc -> wf_bytes data -> 0 <= size <= INT_MAX ->
  crc32 crc data size =
    if size <=? Z.of_nat (length data)
    then Some (crc32_ref crc (take (Z.to_nat size) data)) else None.
Proof.
  intros Hc Hd Hs. destruct (Z.leb_spec size (Z.of_nat (length data))); [by apply crc32_eq|].
  unfold crc32. rewrite i32_small by (unfold INT_MIN; lia).
  by rewrite crc32_loop_oob by lia.
Qed.

Lemma crc32_correct_witness :
  crc32 0 (map Z.of_nat (seq 49 9)) 9 = Some 0xCBF43926.
Proof.
  rewrite (crc32_correct 0 (map Z.of_nat (seq 49 9)) 9).
  - reflexivity.
  - unfold is_u. lia.
  - repeat constructor; discriminate.
  - unfold INT_MAX. lia.
Defined.

(** Computing the checksum of two blocks with two chained calls is
    computing it over their concatenation (how the headers' checksum is
    extended with the payload). *)
Theorem crc32_chain crc a b c1 :
  is_u 32 crc -> wf_bytes a -> wf_bytes b ->
  Z.of_nat (length a + length b) <= INT_MAX ->
  crc32 crc a (Z.of_nat (length a)) = Some c1 ->
  crc32 c1 b (Z.of_nat (length b)) = crc32 crc (a ++ b) (Z.of_nat (length (a ++ b))).
Proof.
  intros Hc Ha Hb Hlen H1. rewrite length_app.
  rewrite crc32_eq, Nat2Z.id, take_ge in H1 by (done || lia). injection H1 as <-.
  rewrite !crc32_eq, !Nat2Z.id, !take_ge;
    rewrite ?length_app; auto using Forall_app_2 with cint; try lia.
  by rewrite crc32_ref_app.
Qed.

Lemma crc32_chain_witness :
  crc32 0 [104; 105] 2 = Some 0xD8932AAC /\
  crc32 0xD8932AAC [33] 1 = crc32 0 [104; 105; 33] 3.
Proof.
  assert (H : crc32 0 [104; 105] 2 = Some 0xD8932AAC) by reflexivity.
  split; [exact H|].
  apply (crc32_chain 0 [104; 105] [33] 0xD8932AAC).
  - unfold is_u. lia.
  - repeat constructor; discriminate.
  - repeat constructor; discriminate.
  - discriminate.
  - exact H.
Defined.

(** The receiver's check.  A message followed by its CRC, stored with the
    little-endian [uint32_t] store of the send loop, has the constant CRC-32
    residue 0x2144DF1C. *)
Theorem crc32_residue crc data c :
  is_u 32 crc -> wf_bytes data -> Z.of_nat (length data) + 4 <= INT_MAX ->
  crc32 crc data (Z.of_nat (length data)) = Some c ->
  crc32 crc (data ++ le_bytes 4 c) (Z.of_nat (length data) + 4) = Some 0x2144DF1C.
Proof.
  intros Hc Hd Hlen H. rewrite crc32_eq, Nat2Z.id, take_ge in H by (done || lia).
  injection H as <-.
  rewrite crc32_eq; [|done|auto using Forall_app_2 with cint|lia|
    rewrite length_app, length_le_bytes; lia].
  rewrite take_ge by (rewrite length_app, length_le_bytes; lia).
  by rewrite crc32_ref_residue.
Qed.

Lemma crc32_residue_witness :
  crc32 0 ([1; 2; 3] ++ le_bytes 4 0x55BC801D) 7 = Some 0x2144DF1C.
Proof.
  apply (crc32_residue 0 [1; 2; 3] 0x55BC801D).
  - unfold is_u. lia.
  - repeat constructor; discriminate.
  - discriminate.
  - reflexivity.
Defined.

(** Every corruption confined to a burst of at most four bytes changes
    the checksum. *)
Theorem crc32_detects_burst crc pre x y post n :
  is_u 32 crc -> wf_bytes pre -> wf_bytes x -> wf_bytes y -> wf_bytes post ->
  length x = length y -> (length x <= 4)%nat -> x <> y ->
  n = Z.of_nat (length (pre ++ x ++ post)) -> n <= INT_MAX ->
  crc32 crc (pre ++ x ++ post) n <> crc32 crc (pre ++ y ++ post) n.
Proof.
  intros Hc Hp Hx Hy Hq Hlen H4 Hne -> Hmax.
  assert (Hl : length (pre ++ x ++ post) = length (pre ++ y ++ post))
    by (rewrite !length_app; lia).
  rewrite !crc32_eq, !Nat2Z.id, !take_ge; auto 6 using Forall_app_2; try lia.
  intros [= H]. apply (f_equal (fun v => Z.lxor v 0xFFFFFFFF)) in H. unfold crc32_ref in H.
  rewrite !Z.lxor_assoc, Z.lxor_nilpotent, !Z.lxor_0_r, !crc_state_app in H.
  assert (Hs : is_u 32 (crc_state (Z.lxor crc 0xFFFFFFFF) pre)) by auto with cint.
  apply crc_state_inj in H; [|auto with cint..].
  rewrite (crc_state_word _ x), (crc_state_word _ y), Hlen in H by (done || lia).
  assert (Hu : forall l, wf_bytes l -> (length l <= 4)%nat -> is_u 32 (le_val l)).
  { intros l Hl' Hk. pose proof (le_val_range l Hl') as Hr. unfold is_u in *.
    pose proof (Z.pow_le_mono_r 2 (8 * Z.of_nat (length l)) 32). lia. }
  apply crc_bits_inj in H; [|apply lxor_u32; [done|apply Hu; [done|lia]]..].
  apply Hne, le_val_inj; [done..|].
  apply (f_equal (fun v => Z.lxor (crc_state (Z.lxor crc 0xFFFFFFFF) pre) v)) in H.
  by rewrite <- !Z.lxor_assoc, Z.lxor_nilpotent, !Z.lxor_0_l in H.
Qed.

Lemma crc32_detects_burst_witness :
  crc32 0 ([7] ++ [1; 2] ++ [9]) 4 <> crc32 0 ([7] ++ [1; 3] ++ [9]) 4.
Proof.
  apply (crc32_detects_burst 0 [7] [1; 2] [1; 3] [9] 4);
    try (unfold is_u; lia); try (repeat constructor; discriminate); discriminate || reflexivity.
Defined.

(** The loop bound is [(int) size]: a [size_t] in the range where the
    conversion is negative makes [crc32] return its argument unchanged, and
    nothing is read. *)
Theorem crc32_negative_size crc data size :
  0 <= size < 2 ^ 64 -> 2 ^ 31 <= size mod 2 ^ 32 ->
  crc32 crc data size = Some crc.
Proof.
  intros Hs Hneg. apply crc32_nonpos. unfold i32. rewrite <- Zplus_mod_idemp_l.
  pose proof (Z.mod_pos_bound size (2 ^ 32)).
  replace (size mod 2 ^ 32 + 2 ^ 31) with (size mod 2 ^ 32 - 2 ^ 31 + 1 * 2 ^ 32) by lia.
  rewrite Z.mod_add, Z.mod_small by lia. lia.
Qed.

Lemma crc32_negative_size_witness : crc32 5 [] (2 ^ 64 - 4) = Some 5.
Proof.
  apply (crc32_negative_size 5 [] (2 ^ 64 - 4)).
  - lia.
  - discriminate.
Defined.
