(* ===== verification/Crc32Order.v ===== *)
(** The period of the bit machine of crc32.h: a single bit of state comes back
    after 2^32 - 1 steps and not before.

    The states are the polynomials over GF(2) modulo the CRC's polynomial, with
    [bit_step] as the multiplication by x.  [mul] is their product, so a number of
    steps can be made by repeated squaring ([power]).  The steps after which the
    state is back are closed under the greatest common divisor, so it is enough to
    look at [PERIOD] divided by each of its prime factors. *)
From S2P Require Import Prelude CInt Crc32.
Local Open Scope Z_scope.

(** ** Products of states *)

(** The polynomial 1. *)
Definition ONE : Z := Z.shiftl 1 31.

Fixpoint mul (k : nat) (s t : Z) : Z :=
  match k with
  | O => 0
  | S k => Z.lxor (if Z.testbit s (Z.of_nat k) then t else 0) (mul k s (bit_step t))
  end.

Fixpoint power (p : positive) : Z :=
  match p with
  | xH => bit_step ONE
  | xO p => let u := power p in mul 32 u u
  | xI p => let u := power p in bit_step (mul 32 u u)
  end.

Lemma bit_step_shiftl n : bit_step (Z.shiftl 1 (Z.of_nat (S n))) = Z.shiftl 1 (Z.of_nat n).
Proof.
  unfold bit_step. rewrite <- Z.bit0_odd, Z.shiftl_spec_low by lia.
  rewrite Z.shiftr_shiftl_l by lia. f_equal. lia.
Qed.

Lemma crc_bits_step n s : crc_bits n (bit_step s) = bit_step (crc_bits n s).
Proof.
  change (crc_bits n (crc_bits 1 s) = crc_bits 1 (crc_bits n s)).
  by rewrite <- !crc_bits_add, Nat.add_comm.
Qed.

(** The lowest [k + 1] bits are the lowest [k] and the bit above. *)
Lemma low_bits_S s k :
  s mod 2 ^ Z.of_nat (S k) =
    Z.lxor (if Z.testbit s (Z.of_nat k) then Z.shiftl 1 (Z.of_nat k) else 0) (s mod 2 ^ Z.of_nat k).
Proof.
  apply Z.bits_inj'. intros i Hi. rewrite Z.lxor_spec.
  assert (Hb : Z.testbit (if Z.testbit s (Z.of_nat k) then Z.shiftl 1 (Z.of_nat k) else 0) i =
    (i =? Z.of_nat k) && Z.testbit s i).
  { destruct (Z.eqb_spec i (Z.of_nat k)) as [->|Hne].
    - destruct (Z.testbit s (Z.of_nat k)); [|apply Z.bits_0].
      rewrite Z.shiftl_spec, Z.sub_diag by lia. done.
    - destruct (Z.testbit s (Z.of_nat k)); [|apply Z.bits_0]. rewrite Z.shiftl_1_l.
      apply Z.pow2_bits_false. lia. }
  rewrite Hb. destruct (Z.lt_trichotomy i (Z.of_nat k)) as [H|[->|H]].
  - rewrite !Z.mod_pow2_bits_low by lia. by rewrite (proj2 (Z.eqb_neq _ _)) by lia.
  - rewrite Z.mod_pow2_bits_low, Z.mod_pow2_bits_high, Z.eqb_refl by lia. by destruct (Z.testbit s _).
  - rewrite !Z.mod_pow2_bits_high by lia. by rewrite (proj2 (Z.eqb_neq _ _)) by lia.
Qed.

Lemma mul_low n k s :
  mul (S k) s (crc_bits n (Z.shiftl 1 (Z.of_nat k))) = crc_bits n (s mod 2 ^ Z.of_nat (S k)).
Proof.
  assert (H0 : crc_bits n 0 = 0) by (clear; induction n as [|n IH]; [done|exact IH]).
  induction k as [|k IH].
  - rewrite low_bits_S, crc_bits_lxor, Z.mod_1_r. cbn [mul]. f_equal; [|by rewrite H0].
    by destruct (Z.testbit s (Z.of_nat 0)).
  - rewrite low_bits_S, crc_bits_lxor, <- IH. cbn [mul]. f_equal.
    + by destruct (Z.testbit s (Z.of_nat (S k))).
    + by rewrite <- crc_bits_step, bit_step_shiftl.
Qed.

Lemma crc_bits_mul n s : is_u 32 s -> crc_bits n s = mul 32 s (crc_bits n ONE).
Proof.
  intros Hs. unfold ONE. change 31 with (Z.of_nat 31). rewrite mul_low.
  change (2 ^ Z.of_nat 32) with (2 ^ 32). by rewrite Z.mod_small.
Qed.

Lemma ONE_range : is_u 32 ONE.
Proof. by split. Qed.

Lemma power_spec p : power p = crc_bits (Pos.to_nat p) ONE.
Proof.
  assert (Hd : forall q, power q = crc_bits (Pos.to_nat q) ONE ->
    mul 32 (power q) (power q) = crc_bits (Pos.to_nat q + Pos.to_nat q) ONE).
  { intros q IH. rewrite crc_bits_add, <- IH. rewrite crc_bits_mul.
    - by rewrite <- IH.
    - rewrite IH. apply crc_bits_range, ONE_range. }
  induction p as [p IH|p IH|]; cbn [power].
  - rewrite (Hd p IH), <- crc_bits_step. rewrite Pos2Nat.inj_xI.
    replace (S (2 * Pos.to_nat p)) with (1 + (Pos.to_nat p + Pos.to_nat p))%nat by lia.
    by rewrite (crc_bits_add 1).
  - rewrite (Hd p IH), Pos2Nat.inj_xO. f_equal. lia.
  - done.
Qed.

(** ** The period *)

Definition back (n : nat) : Prop := crc_bits n ONE = ONE.

Lemma back_sub a b : back (a + b) -> back a -> back b.
Proof. unfold back. intros Hab Ha. by rewrite crc_bits_add, Ha in Hab. Qed.

Lemma back_mul k n : back n -> back (k * n).
Proof.
  intros Hn. induction k as [|k IH]; [done|]. unfold back in *. cbn [Nat.mul].
  by rewrite crc_bits_add, Hn.
Qed.

Lemma back_gcd n m : n <> 0%nat -> back n -> back m -> back (Nat.gcd n m).
Proof.
  intros Hn0 Hn Hm. destruct (Nat.gcd_bezout_pos n m ltac:(lia)) as (a & b & E).
  apply (back_sub (b * m)); [|by apply back_mul].
  rewrite Nat.add_comm, <- E. by apply back_mul.
Qed.

Definition PERIOD : positive := 4294967295.
Definition factors : list positive := [3; 5; 17; 257; 65537]%positive.
Definition cofactor (p : positive) : positive := Z.to_pos (Zpos PERIOD / Zpos p).

(** No number below 257 divides [p]. *)
Definition no_small (p : Z) : bool :=
  forallb (fun d => (p <=? d) || negb (p mod d =? 0)) (seqZ 2 255).

Lemma factor_prime p h :
  p <= 65537 -> no_small p = true -> 1 < h -> (h | p) -> 0 < p -> h = p.
Proof.
  intros Hp Hs Hh [k Hk] Hp0.
  assert (Hno : forall d, 2 <= d < 257 -> d < p -> (d | p) -> False).
  { intros d Hd Hdp Hdiv. unfold no_small in Hs. rewrite forallb_forall in Hs.
    specialize (Hs d ltac:(apply list_elem_of_In, elem_of_seqZ; lia)).
    apply orb_prop in Hs as [Hs|Hs]; [apply Z.leb_le in Hs; lia|].
    apply negb_true_iff, Z.eqb_neq in Hs. apply Hs. apply Z.mod_divide; [lia|done]. }
  destruct (Z.eq_dec k 1) as [->|Hk1]; [lia|]. exfalso. assert (1 < k) by nia.
  destruct (Z.lt_ge_cases h 257).
  - apply (Hno h); [lia|nia|by exists k].
  - destruct (Z.lt_ge_cases k 257); [|nia]. apply (Hno k); [lia|nia|exists h; lia].
Qed.

Lemma factors_ok :
  Forall (fun p => Zpos p <= 65537 /\ no_small (Zpos p) = true) factors /\
  foldr (fun p m => Zpos p * m) 1 factors = Zpos PERIOD /\
  Forall (fun p => Zpos (cofactor p) * Zpos p = Zpos PERIOD) factors.
Proof. split; [|split]; [repeat constructor; vm_compute; discriminate|done|repeat constructor]. Qed.

(** A number greater than one that divides a product of such factors is a multiple
    of one of them. *)
Lemma divides_factor ps q :
  Forall (fun p => Zpos p <= 65537 /\ no_small (Zpos p) = true) ps ->
  1 < q -> (q | foldr (fun p m => Zpos p * m) 1 ps) -> exists p, p ∈ ps /\ (Zpos p | q).
Proof.
  intros Hps Hq. induction Hps as [|p ps [Hp Hs] Hps IH]; cbn [foldr]; intros Hd.
  - apply Z.divide_1_r in Hd. lia.
  - destruct (Z.eq_dec (Z.gcd q (Zpos p)) 1) as [Hg|Hg].
    + apply Z.gauss in Hd; [|done]. destruct (IH Hd) as (r & Hr & Hrd).
      exists r. split; [by apply list_elem_of_further|done].
    + exists p. split; [apply list_elem_of_here|].
      rewrite <- (factor_prime (Zpos p) (Z.gcd q (Zpos p))); try done.
      * apply Z.gcd_divide_l.
      * pose proof (Z.gcd_nonneg q (Zpos p)).
        assert (Z.gcd q (Zpos p) <> 0) by (intros E; apply Z.gcd_eq_0_r in E; done). lia.
      * apply Z.gcd_divide_r.
Qed.

Lemma period_powers :
  power PERIOD = ONE /\ forallb (fun p => negb (power (cofactor p) =? ONE)) factors = true.
Proof. vm_compute. split; reflexivity. Qed.

Lemma not_back d : (0 < d)%nat -> Z.of_nat d < Zpos PERIOD -> ~ back d.
Proof.
  intros Hd0 Hd Hb. destruct period_powers as [HP Hc]. rewrite forallb_forall in Hc.
  assert (HbP : back (Pos.to_nat PERIOD)) by (unfold back; by rewrite <- power_spec).
  pose proof (back_gcd d (Pos.to_nat PERIOD) ltac:(lia) Hb HbP) as Hg.
  set (g := Nat.gcd d (Pos.to_nat PERIOD)) in *.
  assert (Hgd : (Z.of_nat g | Z.of_nat d)).
  { destruct (Nat.gcd_divide_l d (Pos.to_nat PERIOD)) as [k E]. exists (Z.of_nat k). fold g in E. lia. }
  assert (HgP : (Z.of_nat g | Zpos PERIOD)).
  { destruct (Nat.gcd_divide_r d (Pos.to_nat PERIOD)) as [k E]. exists (Z.of_nat k). fold g in E.
    rewrite <- (positive_nat_Z PERIOD), E. lia. }
  apply Z.divide_pos_le in Hgd; [|lia]. destruct HgP as [q Hq].
  destruct factors_ok as (Hok & Hprod & Hcof).
  destruct (divides_factor factors q Hok) as (p & Hp & [r Hr]).
  - nia.
  - rewrite Hprod. exists (Z.of_nat g). lia.
  - specialize (Hc p (proj1 (list_elem_of_In _ _) Hp)).
    apply negb_true_iff, Z.eqb_neq in Hc. apply Hc. rewrite power_spec.
    pose proof (proj1 (Forall_forall _ _) Hcof p Hp) as Hcp. cbn beta in Hcp.
    assert (E : Zpos (cofactor p) = r * Z.of_nat g) by nia.
    replace (Pos.to_nat (cofactor p)) with (Z.to_nat r * g)%nat.
    + by apply back_mul.
    + apply Nat2Z.inj. rewrite positive_nat_Z, E, Nat2Z.inj_mul, Z2Nat.id; [done|nia].
Qed.

(** A set bit is not back at the lowest place before the period is over. *)
Lemma unit_period d : (0 < d)%nat -> Z.of_nat d < 2 ^ 32 - 1 -> crc_bits d 1 <> 1.
Proof.
  intros Hd0 Hd E. apply (not_back d Hd0); [exact Hd|]. unfold back.
  assert (E1 : crc_bits 31 ONE = 1) by reflexivity.
  apply (crc_bits_inj 31).
  - apply crc_bits_range, ONE_range.
  - apply ONE_range.
  - rewrite <- crc_bits_add, Nat.add_comm, crc_bits_add, E1. exact E.
Qed.
