(* ===== verification/Crc32Errors.v ===== *)
(** What crc32.h's checksum detects: every corruption of one or two bits in a
    message of less than 2^29 bytes, and of three bits in one of up to
    [CODE_BYTES], the length of what the invariant checksum of the programs'
    frames covers.

    The checksum is linear: the error pattern alone decides whether it is seen.
    A set bit [n] steps of the bit machine before the end leaves [unit_after n];
    a pattern is missed when these cancel ([syndrome]).  That two of them cannot is
    the period of the bit machine (Crc32Order); that three of them cannot is decided by one run of the bit machine that keeps the states it has seen
    ([no_three]). *)
From stdpp Require Import pmap.
From Stdlib Require Import Sorted.
From S2P Require Import Prelude CInt Crc32 Crc32Order.
Local Open Scope Z_scope.

(** ** Differences between messages *)

(** The bits of a byte in the order the bit machine reads them. *)
Definition byte_bits (b : Z) : list Z := filter (fun j => Z.testbit b j = true) (seqZ 0 8).

(** The positions in which two bytes, two strings differ. *)
Definition differ (a b : Z) : nat :=
  length (filter (fun j => Z.testbit a j <> Z.testbit b j) (seqZ 0 8)).

Fixpoint hamming (x y : list Z) : nat :=
  match x, y with
  | a :: x, b :: y => differ a b + hamming x y
  | _, _ => 0
  end%nat.

(** The error pattern. *)
Definition errors (x y : list Z) : list Z := zip_with Z.lxor x y.

(** ** Syndromes *)

(** What a single bit of state becomes in [n] steps. *)
Definition unit_after (n : nat) : Z := crc_bits n 1.

Definition syndrome (ns : list nat) : Z := foldr (fun n s => Z.lxor (unit_after n) s) 0 ns.

(** How many steps the machine makes after it reads each set bit of a pattern. *)
Fixpoint steps_left (e : list Z) : list nat :=
  match e with
  | [] => []
  | b :: e =>
      ((fun j => 8 * length e + (8 - Z.to_nat j)) <$> byte_bits b)%nat ++ steps_left e
  end.

Lemma syndrome_cons n l : syndrome (n :: l) = Z.lxor (unit_after n) (syndrome l).
Proof. done. Qed.

Lemma syndrome_app l l' : syndrome (l ++ l') = Z.lxor (syndrome l) (syndrome l').
Proof.
  induction l as [|n l IH]; [by rewrite Z.lxor_0_l|].
  by rewrite <- app_comm_cons, !syndrome_cons, IH, Z.lxor_assoc.
Qed.

Lemma crc_bits_0 n : crc_bits n 0 = 0.
Proof. induction n as [|n IH]; simpl; [done|]. exact IH. Qed.

(** The state after [k] more steps. *)
Lemma syndrome_shift k l : syndrome ((fun n => k + n)%nat <$> l) = crc_bits k (syndrome l).
Proof.
  induction l as [|n l IH]; [by rewrite crc_bits_0|].
  rewrite fmap_cons, !syndrome_cons, IH, crc_bits_lxor. f_equal. unfold unit_after.
  by rewrite Nat.add_comm, crc_bits_add.
Qed.

(** One byte, by trying all of them. *)
Definition byte_syndrome_ok (b : Z) : bool :=
  crc_bits 8 b =? syndrome ((fun j => 8 - Z.to_nat j)%nat <$> byte_bits b).

Lemma byte_syndrome b :
  is_byte b -> crc_bits 8 b = syndrome ((fun j => 8 - Z.to_nat j)%nat <$> byte_bits b).
Proof.
  intros Hb. apply Z.eqb_eq. change (byte_syndrome_ok b = true).
  assert (Hall : forallb byte_syndrome_ok (seqZ 0 256) = true) by (vm_compute; reflexivity).
  rewrite forallb_forall in Hall. apply Hall, list_elem_of_In, elem_of_seqZ.
  unfold is_byte in Hb. lia.
Qed.

Lemma errors_crc s t x y :
  length x = length y ->
  crc_state (Z.lxor s t) (errors x y) = Z.lxor (crc_state s x) (crc_state t y).
Proof.
  revert s t y. induction x as [|a x IH]; intros s t [|b y] Hl; simpl in *; try done.
  injection Hl as Hl. rewrite <- (IH _ _ _ Hl). f_equal. unfold byte_step.
  rewrite <- crc_bits_lxor. f_equal. zbitwise.
Qed.

Lemma crc_state_zeros n s : crc_state s (replicate n 0) = crc_bits (8 * n) s.
Proof.
  revert s. induction n as [|n IH]; intros s; [done|].
  replace (8 * S n)%nat with (8 + 8 * n)%nat by lia. rewrite crc_bits_add, <- IH.
  cbn [replicate crc_state fold_left]. unfold byte_step. by rewrite Z.lxor_0_r.
Qed.

Lemma wf_errors x y : wf_bytes x -> wf_bytes y -> wf_bytes (errors x y).
Proof.
  intros Hx. revert y. induction Hx as [|a x Ha Hx IH]; intros y Hy; [constructor|].
  destruct Hy as [|b y Hb Hy]; [constructor|]. constructor; [|by apply IH].
  apply (lxor_range 8); [lia|done|done].
Qed.

(** The state an error pattern leaves. *)
Lemma crc_state_errors e : wf_bytes e -> crc_state 0 e = syndrome (steps_left e).
Proof.
  induction 1 as [|b e Hb He IH]; [done|]. cbn [crc_state fold_left steps_left].
  fold (crc_state (byte_step 0 b) e).
  assert (E : crc_state (byte_step 0 b) e = Z.lxor (crc_bits (8 * length e) (crc_bits 8 b)) (crc_state 0 e)).
  { rewrite <- (crc_state_zeros (length e)), <- errors_crc by apply length_replicate.
    unfold byte_step. rewrite Z.lxor_0_l, Z.lxor_0_r. f_equal. clear.
    induction e as [|c e IH]; simpl; [done|]. by rewrite Z.lxor_0_l, <- IH. }
  rewrite E, IH, syndrome_app, byte_syndrome by done. f_equal.
  by rewrite <- syndrome_shift, <- list_fmap_compose.
Qed.

(** *** The steps are as many as the differences, in decreasing order *)

Lemma byte_bits_range b j : j ∈ byte_bits b -> 0 <= j < 8.
Proof. intros H. apply list_elem_of_filter in H as [_ H]. apply elem_of_seqZ in H. lia. Qed.

Lemma byte_bits_differ a b : length (byte_bits (Z.lxor a b)) = differ a b.
Proof.
  unfold byte_bits, differ. f_equal. apply list_filter_iff. intros j. rewrite Z.lxor_spec.
  destruct (Z.testbit a j), (Z.testbit b j); split; intros H; try done; by destruct H.
Qed.

Lemma length_steps_left x y :
  length x = length y -> length (steps_left (errors x y)) = hamming x y.
Proof.
  revert y. induction x as [|a x IH]; intros [|b y] Hl; simpl in *; try done.
  injection Hl as Hl. by rewrite length_app, length_fmap, byte_bits_differ, IH.
Qed.

Lemma steps_left_range e n : n ∈ steps_left e -> (1 <= n <= 8 * length e)%nat.
Proof.
  induction e as [|b e IH]; simpl; intros H; [by apply not_elem_of_nil in H|].
  apply elem_of_app in H as [H|H].
  - apply list_elem_of_fmap in H as (j & -> & Hj). apply byte_bits_range in Hj. lia.
  - apply IH in H. lia.
Qed.

Lemma filter_sorted {A} (R : relation A) (P : A -> Prop) `{!forall x, Decision (P x)} l :
  StronglySorted R l -> StronglySorted R (filter P l).
Proof.
  induction 1 as [|x l Hl IH Hx]; [constructor|]. rewrite filter_cons.
  destruct (decide (P x)); [|done]. constructor; [done|].
  apply Forall_forall. intros y Hy. apply list_elem_of_filter in Hy as [_ Hy].
  by apply (proj1 (Forall_forall _ _) Hx).
Qed.

Lemma byte_bits_sorted b : StronglySorted Z.lt (byte_bits b).
Proof. apply filter_sorted. repeat constructor. Qed.

Lemma steps_left_sorted e : StronglySorted gt (steps_left e).
Proof.
  induction e as [|b e IH]; simpl; [constructor|].
  assert (Hin : Forall (fun j => 0 <= j < 8) (byte_bits b)).
  { apply Forall_forall, byte_bits_range. }
  pose proof (byte_bits_sorted b) as Hs. revert Hin.
  induction Hs as [|j js Hs IHs Hj]; intros Hin; simpl; [exact IH|].
  inversion Hin as [|? ? Hj8 Hjs8]; subst. constructor; [by apply IHs|].
  apply Forall_app_2.
  - apply Forall_fmap, Forall_forall. intros k Hk. unfold compose.
    pose proof (proj1 (Forall_forall _ _) Hj k Hk). pose proof (proj1 (Forall_forall _ _) Hjs8 k Hk).
    lia.
  - apply Forall_forall. intros k Hk. apply steps_left_range in Hk. lia.
Qed.

(** ** No three states cancel *)

(** One run of the machine over [n] steps from the state [s]: no state is one or
    differs from an earlier one, which are in [seen], in the lowest bit alone. *)
Fixpoint no_three (n : nat) (s : Z) (seen : Pmap unit) : bool :=
  match n with
  | O => true
  | S n =>
      let s := bit_step s in
      match s, Z.lxor s 1 with
      | Zpos p, Zpos q =>
          match seen !! q with
          | Some _ => false
          | None => no_three n s (<[p := tt]> seen)
          end
      | _, _ => false
      end
  end.

(** The length of what the checksum of a frame covers, with the checksum: 64 bits
    of ones, the headers, the payload and the checksum. *)
Definition CODE_BYTES : nat := Z.to_nat (8 + 60 + 8940 + 4).

Lemma CODE_BYTES_eq : Z.of_nat CODE_BYTES = 9012.
Proof. unfold CODE_BYTES. by rewrite Z2Nat.id by lia. Qed.

Lemma no_three_holds : no_three (8 * CODE_BYTES) 1 ∅ = true.
Proof. vm_compute. reflexivity. Qed.

Lemma unit_after_S n : unit_after (S n) = bit_step (unit_after n).
Proof.
  unfold unit_after. replace (S n) with (n + 1)%nat by lia. by rewrite crc_bits_add.
Qed.

Lemma no_three_spec n k seen :
  (forall b p, (1 <= b <= k)%nat -> unit_after b = Zpos p -> seen !! p = Some tt) ->
  no_three n (unit_after k) seen = true ->
  forall a, (k < a <= k + n)%nat ->
    unit_after a <> 1 /\
    forall b, (1 <= b < a)%nat -> Z.lxor (unit_after a) (unit_after b) <> 1.
Proof.
  revert k seen. induction n as [|n IH]; intros k seen Hseen H a Ha; [lia|].
  cbn [no_three] in H. rewrite <- unit_after_S in H.
  destruct (unit_after (S k)) as [|p|p] eqn:Ep; try done.
  destruct (Z.lxor (Zpos p) 1) as [|q|q] eqn:Eq; try done.
  destruct (seen !! q) eqn:Eseen; [done|].
  destruct (decide (a = S k)) as [->|Hne].
  - rewrite Ep. split.
    + intros E1. by rewrite E1 in Eq.
    + intros b Hb E. assert (Eb : unit_after b = Zpos q).
      { rewrite <- Eq, <- E. by rewrite <- Z.lxor_assoc, Z.lxor_nilpotent, Z.lxor_0_l. }
      apply Hseen in Eb; [congruence|lia].
  - rewrite <- Ep in H. apply (IH (S k) (<[p := tt]> seen)); [|exact H|lia].
    intros b r Hb Er. destruct (decide (b = S k)) as [->|Hb'].
    + rewrite Ep in Er. injection Er as <-. apply lookup_insert_eq.
    + destruct (decide (p = r)) as [->|Hpr]; [apply lookup_insert_eq|].
      rewrite lookup_insert_ne by done. apply (Hseen b); [lia|done].
Qed.

Lemma units_apart a :
  (1 <= a <= 8 * CODE_BYTES)%nat ->
  unit_after a <> 1 /\ forall b, (1 <= b < a)%nat -> Z.lxor (unit_after a) (unit_after b) <> 1.
Proof.
  intros Ha. apply (no_three_spec (8 * CODE_BYTES) 0 ∅).
  - intros b p Hb. lia.
  - exact no_three_holds.
  - lia.
Qed.

Lemma u32_1 : is_u 32 1.
Proof. unfold is_u. lia. Qed.

Lemma unit_after_range n : is_u 32 (unit_after n).
Proof. apply crc_bits_range, u32_1. Qed.

Lemma unit_after_add n m : unit_after (n + m) = crc_bits m (unit_after n).
Proof. apply crc_bits_add. Qed.

(** Two different steps do not cancel. *)
Lemma two_apart a b :
  (b < a)%nat -> Z.of_nat a < 2 ^ 32 -> (0 < b)%nat -> Z.lxor (unit_after a) (unit_after b) <> 0.
Proof.
  intros Hab Ha Hb E. replace a with ((a - b) + b)%nat in E by lia. rewrite unit_after_add in E.
  unfold unit_after at 2 in E. rewrite <- crc_bits_lxor in E.
  apply crc_bits_zero in E; [|by apply lxor_u32, u32_1; apply unit_after_range].
  apply Z.lxor_eq in E. revert E. apply unit_period; lia.
Qed.

Lemma three_apart a b c :
  (b < a)%nat -> (c < b)%nat -> (a <= 8 * CODE_BYTES)%nat ->
  Z.lxor (unit_after a) (Z.lxor (unit_after b) (unit_after c)) <> 0.
Proof.
  intros Hab Hbc Ha E.
  replace a with ((a - c) + c)%nat in E by lia. replace b with ((b - c) + c)%nat in E by lia.
  rewrite !unit_after_add in E. unfold unit_after at 3 in E. rewrite <- !crc_bits_lxor in E.
  apply crc_bits_zero in E.
  - rewrite <- Z.lxor_assoc in E. apply Z.lxor_eq in E. revert E.
    apply (units_apart (a - c)); lia.
  - apply lxor_u32; [apply unit_after_range|]. apply lxor_u32; [apply unit_after_range|apply u32_1].
Qed.

(** At most two different steps, or three when they are few enough. *)
Lemma syndrome_nonzero max ns :
  StronglySorted gt ns -> (1 <= length ns <= 3)%nat -> Forall (fun n => 1 <= n <= max)%nat ns ->
  Z.of_nat max < 2 ^ 32 -> (length ns <= 2)%nat \/ (max <= 8 * CODE_BYTES)%nat -> syndrome ns <> 0.
Proof.
  intros Hs Hlen Hr Hm Hor.
  destruct ns as [|a [|b [|c [|d ns]]]]; simpl in Hlen; try lia;
    repeat match goal with
    | H : StronglySorted _ (_ :: _) |- _ => inversion H; subst; clear H
    | H : Forall _ (_ :: _) |- _ => inversion H; subst; clear H
    end; cbn [syndrome foldr]; rewrite Z.lxor_0_r.
  - intros E. apply crc_bits_zero in E; [done|apply u32_1].
  - apply two_apart; lia.
  - destruct Hor as [Hor|Hor]; [simpl in Hor; lia|]. apply three_apart; lia.
Qed.

(** ** The distance of the code *)

Lemma errors_equal x y : length x = length y -> hamming x y = 0%nat -> wf_bytes x -> wf_bytes y -> x = y.
Proof.
  intros Hl Hh Hx. revert y Hl Hh. induction Hx as [|a x Ha Hx IH]; intros [|b y] Hl Hh Hy; try done.
  injection Hl as Hl. cbn [hamming] in Hh. inversion Hy as [|? ? Hb Hy']; subst. f_equal.
  - apply Z.bits_inj'. intros j Hj. destruct (Z.lt_ge_cases j 8) as [Hlt|Hge].
    + destruct (decide (Z.testbit a j = Z.testbit b j)) as [|Hne]; [done|].
      assert (Hin : j ∈ filter (fun j => Z.testbit a j <> Z.testbit b j) (seqZ 0 8)).
      { apply list_elem_of_filter. split; [done|]. apply elem_of_seqZ. lia. }
      assert (E : length (filter (fun j => Z.testbit a j <> Z.testbit b j) (seqZ 0 8)) = 0%nat)
        by (fold (differ a b); lia).
      apply length_zero_iff_nil in E. rewrite E in Hin. by apply not_elem_of_nil in Hin.
    + by rewrite !(testbit_high 8) by done.
  - apply IH; [done|lia|done].
Qed.

(** Two strings with the same checksum are the same, or differ in at least three
    bits, and in four when they are no longer than a frame. *)
Lemma crc_state_distance s x y :
  is_u 32 s -> wf_bytes x -> wf_bytes y -> length x = length y -> Z.of_nat (length x) < 2 ^ 29 ->
  crc_state s x = crc_state s y -> x <> y ->
  (3 <= hamming x y)%nat /\ ((length x <= CODE_BYTES)%nat -> (4 <= hamming x y)%nat).
Proof.
  intros Hs Hx Hy Hl Hmax E Hne.
  assert (He : wf_bytes (errors x y)) by by apply wf_errors.
  assert (Hz : syndrome (steps_left (errors x y)) = 0).
  { rewrite <- crc_state_errors by done. transitivity (crc_state (Z.lxor s s) (errors x y)).
    - by rewrite Z.lxor_nilpotent.
    - by rewrite errors_crc, E, Z.lxor_nilpotent. }
  assert (Hpos : hamming x y <> 0%nat) by (intros H0; by apply Hne, errors_equal).
  rewrite <- length_steps_left in * by done.
  pose proof (fun H1 H2 => syndrome_nonzero (8 * length x) (steps_left (errors x y))
    (steps_left_sorted _) H1 H2 ltac:(lia)) as Hnz.
  assert (Hr : Forall (fun n => 1 <= n <= 8 * length x)%nat (steps_left (errors x y))).
  { apply Forall_forall. intros n Hn. apply steps_left_range in Hn.
    unfold errors in Hn. rewrite length_zip_with in Hn. lia. }
  split; [|intros Hc]; apply Nat.nlt_ge; intros Hlt; (apply Hnz; [lia|done| |done]); lia.
Qed.

Lemma crc32_ref_distance crc x y :
  is_u 32 crc -> wf_bytes x -> wf_bytes y -> length x = length y -> Z.of_nat (length x) < 2 ^ 29 ->
  crc32_ref crc x = crc32_ref crc y -> x <> y ->
  (3 <= hamming x y)%nat /\ ((length x <= CODE_BYTES)%nat -> (4 <= hamming x y)%nat).
Proof.
  intros Hc Hx Hy Hl Hmax E. apply (crc_state_distance (Z.lxor crc 0xFFFFFFFF)); auto with cint.
  unfold crc32_ref in E. apply (f_equal (fun v => Z.lxor v 0xFFFFFFFF)) in E.
  by rewrite !Z.lxor_assoc, Z.lxor_nilpotent, !Z.lxor_0_r in E.
Qed.

(** ** Properties *)

(** C3: two different strings of the same length that [crc32] gives the same checksum
    differ in at least three bits when they are shorter than 2^29 bytes, and in at
    least four when they are no longer than what the checksum of the programs'
    frames covers.  A corruption of one, two or (there) three bits anywhere is
    detected. *)
Theorem crc32_distance crc x y size c :
  is_u 32 crc -> wf_bytes x -> wf_bytes y ->
  Z.of_nat (length x) = size -> Z.of_nat (length y) = size -> size < 2 ^ 29 ->
  crc32 crc x size = Some c -> crc32 crc y size = Some c -> x <> y ->
  (3 <= hamming x y)%nat /\ (size <= Z.of_nat CODE_BYTES -> (4 <= hamming x y)%nat).
Proof.
  intros Hc Hx Hy Hlx Hly Hmax Ex Ey. assert (Hmax' : size <= INT_MAX) by (unfold INT_MAX; lia).
  rewrite crc32_eq, take_ge in Ex, Ey by (done || lia). injection Ex as <-. injection Ey as Ey.
  intros Hne. destruct (crc32_ref_distance crc x y); (done || lia).
Qed.

(** A string with the checksum of five zeros. *)
Definition like_zeros : list Z := [1; 0x96; 0x30; 0x07; 0x77].

Lemma crc32_distance_witness :
  crc32 0 like_zeros 5 = crc32 0 (replicate 5 0) 5 /\
  (4 <= hamming like_zeros (replicate 5 0%Z))%nat.
Proof.
  split; [reflexivity|].
  apply (crc32_distance 0 like_zeros (replicate 5 0) 5 0xC622F71D).
  - unfold is_u. lia.
  - repeat constructor; discriminate.
  - repeat constructor; discriminate.
  - reflexivity.
  - reflexivity.
  - reflexivity.
  - reflexivity.
  - reflexivity.
  - discriminate.
  - vm_compute. discriminate.
Defined.
