(* ===== verification/RawPacket.v ===== *)
(** raw_packet.h, raw_packet.c, constants.h: the packet structures, their
    object representation and the printing functions.

    A structure is a [Record] with the source's fields; a multi-byte field holds
    the value the C code stores in it (so a field in network order holds the
    result of [htons]/[htonl]).  [*_bytes] is the packed little-endian object
    representation, bit-fields allocated from the least significant bit as the
    ABI does; [*_of_bytes] reads it back.  [Wire] is an independent reading of
    the same bytes by the InfiniBand header layouts. *)
From S2P Require Import Prelude CInt CLib.
Local Open Scope Z_scope.

Definition MSG_SIZE : Z := 8940.

(** ** Bit-fields *)

(** The storage unit of consecutive bit-fields, given as (width, value). *)
Fixpoint pack (fs : list (Z * Z)) : Z :=
  match fs with
  | [] => 0
  | (w, v) :: fs => Z.lor v (Z.shiftl (pack fs) w)
  end.

Fixpoint unpack (ws : list Z) (x : Z) : list Z :=
  match ws with
  | [] => []
  | w :: ws => Z.land x (Z.ones w) :: unpack ws (Z.shiftr x w)
  end.

(** Assignment to an unsigned bit-field of width [w]. *)
Definition bf (w x : Z) : Z := x mod 2 ^ w.

(** ** The structures *)

(** [struct ethhdr] (linux/if_ether.h): packed, [h_proto] in network order. *)
Record ethhdr := { h_dest : list Z; h_source : list Z; h_proto : Z }.

Record ib_grh := {
  traffic_class_p1 : Z; ip_version : Z; traffic_class_p2 : Z; flow_label : Z;
  payload_length : Z;
  next_header : Z; hop_limit : Z;
  source : list Z; dest : list Z
}.

Record ib_bth := {
  opcode : Z;
  transport_hdr_version : Z; pad_count : Z; migration_request : Z; sollicited_event : Z;
  partition_key : Z;
  reserved1 : Z; destination_qp : Z;
  acknowledge_req : Z; reserved2 : Z; packet_sequence : Z
}.

Record ib_deth := { queue_key : Z; reserved : Z; source_qp : Z }.

Record ib_headers := { grh : ib_grh; bth : ib_bth; deth : ib_deth }.

Record packet := { ether_header : ethhdr; ib_header : ib_headers; data : list Z }.

(** ** Object representation *)

Definition eth_bytes (h : ethhdr) : list Z := h_dest h ++ h_source h ++ le_bytes 2 (h_proto h).

Definition grh_word (h : ib_grh) : Z :=
  pack [(4, traffic_class_p1 h); (4, ip_version h); (4, traffic_class_p2 h); (20, flow_label h)].

Definition grh_bytes (h : ib_grh) : list Z :=
  le_bytes 4 (grh_word h) ++ le_bytes 2 (payload_length h) ++
  [next_header h; hop_limit h] ++ source h ++ dest h.

Definition bth_flags (h : ib_bth) : Z :=
  pack [(4, transport_hdr_version h); (2, pad_count h); (1, migration_request h);
        (1, sollicited_event h)].

Definition bth_bytes (h : ib_bth) : list Z :=
  [opcode h; bth_flags h] ++ le_bytes 2 (partition_key h) ++
  le_bytes 4 (pack [(8, reserved1 h); (24, destination_qp h)]) ++
  le_bytes 4 (pack [(1, acknowledge_req h); (7, reserved2 h); (24, packet_sequence h)]).

Definition deth_bytes (h : ib_deth) : list Z :=
  le_bytes 4 (queue_key h) ++ le_bytes 4 (pack [(8, reserved h); (24, source_qp h)]).

Definition ib_headers_bytes (h : ib_headers) : list Z :=
  grh_bytes (grh h) ++ bth_bytes (bth h) ++ deth_bytes (deth h).

Definition packet_bytes (p : packet) : list Z :=
  eth_bytes (ether_header p) ++ ib_headers_bytes (ib_header p) ++ data p.

(** [sizeof] of the structures. *)
Definition sizeof_ethhdr : Z := 14.
Definition sizeof_ib_grh : Z := 40.
Definition sizeof_ib_bth : Z := 12.
Definition sizeof_ib_deth : Z := 8.
Definition sizeof_ib_headers : Z := 60.
Definition sizeof_packet : Z := sizeof_ethhdr + sizeof_ib_headers + MSG_SIZE.

(** The field values an object of each structure type can hold. *)
Definition wf_mac (l : list Z) : Prop := length l = 6%nat /\ wf_bytes l.
Definition wf_gid (l : list Z) : Prop := length l = 16%nat /\ wf_bytes l.

Definition wf_eth (h : ethhdr) : Prop :=
  wf_mac (h_dest h) /\ wf_mac (h_source h) /\ is_u 16 (h_proto h).

Definition wf_grh (h : ib_grh) : Prop :=
  is_u 4 (traffic_class_p1 h) /\ is_u 4 (ip_version h) /\ is_u 4 (traffic_class_p2 h) /\
  is_u 20 (flow_label h) /\ is_u 16 (payload_length h) /\ is_byte (next_header h) /\
  is_byte (hop_limit h) /\ wf_gid (source h) /\ wf_gid (dest h).

Definition wf_bth (h : ib_bth) : Prop :=
  is_byte (opcode h) /\ is_u 4 (transport_hdr_version h) /\ is_u 2 (pad_count h) /\
  is_u 1 (migration_request h) /\ is_u 1 (sollicited_event h) /\ is_u 16 (partition_key h) /\
  is_u 8 (reserved1 h) /\ is_u 24 (destination_qp h) /\ is_u 1 (acknowledge_req h) /\
  is_u 7 (reserved2 h) /\ is_u 24 (packet_sequence h).

Definition wf_deth (h : ib_deth) : Prop :=
  is_u 32 (queue_key h) /\ is_u 8 (reserved h) /\ is_u 24 (source_qp h).

Definition wf_headers (h : ib_headers) : Prop :=
  wf_grh (grh h) /\ wf_bth (bth h) /\ wf_deth (deth h).

Definition wf_packet (p : packet) : Prop :=
  wf_eth (ether_header p) /\ wf_headers (ib_header p) /\
  length (data p) = Z.to_nat MSG_SIZE /\ wf_bytes (data p).

(** ** Reading the representation back *)

Definition field (off n : nat) (l : list Z) : list Z := take n (drop off l).
Definition nth_field (i : nat) (l : list Z) : Z := nth i l 0.

Definition grh_of_bytes (l : list Z) : ib_grh :=
  let w := unpack [4; 4; 4; 20] (le_val (field 0 4 l)) in
  {| traffic_class_p1 := nth_field 0 w; ip_version := nth_field 1 w;
     traffic_class_p2 := nth_field 2 w; flow_label := nth_field 3 w;
     payload_length := le_val (field 4 2 l);
     next_header := nth_field 6 l; hop_limit := nth_field 7 l;
     source := field 8 16 l; dest := field 24 16 l |}.

Definition bth_of_bytes (l : list Z) : ib_bth :=
  let f := unpack [4; 2; 1; 1] (nth_field 1 l) in
  let d := unpack [8; 24] (le_val (field 4 4 l)) in
  let a := unpack [1; 7; 24] (le_val (field 8 4 l)) in
  {| opcode := nth_field 0 l;
     transport_hdr_version := nth_field 0 f; pad_count := nth_field 1 f;
     migration_request := nth_field 2 f; sollicited_event := nth_field 3 f;
     partition_key := le_val (field 2 2 l);
     reserved1 := nth_field 0 d; destination_qp := nth_field 1 d;
     acknowledge_req := nth_field 0 a; reserved2 := nth_field 1 a;
     packet_sequence := nth_field 2 a |}.

Definition deth_of_bytes (l : list Z) : ib_deth :=
  let s := unpack [8; 24] (le_val (field 4 4 l)) in
  {| queue_key := le_val (field 0 4 l); reserved := nth_field 0 s; source_qp := nth_field 1 s |}.

Definition ib_headers_of_bytes (l : list Z) : ib_headers :=
  {| grh := grh_of_bytes (field 0 40 l); bth := bth_of_bytes (field 40 12 l);
     deth := deth_of_bytes (field 52 8 l) |}.

(** ** Printing (raw_packet.c) *)

Definition newline : list Z := [10].

Section print.

(** [inet_ntop(AF_INET6, ...)], the C library's text form of an address. *)
Variable inet_ntop6 : list Z -> list Z.

Definition print_grh (hdr : ib_grh) : list (list Z) :=
  [ string_bytes "IP Version: " ++ fmt_d (ip_version hdr) ++ newline;
    string_bytes "Traffic class 1: " ++ fmt_x (traffic_class_p1 hdr) ++ newline;
    string_bytes "Traffic class 2: " ++ fmt_x (traffic_class_p2 hdr) ++ newline;
    string_bytes "Flow label: " ++ fmt_x (flow_label hdr) ++ newline;
    string_bytes "Length: " ++ fmt_d (ntohs (payload_length hdr)) ++ newline;
    string_bytes "Next header: " ++ fmt_d (next_header hdr) ++ newline;
    string_bytes "Hop limit: " ++ fmt_d (hop_limit hdr) ++ newline;
    string_bytes "Source: " ++ inet_ntop6 (source hdr) ++ newline;
    string_bytes "Dest: " ++ inet_ntop6 (dest hdr) ++ newline ].

Definition print_bth (hdr : ib_bth) : list (list Z) :=
  [ string_bytes "Opcode: 0x" ++ fmt_x (opcode hdr) ++ newline;
    string_bytes "Sollicited: " ++ fmt_d (sollicited_event hdr) ++ newline;
    string_bytes "Migration req: " ++ fmt_d (migration_request hdr) ++ newline;
    string_bytes "Pad count: " ++ fmt_d (pad_count hdr) ++ newline;
    string_bytes "Header version: " ++ fmt_d (transport_hdr_version hdr) ++ newline;
    string_bytes "Partition key: " ++ fmt_d (ntohs (partition_key hdr)) ++ newline;
    string_bytes "Destination QP: 0x" ++
      fmt_x (Z.shiftr (ntohl (destination_qp hdr)) 8) ++ newline;
    string_bytes "Acknowledge req: " ++ fmt_d (acknowledge_req hdr) ++ newline;
    string_bytes "Packet sequence number: " ++ fmt_d (packet_sequence hdr) ++ newline ].

Definition print_deth (hdr : ib_deth) : list (list Z) :=
  [ string_bytes "Queue key: 0x" ++ fmt_x (ntohl (queue_key hdr)) ++ newline;
    string_bytes "Source QP: 0x" ++ fmt_x (Z.shiftr (ntohl (source_qp hdr)) 8) ++ newline ].

Definition print_ib_headers (hdr : ib_headers) : list (list Z) :=
  print_grh (grh hdr) ++ [newline] ++ print_bth (bth hdr) ++ [newline] ++ print_deth (deth hdr).

End print.

(** ** The InfiniBand wire format *)

(** The header layouts of the InfiniBand specification, read from the bytes on
    the wire: all fields big-endian, bits numbered from the most significant. *)
Module Wire.

Record wire_grh := { w_version : Z; w_tclass : Z; w_flow : Z; w_paylen : Z; w_nxthdr : Z;
                     w_hoplmt : Z; w_sgid : list Z; w_dgid : list Z }.
Record wire_bth := { w_opcode : Z; w_se : Z; w_m : Z; w_pad : Z; w_tver : Z; w_pkey : Z;
                     w_resv8a : Z; w_destqp : Z; w_a : Z; w_resv7 : Z; w_psn : Z }.
Record wire_deth := { w_qkey : Z; w_resv8 : Z; w_srcqp : Z }.
Record wire_headers := { w_grh : wire_grh; w_bth : wire_bth; w_deth : wire_deth }.

Definition parse_grh (l : list Z) : wire_grh :=
  let w := be_val (field 0 4 l) in
  {| w_version := w / 2 ^ 28; w_tclass := (w / 2 ^ 20) mod 2 ^ 8; w_flow := w mod 2 ^ 20;
     w_paylen := be_val (field 4 2 l); w_nxthdr := be_val (field 6 1 l);
     w_hoplmt := be_val (field 7 1 l); w_sgid := field 8 16 l; w_dgid := field 24 16 l |}.

Definition parse_bth (l : list Z) : wire_bth :=
  let f := be_val (field 1 1 l) in
  let a := be_val (field 8 1 l) in
  {| w_opcode := be_val (field 0 1 l); w_se := f / 2 ^ 7; w_m := (f / 2 ^ 6) mod 2;
     w_pad := (f / 2 ^ 4) mod 4; w_tver := f mod 2 ^ 4; w_pkey := be_val (field 2 2 l);
     w_resv8a := be_val (field 4 1 l); w_destqp := be_val (field 5 3 l);
     w_a := a / 2 ^ 7; w_resv7 := a mod 2 ^ 7; w_psn := be_val (field 9 3 l) |}.

Definition parse_deth (l : list Z) : wire_deth :=
  {| w_qkey := be_val (field 0 4 l); w_resv8 := be_val (field 4 1 l);
     w_srcqp := be_val (field 5 3 l) |}.

Definition parse (l : list Z) : wire_headers :=
  {| w_grh := parse_grh (field 0 40 l); w_bth := parse_bth (field 40 12 l);
     w_deth := parse_deth (field 52 8 l) |}.

End Wire.

(** ** Bit-field lemmas *)

Definition wf_fields (fs : list (Z * Z)) : Prop := Forall (fun '(w, v) => 0 <= w /\ is_u w v) fs.

Definition width (ws : list Z) : Z := foldr Z.add 0 ws.

Lemma width_nonneg ws : Forall (Z.le 0) ws -> 0 <= width ws.
Proof. induction 1; simpl; lia. Qed.

Lemma pack_cons w v fs : 0 <= w -> is_u w v -> pack ((w, v) :: fs) = v + pack fs * 2 ^ w.
Proof. intros. cbn [pack]. by apply lor_shift_add. Qed.

Lemma pack_range fs : wf_fields fs -> is_u (width (fst <$> fs)) (pack fs).
Proof.
  unfold is_u. induction 1 as [|[w v] fs [Hw Hv] Hfs IH]; [simpl; lia|].
  rewrite pack_cons by done. cbn [fmap list_fmap width foldr fst].
  fold (width (fst <$> fs)). unfold is_u in Hv.
  assert (0 <= width (fst <$> fs)).
  { apply width_nonneg. apply Forall_fmap. eapply Forall_impl; [exact Hfs|]. by intros [] []. }
  rewrite Z.pow_add_r by done. nia.
Qed.

Lemma unpack_pack fs : wf_fields fs -> unpack (fst <$> fs) (pack fs) = snd <$> fs.
Proof.
  induction 1 as [|[w v] fs [Hw Hv] Hfs IH]; [done|].
  rewrite pack_cons by done. cbn [fmap list_fmap unpack fst snd]. unfold is_u in Hv.
  rewrite Z.land_ones, Z.mod_add, Z.mod_small by lia. f_equal.
  rewrite Z.shiftr_div_pow2, Z.div_add, Z.div_small, Z.add_0_l by lia. done.
Qed.

Lemma pack_unpack ws x :
  Forall (Z.le 0) ws -> is_u (width ws) x -> pack (zip ws (unpack ws x)) = x.
Proof.
  unfold is_u. intros Hws. revert x. induction Hws as [|w ws Hw Hws IH]; intros x Hx.
  - simpl in *. lia.
  - cbn [unpack zip_with]. fold (zip ws (unpack ws (Z.shiftr x w))).
    rewrite pack_cons; [|done|rewrite Z.land_ones by done; by apply u_range].
    cbn [width foldr] in Hx. fold (width ws) in Hx.
    pose proof (width_nonneg ws Hws). rewrite Z.pow_add_r in Hx by done.
    rewrite IH; rewrite Z.shiftr_div_pow2 by done.
    + rewrite Z.land_ones by done. pose proof (Z.div_mod x (2 ^ w)). lia.
    + split; [apply Z.div_pos; lia|]. apply Z.div_lt_upper_bound; lia.
Qed.

Lemma unpack_range ws x :
  Forall (Z.le 0) ws -> Forall2 (fun w v => is_u w v) ws (unpack ws x).
Proof.
  intros Hws. revert x. induction Hws as [|w ws Hw Hws IH]; intros x; constructor; [|done].
  rewrite Z.land_ones by done. by apply u_range.
Qed.

(** ** Field access *)

Lemma field_skip off n (a b : list Z) :
  (length a <= off)%nat -> field off n (a ++ b) = field (off - length a) n b.
Proof. intros H. unfold field. by rewrite drop_app_ge. Qed.

Lemma field_head n (a b : list Z) : length a = n -> field 0 n (a ++ b) = a.
Proof. intros <-. unfold field. rewrite drop_0. apply take_app_length. Qed.

Lemma field_all n (a : list Z) : length a = n -> field 0 n a = a.
Proof. intros <-. unfold field. rewrite drop_0. by apply take_ge. Qed.

Lemma field_length off n (l : list Z) : (off + n <= length l)%nat -> length (field off n l) = n.
Proof. intros H. unfold field. rewrite length_take, length_drop. lia. Qed.

Lemma field_drop off n (l : list Z) : field off n l ++ drop (off + n) l = drop off l.
Proof. unfold field. rewrite <- drop_drop. apply take_drop. Qed.

Lemma field_wf off n l : wf_bytes l -> wf_bytes (field off n l).
Proof. intros. by apply Forall_take, Forall_drop. Qed.

Lemma nth_field_skip i (a b : list Z) :
  (length a <= i)%nat -> nth_field i (a ++ b) = nth_field (i - length a) b.
Proof. intros H. unfold nth_field. by rewrite app_nth2. Qed.

Lemma nth_field_0 x l : nth_field 0 (x :: l) = x.
Proof. done. Qed.

Lemma nth_field_S i x l : nth_field (S i) (x :: l) = nth_field i l.
Proof. done. Qed.

Lemma nth_field_byte i l : wf_bytes l -> is_byte (nth_field i l).
Proof.
  intros Hl. unfold nth_field. destruct (nth_in_or_default i l 0) as [H| ->].
  - rewrite Forall_forall in Hl. apply Hl. by apply list_elem_of_In.
  - unfold is_byte. lia.
Qed.

Lemma le_val_le_bytes_small n x : is_u (8 * Z.of_nat n) x -> le_val (le_bytes n x) = x.
Proof. intros. rewrite le_val_le_bytes. by apply u_small. Qed.

Create Rewrite HintDb fields.
#[export] Hint Rewrite length_le_bytes length_be_bytes length_app : fields.

(** Resolves field accesses into concatenations of known lengths. *)
Ltac len := rewrite ?length_app, ?length_le_bytes; simpl length; lia.
Ltac field_simpl :=
  repeat first
    [ match goal with
      | |- context [field ?off ?n (?a ++ ?b)] =>
          first [rewrite (field_skip off n a b) by len | rewrite (field_head n a b) by len]
      | |- context [field 0 ?n ?a] => rewrite (field_all n a) by len
      | |- context [nth_field ?i (?a ++ ?b)] => rewrite (nth_field_skip i a b) by len
      | H : length ?a = _ |- context [length ?a] => rewrite H
      end
    | rewrite length_le_bytes
    | progress cbn [Nat.sub length] ].

(** ** Sizes and round trips *)

Lemma length_eth_bytes h : wf_eth h -> length (eth_bytes h) = 14%nat.
Proof. intros ([H1 _] & [H2 _] & _). unfold eth_bytes. len. Qed.

Lemma length_grh_bytes h : wf_grh h -> length (grh_bytes h) = 40%nat.
Proof.
  intros (_ & _ & _ & _ & _ & _ & _ & [H1 _] & [H2 _]). unfold grh_bytes. len.
Qed.

Lemma length_bth_bytes h : length (bth_bytes h) = 12%nat.
Proof. unfold bth_bytes. len. Qed.

Lemma length_deth_bytes h : length (deth_bytes h) = 8%nat.
Proof. unfold deth_bytes. len. Qed.

Lemma length_ib_headers_bytes h : wf_headers h -> length (ib_headers_bytes h) = 60%nat.
Proof.
  intros (Hg & _ & _). unfold ib_headers_bytes.
  by rewrite !length_app, length_grh_bytes, length_bth_bytes, length_deth_bytes.
Qed.

Lemma length_packet_bytes p : wf_packet p -> Z.of_nat (length (packet_bytes p)) = sizeof_packet.
Proof.
  intros (He & Hh & Hd & _). unfold packet_bytes.
  rewrite !length_app, length_eth_bytes, length_ib_headers_bytes, Hd by done. done.
Qed.

Ltac wf_pack := repeat constructor; unfold is_u in *; lia.

Lemma bth_flags_byte h : wf_bth h -> is_byte (bth_flags h).
Proof.
  intros (_ & ? & ? & ? & ? & _).
  apply (pack_range [(4, transport_hdr_version h); (2, pad_count h);
                     (1, migration_request h); (1, sollicited_event h)]). wf_pack.
Qed.

Lemma wf_bth_bytes h : wf_bth h -> wf_bytes (bth_bytes h).
Proof.
  intros Hh. unfold bth_bytes.
  apply Forall_app_2; [|auto using Forall_app_2 with cint].
  repeat constructor; [apply Hh..|apply bth_flags_byte; done|apply bth_flags_byte; done].
Qed.

Lemma wf_grh_bytes h : wf_grh h -> wf_bytes (grh_bytes h).
Proof.
  intros (_ & _ & _ & _ & _ & H6 & H7 & [_ H8] & [_ H9]). unfold grh_bytes.
  repeat (apply Forall_app_2; auto with cint).
Qed.

Lemma wf_deth_bytes h : wf_bytes (deth_bytes h).
Proof. unfold deth_bytes. auto using Forall_app_2 with cint. Qed.

Lemma wf_ib_headers_bytes h : wf_headers h -> wf_bytes (ib_headers_bytes h).
Proof.
  intros (Hg & Hb & _). unfold ib_headers_bytes.
  auto using Forall_app_2, wf_grh_bytes, wf_bth_bytes, wf_deth_bytes.
Qed.

Lemma wf_packet_bytes p : wf_packet p -> wf_bytes (packet_bytes p).
Proof.
  intros (([_ He1] & [_ He2] & _) & Hh & _ & Hd). unfold packet_bytes, eth_bytes.
  auto 6 using Forall_app_2, wf_ib_headers_bytes with cint.
Qed.

Lemma grh_roundtrip h : wf_grh h -> grh_of_bytes (grh_bytes h) = h.
Proof.
  intros (H1 & H2 & H3 & H4 & H5 & H6 & H7 & [H8 _] & [H9 _]).
  assert (Hw : wf_fields [(4, traffic_class_p1 h); (4, ip_version h);
                          (4, traffic_class_p2 h); (20, flow_label h)]) by wf_pack.
  unfold grh_of_bytes, grh_bytes. field_simpl.
  rewrite (le_val_le_bytes_small 4) by apply (pack_range _ Hw).
  rewrite (le_val_le_bytes_small 2) by assumption.
  pose proof (unpack_pack _ Hw) as Hu. cbn [fmap list_fmap fst snd] in Hu.
  unfold grh_word. rewrite Hu. by destruct h.
Qed.

Lemma bth_roundtrip h : wf_bth h -> bth_of_bytes (bth_bytes h) = h.
Proof.
  intros (H1 & H2 & H3 & H4 & H5 & H6 & H7 & H8 & H9 & H10 & H11).
  assert (Hf : wf_fields [(4, transport_hdr_version h); (2, pad_count h);
                          (1, migration_request h); (1, sollicited_event h)]) by wf_pack.
  assert (Hd : wf_fields [(8, reserved1 h); (24, destination_qp h)]) by wf_pack.
  assert (Ha : wf_fields [(1, acknowledge_req h); (7, reserved2 h); (24, packet_sequence h)])
    by wf_pack.
  unfold bth_of_bytes, bth_bytes. field_simpl.
  rewrite (le_val_le_bytes_small 4 (pack [(8, _); _])) by apply (pack_range _ Hd).
  rewrite (le_val_le_bytes_small 4) by apply (pack_range _ Ha).
  rewrite (le_val_le_bytes_small 2) by assumption.
  change (nth_field 1 ([?a; ?b] ++ ?c)) with b.
  apply unpack_pack in Hf, Hd, Ha. cbn [fmap list_fmap fst snd] in Hf, Hd, Ha.
  unfold bth_flags. rewrite Hf, Hd, Ha. by destruct h.
Qed.

Lemma deth_roundtrip h : wf_deth h -> deth_of_bytes (deth_bytes h) = h.
Proof.
  intros (H1 & H2 & H3).
  assert (Hs : wf_fields [(8, reserved h); (24, source_qp h)]) by wf_pack.
  unfold deth_of_bytes, deth_bytes. field_simpl.
  rewrite (le_val_le_bytes_small 4 (pack _)) by apply (pack_range _ Hs).
  rewrite (le_val_le_bytes_small 4) by assumption.
  apply unpack_pack in Hs. cbn [fmap list_fmap fst snd] in Hs. rewrite Hs. by destruct h.
Qed.

(** ** The representation is onto *)

Lemma le_bytes_field off n l :
  wf_bytes l -> (off + n <= length l)%nat -> le_bytes n (le_val (field off n l)) = field off n l.
Proof.
  intros Hl Hn. rewrite <- (field_length off n l Hn) at 1. by apply le_bytes_le_val, field_wf.
Qed.

Lemma field_nth i l : (i < length l)%nat -> field i 1 l = [nth_field i l].
Proof.
  intros Hi. unfold field, nth_field.
  destruct (lookup_lt_is_Some_2 l i Hi) as [x Hx].
  rewrite (drop_S _ _ _ Hx). cbn [take]. f_equal.
  symmetry. by apply nth_lookup_Some.
Qed.

Lemma pack_unpack_field ws off n l :
  Forall (Z.le 0) ws -> wf_bytes l -> (off + n <= length l)%nat ->
  width ws = 8 * Z.of_nat n ->
  pack (zip ws (unpack ws (le_val (field off n l)))) = le_val (field off n l).
Proof.
  intros Hws Hl Hn Hw. apply pack_unpack; [done|]. rewrite Hw.
  rewrite <- (field_length off n l Hn) at 1. by apply le_val_range, field_wf.
Qed.

Ltac nonneg_widths := repeat constructor; lia.

Lemma grh_bytes_of_bytes l :
  length l = 40%nat -> wf_bytes l -> grh_bytes (grh_of_bytes l) = l.
Proof.
  intros Hlen Hl. unfold grh_bytes, grh_of_bytes, grh_word.
  cbn [traffic_class_p1 ip_version traffic_class_p2 flow_label payload_length next_header
       hop_limit source dest].
  pose proof (pack_unpack_field [4; 4; 4; 20] 0 4 l) as Hp.
  cbn [unpack zip_with] in Hp. cbn [unpack]. rewrite !nth_field_S, !nth_field_0, Hp by (done || nonneg_widths || lia).
  rewrite !le_bytes_field by (done || lia).
  change [nth_field 6 l; nth_field 7 l] with ([nth_field 6 l] ++ [nth_field 7 l]).
  rewrite <- !field_nth, <- !app_assoc by lia.
  rewrite <- (app_nil_r (field 24 16 l)), <- (drop_ge l 40) by lia.
  by rewrite !field_drop.
Qed.

Lemma bth_bytes_of_bytes l :
  length l = 12%nat -> wf_bytes l -> bth_bytes (bth_of_bytes l) = l.
Proof.
  intros Hlen Hl. unfold bth_bytes, bth_of_bytes, bth_flags.
  cbn [opcode transport_hdr_version pad_count migration_request sollicited_event partition_key
       reserved1 destination_qp acknowledge_req reserved2 packet_sequence].
  pose proof (pack_unpack_field [8; 24] 4 4 l) as Hd.
  pose proof (pack_unpack_field [1; 7; 24] 8 4 l) as Ha.
  pose proof (pack_unpack [4; 2; 1; 1] (nth_field 1 l) ltac:(nonneg_widths)
                (nth_field_byte 1 l Hl)) as Hf.
  cbn [unpack zip_with] in Hd, Ha, Hf. cbn [unpack]. rewrite !nth_field_S, !nth_field_0.
  rewrite Hd, Ha, Hf by (done || nonneg_widths || lia).
  rewrite !le_bytes_field by (done || lia).
  change [nth_field 0 l; nth_field 1 l] with ([nth_field 0 l] ++ [nth_field 1 l]).
  rewrite <- !field_nth, <- !app_assoc by lia.
  rewrite <- (app_nil_r (field 8 4 l)), <- (drop_ge l 12) by lia.
  by rewrite !field_drop.
Qed.

Lemma deth_bytes_of_bytes l :
  length l = 8%nat -> wf_bytes l -> deth_bytes (deth_of_bytes l) = l.
Proof.
  intros Hlen Hl. unfold deth_bytes, deth_of_bytes. cbn [queue_key reserved source_qp].
  pose proof (pack_unpack_field [8; 24] 4 4 l) as Hd.
  cbn [unpack zip_with] in Hd. cbn [unpack]. rewrite !nth_field_S, !nth_field_0, Hd by (done || nonneg_widths || lia).
  rewrite !le_bytes_field by (done || lia).
  rewrite <- (app_nil_r (field 4 4 l)), <- (drop_ge l 8) by lia.
  by rewrite !field_drop.
Qed.

Lemma ib_headers_read_back h :
  wf_headers h -> ib_headers_of_bytes (ib_headers_bytes h) = h.
Proof.
  intros (Hg & Hb & Hd).
  pose proof (length_grh_bytes _ Hg) as H1. pose proof (length_bth_bytes (bth h)) as H2.
  pose proof (length_deth_bytes (deth h)) as H3.
  unfold ib_headers_of_bytes, ib_headers_bytes.
  rewrite (field_head 40), (field_skip 40), (field_skip 52), H1 by lia. cbn [Nat.sub].
  rewrite (field_head 12), (field_skip 12), H2 by lia. cbn [Nat.sub].
  rewrite (field_all 8) by done.
  rewrite grh_roundtrip, bth_roundtrip, deth_roundtrip by done. by destruct h.
Qed.

(** ** Properties *)

(** C31: the object representation of the headers is exactly 60 bytes, reading
    it back returns the headers, and every 60-byte string is the
    representation of the headers read from it. *)
Theorem ib_headers_roundtrip :
  (forall h, wf_headers h ->
     length (ib_headers_bytes h) = Z.to_nat sizeof_ib_headers /\
     ib_headers_of_bytes (ib_headers_bytes h) = h) /\
  (forall l, length l = Z.to_nat sizeof_ib_headers -> wf_bytes l ->
     ib_headers_bytes (ib_headers_of_bytes l) = l).
Proof.
  split.
  - intros h Hh. split; [by apply length_ib_headers_bytes|by apply ib_headers_read_back].
  - intros l Hlen Hl. change (Z.to_nat sizeof_ib_headers) with 60%nat in Hlen.
    unfold ib_headers_bytes, ib_headers_of_bytes. cbn [grh bth deth].
    rewrite grh_bytes_of_bytes, bth_bytes_of_bytes, deth_bytes_of_bytes
      by (try apply field_length; try apply field_wf; done || lia).
    rewrite <- (app_nil_r (field 52 8 l)), <- (drop_ge l 60) by lia.
    by rewrite !field_drop.
Qed.

(** ** The view on the wire *)

Ltac div_arith := Z.div_mod_to_equations; lia.

Lemma grh_word_eq h :
  wf_grh h ->
  grh_word h = traffic_class_p1 h + ip_version h * 2 ^ 4 + traffic_class_p2 h * 2 ^ 8 +
               flow_label h * 2 ^ 12.
Proof.
  intros (H1 & H2 & H3 & H4 & _). unfold grh_word.
  rewrite !pack_cons by (done || lia). cbn [pack]. lia.
Qed.

Definition grh_wire (h : ib_grh) : Wire.wire_grh :=
  {| Wire.w_version := ip_version h;
     Wire.w_tclass := traffic_class_p1 h * 2 ^ 4 + flow_label h mod 2 ^ 4;
     Wire.w_flow := traffic_class_p2 h * 2 ^ 16 + (flow_label h / 2 ^ 4) mod 2 ^ 8 * 2 ^ 8 +
                    flow_label h / 2 ^ 12;
     Wire.w_paylen := ntohs (payload_length h);
     Wire.w_nxthdr := next_header h; Wire.w_hoplmt := hop_limit h;
     Wire.w_sgid := source h; Wire.w_dgid := dest h |}.

Definition bth_wire (h : ib_bth) : Wire.wire_bth :=
  {| Wire.w_opcode := opcode h; Wire.w_se := sollicited_event h; Wire.w_m := migration_request h;
     Wire.w_pad := pad_count h; Wire.w_tver := transport_hdr_version h;
     Wire.w_pkey := ntohs (partition_key h); Wire.w_resv8a := reserved1 h;
     Wire.w_destqp := Z.shiftr (ntohl (destination_qp h)) 8;
     Wire.w_a := reserved2 h / 2 ^ 6;
     Wire.w_resv7 := reserved2 h mod 2 ^ 6 * 2 + acknowledge_req h;
     Wire.w_psn := Z.shiftr (ntohl (packet_sequence h)) 8 |}.

Definition deth_wire (h : ib_deth) : Wire.wire_deth :=
  {| Wire.w_qkey := ntohl (queue_key h); Wire.w_resv8 := reserved h;
     Wire.w_srcqp := Z.shiftr (ntohl (source_qp h)) 8 |}.

Lemma grh_wire_fields p1 v p2 fl :
  is_u 4 p1 -> is_u 4 v -> is_u 4 p2 -> is_u 20 fl ->
  let w := be_val (le_bytes 4 (p1 + v * 2 ^ 4 + p2 * 2 ^ 8 + fl * 2 ^ 12)) in
  w / 2 ^ 28 = v /\ (w / 2 ^ 20) mod 2 ^ 8 = p1 * 2 ^ 4 + fl mod 2 ^ 4 /\
  w mod 2 ^ 20 = p2 * 2 ^ 16 + (fl / 2 ^ 4) mod 2 ^ 8 * 2 ^ 8 + fl / 2 ^ 12.
Proof.
  intros H1 H2 H3 H4 w. unfold is_u in *.
  set (x := p1 + v * 2 ^ 4 + p2 * 2 ^ 8 + fl * 2 ^ 12) in w.
  assert (E0 : x mod 256 = p1 + v * 2 ^ 4) by (subst x; div_arith).
  assert (E1 : (x / 2 ^ 8) mod 256 = p2 + fl mod 2 ^ 4 * 2 ^ 4) by (subst x; div_arith).
  assert (E2 : (x / 2 ^ 16) mod 256 = (fl / 2 ^ 4) mod 2 ^ 8) by (subst x; div_arith).
  assert (E3 : (x / 2 ^ 24) mod 256 = fl / 2 ^ 12) by (subst x; div_arith).
  subst w. rewrite be_val_le_bytes_4, E0, E1, E2, E3.
  assert (0 <= fl mod 2 ^ 4 < 2 ^ 4) by (apply Z.mod_pos_bound; lia).
  assert (0 <= (fl / 2 ^ 4) mod 2 ^ 8 < 2 ^ 8) by (apply Z.mod_pos_bound; lia).
  assert (0 <= fl / 2 ^ 12 < 2 ^ 8) by div_arith.
  generalize dependent (fl mod 2 ^ 4). generalize dependent ((fl / 2 ^ 4) mod 2 ^ 8).
  generalize dependent (fl / 2 ^ 12). intros. repeat split; div_arith.
Qed.

Lemma le_bytes_cons n r x : is_byte r -> le_bytes (S n) (r + x * 2 ^ 8) = r :: le_bytes n x.
Proof.
  unfold is_byte. intros Hr. cbn [le_bytes]. change 255 with (Z.ones 8). f_equal.
  - rewrite Z.land_ones, Z.mod_add by lia. by apply Z.mod_small.
  - rewrite Z.shiftr_div_pow2, Z.div_add, Z.div_small by lia. by rewrite Z.add_0_l.
Qed.

Lemma pack_8_24 r x : is_u 8 r -> is_u 24 x -> le_bytes 4 (pack [(8, r); (24, x)]) = r :: le_bytes 3 x.
Proof.
  intros Hr Hx. rewrite !pack_cons by (done || lia). cbn [pack].
  rewrite Z.mul_0_l, Z.add_0_r. by apply le_bytes_cons.
Qed.

Lemma grh_wire_view h : wf_grh h -> Wire.parse_grh (grh_bytes h) = grh_wire h.
Proof.
  intros Hh. pose proof Hh as (H1 & H2 & H3 & H4 & H5 & H6 & H7 & [H8 _] & [H9 _]).
  unfold Wire.parse_grh, grh_bytes, grh_wire. field_simpl.
  rewrite grh_word_eq by done.
  destruct (grh_wire_fields _ _ _ _ H1 H2 H3 H4) as (E1 & E2 & E3).
  cbv zeta in E1, E2, E3. rewrite E1, E2, E3, <- ntohs_be_val by done.
  change (field 0 1 ([?a; ?b] ++ ?c)) with [a]. change (field 1 1 ([?a; ?b] ++ ?c)) with [b].
  by rewrite !be_val_1.
Qed.

Lemma bth_flags_fields v p m se :
  is_u 4 v -> is_u 2 p -> is_u 1 m -> is_u 1 se ->
  let f := pack [(4, v); (2, p); (1, m); (1, se)] in
  f / 2 ^ 7 = se /\ (f / 2 ^ 6) mod 2 = m /\ (f / 2 ^ 4) mod 4 = p /\ f mod 2 ^ 4 = v.
Proof.
  intros H1 H2 H3 H4 f. subst f. rewrite !pack_cons by (done || lia). cbn [pack].
  unfold is_u in *. repeat split; div_arith.
Qed.

Lemma bth_wire_view h : wf_bth h -> Wire.parse_bth (bth_bytes h) = bth_wire h.
Proof.
  intros Hh. pose proof (bth_flags_byte h Hh) as Hf.
  pose proof Hh as (H1 & H2 & H3 & H4 & H5 & H6 & H7 & H8 & H9 & H10 & H11).
  unfold Wire.parse_bth, bth_bytes, bth_wire. field_simpl.
  rewrite pack_8_24 by done.
  rewrite (pack_cons 1), (pack_cons 7), (pack_cons 24) by (done || lia). cbn [pack].
  set (a := acknowledge_req h + reserved2 h * 2 ^ 1).
  assert (Ha : is_byte a) by (unfold a, is_byte, is_u in *; lia).
  replace (acknowledge_req h + _ * 2 ^ 1) with (a + packet_sequence h * 2 ^ 8) by (subst a; lia).
  rewrite le_bytes_cons by done.
  change (field 0 1 ([?x; ?y] ++ ?l)) with [x]. change (field 1 1 ([?x; ?y] ++ ?l)) with [y].
  change (?x :: le_bytes 3 ?y) with ([x] ++ le_bytes 3 y).
  rewrite <- !app_assoc. field_simpl.
  rewrite !be_val_1, <- ntohs_be_val, <- !ntohl_24 by done.
  destruct (bth_flags_fields _ _ _ _ H2 H3 H4 H5) as (E1 & E2 & E3 & E4).
  cbv zeta in E1, E2, E3, E4. unfold bth_flags. rewrite E1, E2, E3, E4.
  assert (a / 2 ^ 7 = reserved2 h / 2 ^ 6 /\
          a mod 2 ^ 7 = reserved2 h mod 2 ^ 6 * 2 + acknowledge_req h) as [-> ->]; [|done].
  subst a. clear - H9 H10. unfold is_u in *. split; div_arith.
Qed.

Lemma deth_wire_view h : wf_deth h -> Wire.parse_deth (deth_bytes h) = deth_wire h.
Proof.
  intros (H1 & H2 & H3). unfold Wire.parse_deth, deth_bytes, deth_wire. field_simpl.
  rewrite pack_8_24 by done. change (?x :: le_bytes 3 ?y) with ([x] ++ le_bytes 3 y).
  field_simpl. by rewrite !be_val_1, <- ntohl_be_val, <- !ntohl_24.
Qed.

Lemma wire_parse_eq h :
  wf_headers h ->
  Wire.parse (ib_headers_bytes h) =
    {| Wire.w_grh := grh_wire (grh h); Wire.w_bth := bth_wire (bth h);
       Wire.w_deth := deth_wire (deth h) |}.
Proof.
  intros (Hg & Hb & Hd).
  pose proof (length_grh_bytes _ Hg) as H1. pose proof (length_bth_bytes (bth h)) as H2.
  unfold Wire.parse, ib_headers_bytes.
  rewrite (field_head 40), (field_skip 40), (field_skip 52), H1 by lia. cbn [Nat.sub].
  rewrite (field_head 12), (field_skip 12), H2 by lia. cbn [Nat.sub].
  rewrite (field_all 8) by apply length_deth_bytes.
  by rewrite grh_wire_view, bth_wire_view, deth_wire_view.
Qed.

(** C32: what the header structures mean on the wire.  The InfiniBand fields read
    from the representation are the structure's fields in host order, except
    that [traffic_class_p2] is the top of the flow label (the low half of the
    traffic class is in [flow_label]) and that the wire's acknowledge bit is the
    top bit of [reserved2], [acknowledge_req] being a reserved bit. *)
Theorem ib_headers_wire_view h :
  wf_headers h ->
  Wire.parse (ib_headers_bytes h) =
    {| Wire.w_grh := grh_wire (grh h); Wire.w_bth := bth_wire (bth h);
       Wire.w_deth := deth_wire (deth h) |}.
Proof. apply wire_parse_eq. Qed.

Lemma ib_headers_wire_view_witness :
  let h := ib_headers_of_bytes (replicate 60 1) in
  Wire.parse (ib_headers_bytes h) =
    {| Wire.w_grh := grh_wire (grh h); Wire.w_bth := bth_wire (bth h);
       Wire.w_deth := deth_wire (deth h) |}.
Proof.
  apply ib_headers_wire_view. repeat split; vm_compute; (reflexivity || discriminate || idtac).
  all: repeat constructor; discriminate.
Defined.
