(* ===== verification/ClApi.v ===== *)
(** The OpenCL C++ interface (CL/cl2.hpp) the FPGA host code calls.

    [cl] is the call alphabet; a call answers a value or throws [cl::Error].
    Platforms, devices and objects are handles.  The ghost state [cl_state]
    keeps what OpenCL says of the calls that succeeded: the bytes of each
    buffer, where buffers are mapped, the copies that are enqueued and not yet
    known to be finished, which buffers' contents the standard leaves undefined,
    the kernels' arguments, and for every launch what memory held and what was
    still pending.  Constants have the values of the Khronos headers. *)
From stdpp Require Export gmap.
From S2P Require Import Prelude CInt.
Local Open Scope Z_scope.

Definition CL_DEVICE_TYPE_DEFAULT : Z := 1.
Definition CL_DEVICE_TYPE_CPU : Z := 2.
Definition CL_DEVICE_TYPE_GPU : Z := 4.
Definition CL_DEVICE_TYPE_ACCELERATOR : Z := 8.
Definition CL_MEM_READ_ONLY : Z := 4.
Definition CL_MEM_ALLOC_HOST_PTR : Z := 16.
Definition CL_MEM_HOST_WRITE_ONLY : Z := 128.
Definition CL_MAP_WRITE : Z := 2.
Definition CL_QUEUE_PROFILING_ENABLE : Z := 2.

Inductive platform_info := CL_PLATFORM_NAME | CL_PLATFORM_VERSION | CL_PLATFORM_EXTENSIONS.
Inductive device_info := CL_DEVICE_GLOBAL_MEM_SIZE | CL_DEVICE_MAX_MEM_ALLOC_SIZE.

(** [cl::Error]: the code and the name of the function that failed. *)
Record cl_error := { err : Z; what : list Z }.

(** The arguments [cl::Kernel::setArg] is given. *)
Inductive cl_arg := ArgBuffer (buffer : Z) | ArgUint (x : Z) | ArgInt (x : Z).

Inductive cl : Type -> Type :=
| Platform_get : cl (list Z)
| Platform_getInfo (platform : Z) (param : platform_info) : cl (list Z)
| Platform_getDevices (platform type : Z) : cl (list Z)
| Device_getName (device : Z) : cl (list Z)
| Device_getInfo (device : Z) (param : device_info) : cl Z
| Context_new (devices : list Z) : cl Z
| Program_new (context : Z) (devices : list Z) (binaries : list (list Z)) : cl Z
| Program_getContext (program : Z) : cl Z
| Kernel_new (program : Z) (name : list Z) : cl Z
| Queue_new (context : Z) (device : option Z) (properties : Z) : cl Z
| Buffer_new (context flags size : Z) : cl Z
| EnqueueMapBuffer (queue buffer : Z) (blocking : bool) (flags offset size : Z) : cl Z
| EnqueueCopyBuffer (queue src dst src_offset dst_offset size : Z) : cl unit
| EnqueueUnmapMemObject (queue buffer pointer : Z) : cl unit
| Kernel_setArg (kernel index : Z) (value : cl_arg) : cl unit
| EnqueueNDRangeKernel (queue kernel global_size : Z) : cl Z
| Event_wait (event : option Z) : cl unit.

(** ** What the calls do *)

(** The bytes of each buffer; [None] is a byte nothing has written. *)
Abbreviation memory := (gmap Z (list (option Z))).

Record copy := { cp_queue : Z; cp_src : Z; cp_dst : Z; cp_src_offset : Z; cp_dst_offset : Z;
                 cp_size : Z }.

Definition splice {A} (off : nat) (new l : list A) : list A :=
  take off l ++ new ++ drop (off + length new) l.

(** The effect of a copy when it is performed. *)
Definition perform (m : memory) (c : copy) : memory :=
  match m !! cp_src c, m !! cp_dst c with
  | Some s, Some d =>
      <[cp_dst c := splice (Z.to_nat (cp_dst_offset c))
                      (take (Z.to_nat (cp_size c)) (drop (Z.to_nat (cp_src_offset c)) s)) d]> m
  | _, _ => m
  end.

(** A kernel launch: its queue and event, the program and name of the kernel,
    its arguments by index, and, when it was enqueued, memory, the unfinished
    copies, and the buffers whose contents were undefined. *)
Record launch := {
  l_queue : Z;
  l_event : Z;
  l_kernel : Z * list Z;
  l_args : Z -> option cl_arg;
  l_memory : memory;
  l_pending : list copy;
  l_undefined : list Z
}.

(** An unfinished copy of a queue other than [q] writes the buffer [b]: nothing
    orders it with what [q] does. *)
Definition written_elsewhere (pending : list copy) (q b : Z) : bool :=
  existsb (fun c => (cp_dst c =? b) && negb (cp_queue c =? q)) pending.

(** A launch waits for no other queue, so it races with such a copy. *)
Definition unsynchronised (l : launch) (b : Z) : bool :=
  written_elsewhere (l_pending l) (l_queue l) b.

(** What the buffer holds when every enqueued copy is done and every store through
    a mapping has reached it: what the host means the kernel to read. *)
Definition intended (l : launch) (b : Z) : option (list (option Z)) :=
  foldl perform (l_memory l) (l_pending l) !! b.

(** What the kernel may find in the buffer.  Queues are in order, so the copies of
    its own queue are done; but OpenCL leaves the contents undefined where they are
    marked so, and where a copy of another queue is not finished: the kernel may
    then find anything. *)
Definition may_read (l : launch) (b : Z) (bytes : list (option Z)) : Prop :=
  if unsynchronised l b || bool_decide (b ∈ l_undefined l)
  then exists old, l_memory l !! b = Some old /\ length bytes = length old
  else foldl perform (l_memory l) (filter (fun c => cp_queue c = l_queue l) (l_pending l)) !! b =
         Some bytes.

(** The installed platforms, their names and their devices of a type. *)
Record machine := {
  m_platforms : list Z;
  m_name : Z -> list Z;
  m_devices : Z -> Z -> list Z
}.

Definition machine0 : machine :=
  {| m_platforms := []; m_name := fun _ => []; m_devices := fun _ _ => [] |}.

Record cl_state := {
  cl_machine : machine;
  cl_used : list Z;                       (** handles given out *)
  cl_contexts : gmap Z (list Z);          (** their devices *)
  cl_programs : gmap Z (list (list Z));   (** their binaries *)
  cl_kernels : gmap Z (Z * list Z);       (** program and name *)
  cl_memory : memory;
  cl_mapped : gmap Z (Z * Z * Z);         (** pointer: buffer, offset, size *)
  cl_pending : list copy;
  cl_args : Z -> Z -> option cl_arg;      (** kernel, index *)
  cl_launches : list launch;
  cl_waited : list Z;                     (** events waited for *)
  cl_broken : list string;                (** rules of OpenCL the program broke *)
  cl_undefined : list Z                   (** buffers whose contents are undefined *)
}.

Definition cl_init (m : machine) : cl_state :=
  {| cl_machine := m;
     cl_used := []; cl_contexts := ∅; cl_programs := ∅; cl_kernels := ∅; cl_memory := ∅;
     cl_mapped := ∅; cl_pending := []; cl_args := fun _ _ => None; cl_launches := [];
     cl_waited := []; cl_broken := []; cl_undefined := [] |}.

Definition add_handle h (s : cl_state) : cl_state :=
  {| cl_machine := cl_machine s;
     cl_used := h :: cl_used s; cl_contexts := cl_contexts s; cl_programs := cl_programs s;
     cl_kernels := cl_kernels s; cl_memory := cl_memory s; cl_mapped := cl_mapped s;
     cl_pending := cl_pending s; cl_args := cl_args s; cl_launches := cl_launches s;
     cl_waited := cl_waited s; cl_broken := cl_broken s;
     cl_undefined := cl_undefined s |}.
Definition add_context h devices (s : cl_state) : cl_state :=
  {| cl_machine := cl_machine s;
     cl_used := h :: cl_used s; cl_contexts := <[h := devices]> (cl_contexts s);
     cl_programs := cl_programs s; cl_kernels := cl_kernels s; cl_memory := cl_memory s;
     cl_mapped := cl_mapped s; cl_pending := cl_pending s; cl_args := cl_args s;
     cl_launches := cl_launches s; cl_waited := cl_waited s; cl_broken := cl_broken s;
     cl_undefined := cl_undefined s |}.
Definition add_program h binaries (s : cl_state) : cl_state :=
  {| cl_machine := cl_machine s;
     cl_used := h :: cl_used s; cl_contexts := cl_contexts s;
     cl_programs := <[h := binaries]> (cl_programs s); cl_kernels := cl_kernels s;
     cl_memory := cl_memory s; cl_mapped := cl_mapped s; cl_pending := cl_pending s;
     cl_args := cl_args s; cl_launches := cl_launches s; cl_waited := cl_waited s;
     cl_broken := cl_broken s;
     cl_undefined := cl_undefined s |}.
Definition add_kernel h program name (s : cl_state) : cl_state :=
  {| cl_machine := cl_machine s;
     cl_used := h :: cl_used s; cl_contexts := cl_contexts s; cl_programs := cl_programs s;
     cl_kernels := <[h := (program, name)]> (cl_kernels s); cl_memory := cl_memory s;
     cl_mapped := cl_mapped s; cl_pending := cl_pending s; cl_args := cl_args s;
     cl_launches := cl_launches s; cl_waited := cl_waited s; cl_broken := cl_broken s;
     cl_undefined := cl_undefined s |}.
Definition add_buffer h size (s : cl_state) : cl_state :=
  {| cl_machine := cl_machine s;
     cl_used := h :: cl_used s; cl_contexts := cl_contexts s; cl_programs := cl_programs s;
     cl_kernels := cl_kernels s;
     cl_memory := <[h := replicate (Z.to_nat size) None]> (cl_memory s);
     cl_mapped := cl_mapped s; cl_pending := cl_pending s; cl_args := cl_args s;
     cl_launches := cl_launches s; cl_waited := cl_waited s; cl_broken := cl_broken s;
     cl_undefined := cl_undefined s |}.
Definition set_mapped x (s : cl_state) : cl_state :=
  {| cl_machine := cl_machine s;
     cl_used := cl_used s; cl_contexts := cl_contexts s; cl_programs := cl_programs s;
     cl_kernels := cl_kernels s; cl_memory := cl_memory s; cl_mapped := x;
     cl_pending := cl_pending s; cl_args := cl_args s; cl_launches := cl_launches s;
     cl_waited := cl_waited s; cl_broken := cl_broken s;
     cl_undefined := cl_undefined s |}.
Definition set_memory x (s : cl_state) : cl_state :=
  {| cl_machine := cl_machine s;
     cl_used := cl_used s; cl_contexts := cl_contexts s; cl_programs := cl_programs s;
     cl_kernels := cl_kernels s; cl_memory := x; cl_mapped := cl_mapped s;
     cl_pending := cl_pending s; cl_args := cl_args s; cl_launches := cl_launches s;
     cl_waited := cl_waited s; cl_broken := cl_broken s;
     cl_undefined := cl_undefined s |}.
Definition add_copy c (s : cl_state) : cl_state :=
  {| cl_machine := cl_machine s;
     cl_used := cl_used s; cl_contexts := cl_contexts s; cl_programs := cl_programs s;
     cl_kernels := cl_kernels s; cl_memory := cl_memory s; cl_mapped := cl_mapped s;
     cl_pending := cl_pending s ++ [c]; cl_args := cl_args s; cl_launches := cl_launches s;
     cl_waited := cl_waited s; cl_broken := cl_broken s;
     cl_undefined := cl_undefined s |}.
Definition set_arg k i v (s : cl_state) : cl_state :=
  {| cl_machine := cl_machine s;
     cl_used := cl_used s; cl_contexts := cl_contexts s; cl_programs := cl_programs s;
     cl_kernels := cl_kernels s; cl_memory := cl_memory s; cl_mapped := cl_mapped s;
     cl_pending := cl_pending s;
     cl_args := fun k' i' => if (k' =? k) && (i' =? i) then Some v else cl_args s k' i';
     cl_launches := cl_launches s; cl_waited := cl_waited s; cl_broken := cl_broken s;
     cl_undefined := cl_undefined s |}.
(** The buffers that are mapped for writing. *)
Definition mapped_buffers (s : cl_state) : list Z :=
  (fun x => x.2.1.1) <$> map_to_list (cl_mapped s).
Definition is_mapped (buffer : Z) (s : cl_state) : bool := bool_decide (buffer ∈ mapped_buffers s).

Definition the_launch q k event (s : cl_state) : launch :=
  {| l_queue := q; l_event := event; l_kernel := default (0, []) (cl_kernels s !! k);
     l_args := cl_args s k; l_memory := cl_memory s; l_pending := cl_pending s;
     l_undefined := cl_undefined s ++ mapped_buffers s |}.
Definition add_launch q k event (s : cl_state) : cl_state :=
  {| cl_machine := cl_machine s;
     cl_used := event :: cl_used s; cl_contexts := cl_contexts s;
     cl_programs := cl_programs s; cl_kernels := cl_kernels s; cl_memory := cl_memory s;
     cl_mapped := cl_mapped s; cl_pending := cl_pending s; cl_args := cl_args s;
     cl_launches := cl_launches s ++ [the_launch q k event s];
     cl_waited := cl_waited s; cl_broken := cl_broken s;
     cl_undefined := cl_undefined s |}.
Definition add_waited e (s : cl_state) : cl_state :=
  {| cl_machine := cl_machine s;
     cl_used := cl_used s; cl_contexts := cl_contexts s; cl_programs := cl_programs s;
     cl_kernels := cl_kernels s; cl_memory := cl_memory s; cl_mapped := cl_mapped s;
     cl_pending := cl_pending s; cl_args := cl_args s; cl_launches := cl_launches s;
     cl_waited := e :: cl_waited s; cl_broken := cl_broken s;
     cl_undefined := cl_undefined s |}.
Definition add_undefined b (s : cl_state) : cl_state :=
  {| cl_machine := cl_machine s;
     cl_used := cl_used s; cl_contexts := cl_contexts s; cl_programs := cl_programs s;
     cl_kernels := cl_kernels s; cl_memory := cl_memory s; cl_mapped := cl_mapped s;
     cl_pending := cl_pending s; cl_args := cl_args s; cl_launches := cl_launches s;
     cl_waited := cl_waited s; cl_broken := cl_broken s;
     cl_undefined := b :: cl_undefined s |}.
Definition cl_break why (s : cl_state) : cl_state :=
  {| cl_machine := cl_machine s;
     cl_used := cl_used s; cl_contexts := cl_contexts s; cl_programs := cl_programs s;
     cl_kernels := cl_kernels s; cl_memory := cl_memory s; cl_mapped := cl_mapped s;
     cl_pending := cl_pending s; cl_args := cl_args s; cl_launches := cl_launches s;
     cl_waited := cl_waited s; cl_broken := cl_broken s ++ [why];
     cl_undefined := cl_undefined s |}.

(** Queues are in order: what was enqueued on [q] is done when a blocking call
    on it returns. *)
Definition settle q (s : cl_state) : cl_state :=
  {| cl_machine := cl_machine s;
     cl_used := cl_used s; cl_contexts := cl_contexts s; cl_programs := cl_programs s;
     cl_kernels := cl_kernels s;
     cl_memory := foldl perform (cl_memory s) (filter (fun c => cp_queue c = q) (cl_pending s));
     cl_mapped := cl_mapped s;
     cl_pending := filter (fun c => cp_queue c <> q) (cl_pending s); cl_args := cl_args s;
     cl_launches := cl_launches s; cl_waited := cl_waited s; cl_broken := cl_broken s;
     cl_undefined := cl_undefined s |}.

Definition copy_of_mapped : string := "a copy reads a buffer that is mapped for writing".

(** Enqueueing a copy.  The standard forbids reading a buffer that is mapped for
    writing, and leaves its contents undefined until it is unmapped; the target of a
    copy is undefined with its source, and when anything else writes either. *)
Definition enqueue_copy (c : copy) (s : cl_state) : cl_state :=
  let s1 := if is_mapped (cp_src c) s then cl_break copy_of_mapped s else s in
  let suspect b := is_mapped b s || bool_decide (b ∈ cl_undefined s) ||
                   written_elsewhere (cl_pending s) (cp_queue c) b in
  add_copy c (if suspect (cp_src c) || suspect (cp_dst c) then add_undefined (cp_dst c) s1 else s1).

(** A store through a pointer a mapping returned. *)
Definition store_mapped (pointer : Z) (bytes : list Z) (s : cl_state) : cl_state :=
  match cl_mapped s !! pointer with
  | Some (buffer, offset, size) =>
      if Z.of_nat (length bytes) <=? size then
        set_memory (alter (splice (Z.to_nat offset) (Some <$> bytes)) buffer (cl_memory s)) s
      else cl_break "a store leaves its mapping" s
  | None => cl_break "a store outside every mapping" s
  end.

(** What holds of the answers: the queries describe the machine, a query for
    devices that succeeds finds one, sizes are 64-bit, new objects are distinct,
    and no event is there to wait for until a launch has set it. *)
Definition cl_legal (X : Type) (s : cl_state) (e : cl X) : X -> Prop :=
  match e in cl X return X -> Prop with
  | Platform_get => fun l => l = m_platforms (cl_machine s)
  | Platform_getInfo p CL_PLATFORM_NAME => fun x => x = m_name (cl_machine s) p
  | Platform_getDevices p t => fun l => l = m_devices (cl_machine s) p t /\ l <> []
  | Device_getInfo _ _ => fun x => is_u 64 x
  | Context_new _ | Program_new _ _ _ | Kernel_new _ _ | Queue_new _ _ _ | Buffer_new _ _ _
  | EnqueueNDRangeKernel _ _ _ => fun h => h ∉ cl_used s
  | Event_wait None => fun _ => False
  | _ => fun _ => True
  end.

Definition cl_next (X : Type) (s : cl_state) (e : cl X) : X -> cl_state :=
  match e in cl X return X -> cl_state with
  | Context_new devices => fun h => add_context h devices s
  | Program_new _ _ binaries => fun h => add_program h binaries s
  | Kernel_new program name => fun h => add_kernel h program name s
  | Queue_new _ _ _ => fun h => add_handle h s
  | Buffer_new _ _ size => fun h => add_buffer h size s
  | EnqueueMapBuffer q buffer blocking _ offset size => fun p =>
      set_mapped (<[p := (buffer, offset, size)]> (cl_mapped s))
        (if blocking : bool then settle q s else s)
  | EnqueueCopyBuffer q src dst src_offset dst_offset size => fun _ =>
      enqueue_copy {| cp_queue := q; cp_src := src; cp_dst := dst; cp_src_offset := src_offset;
                      cp_dst_offset := dst_offset; cp_size := size |} s
  | EnqueueUnmapMemObject _ _ p => fun _ => set_mapped (delete p (cl_mapped s)) s
  | Kernel_setArg k i v => fun _ => set_arg k i v s
  | EnqueueNDRangeKernel q k _ => fun event => add_launch q k event s
  | Event_wait (Some e) => fun _ => add_waited e s
  | _ => fun _ => s
  end.

(** A handle not given out yet. *)
Definition fresh_handle (l : list Z) : Z := foldr Z.max 0 l + 1.

Lemma fresh_handle_above l x : x ∈ l -> x < fresh_handle l.
Proof.
  unfold fresh_handle. induction l as [|y l IH]; [by intros ?%elem_of_nil|].
  rewrite elem_of_cons. simpl. intros [->|Hx]; [lia|]. specialize (IH Hx). lia.
Qed.

Lemma fresh_handle_fresh l : fresh_handle l ∉ l.
Proof. intros H%fresh_handle_above. lia. Qed.

Lemma length_splice {A} off (new l : list A) :
  (off + length new <= length l)%nat -> length (splice off new l) = length l.
Proof. intros H. unfold splice. rewrite !length_app, length_take, length_drop. lia. Qed.

(** A splice that covers the whole. *)
Lemma splice_all {A} (new l : list A) : length new = length l -> splice 0 new l = new.
Proof.
  intros H. unfold splice. rewrite Nat.add_0_l, H, drop_all, app_nil_r. done.
Qed.
