(* ===== verification/Posix.v ===== *)
(** The operating system and C library calls of the socket programs, and the
    OpenCL calls of the FPGA host.

    [posix] is the call alphabet; every call's answer comes from the
    environment.  [AddrText] are the C library's address conversions, a
    parameter of the programs; [AddrTextOk] is what the manual pages say of
    their results.  [NetEnv] is the environment the theorems quantify over: its
    ghost state records what was sent, received and printed, and the questions
    and answers the specifications refer to. *)
From S2P Require Import Prelude CInt CLib Prog ClApi.
Local Open Scope Z_scope.

(** Socket addresses, by family ([sa_family]). *)
Inductive sockaddr : Type :=
| SaInet (s_addr : Z)
| SaInet6 (sin6_addr : list Z)
| SaPacket (sll_addr : list Z)
| SaOther (family : Z).

Record ifaddrs := { ifa_name : list Z; ifa_addr : option sockaddr }.

(** [struct sockaddr_ll], the fields the programs set. *)
Record sockaddr_ll := { sll_family : Z; sll_ifindex : Z; sll_halen : Z; sll_addr : list Z }.

(** [struct arpreq], the fields the programs use. *)
Record arpreq := { arp_pa : sockaddr; arp_dev : list Z }.

Definition AF_INET : Z := 2.
Definition AF_PACKET : Z := 17.
Definition SOCK_DGRAM : Z := 2.
Definition SOCK_RAW : Z := 3.
Definition ETH_P_ALL : Z := 3.
Definition ETH_ALEN : nat := 6.
Definition IFNAMSIZ : nat := 16.
Definition EXIT_SUCCESS : Z := 0.
Definition EXIT_FAILURE : Z := 1.

Inductive posix : Type -> Type :=
| Sigaction : posix Z
| SigintDelivered : posix bool
| Socket (domain type protocol : Z) : posix Z
| Bind (fd : Z) (a : sockaddr) : posix Z
| SendToLL (fd : Z) (buf : list Z) (dest : sockaddr_ll) : posix Z
| SendTo (fd : Z) (buf : list Z) (dest : sockaddr) : posix Z
| RecvFrom (fd len : Z) : posix (Z * list Z * sockaddr)
| Close (fd : Z) : posix Z
| Sleep (seconds : Z) : posix unit
| Printf (out : list Z) : posix unit
| Perror (msg : string) : posix unit
| Eprintf (out : list Z) : posix unit
| Getaddrinfo (host service : option (list Z)) (flags : Z) : posix (Z * sockaddr)
| GaiStrerror (error : Z) : posix (list Z)
| Freeaddrinfo : posix unit
| Getifaddrs : posix (option (list ifaddrs))
| Freeifaddrs : posix unit
| IoctlGetArp (fd : Z) (req : arpreq) : posix (Z * list Z)
| IfNametoindex (name : list Z) : posix Z
| Getenv (name : string) : posix (option (list Z))
| ReadFile (name : list Z) : posix (option (list Z))
| Cl {X : Type} (e : cl X) : posix (cl_error + X)
| StoreMapped (pointer : Z) (bytes : list Z) : posix unit.

(** ** Address text conversions *)

Class AddrText := {
  inet_pton4 : list Z -> option Z;
  inet_pton6 : list Z -> option (list Z);
  inet_ntop4 : Z -> list Z;
  inet_ntop6 : list Z -> list Z;
  ether_aton : list Z -> option (list Z);
  ether_ntoa : list Z -> list Z
}.

Class AddrTextOk (T : AddrText) : Prop := {
  inet_pton4_range : forall s a, inet_pton4 s = Some a -> is_u 32 a;
  inet_pton6_wf : forall s a, inet_pton6 s = Some a -> length a = 16%nat /\ wf_bytes a;
  ether_aton_wf : forall s a, ether_aton s = Some a -> length a = 6%nat /\ wf_bytes a
}.

(** ** The environment *)

(** What the program asked about hosts, interfaces and sockets, and the answers:
    the log that says which answer belongs to which question. *)
Inductive question : Type :=
| LResolve (host service : option (list Z)) (r : Z * sockaddr)
| LSocket (domain type protocol r : Z)
| LArp (fd : Z) (req : arpreq) (r : Z * list Z)
| LIfindex (name : list Z) (r : Z).

Record net := {
  sent : list (Z * list Z * sockaddr_ll);
  sent_in : list (Z * list Z * sockaddr);
  datagrams : list (list Z * sockaddr);
  printed : list (list Z);
  eprinted : list (list Z);
  polls : nat;
  if_list : option (list ifaddrs);
  resolved : Z * sockaddr;
  arp_reply : Z * list Z;
  environ : string -> option (list Z);
  files : list Z -> option (list Z);
  lookups : list question;
  faults : nat;  (** system calls that failed *)
  opencl : cl_state
}.

Definition net0 : net :=
  {| sent := []; sent_in := []; datagrams := []; printed := []; eprinted := []; polls := 0; if_list := None;
     resolved := (0, SaOther 0); arp_reply := (0, []); environ := fun _ => None;
     files := fun _ => None; lookups := []; faults := 0; opencl := cl_init machine0 |}.

Definition add_sent x (g : net) : net :=
  {| sent := sent g ++ [x]; sent_in := sent_in g; datagrams := datagrams g;
     printed := printed g;
     eprinted := eprinted g; polls := polls g;
     if_list := if_list g; resolved := resolved g; arp_reply := arp_reply g;
     environ := environ g; files := files g; lookups := lookups g; faults := faults g;
     opencl := opencl g |}.
Definition add_sent_in x (g : net) : net :=
  {| sent := sent g; sent_in := sent_in g ++ [x]; datagrams := datagrams g;
     printed := printed g;
     eprinted := eprinted g; polls := polls g;
     if_list := if_list g; resolved := resolved g; arp_reply := arp_reply g;
     environ := environ g; files := files g; lookups := lookups g; faults := faults g;
     opencl := opencl g |}.
Definition add_datagram x (g : net) : net :=
  {| sent := sent g; sent_in := sent_in g; datagrams := datagrams g ++ [x];
     printed := printed g; eprinted := eprinted g; polls := polls g;
     if_list := if_list g; resolved := resolved g; arp_reply := arp_reply g;
     environ := environ g; files := files g; lookups := lookups g; faults := faults g;
     opencl := opencl g |}.
Definition add_printed l (g : net) : net :=
  {| sent := sent g; sent_in := sent_in g; datagrams := datagrams g;
     printed := printed g ++ l;
     eprinted := eprinted g; polls := polls g;
     if_list := if_list g; resolved := resolved g; arp_reply := arp_reply g;
     environ := environ g; files := files g; lookups := lookups g; faults := faults g;
     opencl := opencl g |}.
Definition add_eprinted l (g : net) : net :=
  {| sent := sent g; sent_in := sent_in g; datagrams := datagrams g;
     printed := printed g; eprinted := eprinted g ++ l;
     polls := polls g; if_list := if_list g; resolved := resolved g; arp_reply := arp_reply g;
     environ := environ g; files := files g; lookups := lookups g; faults := faults g;
     opencl := opencl g |}.
Definition add_poll (g : net) : net :=
  {| sent := sent g; sent_in := sent_in g; datagrams := datagrams g;
     printed := printed g;
     eprinted := eprinted g; polls := S (polls g);
     if_list := if_list g; resolved := resolved g; arp_reply := arp_reply g;
     environ := environ g; files := files g; lookups := lookups g; faults := faults g;
     opencl := opencl g |}.
Definition set_if_list x (g : net) : net :=
  {| sent := sent g; sent_in := sent_in g; datagrams := datagrams g;
     printed := printed g;
     eprinted := eprinted g; polls := polls g;
     if_list := x; resolved := resolved g; arp_reply := arp_reply g;
     environ := environ g; files := files g; lookups := lookups g; faults := faults g;
     opencl := opencl g |}.
Definition set_resolved x (g : net) : net :=
  {| sent := sent g; sent_in := sent_in g; datagrams := datagrams g;
     printed := printed g;
     eprinted := eprinted g; polls := polls g;
     if_list := if_list g; resolved := x; arp_reply := arp_reply g;
     environ := environ g; files := files g; lookups := lookups g; faults := faults g;
     opencl := opencl g |}.
Definition set_arp_reply x (g : net) : net :=
  {| sent := sent g; sent_in := sent_in g; datagrams := datagrams g;
     printed := printed g;
     eprinted := eprinted g; polls := polls g;
     if_list := if_list g; resolved := resolved g; arp_reply := x;
     environ := environ g; files := files g; lookups := lookups g; faults := faults g;
     opencl := opencl g |}.
Definition add_lookup x (g : net) : net :=
  {| sent := sent g; sent_in := sent_in g; datagrams := datagrams g;
     printed := printed g;
     eprinted := eprinted g; polls := polls g;
     if_list := if_list g; resolved := resolved g; arp_reply := arp_reply g;
     environ := environ g; files := files g; lookups := lookups g ++ [x];
     faults := faults g; opencl := opencl g |}.
(** The state after a call that [failed] or not. *)
Definition note_fault (failed : bool) (g : net) : net :=
  {| sent := sent g; sent_in := sent_in g; datagrams := datagrams g;
     printed := printed g;
     eprinted := eprinted g; polls := polls g;
     if_list := if_list g; resolved := resolved g; arp_reply := arp_reply g;
     environ := environ g; files := files g; lookups := lookups g;
     faults := if failed then S (faults g) else faults g; opencl := opencl g |}.
Definition add_fault (g : net) : net := note_fault true g.
Definition set_opencl x (g : net) : net :=
  {| sent := sent g; sent_in := sent_in g; datagrams := datagrams g;
     printed := printed g;
     eprinted := eprinted g; polls := polls g;
     if_list := if_list g; resolved := resolved g; arp_reply := arp_reply g;
     environ := environ g; files := files g; lookups := lookups g; faults := faults g;
     opencl := x |}.

(** Object sizes in the answers: bytes are bytes, hardware addresses fill
    [sa_data], a successful receive fits its buffer. *)
Definition sockaddr_ok (a : sockaddr) : Prop :=
  match a with
  | SaInet x => is_u 32 x
  | SaInet6 l => length l = 16%nat /\ wf_bytes l
  | SaPacket l => (6 <= length l)%nat /\ wf_bytes l
  | SaOther _ => True
  end.

Definition ifaddrs_ok (i : ifaddrs) : Prop :=
  match ifa_addr i with Some a => sockaddr_ok a | None => True end.

(** [sigint n] is whether SIGINT has been delivered by the [n]-th check of the
    loop flag; the theorems hold for every such schedule. *)
Section env.
Variable sigint : nat -> bool.

Definition net_legal (X : Type) (g : net) (e : posix X) : X -> Prop :=
  match e in posix X return X -> Prop with
  | SigintDelivered => fun b => b = sigint (polls g)
  | Getaddrinfo _ _ _ => fun r => sockaddr_ok r.2 /\ (r.1 = 0 -> exists x, r.2 = SaInet x)
  | Getifaddrs => fun r => match r with Some l => Forall ifaddrs_ok l | None => True end
  | IoctlGetArp _ _ => fun r => length r.2 = 14%nat /\ wf_bytes r.2
  | Getenv name => fun r => r = environ g name
  | ReadFile name => fun r => r = files g name
  | Cl e => fun r => match r with inl _ => True | inr x => cl_legal _ (opencl g) e x end
  | RecvFrom _ len => fun r =>
      r.1.1 = -1 \/ (0 <= r.1.1 <= len /\ Z.of_nat (length r.1.2) = r.1.1 /\ wf_bytes r.1.2)
  | _ => fun _ => True
  end.

Definition net_next (X : Type) (g : net) (e : posix X) : X -> net :=
  match e in posix X return X -> net with
  | SigintDelivered => fun _ => add_poll g
  | Sigaction => fun r => note_fault (negb (r =? 0)) g
  | Bind _ _ => fun r => note_fault (r =? -1) g
  | SendToLL fd buf dest => fun r => if r =? -1 then add_fault g else add_sent (fd, buf, dest) g
  | SendTo fd buf dest => fun r =>
      if r =? -1 then add_fault g
      else if r =? Z.of_nat (length buf) then add_sent_in (fd, buf, dest) g
      else add_fault (add_sent_in (fd, buf, dest) g)
  | Printf out => fun _ => add_printed [out] g
  | Eprintf out => fun _ => add_eprinted [out] g
  | RecvFrom _ _ => fun r => if r.1.1 =? -1 then add_fault g else add_datagram (r.1.2, r.2) g
  | Getifaddrs => fun r =>
      note_fault (match r with None => true | Some _ => false end) (set_if_list r g)
  | Getaddrinfo host service _ => fun r =>
      note_fault (negb (r.1 =? 0)) (add_lookup (LResolve host service r) (set_resolved r g))
  | Socket domain type protocol => fun r =>
      note_fault (r =? -1) (add_lookup (LSocket domain type protocol r) g)
  | IoctlGetArp fd req => fun r =>
      note_fault (r.1 =? -1) (add_lookup (LArp fd req r) (set_arp_reply r g))
  | IfNametoindex name => fun r => note_fault (r =? 0) (add_lookup (LIfindex name r) g)
  | Cl e => fun r =>
      match r with
      | inl _ => g
      | inr x => set_opencl (cl_next _ (opencl g) e x) g
      end
  | StoreMapped p bytes => fun _ => set_opencl (store_mapped p bytes (opencl g)) g
  | _ => fun _ => g
  end.

Definition NetEnv : EnvSpec posix net := {| legal := net_legal; gnext := net_next |}.

End env.

Abbreviation net_wp sigint := (@wp posix net (NetEnv sigint) _).

(** ** Derived operations *)

Section ops.
Context {S : Type}.

Fixpoint printf_all (l : list (list Z)) : M posix S unit :=
  match l with
  | [] => ret tt
  | o :: l => bind (call (Printf o)) (fun _ => printf_all l)
  end.

(** [perror(msg); exit(EXIT_FAILURE);] *)
Definition die {A} (msg : string) : M posix S A :=
  bind (call (Perror msg)) (fun _ => exit_ EXIT_FAILURE).

End ops.

(** Answers are legal: the environment can always respond. *)
Lemma net_inhabited sigint X (g : net) (e : posix X) : exists x, net_legal sigint X g e x.
Proof.
  destruct e; simpl; try (by eexists);
    try (by exists tt); try (by exists 0); try (by exists None); try (by exists true).
  - exists (-1, [], SaOther 0). by left.
  - exists (0, SaInet 0). split; [cbn; unfold is_u; lia|eauto].
  - by exists [].
  - exists (0, replicate 14 0). split; [done|]. apply Forall_replicate. unfold is_byte. lia.
  - by exists (inl {| err := 0; what := [] |}).
Qed.

Lemma add_printed_nil g : add_printed [] g = g.
Proof. unfold add_printed. rewrite app_nil_r. by destruct g. Qed.

Lemma add_printed_app l l' g : add_printed l' (add_printed l g) = add_printed (l ++ l') g.
Proof. unfold add_printed. simpl. by rewrite <- app_assoc. Qed.

Lemma wp_printf_all {S} sigint (l : list (list Z)) (s : S) Q (g : net) :
  Q (Done tt s) (add_printed l g) -> net_wp sigint (printf_all l s) Q g.
Proof.
  revert g. induction l as [|o l IH]; intros g HQ; simpl.
  - by rewrite add_printed_nil in HQ.
  - intros x _. apply IH. by rewrite add_printed_app.
Qed.

(** Symbolic execution against [NetEnv]. *)
Ltac net_steps :=
  repeat first [wp_step | progress cbn [legal gnext NetEnv net_legal net_next] in * ].

Lemma wp_die {S A} sigint msg (s : S) (Q : outcome S A -> net -> Prop) (g : net) :
  Q (Exit EXIT_FAILURE s) g -> net_wp sigint (die msg s) Q g.
Proof. intros HQ. unfold die. by net_steps. Qed.

(** Nothing new was asked. *)
Definition asked (g g' : net) : Prop := lookups g' = lookups g /\ if_list g' = if_list g.

(** How a program with one loop ended after [n] turns, the first test of the flag
    being test [0]: it returns [result] at the first test after SIGINT, exits with
    EXIT_FAILURE, is out of fuel with SIGINT still to come, or has run into one of
    the undefined behaviours [undefs]. *)
Definition paced {S A} (result : A) (sigint : nat -> bool) (fuel n : nat) (undefs : list string)
    (o : outcome S A) : Prop :=
  let running := forall i, (i < n)%nat -> sigint i = false in
  match o with
  | Done r _ => r = result /\ (n < fuel)%nat /\ sigint n = true /\ running
  | Exit code _ => code = EXIT_FAILURE /\ (n <= fuel)%nat /\ running
  | NoFuel _ => n = fuel /\ running
  | Undef w => w ∈ undefs
  end.

(** A program that exits on every failure, and only then: [before] failures are
    from before it. *)
Definition blamed {S A} (before : nat) (o : outcome S A) (g' : net) : Prop :=
  match o with
  | Exit _ _ => (before < faults g')%nat
  | Undef _ => True
  | _ => faults g' = before
  end.

(** A computation that transmits nothing and does not consult the loop flag. *)
Definition quiet (g g' : net) : Prop :=
  sent g' = sent g /\ sent_in g' = sent_in g /\ opencl g' = opencl g /\ polls g' = polls g.

#[export] Instance quiet_preorder : PreOrder quiet.
Proof.
  split; [by intros g|]. intros g1 g2 g3 (? & ? & ? & ?) (? & ? & ? & ?).
  unfold quiet. by intuition congruence.
Qed.

(** [m] is quiet, keeps the program state, and its results satisfy [P]. *)
Definition quiet_spec {S A} sigint (m : M posix S A) (P : A -> Prop) : Prop :=
  forall s g, net_wp sigint (m s)
    (fun o g' => quiet g g' /\ forall a s', o = Done a s' -> s' = s /\ P a) g.

Lemma quiet_bind {S A B} sigint (m : M posix S A) (f : A -> M posix S B) P Q :
  quiet_spec sigint m P -> (forall a, P a -> quiet_spec sigint (f a) Q) ->
  quiet_spec sigint (bind m f) Q.
Proof.
  intros Hm Hf s g. apply wp_bind. eapply wp_mono; [apply Hm|].
  intros o g' [Hq Ho]. destruct o as [a s'|c s'|w|s']; net_steps; try by split.
  destruct (Ho a s' eq_refl) as [-> HP]. eapply wp_mono; [by apply Hf|].
  intros o g2 [Hq2 Ho2]. split; [by etransitivity|done].
Qed.

Lemma quiet_ret {S A} sigint (a : A) (P : A -> Prop) : P a -> quiet_spec sigint (ret (S:=S) a) P.
Proof. intros HP s g. net_steps. split; [done|]. by intros ? ? [= <- <-]. Qed.

Lemma quiet_undef {S A} sigint why (P : A -> Prop) : quiet_spec sigint (undef (S:=S) why) P.
Proof. intros s g. net_steps. by split. Qed.

Lemma quiet_die {S A} sigint msg (P : A -> Prop) : quiet_spec sigint (die (S:=S) msg) P.
Proof. intros s g. apply wp_die. by split. Qed.

Lemma quiet_defined {S A} sigint why (o : option A) (P : A -> Prop) :
  (forall a, o = Some a -> P a) -> quiet_spec sigint (defined (S:=S) why o) P.
Proof. destruct o; intros HP; [by apply quiet_ret, HP|apply quiet_undef]. Qed.

Lemma quiet_call {S X} sigint (e : posix X) :
  (forall g x, net_legal sigint X g e x -> quiet g (net_next X g e x)) ->
  quiet_spec sigint (call (S:=S) e) (fun x => exists g, net_legal sigint X g e x).
Proof.
  intros He s g. cbn [call wp]. intros x Hx. split; [by apply He|].
  intros a s' [= <- <-]. split; [done|by exists g].
Qed.

Lemma quiet_mono {S A} sigint (m : M posix S A) (P P' : A -> Prop) :
  quiet_spec sigint m P -> (forall a, P a -> P' a) -> quiet_spec sigint m P'.
Proof.
  intros Hm HP s g. eapply wp_mono; [apply Hm|]. intros o g' [Hq Ho]. split; [done|].
  intros a s' E. destruct (Ho a s' E). auto.
Qed.

Lemma quiet_printf_all {S} sigint (l : list (list Z)) :
  quiet_spec sigint (printf_all (S:=S) l) (fun _ => True).
Proof. intros s g. apply wp_printf_all. split; [done|]. by intros ? ? [= _ <-]. Qed.

(** A concrete text conversion, for evaluating the programs: it knows no
    address but one of each family. *)
Definition text_example : AddrText :=
  {| inet_pton4 := fun _ => Some 0x6805950a;
     inet_pton6 := fun _ => Some [0xfe; 0x80; 0; 0; 0; 0; 0; 0; 6; 0x3f; 0x72; 0xff; 0xfe; 0xd4; 0x2f; 0x7c];
     inet_ntop4 := fun _ => string_bytes "10.149.5.104";
     inet_ntop6 := fun _ => string_bytes "fe80::63f:72ff:fed4:2f7c";
     ether_aton := fun _ => Some [0x04; 0x3f; 0x72; 0xd4; 0x2f; 0x7c];
     ether_ntoa := fun _ => string_bytes "4:3f:72:d4:2f:7c" |}.

Lemma text_example_ok : AddrTextOk text_example.
Proof.
  split; simpl; intros s a [= <-].
  - unfold is_u. lia.
  - split; [done|]. repeat constructor; discriminate.
  - split; [done|]. repeat constructor; discriminate.
Qed.
