(* ===== verification/LookupAddr.v ===== *)
(** lookup_addr.h, lookup_addr.c: the addresses of the local interface and of
    the remote host. *)
From S2P Require Import Prelude CInt CLib Prog Posix.
Local Open Scope Z_scope.
Local Open Scope c_scope.

(** [struct addr]. *)
Record addr := { mac : list Z; ipv4 : Z; ipv6 : list Z }.

(** [struct addr x = { 0 };] *)
Definition addr0 : addr := {| mac := replicate 6 0; ipv4 := 0; ipv6 := replicate 16 0 |}.

Definition set_mac (m : list Z) (a : addr) : addr :=
  {| mac := m; ipv4 := ipv4 a; ipv6 := ipv6 a |}.
Definition set_ipv4 (x : Z) (a : addr) : addr :=
  {| mac := mac a; ipv4 := x; ipv6 := ipv6 a |}.
Definition set_ipv6 (x : list Z) (a : addr) : addr :=
  {| mac := mac a; ipv4 := ipv4 a; ipv6 := x |}.

Definition wf_addr (a : addr) : Prop :=
  (length (mac a) = 6%nat /\ wf_bytes (mac a)) /\ is_u 32 (ipv4 a) /\
  (length (ipv6 a) = 16%nat /\ wf_bytes (ipv6 a)).

Section code.
Context `{!AddrText} {S : Type}.

Definition print_addr (a : addr) : M posix S unit :=
  printf_all
    [ string_bytes "IPv4: " ++ inet_ntop4 (ipv4 a) ++ [10];
      string_bytes "IPv6: " ++ inet_ntop6 (ipv6 a) ++ [10];
      string_bytes "MAC: " ++ ether_ntoa (mac a) ++ [10] ].

(** [if (ipv6) inet_pton(AF_INET6, ipv6, &remote.ipv6);] *)
Definition store_pton6 (text : option (list Z)) (a : addr) : addr :=
  match text with
  | None => a
  | Some t => match inet_pton6 t with Some x => set_ipv6 x a | None => a end
  end.

Definition lookup_remote_addr (interface host : list Z) (ipv6 : option (list Z))
    : M posix S addr :=
  let! (result, ai_addr) := call (Getaddrinfo (Some host) None 0) in
  (if result =? 0 then ret tt
   else let! e := call (GaiStrerror result) in
        call (Eprintf (string_bytes "Error finding remote adddress: " ++ e ++ [10]))) ;!
  (* [res] is uninitialised when getaddrinfo failed *)
  if negb (result =? 0) then undef "res->ai_addr: res is uninitialised" else
  let req := {| arp_pa := ai_addr; arp_dev := strncpy interface IFNAMSIZ |} in
  let! sock := call (Socket AF_INET SOCK_DGRAM 0) in
  if sock =? -1 then die "socket" else
  let! (r, sa_data) := call (IoctlGetArp sock req) in
  if r =? -1 then die "ioctl" else
  let! _ := call (Close sock) in
  match ai_addr with
  | SaInet s_addr => ret (store_pton6 ipv6 (set_ipv4 s_addr (set_mac (take ETH_ALEN sa_data) addr0)))
  | _ => undef "ai_addr is not a sockaddr_in"
  end.

(** One iteration of the loop over the interface list. *)
Definition lookup_local_step (interface : list Z) (curr : ifaddrs) (local : addr)
    : M posix S addr :=
  if negb (bool_decide (interface = ifa_name curr)) then ret local else
  match ifa_addr curr with
  | None => undef "curr->ifa_addr is NULL"
  | Some (SaInet s_addr) => ret (set_ipv4 s_addr local)
  | Some (SaInet6 a) => ret (set_ipv6 a local)
  | Some (SaPacket m) => ret (set_mac (take ETH_ALEN m) local)
  | Some (SaOther _) =>
      call (Printf (string_bytes "Found unknown IF family type!" ++ [10])) ;! ret local
  end.

Fixpoint lookup_local_loop (interface : list Z) (curr : list ifaddrs) (local : addr)
    : M posix S addr :=
  match curr with
  | [] => ret local
  | c :: rest =>
      let! local := lookup_local_step interface c local in
      lookup_local_loop interface rest local
  end.

Definition lookup_local_addr (interface : list Z) : M posix S addr :=
  let! r := call Getifaddrs in
  match r with
  | None => die "failed to enumerate NICs"
  | Some if_addrs =>
      let! local := lookup_local_loop interface if_addrs addr0 in
      call Freeifaddrs ;! ret local
  end.

Definition addr_from_strings (mac ipv4_string ib_gid : list Z) : M posix S addr :=
  match ether_aton mac with
  | None => undef "ether_aton returned NULL"
  | Some m =>
      let ipv4 := match inet_pton4 ipv4_string with Some a => a | None => 0 end in
      ret (store_pton6 (Some ib_gid) (set_ipv4 ipv4 (set_mac m addr0)))
  end.

End code.

(** ** Specification *)

(** The entries of the interface, and the last value a selector finds. *)
Definition entries (interface : list Z) (l : list ifaddrs) : list sockaddr :=
  omap ifa_addr (filter (fun c => interface = ifa_name c) l).

Definition last_of {A} (f : sockaddr -> option A) (l : list sockaddr) (d : A) : A :=
  default d (last (omap f l)).

Definition sel_inet (a : sockaddr) : option Z :=
  match a with SaInet x => Some x | _ => None end.
Definition sel_inet6 (a : sockaddr) : option (list Z) :=
  match a with SaInet6 x => Some x | _ => None end.
Definition sel_packet (a : sockaddr) : option (list Z) :=
  match a with SaPacket x => Some (take ETH_ALEN x) | _ => None end.

(** The local address: per family, the last entry of the interface. *)
Definition local_addr_spec (interface : list Z) (l : list ifaddrs) (d : addr) : addr :=
  let es := entries interface l in
  {| mac := last_of sel_packet es (mac d); ipv4 := last_of sel_inet es (ipv4 d);
     ipv6 := last_of sel_inet6 es (ipv6 d) |}.

Definition no_null (interface : list Z) (l : list ifaddrs) : Prop :=
  Forall (fun c => interface = ifa_name c -> ifa_addr c <> None) l.

(** ** Lemmas *)

Lemma last_of_nil {A} (f : sockaddr -> option A) d : last_of f [] d = d.
Proof. done. Qed.

Lemma last_of_cons {A} (f : sockaddr -> option A) a l d :
  last_of f (a :: l) d = last_of f l (match f a with Some x => x | None => d end).
Proof.
  unfold last_of. simpl. destruct (f a) as [x|]; [|done].
  rewrite last_cons. fold (omap f l). by destruct (last (omap f l)).
Qed.

Lemma wf_addr0 : wf_addr addr0.
Proof.
  unfold wf_addr, addr0, is_u. simpl. repeat split; try lia;
    repeat constructor; unfold is_byte; lia.
Qed.

Lemma local_addr_spec_cons interface c l d :
  local_addr_spec interface (c :: l) d =
    local_addr_spec interface l
      (if decide (interface = ifa_name c) then
         match ifa_addr c with Some a => local_addr_spec interface [c] d | None => d end
       else d).
Proof.
  unfold local_addr_spec, entries. rewrite !filter_cons.
  destruct (decide (interface = ifa_name c)) as [E|E]; [|by destruct d].
  cbn [omap list_omap]. destruct (ifa_addr c) as [a|]; [|by destruct d].
  rewrite !last_of_cons. simpl.
  by destruct a, d.
Qed.

Section proofs.
Context `{!AddrText} `{!AddrTextOk _} {S : Type} (sigint : nat -> bool).
Local Abbreviation wpn := (net_wp sigint).

Lemma local_addr_spec_wf interface l d :
  Forall ifaddrs_ok l -> wf_addr d -> wf_addr (local_addr_spec interface l d).
Proof.
  intros Hl. revert d. induction Hl as [|c l Hc Hl IH]; intros d Hd; [by destruct d|].
  rewrite local_addr_spec_cons. apply IH.
  destruct (decide _) as [E|]; [|done]. unfold ifaddrs_ok in Hc.
  unfold local_addr_spec, entries. rewrite filter_cons, decide_True by done.
  simpl. destruct (ifa_addr c) as [a|]; [|done].
  destruct Hd as ([H1 H1'] & H2 & [H3 H3']). unfold wf_addr, last_of.
  destruct a as [x|x|x|x]; simpl in Hc |- *; repeat split; try done; try apply Hc; try apply H2.
  - destruct Hc. rewrite length_take. unfold ETH_ALEN. lia.
  - apply Forall_take, Hc.
Qed.

Lemma lookup_local_loop_spec interface l local (s : S) (g : net) (Q : _ -> net -> Prop) :
  no_null interface l ->
  (forall p, Q (Done (local_addr_spec interface l local) s) (add_printed p g)) ->
  wpn (lookup_local_loop interface l local s) Q g.
Proof.
  intros Hl. revert local g. induction Hl as [|c l Hc Hl IH]; intros local g HQ.
  - specialize (HQ []). rewrite add_printed_nil in HQ. by destruct local.
  - cbn [lookup_local_loop]. apply wp_bind. unfold lookup_local_step.
    setoid_rewrite local_addr_spec_cons in HQ.
    destruct (decide (interface = ifa_name c)) as [E|E].
    + rewrite bool_decide_true by done. cbn [negb].
      destruct (ifa_addr c) as [a|] eqn:Ea; [|by destruct (Hc E)].
      unfold local_addr_spec at 2, entries in HQ.
      rewrite filter_cons, decide_True in HQ by done. simpl in HQ. rewrite Ea in HQ.
      destruct a; net_steps; apply IH; intros p; try exact (HQ p).
      rewrite add_printed_app. exact (HQ _).
    + rewrite bool_decide_false by done. wp_steps. by apply IH.
Qed.

Lemma lookup_local_loop_null interface l local (s : S) (g : net) (Q : _ -> net -> Prop) :
  ~ no_null interface l ->
  (forall p, Q (Undef "curr->ifa_addr is NULL") (add_printed p g)) ->
  wpn (lookup_local_loop interface l local s) Q g.
Proof.
  intros Hl HQ. revert local g Hl HQ. induction l as [|c l IH]; intros local g Hl HQ.
  - destruct Hl. constructor.
  - cbn [lookup_local_loop]. apply wp_bind. unfold lookup_local_step.
    case_bool_decide as E; cbn [negb].
    + destruct (ifa_addr c) as [a|] eqn:Ea.
      2: { net_steps. specialize (HQ []). by rewrite add_printed_nil in HQ. }
      assert (~ no_null interface l).
      { intros H'. apply Hl. constructor; [congruence|done]. }
      destruct a; net_steps; apply IH; try done.
      intros p. rewrite add_printed_app. apply HQ.
    + net_steps. apply IH; [|done]. intros H'. apply Hl. by constructor.
Qed.

(** The lookups transmit nothing and return well-formed addresses. *)
Lemma quiet_local_loop interface l local :
  Forall ifaddrs_ok l -> wf_addr local ->
  quiet_spec (S:=S) sigint (lookup_local_loop interface l local) wf_addr.
Proof.
  intros Hl. revert local. induction Hl as [|c l Hc Hl IH]; intros local Hw.
  - by apply quiet_ret.
  - apply (quiet_bind _ _ _ wf_addr); [|done]. unfold lookup_local_step.
    case_bool_decide; cbn [negb]; [|by apply quiet_ret]. unfold ifaddrs_ok in Hc.
    destruct Hw as (H1 & H2 & H3).
    destruct (ifa_addr c) as [[x|x|x|x]|]; [| | | |apply quiet_undef].
    1-3: apply quiet_ret; unfold wf_addr; simpl in *; repeat split; try apply H1; try apply H3;
      try apply H2; try apply Hc.
    + destruct Hc. rewrite length_take. unfold ETH_ALEN. lia.
    + apply Forall_take, Hc.
    + apply (quiet_bind _ _ _ (fun _ => True)); [|intros; by apply quiet_ret].
      eapply quiet_mono; [by apply quiet_call|done].
Qed.

Lemma quiet_lookup_local interface :
  quiet_spec (S:=S) sigint (lookup_local_addr interface) wf_addr.
Proof.
  eapply quiet_bind; [by apply quiet_call|]. intros [l|] [g Hl]; [|apply quiet_die].
  eapply quiet_bind; [by apply quiet_local_loop, wf_addr0|]. intros local Hw.
  eapply quiet_bind; [by apply quiet_call|]. intros _ _. by apply quiet_ret.
Qed.

Lemma wf_store_pton6 t a : wf_addr a -> wf_addr (store_pton6 t a).
Proof.
  intros Ha. destruct t as [t|]; [|done]. unfold store_pton6. destruct (inet_pton6 t) eqn:E; [|done].
  destruct Ha as (H1 & H2 & _). split; [done|]. split; [done|]. by eapply inet_pton6_wf.
Qed.

Lemma quiet_lookup_remote interface host ipv6 :
  quiet_spec (S:=S) sigint (lookup_remote_addr interface host ipv6) wf_addr.
Proof.
  eapply quiet_bind; [by apply quiet_call|]. intros [r ai] [g [Hok _]].
  apply (quiet_bind _ _ _ (fun _ => True)).
  { destruct (r =? 0); [by apply quiet_ret|]. eapply quiet_bind; [by apply quiet_call|].
    intros e _. eapply quiet_mono; [by apply quiet_call|done]. }
  intros _ _. destruct (negb (r =? 0)); [apply quiet_undef|].
  eapply quiet_bind; [by apply quiet_call|]. intros sock _.
  destruct (sock =? -1); [apply quiet_die|].
  eapply quiet_bind; [by apply quiet_call|]. intros [r' data] [g' [Hlen Hb]].
  cbn [fst snd] in *. destruct (r' =? -1); [apply quiet_die|].
  eapply quiet_bind; [by apply quiet_call|]. intros _ _.
  destruct ai as [x| | |]; try apply quiet_undef. apply quiet_ret, wf_store_pton6.
  unfold wf_addr. simpl. split; [split|split; [done|apply wf_addr0]].
  - by rewrite length_take, Hlen.
  - by apply Forall_take.
Qed.

Lemma quiet_addr_from_strings m a gid :
  quiet_spec (S:=S) sigint (addr_from_strings m a gid) wf_addr.
Proof.
  unfold addr_from_strings. destruct (ether_aton m) as [x|] eqn:E; [|apply quiet_undef].
  apply quiet_ret, wf_store_pton6. unfold wf_addr. simpl.
  split; [by eapply ether_aton_wf|]. split; [|apply wf_addr0].
  destruct (inet_pton4 a) eqn:E4; [by eapply inet_pton4_range|unfold is_u; lia].
Qed.

Lemma quiet_print_addr a : quiet_spec (S:=S) sigint (print_addr a) (fun _ => True).
Proof. apply quiet_printf_all. Qed.

End proofs.

#[export] Instance no_null_dec interface l : Decision (no_null interface l).
Proof. unfold no_null. apply _. Defined.

(** [lookup_local_addr] asks nothing of the resolver and the ARP table. *)
Definition local_result {S} (interface : list Z) (s : S) (g : net) (o : outcome S addr)
    (g' : net) : Prop :=
  lookups g' = lookups g /\ blamed (faults g) o g' /\
  match if_list g' with
  | None => o = Exit EXIT_FAILURE s
  | Some l =>
      (no_null interface l ->
         o = Done (local_addr_spec interface l addr0) s /\
         wf_addr (local_addr_spec interface l addr0)) /\
      (~ no_null interface l -> o = Undef "curr->ifa_addr is NULL")
  end.

Lemma lookup_local_addr_spec {S} sigint interface (s : S) (g : net) :
  net_wp sigint (lookup_local_addr interface s) (local_result interface s g) g.
Proof.
  unfold lookup_local_addr, die, local_result. net_steps.
  destruct x as [l|]; net_steps; [|split; [done|]; split; [cbn; lia|done]].
  destruct (decide (no_null interface l)) as [Hl|Hl].
  - apply lookup_local_loop_spec; [done|]. intros p. net_steps. do 2 (split; [done|]). split; [|done].
    intros _. split; [done|]. apply local_addr_spec_wf; [done|apply wf_addr0].
  - apply lookup_local_loop_null; [done|]. intros p. do 2 (split; [done|]). by split.
Qed.

(** The address assembled from the answers of the resolver, of the kernel's ARP
    table, and from the text of the IPv6 address. *)
Definition remote_addr `{!AddrText} (ipv6 : option (list Z)) (x : Z) (sa_data : list Z) : addr :=
  {| mac := take ETH_ALEN sa_data; ipv4 := x;
     LookupAddr.ipv6 := default (replicate 16 0) (ipv6 ≫= inet_pton6) |}.

(** The questions of a lookup that got a socket: the host resolved to [x], the
    ARP entry of that address on the interface. *)
Definition remote_questions (interface host : list Z) (x fd : Z) (arp : Z * list Z) : list question :=
  [LResolve (Some host) None (0, SaInet x); LSocket AF_INET SOCK_DGRAM 0 fd;
   LArp fd {| arp_pa := SaInet x; arp_dev := strncpy interface IFNAMSIZ |} arp].

(** What [lookup_remote_addr] asked, [q], and what became of it. *)
Inductive remote_result `{!AddrText} {S} (interface host : list Z) (ipv6 : option (list Z)) (s : S) :
    list question -> outcome S addr -> Prop :=
| remote_unresolved r : r.1 <> 0 ->
    remote_result interface host ipv6 s [LResolve (Some host) None r]
      (Undef "res->ai_addr: res is uninitialised")
| remote_no_socket x :
    remote_result interface host ipv6 s
      [LResolve (Some host) None (0, SaInet x); LSocket AF_INET SOCK_DGRAM 0 (-1)]
      (Exit EXIT_FAILURE s)
| remote_no_arp x fd data : fd <> -1 ->
    remote_result interface host ipv6 s (remote_questions interface host x fd (-1, data))
      (Exit EXIT_FAILURE s)
| remote_found x fd arp : fd <> -1 -> arp.1 <> -1 -> wf_addr (remote_addr ipv6 x arp.2) ->
    remote_result interface host ipv6 s (remote_questions interface host x fd arp)
      (Done (remote_addr ipv6 x arp.2) s).

Lemma remote_addr_eq `{!AddrText} ipv6 x data :
  store_pton6 ipv6 (set_ipv4 x (set_mac (take ETH_ALEN data) addr0)) = remote_addr ipv6 x data.
Proof.
  unfold remote_addr. destruct ipv6 as [t|]; [|done]. simpl. by destruct (inet_pton6 t).
Qed.

Lemma wf_remote_addr `{!AddrText} `{!AddrTextOk _} ipv6 x data :
  is_u 32 x -> length data = 14%nat -> wf_bytes data -> wf_addr (remote_addr ipv6 x data).
Proof.
  intros Hx Hlen Hb. rewrite <- remote_addr_eq. apply wf_store_pton6. unfold wf_addr. simpl.
  split; [split|split; [done|apply wf_addr0]].
  - by rewrite length_take, Hlen.
  - by apply Forall_take.
Qed.

Lemma lookup_remote_addr_spec `{!AddrText} `{!AddrTextOk _} {S} sigint interface host ipv6 (s : S)
    (g : net) :
  net_wp sigint (lookup_remote_addr interface host ipv6 s)
    (fun o g' => exists q, lookups g' = lookups g ++ q /\ if_list g' = if_list g /\
       blamed (faults g) o g' /\ remote_result interface host ipv6 s q o) g.
Proof.
  unfold lookup_remote_addr, die. net_steps. destruct x as [r ai]. destruct Hx as [Hok Hai].
  cbn [fst snd] in *. net_steps. destruct (Z.eqb_spec r 0) as [->|Hr]; net_steps.
  2: { cbn [negb]. net_steps. eexists. do 3 (split; [done|]). by constructor. }
  cbn [negb]. destruct Hai as [a ->]; [done|]. net_steps.
  destruct (Z.eqb_spec x (-1)) as [->|Hfd]; net_steps.
  { eexists. split; [cbn; by rewrite <- app_assoc|]. split; [done|]. split; [cbn; lia|constructor]. }
  destruct x0 as [r data]. destruct Hx0 as [Hlen Hb]. cbn [snd] in *. net_steps.
  destruct (Z.eqb_spec r (-1)) as [->|Hr]; net_steps;
    (eexists; split; [cbn; by rewrite <- !app_assoc|]; split; [done|]).
  - split; [cbn; lia|]. by constructor.
  - rewrite remote_addr_eq. split; [cbn; by rewrite (proj2 (Z.eqb_neq _ _) Hr)|].
    apply (remote_found _ _ _ _ a x (r, data)); [done|done|by apply wf_remote_addr].
Qed.

(** ** Programs that look up both hosts *)

(** Where the addresses of a run come from: the local one from the list of
    interfaces, the remote one from the resolver and the ARP table; after
    [before], the program asked for these, the interface's index and [rest]. *)
Definition hosts_found `{!AddrText} (interface host : list Z) (ipv6 : option (list Z))
    (before rest : list question) (g : net) (local remote : addr) (ifindex : Z) : Prop :=
  (exists l, if_list g = Some l /\ local = local_addr_spec interface l addr0) /\
  exists x fd arp, remote = remote_addr ipv6 x arp.2 /\
    lookups g = before ++ remote_questions interface host x fd arp ++
                LIfindex interface ifindex :: rest.

(** The destination of a raw frame: the interface and the hardware address. *)
Definition link_address (ifindex : Z) (remote : addr) : sockaddr_ll :=
  {| sll_family := AF_PACKET; sll_ifindex := ifindex; sll_halen := 6;
     sll_addr := mac remote ++ [0; 0] |}.

(** An address given by its three texts. *)
Definition from_strings `{!AddrText} (mac_text ipv4_text gid_text : list Z) (a : addr) : Prop :=
  exists m, ether_aton mac_text = Some m /\
    a = {| mac := m; ipv4 := default 0 (inet_pton4 ipv4_text);
           ipv6 := default (replicate 16 0) (inet_pton6 gid_text) |}.

(** What the lookups leave undefined. *)
Definition lookup_undefs : list string :=
  ["res->ai_addr: res is uninitialised"; "curr->ifa_addr is NULL"].
Definition aton_undef : string := "ether_aton returned NULL".

Section steps.
Context `{!AddrText} `{!AddrTextOk _} {S A : Type} (sigint : nat -> bool).

Lemma wp_lookup_local interface (f : addr -> M posix S A) s (g : net)
    (Q : outcome S A -> net -> Prop) :
  (forall l g', quiet g g' -> lookups g' = lookups g -> if_list g' = Some l -> faults g' = faults g ->
     wf_addr (local_addr_spec interface l addr0) ->
     net_wp sigint (f (local_addr_spec interface l addr0) s) Q g') ->
  (forall g', quiet g g' -> (faults g < faults g')%nat -> Q (Exit EXIT_FAILURE s) g') ->
  (forall w g', w ∈ lookup_undefs -> quiet g g' -> Q (Undef w) g') ->
  net_wp sigint (bind (lookup_local_addr interface) f s) Q g.
Proof.
  intros HD HE HU. apply wp_bind.
  eapply wp_mono; [apply wp_and; [apply quiet_lookup_local|apply lookup_local_addr_spec]|].
  intros o g' [[Hq _] (Hl & Hb & Ho)]. destruct (if_list g') as [l|] eqn:El; [|subst o; by apply HE].
  destruct Ho as [H1 H2]. destruct (decide (no_null interface l)) as [Hn|Hn].
  - destruct (H1 Hn) as [-> Hw]. by apply HD.
  - rewrite (H2 Hn). apply HU; [by repeat constructor|done].
Qed.

Lemma wp_lookup_remote interface host ipv6 (f : addr -> M posix S A) s (g : net)
    (Q : outcome S A -> net -> Prop) :
  (forall x fd arp g', quiet g g' ->
     lookups g' = lookups g ++ remote_questions interface host x fd arp ->
     if_list g' = if_list g -> faults g' = faults g -> wf_addr (remote_addr ipv6 x arp.2) ->
     net_wp sigint (f (remote_addr ipv6 x arp.2) s) Q g') ->
  (forall g', quiet g g' -> (faults g < faults g')%nat -> Q (Exit EXIT_FAILURE s) g') ->
  (forall w g', w ∈ lookup_undefs -> quiet g g' -> Q (Undef w) g') ->
  net_wp sigint (bind (lookup_remote_addr interface host ipv6) f s) Q g.
Proof.
  intros HD HE HU. apply wp_bind.
  eapply wp_mono; [apply wp_and; [apply quiet_lookup_remote|apply lookup_remote_addr_spec]|].
  intros o g' [[Hq _] (q & Hl & Hi & Hb & Ho)].
  destruct Ho as [r Hr|x|x fd data Hfd|x fd arp Hfd Harp Hw]; try by apply HE.
  - apply HU; [by repeat constructor|done].
  - by apply (HD x fd arp).
Qed.

Lemma wp_addr_from_strings m a gid (f : addr -> M posix S A) s (g : net)
    (Q : outcome S A -> net -> Prop) :
  (forall r, from_strings m a gid r -> wf_addr r -> net_wp sigint (f r s) Q g) ->
  Q (Undef aton_undef) g -> net_wp sigint (bind (addr_from_strings m a gid) f s) Q g.
Proof.
  intros HD HU. pose proof (quiet_addr_from_strings (S:=S) sigint m a gid s g) as Hq.
  apply wp_bind. unfold addr_from_strings in *. destruct (ether_aton m) as [x|] eqn:Em; [|exact HU].
  cbn [ret wp continue] in *. destruct Hq as [_ Hq]. destruct (Hq _ _ eq_refl) as [_ Hw].
  apply HD; [|exact Hw]. exists x. split; [done|]. unfold store_pton6.
  by destruct (inet_pton4 a), (inet_pton6 gid).
Qed.

End steps.

(** ** Properties *)

(** C37: [lookup_local_addr] returns, per address family, the last entry the
    interface list has for the interface (zero when there is none); it exits
    when the list cannot be read, and is undefined exactly when an entry of the
    interface has no address ([getifaddrs] documents that [ifa_addr] may be
    null). *)
Theorem lookup_local_addr_correct {S} sigint interface (s : S) (g : net) :
  net_wp sigint (lookup_local_addr interface s)
    (fun o g' => match if_list g' with
                 | None => o = Exit EXIT_FAILURE s
                 | Some l =>
                     (no_null interface l ->
                        o = Done (local_addr_spec interface l addr0) s /\
                        wf_addr (local_addr_spec interface l addr0)) /\
                     (~ no_null interface l -> exists why, o = Undef why)
                 end) g.
Proof.
  eapply wp_mono; [apply lookup_local_addr_spec|]. intros o g' (_ & _ & Ho).
  destruct (if_list g') as [l|]; [|done]. destruct Ho as [H1 H2]. split; [done|]. eauto.
Qed.

(** C38: [lookup_remote_addr], by what it asked and was answered.  It resolves
    the host; opens a socket; asks for the ARP entry of the resolved address on
    the interface; and returns the hardware address of that entry, the resolved
    IPv4 address and the parsed IPv6 address.  It exits exactly when the socket
    or the ARP lookup fails, and asks nothing more then.  A failing
    [getaddrinfo] is reported but not handled: the uninitialised result is then
    dereferenced. *)
Theorem lookup_remote_addr_correct `{!AddrText} `{!AddrTextOk _} {S}
    sigint interface host ipv6 (s : S) (g : net) :
  net_wp sigint (lookup_remote_addr interface host ipv6 s)
    (fun o g' => exists q, lookups g' = lookups g ++ q /\ if_list g' = if_list g /\
       remote_result interface host ipv6 s q o) g.
Proof.
  eapply wp_mono; [apply lookup_remote_addr_spec|]. intros o g' (q & Hq & Hi & _ & Ho). by exists q.
Qed.

Lemma lookup_remote_addr_correct_witness :
  net_wp (fun _ => false)
    (@lookup_remote_addr text_example Z (string_bytes "eth0") (string_bytes "host") None 0)
    (fun o g' => exists q, lookups g' = q /\ if_list g' = None /\
       @remote_result text_example Z (string_bytes "eth0") (string_bytes "host") None 0 q o) net0.
Proof.
  apply (@lookup_remote_addr_correct text_example text_example_ok Z (fun _ => false)
           (string_bytes "eth0") (string_bytes "host") None 0 net0).
Defined.
