(* ===== verification/IbHeaders.v ===== *)
(** raw_ibverbs.c, first half: the InfiniBand checksums and the headers that do
    not depend on the payload. *)
From S2P Require Import Prelude CInt CLib RawPacket Crc32 Prog Posix LookupAddr.
Local Open Scope Z_scope.

Definition checksum_size : Z := 4.
Definition ib_transport_header_size : Z := sizeof_ib_bth + sizeof_ib_deth.
Definition total_header_size : Z := sizeof_ethhdr + sizeof_ib_headers.

(** ** The code *)

(** The local copies of the headers with the variant fields set to all ones
    ([= ~0], converted to the field's type). *)
Definition mask_grh (h : ib_grh) : ib_grh :=
  {| traffic_class_p1 := bf 4 (-1); ip_version := ip_version h;
     traffic_class_p2 := bf 4 (-1); flow_label := bf 20 (-1);
     payload_length := payload_length h; next_header := next_header h;
     hop_limit := u8 (-1); source := source h; dest := dest h |}.

Definition mask_bth (h : ib_bth) : ib_bth :=
  {| opcode := opcode h; transport_hdr_version := transport_hdr_version h;
     pad_count := pad_count h; migration_request := migration_request h;
     sollicited_event := sollicited_event h; partition_key := partition_key h;
     reserved1 := bf 8 (-1); destination_qp := destination_qp h;
     acknowledge_req := acknowledge_req h; reserved2 := reserved2 h;
     packet_sequence := packet_sequence h |}.

Definition ib_header_checksum (header : ib_headers) : option Z :=
  let ib_padding := u64 (-1) in
  let grh' := mask_grh (grh header) in
  let bth' := mask_bth (bth header) in
  let crc := 0 in
  crc ← crc32 crc (le_bytes 8 ib_padding) 8;
  crc ← crc32 crc (grh_bytes grh') sizeof_ib_grh;
  crc ← crc32 crc (bth_bytes bth') sizeof_ib_bth;
  crc32 crc (deth_bytes (deth header)) sizeof_ib_deth.

(** [ib_checksum]; the second component is what it prints. *)
Definition ib_checksum (packet : packet) : option (Z * list (list Z)) :=
  let data_length := ntohs (payload_length (grh (ib_header packet))) in
  let data_length := u64 (data_length - u32 (ib_transport_header_size + checksum_size)) in
  crc ← ib_header_checksum (ib_header packet);
  crc ← crc32 crc (data packet) data_length;
  let raw := le_bytes 4 crc in
  Some (crc,
    [ fmt_x crc ++ newline;
      fmt_x (nth_field 0 raw) ++ [32] ++ fmt_x (nth_field 1 raw) ++ [32] ++
      fmt_x (nth_field 2 raw) ++ [32] ++ fmt_x (nth_field 3 raw) ++ newline ]).

Definition init_eth (src dest : addr) (h : ethhdr) : ethhdr :=
  {| h_dest := mac dest; h_source := mac src; h_proto := htons 0x8915 |}.

Definition init_grh (src dest : addr) (h : ib_grh) : ib_grh :=
  let ib_length := u32 (MSG_SIZE + ib_transport_header_size + checksum_size) in
  {| traffic_class_p1 := traffic_class_p1 h; ip_version := bf 4 6;
     traffic_class_p2 := traffic_class_p2 h; flow_label := flow_label h;
     payload_length := htons ib_length;
     next_header := u8 27; hop_limit := u8 1;
     source := ipv6 src; dest := ipv6 dest |}.

Definition init_bth (qp : Z) (h : ib_bth) : ib_bth :=
  {| opcode := u8 0x64; transport_hdr_version := transport_hdr_version h;
     pad_count := pad_count h; migration_request := bf 1 1; sollicited_event := bf 1 0;
     partition_key := htons 0xFFFF;
     reserved1 := reserved1 h;
     destination_qp := bf 24 (htonl (u32 (Z.shiftl qp 8)));
     acknowledge_req := acknowledge_req h; reserved2 := reserved2 h;
     packet_sequence := packet_sequence h |}.

Definition init_deth (h : ib_deth) : ib_deth :=
  {| queue_key := htonl 0x11111111; reserved := reserved h;
     source_qp := bf 24 (htonl (Z.shiftl 0x182 8)) |}.

(** The packet after [init_invariant_headers]; the function's result is its
    [ib_header_checksum]. *)
Definition init_headers (p : packet) (src dest : addr) (qp : Z) : packet :=
  {| ether_header := init_eth src dest (ether_header p);
     ib_header := {| grh := init_grh src dest (grh (ib_header p));
                     bth := init_bth qp (bth (ib_header p));
                     deth := init_deth (deth (ib_header p)) |};
     data := data p |}.

Definition init_invariant_headers (p : packet) (src dest : addr) (qp : Z)
    : option (packet * Z) :=
  let p := init_headers p src dest qp in
  crc ← ib_header_checksum (ib_header p);
  Some (p, crc).

(** [static struct packet full_packet = { 0 };] *)
Definition full_packet0 : packet :=
  {| ether_header := {| h_dest := replicate 6 0; h_source := replicate 6 0; h_proto := 0 |};
     ib_header :=
       {| grh := {| traffic_class_p1 := 0; ip_version := 0; traffic_class_p2 := 0;
                    flow_label := 0; payload_length := 0; next_header := 0; hop_limit := 0;
                    source := replicate 16 0; dest := replicate 16 0 |};
          bth := {| opcode := 0; transport_hdr_version := 0; pad_count := 0;
                    migration_request := 0; sollicited_event := 0; partition_key := 0;
                    reserved1 := 0; destination_qp := 0; acknowledge_req := 0; reserved2 := 0;
                    packet_sequence := 0 |};
          deth := {| queue_key := 0; reserved := 0; source_qp := 0 |} |};
     data := replicate (Z.to_nat MSG_SIZE) 0 |}.

(** ** Specification *)

(** The bytes covered by the invariant checksum (InfiniBand's ICRC): 64 one
    bits, then the headers as sent, where the traffic class, flow label and hop
    limit of the GRH and the reserved byte of the BTH are all ones. *)
Definition icrc_mask (l : list Z) : list Z :=
  replicate 8 255 ++
  [Z.lor (nth_field 0 l) 15; 255; 255; 255] ++ field 4 3 l ++ [255] ++ field 8 36 l ++
  [255] ++ drop 45 l.

(** The invariant checksum of a packet with header bytes [hdr] (60 bytes) and
    payload [payload]. *)
Definition icrc (hdr payload : list Z) : Z := crc32_ref 0 (icrc_mask hdr ++ payload).

(** Headers that differ only in the variant fields. *)
Definition variant_eq (h h' : ib_headers) : Prop :=
  (ip_version (grh h) = ip_version (grh h') /\ payload_length (grh h) = payload_length (grh h') /\
   next_header (grh h) = next_header (grh h') /\ source (grh h) = source (grh h') /\
   dest (grh h) = dest (grh h')) /\
  mask_bth (bth h) = mask_bth (bth h') /\ deth h = deth h'.

(** ** Lemmas *)

Lemma wf_mask_grh h : wf_grh h -> wf_grh (mask_grh h).
Proof.
  intros (H1 & H2 & H3 & H4 & H5 & H6 & H7 & H8 & H9).
  unfold mask_grh, wf_grh, is_u, is_byte; simpl. repeat split; try done; apply H2 || apply H5 ||
    apply H6 || apply H8 || apply H9.
Qed.

Lemma wf_mask_bth h : wf_bth h -> wf_bth (mask_bth h).
Proof.
  intros (H1 & H2 & H3 & H4 & H5 & H6 & H7 & H8 & H9 & H10 & H11).
  unfold wf_bth, mask_bth; simpl. repeat (split; [assumption || by vm_compute|]). done.
Qed.

(** The bytes whose checksum [ib_header_checksum] computes. *)
Definition checksum_bytes (h : ib_headers) : list Z :=
  le_bytes 8 (u64 (-1)) ++ grh_bytes (mask_grh (grh h)) ++ bth_bytes (mask_bth (bth h)) ++
  deth_bytes (deth h).

Lemma wf_checksum_bytes h : wf_headers h -> wf_bytes (checksum_bytes h).
Proof.
  intros (Hg & Hb & _). unfold checksum_bytes.
  auto 6 using Forall_app_2, wf_grh_bytes, wf_bth_bytes, wf_deth_bytes, wf_mask_grh, wf_mask_bth
    with cint.
Qed.

Lemma crc32_exact crc l n :
  is_u 32 crc -> wf_bytes l -> Z.of_nat (length l) = n -> n <= INT_MAX ->
  crc32 crc l n = Some (crc32_ref crc l).
Proof. intros Hc Hl <- Hn. rewrite crc32_eq by (done || lia). by rewrite Nat2Z.id, take_ge. Qed.

Lemma ib_header_checksum_eq h :
  wf_headers h -> ib_header_checksum h = Some (crc32_ref 0 (checksum_bytes h)).
Proof.
  intros Hh. pose proof Hh as (Hg & Hb & Hd).
  pose proof (wf_grh_bytes _ (wf_mask_grh _ Hg)) as Wg.
  pose proof (wf_bth_bytes _ (wf_mask_bth _ Hb)) as Wb.
  pose proof (wf_deth_bytes (deth h)) as Wd. pose proof (wf_le_bytes 8 (u64 (-1))) as Wp.
  assert (H0 : is_u 32 0) by (unfold is_u; lia).
  unfold ib_header_checksum, checksum_bytes.
  rewrite crc32_exact; [|done|done|by rewrite length_le_bytes|done]. cbn [mbind option_bind].
  rewrite crc32_exact; [|auto with cint|done| |done].
  2: { rewrite length_grh_bytes; [done|]. by apply wf_mask_grh. }
  cbn [mbind option_bind].
  rewrite crc32_exact; [|auto with cint|done|by rewrite length_bth_bytes|done].
  cbn [mbind option_bind].
  rewrite crc32_exact; [|auto with cint|done|by rewrite length_deth_bytes|done].
  by rewrite !crc32_ref_app.
Qed.

Lemma icrc_mask_split b0 b1 b2 b3 m x q y r :
  length m = 3%nat -> length q = 36%nat ->
  icrc_mask ([b0; b1; b2; b3] ++ m ++ [x] ++ q ++ [y] ++ r) =
    replicate 8 255 ++ [Z.lor b0 15; 255; 255; 255] ++ m ++ [255] ++ q ++ [255] ++ r.
Proof.
  intros Hm Hq. unfold icrc_mask. field_simpl.
  assert (E : drop 45 ([b0; b1; b2; b3] ++ m ++ [x] ++ q ++ [y] ++ r) = r).
  { rewrite !app_assoc. rewrite drop_app_length'; [done|]. rewrite !length_app, Hm, Hq. done. }
  by rewrite E.
Qed.

(** The headers as sent, cut at the masked fields. *)
Lemma ib_headers_bytes_split h :
  wf_headers h ->
  ib_headers_bytes h =
    le_bytes 4 (grh_word (grh h)) ++
    (le_bytes 2 (payload_length (grh h)) ++ [next_header (grh h)]) ++ [hop_limit (grh h)] ++
    (source (grh h) ++ dest (grh h) ++ [opcode (bth h); bth_flags (bth h)] ++
     le_bytes 2 (partition_key (bth h))) ++ [reserved1 (bth h)] ++
    (le_bytes 3 (destination_qp (bth h)) ++
     le_bytes 4 (pack [(1, acknowledge_req (bth h)); (7, reserved2 (bth h));
                       (24, packet_sequence (bth h))]) ++
     deth_bytes (deth h)).
Proof.
  intros (Hg & (H1 & H2 & H3 & H4 & H5 & H6 & H7 & H8 & H9 & H10 & H11) & Hd).
  unfold ib_headers_bytes, grh_bytes, bth_bytes. rewrite pack_8_24 by done.
  change (?x :: le_bytes 3 ?y) with ([x] ++ le_bytes 3 y).
  change [next_header (grh h); hop_limit (grh h)]
    with ([next_header (grh h)] ++ [hop_limit (grh h)]).
  by rewrite <- !app_assoc.
Qed.

Lemma lor_15 p v : is_u 4 p -> is_u 4 v -> Z.lor (p + v * 2 ^ 4) 15 = 15 + v * 2 ^ 4.
Proof.
  intros Hp Hv. rewrite <- !lor_shift_add by (done || lia).
  apply Z.bits_inj'. intros i Hi. autorewrite with zbits.
  change 15 with (Z.ones 4). rewrite Z.testbit_ones_nonneg by lia.
  destruct (Z.ltb_spec i 4); [btauto|].
  rewrite (testbit_high 4 p) by done. btauto.
Qed.

Lemma grh_word_low h :
  wf_grh h -> Z.land (grh_word h) 255 = traffic_class_p1 h + ip_version h * 2 ^ 4.
Proof.
  intros Hh. pose proof Hh as (H1 & H2 & H3 & H4 & _). rewrite grh_word_eq by done.
  change 255 with (Z.ones 8). rewrite Z.land_ones by lia. unfold is_u in *. div_arith.
Qed.

Lemma mask_grh_word h :
  wf_grh h -> le_bytes 4 (grh_word (mask_grh h)) = [15 + ip_version h * 2 ^ 4; 255; 255; 255].
Proof.
  intros Hh. pose proof (wf_mask_grh h Hh) as Hm. pose proof Hh as (_ & H2 & _).
  rewrite grh_word_eq by done. simpl traffic_class_p1. simpl traffic_class_p2.
  simpl flow_label. simpl ip_version.
  change (bf 4 (-1)) with 15. change (bf 20 (-1)) with 0xFFFFF.
  replace (15 + ip_version h * 2 ^ 4 + 15 * 2 ^ 8 + 0xFFFFF * 2 ^ 12)
    with ((15 + ip_version h * 2 ^ 4) + 0xFFFFFF * 2 ^ 8) by lia.
  rewrite le_bytes_cons; [done|]. unfold is_byte, is_u in *. lia.
Qed.

(** The masked representation is the wire mask of the representation. *)
Lemma checksum_bytes_icrc h : wf_headers h -> checksum_bytes h = icrc_mask (ib_headers_bytes h).
Proof.
  intros Hh. pose proof Hh as (Hg & Hb & Hd).
  assert (Hm : wf_headers {| grh := mask_grh (grh h); bth := mask_bth (bth h); deth := deth h |}).
  { split; [by apply wf_mask_grh|]. split; [by apply wf_mask_bth|done]. }
  unfold checksum_bytes.
  change (grh_bytes (mask_grh (grh h)) ++ bth_bytes (mask_bth (bth h)) ++ deth_bytes (deth h))
    with (ib_headers_bytes {| grh := mask_grh (grh h); bth := mask_bth (bth h);
                              deth := deth h |}).
  rewrite !ib_headers_bytes_split by done. cbn [grh bth deth].
  rewrite mask_grh_word by done.
  destruct Hg as (H1 & H2 & H3 & H4 & H5 & H6 & H7 & [H8 _] & [H9 _]).
  assert (E : le_bytes 4 (grh_word (grh h)) =
    [traffic_class_p1 (grh h) + ip_version (grh h) * 2 ^ 4; Z.land (Z.shiftr (grh_word (grh h)) 8) 255;
     Z.land (Z.shiftr (Z.shiftr (grh_word (grh h)) 8) 8) 255;
     Z.land (Z.shiftr (Z.shiftr (Z.shiftr (grh_word (grh h)) 8) 8) 8) 255]).
  { cbn [le_bytes]. rewrite grh_word_low by apply Hh. done. }
  rewrite E, icrc_mask_split by (rewrite ?length_app, ?length_le_bytes, ?H8, ?H9; done).
  by rewrite lor_15.
Qed.

(** ** Well-formedness of the initialised packet *)

Lemma bf_range w x : 0 <= w -> is_u w (bf w x).
Proof. intros. by apply u_range. Qed.

Lemma bf_small w x : is_u w x -> bf w x = x.
Proof. apply u_small. Qed.

Lemma wf_full_packet0 : wf_packet full_packet0.
Proof.
  assert (Hz : forall n, wf_bytes (replicate n 0)).
  { intros n. apply Forall_replicate. unfold is_byte. lia. }
  unfold wf_packet, wf_eth, wf_headers, wf_grh, wf_bth, wf_deth, wf_mac, wf_gid, full_packet0.
  cbn [ether_header ib_header data grh bth deth h_dest h_source h_proto traffic_class_p1
    ip_version traffic_class_p2 flow_label payload_length next_header hop_limit source dest opcode
    transport_hdr_version pad_count migration_request sollicited_event partition_key reserved1
    destination_qp acknowledge_req reserved2 packet_sequence queue_key reserved source_qp].
  rewrite !length_replicate. unfold is_u, is_byte. repeat split; auto; lia.
Qed.

Lemma wf_init_grh src dst h :
  wf_grh h -> wf_addr src -> wf_addr dst -> wf_grh (init_grh src dst h).
Proof.
  intros (G1 & G2 & G3 & G4 & G5 & G6 & G7 & G8 & G9) (_ & _ & Hs) (_ & _ & Hd).
  unfold wf_grh, init_grh. cbn [traffic_class_p1 ip_version traffic_class_p2 flow_label
    payload_length next_header hop_limit source dest].
  split; [done|]. split; [by apply bf_range|]. split; [done|]. split; [done|].
  split; [apply htons_range|]. split; [by apply (u_range 8)|]. split; [by apply (u_range 8)|].
  split; [exact Hs|exact Hd].
Qed.

Lemma wf_init_bth qp h : wf_bth h -> wf_bth (init_bth qp h).
Proof.
  intros (B1 & B2 & B3 & B4 & B5 & B6 & B7 & B8 & B9 & B10 & B11).
  unfold wf_bth, init_bth. cbn [opcode transport_hdr_version pad_count migration_request
    sollicited_event partition_key reserved1 destination_qp acknowledge_req reserved2
    packet_sequence].
  split; [by apply (u_range 8)|]. do 2 (split; [done|]). do 2 (split; [by apply bf_range|]).
  split; [apply htons_range|]. split; [done|]. split; [by apply bf_range|]. done.
Qed.

Lemma wf_init_deth h : wf_deth h -> wf_deth (init_deth h).
Proof.
  intros (D1 & D2 & D3). unfold wf_deth, init_deth. cbn [queue_key reserved source_qp].
  split; [apply htonl_range|]. split; [done|by apply bf_range].
Qed.

Lemma wf_init_headers p src dst qp :
  wf_packet p -> wf_addr src -> wf_addr dst -> wf_packet (init_headers p src dst qp).
Proof.
  intros (He & (Hg & Hb & Hd) & Hp) Hs Ht.
  unfold init_headers, wf_packet, wf_headers. cbn [ether_header ib_header data grh bth deth].
  split; [|split; [|done]].
  - unfold wf_eth, init_eth. cbn [h_dest h_source h_proto].
    split; [apply Ht|]. split; [apply Hs|apply htons_range].
  - auto using wf_init_grh, wf_init_bth, wf_init_deth.
Qed.

(** ** Properties *)

(** [ib_header_checksum] is the CRC-32 of the headers as they are sent
    with InfiniBand's variant fields replaced by ones, after 64 one bits. *)
Theorem ib_header_checksum_correct h :
  wf_headers h ->
  ib_header_checksum h = Some (crc32_ref 0 (icrc_mask (ib_headers_bytes h))).
Proof. intros Hh. by rewrite ib_header_checksum_eq, checksum_bytes_icrc. Qed.

Lemma ib_header_checksum_correct_witness :
  ib_header_checksum (ib_header full_packet0) =
    Some (crc32_ref 0 (icrc_mask (ib_headers_bytes (ib_header full_packet0)))).
Proof. apply ib_header_checksum_correct. apply wf_full_packet0. Defined.

(** The header checksum does not depend on the fields a router may change
    (traffic class, flow label, hop limit, reserved byte). *)
Theorem ib_header_checksum_variant h h' :
  wf_headers h -> wf_headers h' -> variant_eq h h' ->
  ib_header_checksum h = ib_header_checksum h'.
Proof.
  intros Hh Hh' ((E1 & E2 & E3 & E4 & E5) & E6 & E7).
  rewrite !ib_header_checksum_eq by done. unfold checksum_bytes.
  assert (mask_grh (grh h) = mask_grh (grh h')) as -> by (unfold mask_grh; congruence).
  by rewrite E6, E7.
Qed.

(** A copy of the headers with another hop limit, as after a router. *)
Definition with_hop_limit (n : Z) (h : ib_headers) : ib_headers :=
  {| grh := {| traffic_class_p1 := traffic_class_p1 (grh h); ip_version := ip_version (grh h);
               traffic_class_p2 := traffic_class_p2 (grh h); flow_label := flow_label (grh h);
               payload_length := payload_length (grh h); next_header := next_header (grh h);
               hop_limit := n; source := source (grh h); dest := dest (grh h) |};
     bth := bth h; deth := deth h |}.

Lemma ib_header_checksum_variant_witness :
  ib_header_checksum (ib_header full_packet0) =
    ib_header_checksum (with_hop_limit 63 (ib_header full_packet0)).
Proof.
  apply ib_header_checksum_variant.
  - apply wf_full_packet0.
  - destruct wf_full_packet0 as (_ & ((G1 & G2 & G3 & G4 & G5 & G6 & G7 & G8) & H) & _).
    split; [|exact H]. repeat (split; [assumption|]). split; [unfold is_byte; simpl; lia|exact G8].
  - repeat split.
Defined.

(** C2: [ib_checksum] is the invariant checksum of the headers and of the
    payload whose size the headers announce.  When the announced length is
    below the 24 bytes of transport headers and checksum the size underflows
    and the payload is not covered. *)
Theorem ib_checksum_correct p :
  wf_packet p ->
  let n := ntohs (payload_length (grh (ib_header p))) in
  let hdr := ib_headers_bytes (ib_header p) in
  (24 <= n <= MSG_SIZE + 24 ->
     fst <$> ib_checksum p = Some (icrc hdr (take (Z.to_nat (n - 24)) (data p)))) /\
  (n < 24 -> fst <$> ib_checksum p = Some (icrc hdr [])) /\
  (n > MSG_SIZE + 24 -> ib_checksum p = None).
Proof.
  intros (_ & Hh & Hlen & Hd) n hdr.
  assert (Hn : 0 <= n < 2 ^ 16) by apply htons_range.
  assert (Hc : is_u 32 (crc32_ref 0 (icrc_mask hdr))).
  { apply crc32_ref_range; [unfold is_u; lia|]. subst hdr. rewrite <- checksum_bytes_icrc by done.
    by apply wf_checksum_bytes. }
  unfold ib_checksum. fold n. rewrite ib_header_checksum_eq, checksum_bytes_icrc by done.
  fold hdr. cbn [mbind option_bind].
  change (u32 (ib_transport_header_size + checksum_size)) with 24.
  assert (Hl : Z.of_nat (length (data p)) = MSG_SIZE) by (rewrite Hlen; done).
  unfold icrc. unfold MSG_SIZE in *. split; [|split]; intros H.
  - unfold u64. rewrite Z.mod_small by lia.
    rewrite crc32_eq by (done || unfold INT_MAX; lia).
    cbn [mbind option_bind fmap option_fmap option_map fst]. by rewrite crc32_ref_app.
  - rewrite crc32_nonpos.
    + cbn [mbind option_bind fmap option_fmap option_map fst]. by rewrite app_nil_r.
    + unfold u64, i32.
      replace (n - 24) with (n - 24 + 2 ^ 64 + (-1) * 2 ^ 64) by lia.
      rewrite Z.mod_add, (Z.mod_small (n - 24 + 2 ^ 64)) by lia.
      replace (n - 24 + 2 ^ 64 + 2 ^ 31) with (n - 24 + 2 ^ 31 + 2 ^ 32 * 2 ^ 32) by lia.
      rewrite Z.mod_add, Z.mod_small by lia. lia.
  - unfold u64. rewrite Z.mod_small by lia. unfold crc32.
    rewrite i32_small by (unfold INT_MAX, INT_MIN; lia).
    by rewrite crc32_loop_oob by lia.
Qed.

Lemma ib_checksum_correct_witness :
  fst <$> ib_checksum full_packet0 = Some (icrc (ib_headers_bytes (ib_header full_packet0)) []).
Proof. apply ib_checksum_correct; [apply wf_full_packet0|reflexivity]. Defined.

Lemma qp_on_wire qp :
  Z.shiftr (ntohl (bf 24 (htonl (u32 (Z.shiftl qp 8))))) 8 = qp mod 2 ^ 24.
Proof.
  rewrite bf_small by apply htonl_shift8. rewrite ntohl_htonl. unfold u32.
  rewrite Z.mod_mod, Z.shiftl_mul_pow2, Z.shiftr_div_pow2 by lia.
  change (2 ^ 32) with (2 ^ 24 * 2 ^ 8). rewrite Z.mul_mod_distr_r by lia.
  by rewrite Z.div_mul by lia.
Qed.

Lemma init_headers_wire_spec src dst qp :
  wf_addr src -> wf_addr dst ->
  let p := init_headers full_packet0 src dst qp in
  eth_bytes (ether_header p) = mac dst ++ mac src ++ [0x89; 0x15] /\
  Wire.parse (ib_headers_bytes (ib_header p)) =
    {| Wire.w_grh := {| Wire.w_version := 6; Wire.w_tclass := 0; Wire.w_flow := 0;
                        Wire.w_paylen := MSG_SIZE + 24; Wire.w_nxthdr := 0x1B;
                        Wire.w_hoplmt := 1; Wire.w_sgid := ipv6 src; Wire.w_dgid := ipv6 dst |};
       Wire.w_bth := {| Wire.w_opcode := 0x64; Wire.w_se := 0; Wire.w_m := 1; Wire.w_pad := 0;
                        Wire.w_tver := 0; Wire.w_pkey := 0xFFFF; Wire.w_resv8a := 0;
                        Wire.w_destqp := qp mod 2 ^ 24; Wire.w_a := 0; Wire.w_resv7 := 0;
                        Wire.w_psn := 0 |};
       Wire.w_deth := {| Wire.w_qkey := 0x11111111; Wire.w_resv8 := 0;
                         Wire.w_srcqp := 0x182 |} |}.
Proof.
  intros Hs Hd p.
  destruct (wf_init_headers full_packet0 src dst qp wf_full_packet0 Hs Hd) as (_ & Hh & _).
  split.
  { unfold eth_bytes. simpl ether_header. unfold init_eth. cbn [h_dest h_source h_proto].
    by rewrite le_bytes_htons. }
  unfold p. rewrite wire_parse_eq by done. f_equal.
  unfold bth_wire, init_headers, init_bth, ib_header. f_equal; try done.
  cbn [bth destination_qp]. apply qp_on_wire.
Qed.

(** C22: the headers [init_invariant_headers] writes into the zeroed packet are,
    read as InfiniBand fields from the wire, exactly a RoCEv1 unreliable
    datagram: IPv6 header with next header 0x1B and the given addresses, "UD
    send only" with the given queue pair (24 bits), default partition key, the
    fixed queue key and source queue pair 0x182; the announced length is
    payload + 20 bytes of transport headers + 4 of checksum.  The Ethernet
    header carries EtherType 0x8915 and the hardware addresses. *)
Theorem init_headers_wire src dst qp :
  wf_addr src -> wf_addr dst ->
  let p := init_headers full_packet0 src dst qp in
  eth_bytes (ether_header p) = mac dst ++ mac src ++ [0x89; 0x15] /\
  Wire.parse (ib_headers_bytes (ib_header p)) =
    {| Wire.w_grh := {| Wire.w_version := 6; Wire.w_tclass := 0; Wire.w_flow := 0;
                        Wire.w_paylen := MSG_SIZE + 24; Wire.w_nxthdr := 0x1B;
                        Wire.w_hoplmt := 1; Wire.w_sgid := ipv6 src; Wire.w_dgid := ipv6 dst |};
       Wire.w_bth := {| Wire.w_opcode := 0x64; Wire.w_se := 0; Wire.w_m := 1; Wire.w_pad := 0;
                        Wire.w_tver := 0; Wire.w_pkey := 0xFFFF; Wire.w_resv8a := 0;
                        Wire.w_destqp := qp mod 2 ^ 24; Wire.w_a := 0; Wire.w_resv7 := 0;
                        Wire.w_psn := 0 |};
       Wire.w_deth := {| Wire.w_qkey := 0x11111111; Wire.w_resv8 := 0;
                         Wire.w_srcqp := 0x182 |} |}.
Proof. apply init_headers_wire_spec. Qed.

Lemma init_invariant_headers_eq p src dst qp :
  wf_packet p -> wf_addr src -> wf_addr dst ->
  init_invariant_headers p src dst qp =
    Some (init_headers p src dst qp,
          crc32_ref 0 (icrc_mask (ib_headers_bytes (ib_header (init_headers p src dst qp))))).
Proof.
  intros Hp Hs Hd. unfold init_invariant_headers.
  assert (Hh : wf_headers (ib_header (init_headers p src dst qp))) by by apply wf_init_headers.
  by rewrite ib_header_checksum_eq, checksum_bytes_icrc by done.
Qed.

(** Example addresses (those of the FPGA host in the source). *)
Definition addr_example : addr :=
  {| mac := [0x04; 0x3f; 0x72; 0xd4; 0x2f; 0x7c]; ipv4 := 0x6805950a;
     ipv6 := [0xfe; 0x80; 0; 0; 0; 0; 0; 0; 0x06; 0x3f; 0x72; 0xff; 0xfe; 0xd4; 0x2f; 0x7c] |}.

Lemma wf_addr_example : wf_addr addr_example.
Proof. unfold wf_addr, is_u; simpl. repeat split; try lia; repeat constructor; discriminate. Qed.

Lemma init_headers_wire_witness :
  eth_bytes (ether_header (init_headers full_packet0 addr_example addr_example 0x1000123)) =
    mac addr_example ++ mac addr_example ++ [0x89; 0x15].
Proof. apply (init_headers_wire addr_example addr_example 0x1000123); apply wf_addr_example. Defined.

(** [init_invariant_headers] returns the initialised packet, a well-formed
    object with the payload untouched, together with the checksum that
    [ib_checksum] extends: extending it with [crc32] over any payload gives the
    invariant checksum of the headers and that payload. *)
Theorem init_invariant_headers_correct p src dst qp :
  wf_packet p -> wf_addr src -> wf_addr dst ->
  exists p' crc,
    init_invariant_headers p src dst qp = Some (p', crc) /\ wf_packet p' /\
    data p' = data p /\ is_u 32 crc /\
    forall payload, wf_bytes payload -> Z.of_nat (length payload) <= INT_MAX ->
      crc32 crc payload (Z.of_nat (length payload)) =
        Some (icrc (ib_headers_bytes (ib_header p')) payload).
Proof.
  intros Hp Hs Hd. pose proof (wf_init_headers p src dst qp Hp Hs Hd) as Hp'.
  assert (Hh : wf_headers (ib_header (init_headers p src dst qp))) by apply Hp'.
  eexists _, _. unfold init_invariant_headers. rewrite ib_header_checksum_eq by done.
  split; [reflexivity|]. split; [done|]. split; [done|].
  assert (Hc : is_u 32 (crc32_ref 0 (checksum_bytes (ib_header (init_headers p src dst qp))))).
  { apply crc32_ref_range; [unfold is_u; lia|by apply wf_checksum_bytes]. }
  split; [done|]. intros payload Hw Hl. rewrite crc32_exact by done.
  unfold icrc. by rewrite crc32_ref_app, checksum_bytes_icrc.
Qed.

Lemma init_invariant_headers_correct_witness :
  exists p' crc,
    init_invariant_headers full_packet0 addr_example addr_example 5 = Some (p', crc) /\
    is_u 32 crc.
Proof.
  destruct (init_invariant_headers_correct full_packet0 addr_example addr_example 5)
    as (p' & crc & E & _ & _ & Hc & _).
  - apply wf_full_packet0.
  - apply wf_addr_example.
  - apply wf_addr_example.
  - exists p', crc. split; [exact E|exact Hc].
Defined.
