(* ===== verification/OpenClUtils.v ===== *)
(** opencl_utils.cc and opencl_utils.hpp: the wrappers of the OpenCL set-up.

    A function that may let a [cl::Error] escape is a computation of [throws]:
    its result is the exception or its value.  [catch] is C++'s [try]; an
    exception nothing catches ends the program through [std::terminate]
    ([uncaught]).  The streams [std::cout] and [std::cerr] are [Printf] and
    [Eprintf], one call per statement, after the statement's [getInfo] calls.
    The bindings' reference counts are not modelled. *)
From S2P Require Import Prelude CInt CLib Prog ClApi Posix RawPacket.
Local Open Scope Z_scope.
Local Open Scope c_scope.

(** ** Exceptions *)

Definition throws (S A : Type) : Type := M posix S (cl_error + A).

Section exceptions.
Context {S : Type}.

Definition pure {A} (a : A) : throws S A := ret (inr a).
Definition lift {A} (m : M posix S A) : throws S A := bind m pure.
Definition tbind {A B} (m : throws S A) (f : A -> throws S B) : throws S B :=
  bind m (fun r => match r with inl e => ret (inl e) | inr a => f a end).
Definition cl_call {X} (e : cl X) : throws S X := call (Cl e).

(** [try { m } catch (cl::Error &e) { h(e) }] *)
Definition catch {A} (m : throws S A) (h : cl_error -> throws S A) : throws S A :=
  bind m (fun r => match r with inl e => h e | inr a => pure a end).

(** [abort()] ends the process by SIGABRT; the shell reports 128 plus the signal. *)
Definition ABORTED : Z := 128 + 6.

Definition uncaught {A} (m : throws S A) : M posix S A :=
  bind m (fun r => match r with inl _ => exit_ ABORTED | inr a => ret a end).

(** A range [for] loop, left early with [Some r]. *)
Fixpoint for_each {A R} (l : list A) (body : A -> throws S (option R)) : throws S (option R) :=
  match l with
  | [] => pure None
  | x :: l => tbind (body x) (fun r => match r with Some r => pure (Some r)
                                                  | None => for_each l body end)
  end.

End exceptions.

Notation "'let?' x := m 'in' k" := (tbind m (fun x => k))
  (at level 10, x pattern, k at level 200) : c_scope.
Notation "m ;? k" := (tbind m (fun _ => k)) (at level 199, right associativity) : c_scope.

(** ** Errors *)

Definition CL_SUCCESS : Z := 0.

Definition error_cases : list (Z * string) :=
  [ (CL_SUCCESS, "Success!");
    (-1, "Device not found.");
    (-2, "Device not available");
    (-3, "Compiler not available");
    (-4, "Memory object allocation failure");
    (-5, "Out of resources");
    (-6, "Out of host memory");
    (-7, "Profiling information not available");
    (-8, "Memory copy overlap");
    (-9, "Image format mismatch");
    (-10, "Image format not supported");
    (-11, "Program build failure");
    (-12, "Map failure");
    (-30, "Invalid value");
    (-31, "Invalid device type");
    (-32, "Invalid platform");
    (-33, "Invalid device");
    (-34, "Invalid context");
    (-35, "Invalid queue properties");
    (-36, "Invalid command queue");
    (-37, "Invalid host pointer");
    (-38, "Invalid memory object");
    (-39, "Invalid image format descriptor");
    (-40, "Invalid image size");
    (-41, "Invalid sampler");
    (-42, "Invalid binary");
    (-43, "Invalid build options");
    (-44, "Invalid program");
    (-45, "Invalid program executable");
    (-46, "Invalid kernel name");
    (-47, "Invalid kernel definition");
    (-48, "Invalid kernel");
    (-49, "Invalid argument index");
    (-50, "Invalid argument value");
    (-51, "Invalid argument size");
    (-52, "Invalid kernel arguments");
    (-53, "Invalid work dimension");
    (-54, "Invalid work group size");
    (-55, "Invalid work item size");
    (-56, "Invalid global offset");
    (-57, "Invalid event wait list");
    (-58, "Invalid event");
    (-59, "Invalid operation");
    (-60, "Invalid OpenGL object");
    (-61, "Invalid buffer size");
    (-62, "Invalid mip-map level");
    (-63, "Invalid global work size");
    (-64, "Invalid property");
    (-65, "Invalid image descriptor");
    (-66, "Invalid compiler options");
    (-67, "Invalid linker options");
    (-68, "Invalid device partition count") ].

Fixpoint switch_error (cases : list (Z * string)) (error : Z) : list Z :=
  match cases with
  | (code, text) :: cases =>
      if error =? code then string_bytes text else switch_error cases error
  | [] => string_bytes "Unknown (" ++ fmt_d error ++ string_bytes ")"
  end.

Definition errorMessage (error : Z) : list Z := switch_error error_cases error.

(** ** Set-up *)

(** [strcmp(a, b) == 0], of what precedes the first zero. *)
Fixpoint c_str (l : list Z) : list Z :=
  match l with
  | c :: l => if c =? 0 then [] else c :: c_str l
  | [] => []
  end.

Definition strcmp_eq (a b : list Z) : bool := bool_decide (c_str a = c_str b).

Section code.
Context {S : Type}.
Abbreviation throws := (throws S).

Definition cout (out : list Z) : throws unit := lift (call (Printf out)).
Definition cerr (out : list Z) : throws unit := lift (call (Eprintf out)).
Definition exit {A} (code : Z) : throws A := exit_ code.

(** The device type the environment variable [TYPE] names. *)
Definition device_type (deviceType : option (list Z)) : throws Z :=
  match deviceType with
  | None => pure CL_DEVICE_TYPE_DEFAULT
  | Some t =>
      if strcmp_eq t (string_bytes "GPU") then pure CL_DEVICE_TYPE_GPU
      else if strcmp_eq t (string_bytes "CPU") then pure CL_DEVICE_TYPE_CPU
      else if strcmp_eq t (string_bytes "ACCELERATOR") then pure CL_DEVICE_TYPE_ACCELERATOR
      else cerr (string_bytes "Unrecognized device type: " ++ t) ;? pure CL_DEVICE_TYPE_DEFAULT
  end.

Definition print_platform (platform : Z) : throws (option unit) :=
  let? name := cl_call (Platform_getInfo platform CL_PLATFORM_NAME) in
  cout (string_bytes "Platform name: " ++ name ++ newline) ;?
  let? version := cl_call (Platform_getInfo platform CL_PLATFORM_VERSION) in
  cout (string_bytes "Platform version: " ++ version ++ newline) ;?
  let? extensions := cl_call (Platform_getInfo platform CL_PLATFORM_EXTENSIONS) in
  cout (string_bytes "Platform extensions: " ++ extensions ++ newline) ;?
  pure None.

Definition device_line (name : list Z) (mem max_alloc : Z) : list Z :=
  string_bytes "Device: " ++ name ++ string_bytes ", " ++
  string_bytes "mem: " ++ fmt_d (mem / (1024 * 1024)) ++
  string_bytes " MB, max alloc: " ++ fmt_d (max_alloc / (1024 * 1024)) ++
  string_bytes " MB" ++ newline.

Definition print_device (device : Z) : throws (option unit) :=
  let? name := cl_call (Device_getName device) in
  let? mem := cl_call (Device_getInfo device CL_DEVICE_GLOBAL_MEM_SIZE) in
  let? max_alloc := cl_call (Device_getInfo device CL_DEVICE_MAX_MEM_ALLOC_SIZE) in
  cout (device_line name mem max_alloc) ;?
  pure None.

(** The body of the second loop; the result leaves it with the context and the
    devices. *)
Definition try_platform (platformName : list Z) (type platform : Z)
    : throws (option (Z * list Z)) :=
  let? name := cl_call (Platform_getInfo platform CL_PLATFORM_NAME) in
  if strcmp_eq name platformName then
    let? devices := cl_call (Platform_getDevices platform type) in
    for_each devices print_device ;?
    let? context := cl_call (Context_new devices) in
    pure (Some (context, devices))
  else pure None.

Definition default_platform : list Z := string_bytes "Intel(R) FPGA SDK for OpenCL(TM)".

Definition createContext : throws (Z * list Z) :=
  let? platformName := lift (call (Getenv "PLATFORM")) in
  let platformName := default default_platform platformName in
  let? deviceType := lift (call (Getenv "TYPE")) in
  let? type := device_type deviceType in
  let? platforms := cl_call Platform_get in
  for_each platforms print_platform ;?
  let? found := for_each platforms (try_platform platformName type) in
  match found with
  | Some r => pure r
  | None =>
      cerr (string_bytes "Platform not found: " ++ [34] ++ platformName ++ [34] ++ newline) ;?
      exit 1
  end.

(** A file that cannot be opened reads as empty. *)
Definition createProgramFromBinaries (context : Z) (devices : list Z) (name : list Z)
    : throws Z :=
  let? ifs := lift (call (ReadFile name)) in
  let str := default [] ifs in
  cl_call (Program_new context devices [str]).

Definition get_program (context device : Z) (filename : list Z) : throws Z :=
  cout (string_bytes ">>> Loading program from binary: " ++ filename ++ newline) ;?
  catch
    (let? result := createProgramFromBinaries context [device] filename in
     cout newline ;?
     pure result)
    (fun error =>
       cerr (string_bytes "Loading binary failed: " ++ what error ++ newline ++
             string_bytes "Error code: " ++ fmt_d (err error) ++ newline ++
             string_bytes "Error message: " ++ errorMessage (err error) ++ newline) ;?
       exit EXIT_FAILURE).

End code.

(** ** Kernels *)

Record Kernel := { kernel : Z; queue : Z; event : option Z }.

Section kernel.
Context {S : Type}.
Abbreviation throws := (throws S).

Definition getContext (prog : Z) : throws Z := cl_call (Program_getContext prog).

Definition Kernel_Kernel (prog : Z) (name : list Z) : throws Kernel :=
  let? k := cl_call (Kernel_new prog name) in
  let? context := getContext prog in
  let? q := cl_call (Queue_new context None 0) in
  pure {| kernel := k; queue := q; event := None |}.

(** [set_args_n<N>(k, first, rest...)], by recursion over the arguments. *)
Fixpoint set_args_n (N : Z) (k : Z) (args : list cl_arg) : throws unit :=
  match args with
  | [] => pure tt
  | first :: rest => cl_call (Kernel_setArg k N first) ;? set_args_n (N + 1) k rest
  end.

Definition set_args (k : Z) (args : list cl_arg) : throws unit := set_args_n 0 k args.

(** [operator()]: the kernel object after the call. *)
Definition Kernel_call (k : Kernel) (args : list cl_arg) : throws Kernel :=
  catch (set_args (kernel k) args)
    (fun error =>
       cerr (string_bytes "Error: " ++ what error ++ newline) ;?
       cerr (errorMessage (err error) ++ newline) ;?
       exit EXIT_FAILURE) ;?
  let? e := cl_call (EnqueueNDRangeKernel (queue k) (kernel k) 1) in
  pure {| kernel := kernel k; queue := queue k; event := Some e |}.

Definition finish (k : Kernel) : throws unit := cl_call (Event_wait (event k)).

End kernel.

(** ** Proof rules *)

Section rules.
Context {S : Type} (sigint : nat -> bool).
Local Abbreviation wpn := (net_wp sigint).

Lemma wp_tbind {A B} (m : throws S A) (f : A -> throws S B) s Q g :
  wpn (m s) (fun o g' => match o with
                         | Done (inr a) s' => wpn (f a s') Q g'
                         | Done (inl e) s' => Q (Done (inl e) s') g'
                         | Exit c s' => Q (Exit c s') g'
                         | Undef w => Q (Undef w) g'
                         | NoFuel s' => Q (NoFuel s') g'
                         end) g ->
  wpn (tbind m f s) Q g.
Proof.
  intros H. apply wp_bind. eapply wp_mono; [exact H|]. by intros [[e|a] s'| | |] g' H'.
Qed.

Lemma wp_for_each {A R} (I : list A -> S -> net -> Prop) (l : list A)
    (body : A -> throws S (option R)) s (Q : outcome S (cl_error + option R) -> net -> Prop) g :
  I [] s g ->
  (forall before x after s g, l = before ++ x :: after -> I before s g ->
     wpn (body x s) (fun o g' => match o with
                                 | Done (inr None) s' => I (before ++ [x]) s' g'
                                 | o => Q o g'
                                 end) g) ->
  (forall s g, I l s g -> Q (Done (inr None) s) g) ->
  wpn (for_each l body s) Q g.
Proof.
  revert I s g. induction l as [|x l IH]; intros I s g HI Hbody Hend; [by apply Hend|].
  cbn [for_each]. apply wp_tbind. eapply wp_mono; [exact (Hbody [] x l s g eq_refl HI)|].
  intros [[e|[r|]] s'|c s'|w|s'] g' H; try done.
  apply (IH (fun before => I (x :: before))); [done| |done].
  intros before y after s2 g2 ->. exact (Hbody (x :: before) y after s2 g2 eq_refl).
Qed.

Lemma wp_lift {A} (m : M posix S A) s (Q : outcome S (cl_error + A) -> net -> Prop) g :
  wpn (m s) (fun o g' => match o with
                         | Done a s' => Q (Done (inr a) s') g'
                         | Exit c s' => Q (Exit c s') g'
                         | Undef w => Q (Undef w) g'
                         | NoFuel s' => Q (NoFuel s') g'
                         end) g ->
  wpn (lift m s) Q g.
Proof. intros H. apply wp_bind. eapply wp_mono; [exact H|]. by intros [] g'. Qed.

(** A call of the interface: it throws, or answers. *)
Lemma wp_cl_call {X} (e : cl X) s (Q : outcome S (cl_error + X) -> net -> Prop) g :
  (forall error, Q (Done (inl error) s) g) ->
  (forall x, cl_legal X (opencl g) e x ->
     Q (Done (inr x) s) (set_opencl (cl_next X (opencl g) e x) g)) ->
  wpn (cl_call e s) Q g.
Proof. intros Hl Hr [error|x] Hx; [apply Hl|by apply Hr]. Qed.

End rules.

Ltac cl_step :=
  lazymatch goal with
  | |- wp (tbind _ _ _) _ _ => apply wp_tbind
  | |- wp (lift _ _) _ _ => apply wp_lift
  | |- wp (pure _ _) _ _ => unfold pure at 1
  | |- wp (cl_call _ _) _ _ =>
      let x := fresh "x" in let H := fresh "Hx" in
      apply wp_cl_call; [intros ?|intros x H; cbn [cl_legal cl_next] in *]
  | |- _ => first [wp_step | progress cbn [legal gnext NetEnv net_legal net_next] in * ]
  end.
Ltac cl_steps := repeat cl_step.

(** Only handles, the tables of objects, the kernels' arguments and the output
    change. *)
Definition setup (g g' : net) : Prop :=
  sent g' = sent g /\ sent_in g' = sent_in g /\ polls g' = polls g /\
  environ g' = environ g /\ files g' = files g /\
  cl_machine (opencl g') = cl_machine (opencl g) /\
  cl_memory (opencl g') = cl_memory (opencl g) /\
  cl_mapped (opencl g') = cl_mapped (opencl g) /\
  cl_pending (opencl g') = cl_pending (opencl g) /\
  cl_launches (opencl g') = cl_launches (opencl g) /\
  cl_waited (opencl g') = cl_waited (opencl g) /\
  cl_broken (opencl g') = cl_broken (opencl g) /\
  cl_undefined (opencl g') = cl_undefined (opencl g).

#[export] Instance setup_preorder : PreOrder setup.
Proof.
  split; [by repeat split|]. intros g1 g2 g3 H1 H2. unfold setup in *. intuition congruence.
Qed.

Ltac solve_setup :=
  unfold setup in *; split_and_hyps; cbn in *; repeat split; congruence.

(** [m] is set-up: it keeps the program's state; a value satisfies [P], an exit
    [X], each told the state of the environment before and after. *)
Definition setup_spec {S A} sigint (m : throws S A) (P : A -> net -> net -> Prop)
    (X : Z -> net -> net -> Prop) : Prop :=
  forall s g, net_wp sigint (m s)
    (fun o g' => setup g g' /\
       match o with
       | Done (inr a) s' => s' = s /\ P a g g'
       | Done (inl _) s' => s' = s
       | Exit c s' => s' = s /\ X c g g'
       | Undef _ | NoFuel _ => False
       end) g.

Definition wanted_platform (g : net) : list Z := default default_platform (environ g "PLATFORM").

Definition wanted_type (g : net) : Z :=
  match environ g "TYPE" with
  | None => CL_DEVICE_TYPE_DEFAULT
  | Some t =>
      if strcmp_eq t (string_bytes "GPU") then CL_DEVICE_TYPE_GPU
      else if strcmp_eq t (string_bytes "CPU") then CL_DEVICE_TYPE_CPU
      else if strcmp_eq t (string_bytes "ACCELERATOR") then CL_DEVICE_TYPE_ACCELERATOR
      else CL_DEVICE_TYPE_DEFAULT
  end.

(** The first installed platform of that name. *)
Definition has_name (m : machine) (name : list Z) (p : Z) : Prop :=
  c_str (m_name m p) = c_str name.

#[export] Instance has_name_dec m name p : Decision (has_name m name p).
Proof. unfold has_name. apply _. Defined.

Definition the_platform (g : net) : option Z :=
  head (filter (has_name (cl_machine (opencl g)) (wanted_platform g))
          (m_platforms (cl_machine (opencl g)))).

Section specs.
Context {S : Type} (sigint : nat -> bool).
Local Abbreviation wpn := (net_wp sigint).

Definition no_exit (c : Z) (g g' : net) : Prop := False.

Lemma print_platform_spec p :
  setup_spec (S:=S) sigint (print_platform p)
    (fun r g g' => r = None /\ eprinted g' = eprinted g) no_exit.
Proof.
  intros s g. unfold print_platform, cout. cl_steps; by repeat split.
Qed.

Lemma print_device_spec d :
  setup_spec (S:=S) sigint (print_device d)
    (fun r g g' => r = None /\ eprinted g' = eprinted g) no_exit.
Proof.
  intros s g. unfold print_device, cout. cl_steps; by repeat split.
Qed.

(** A loop of set-up steps none of which leaves it. *)
Lemma for_each_setup {A R} (l : list A) (body : A -> throws S (option R)) :
  (forall x, setup_spec sigint (body x) (fun r g g' => r = None /\ eprinted g' = eprinted g) no_exit) ->
  setup_spec sigint (for_each l body) (fun r g g' => r = None /\ eprinted g' = eprinted g) no_exit.
Proof.
  intros Hbody s g.
  apply (wp_for_each sigint (fun _ s' g' => s' = s /\ setup g g' /\ eprinted g' = eprinted g)); [done| |].
  - intros before x after s1 g1 -> (-> & Hg & He). eapply wp_mono; [apply Hbody|].
    intros [[e|r] s2|c s2|w|s2] g2 [Hs Ho]; try done.
    + split; [by etransitivity|done].
    + destruct Ho as (-> & -> & He2). split_and!; [done|by etransitivity|congruence].
    + by destruct Ho.
  - intros s1 g1 (-> & Hg & He). split; [done|]. by split_and!.
Qed.

Lemma device_type_spec g0 :
  forall (s : S) g, environ g = environ g0 -> wpn (device_type (environ g0 "TYPE") s)
    (fun o g' => setup g g' /\ o = Done (inr (wanted_type g0)) s /\
       exists warning, eprinted g' = eprinted g ++ warning) g.
Proof.
  intros s g Hg. unfold device_type, wanted_type, cerr.
  destruct (environ g0 "TYPE") as [t|]; [destruct (strcmp_eq _ _); [|destruct (strcmp_eq _ _);
    [|destruct (strcmp_eq _ _)]]|]; cl_steps; repeat split;
    first [by exists []; rewrite app_nil_r|by eexists].
Qed.

(** What [try_platform] leaves the second loop with. *)
Definition found_on (m : machine) (type p : Z) (r : Z * list Z) (g' : net) : Prop :=
  r.2 = m_devices m p type /\ r.2 <> [] /\ cl_contexts (opencl g') !! r.1 = Some r.2.

Lemma try_platform_spec name type p :
  setup_spec (S:=S) sigint (try_platform name type p)
    (fun r g g' => eprinted g' = eprinted g /\
       match r with
       | None => ~ has_name (cl_machine (opencl g)) name p
       | Some r => has_name (cl_machine (opencl g)) name p /\
                   found_on (cl_machine (opencl g)) type p r g'
       end) no_exit.
Proof.
  intros s g. unfold try_platform. cl_steps; [done|]. subst. unfold strcmp_eq.
  destruct (decide (c_str (m_name (cl_machine (opencl g)) p) = c_str name)) as [Hn|Hn];
    [rewrite bool_decide_true by done|rewrite bool_decide_false by done];
    cl_steps; [done| |by repeat split]. destruct Hx as [-> Hne].
  eapply wp_mono; [apply (for_each_setup _ _ print_device_spec)|].
  intros [[e|r] s1|c s1|w|s1] g1 [H1 Ho]; try (by destruct Ho).
  destruct Ho as (-> & _ & He). cl_steps; [done|].
  split; [solve_setup|]. split_and!; [done|exact He|exact Hn|].
  split; [done|]. split; [exact Hne|apply lookup_insert_eq].
Qed.

(** ** Kernels *)

Lemma Kernel_Kernel_spec prog name (s : S) g :
  wpn (Kernel_Kernel prog name s)
    (fun o g' => setup g g' /\
       match o with
       | Done (inr k) s' => s' = s /\ event k = None /\ (queue k ∉ cl_used (opencl g)) /\
           cl_kernels (opencl g') !! kernel k = Some (prog, name)
       | Done (inl _) s' => s' = s
       | _ => False
       end) g.
Proof.
  unfold Kernel_Kernel, getContext. cl_steps; [done..|]. split; [done|].
  split; [done|]. split; [done|]. split; [|apply lookup_insert_eq].
  cbn. intros Hu. apply Hx1. cbn. rewrite elem_of_cons. by right.
Qed.

(** The arguments a call of [set_args_n] leaves. *)
Definition args_after (N k : Z) (args : list cl_arg) (old : Z -> Z -> option cl_arg)
    (k' i : Z) : option cl_arg :=
  if (k' =? k) && (N <=? i) && (i <? N + Z.of_nat (length args))
  then args !! (Z.to_nat (i - N)) else old k' i.

Lemma set_args_n_spec args N k (s : S) g :
  wpn (set_args_n N k args s)
    (fun o g' => setup g g' /\ cl_kernels (opencl g') = cl_kernels (opencl g) /\
       eprinted g' = eprinted g /\
       match o with
       | Done (inr _) s' => s' = s /\
           forall k' i, cl_args (opencl g') k' i = args_after N k args (cl_args (opencl g)) k' i
       | Done (inl _) s' => s' = s
       | _ => False
       end) g.
Proof.
  revert N g. induction args as [|a args IH]; intros N g; cbn [set_args_n].
  - cl_steps. repeat split. intros k' i. unfold args_after. simpl. rewrite Z.add_0_r.
    destruct (Z.leb_spec N i), (Z.ltb_spec i N); try lia; by rewrite ?andb_false_r.
  - cl_steps; [by repeat split|]. eapply wp_mono; [apply IH|].
    intros o g' (H1 & H2 & He & Ho). split; [solve_setup|]. split; [done|]. split; [done|].
    destruct o as [[e|[]] s'|c s'|w|s']; try done. destruct Ho as [-> Ho]. split; [done|].
    intros k' i. rewrite Ho. unfold args_after. cbn [cl_args set_arg opencl set_opencl length].
    destruct (Z.eqb_spec k' k) as [->|]; cbn [andb]; [|done].
    destruct (Z.eqb_spec i N) as [->|].
    + rewrite (proj2 (Z.leb_gt _ _)), (proj2 (Z.leb_le N N)) by lia. cbn [andb].
      rewrite (proj2 (Z.ltb_lt _ _)) by lia. by rewrite Z.sub_diag.
    + replace (N + 1 <=? i) with (N <=? i) by (destruct (Z.leb_spec N i), (Z.leb_spec (N + 1) i); lia).
      replace (N + 1 + Z.of_nat (length args)) with (N + Z.of_nat (Datatypes.S (length args))) by lia.
      destruct (Z.leb_spec N i), (Z.ltb_spec i (N + Z.of_nat (Datatypes.S (length args)))); try done. cbn [andb].
      replace (Z.to_nat (i - N)) with (Datatypes.S (Z.to_nat (i - (N + 1)))) by lia. done.
Qed.

(** A launch made from the state [g1]. *)
Definition launched (k k' : Kernel) (g1 g' : net) : Prop :=
  exists e, k' = {| kernel := kernel k; queue := queue k; event := Some e |} /\
    g' = set_opencl (add_launch (queue k) (kernel k) e (opencl g1)) g1.

Lemma Kernel_call_spec k args (s : S) g :
  wpn (Kernel_call k args s)
    (fun o g' =>
       match o with
       | Done (inr k') s' => s' = s /\ exists g1, setup g g1 /\
           cl_kernels (opencl g1) = cl_kernels (opencl g) /\
           (forall i, 0 <= i < Z.of_nat (length args) ->
              cl_args (opencl g1) (kernel k) i = args !! Z.to_nat i) /\ launched k k' g1 g'
       | Done (inl _) s' => s' = s /\ setup g g'
       | Exit c s' => s' = s /\ c = EXIT_FAILURE /\ setup g g'
       | _ => False
       end) g.
Proof.
  unfold Kernel_call, catch, set_args, cerr, exit. cl_steps.
  eapply wp_mono; [apply set_args_n_spec|].
  intros [[e|[]] s1|c s1|w|s1] g1 (H1 & Hk & _ & Ho); try done; cl_steps.
  - by destruct Ho as [-> Ho].
  - destruct Ho as [-> Ho]. split; [done|]. exists g1. split; [done|]. split; [done|]. split.
    + intros i Hi. rewrite Ho. unfold args_after.
      rewrite Z.eqb_refl, (proj2 (Z.leb_le _ _)), (proj2 (Z.ltb_lt _ _)) by lia. cbn [andb].
      by rewrite Z.sub_0_r.
    + by exists x.
Qed.

Lemma createContext_spec :
  setup_spec (S:=S) sigint createContext
    (fun r g g' => exists p, the_platform g = Some p /\
       found_on (cl_machine (opencl g)) (wanted_type g) p r g')
    (fun code g g' => code = 1 /\ the_platform g = None /\
       exists warning, eprinted g' = eprinted g ++ warning ++
         [string_bytes "Platform not found: " ++ [34] ++ wanted_platform g ++ [34] ++ newline]).
Proof.
  intros s g. unfold createContext, cerr, exit. cl_steps. subst. cl_steps.
  eapply wp_mono; [by apply device_type_spec|]. intros o g1 (H1 & -> & warning & Hw). cl_steps; [done|].
  eapply wp_mono; [apply (for_each_setup _ _ print_platform_spec)|].
  intros [[e|r] s1|c s1|w|s1] g2 [H2 Ho]; try (by destruct Ho);
    (assert (H12 : setup g g2) by solve_setup); [done|].
  destruct Ho as (-> & _ & He). cl_steps. fold (wanted_platform g).
  assert (Hm : cl_machine (opencl g2) = cl_machine (opencl g)) by solve_setup.
  apply (wp_for_each sigint (fun before s' g' => s' = s /\ setup g g' /\ eprinted g' = eprinted g2 /\
    filter (has_name (cl_machine (opencl g)) (wanted_platform g)) before = [])).
  - done.
  - intros before p after s3 g3 Hl (-> & H3 & He3 & Hf). eapply wp_mono; [apply try_platform_spec|].
    assert (Hm3 : cl_machine (opencl g3) = cl_machine (opencl g)) by solve_setup.
    assert (Hm1 : cl_machine (opencl g1) = cl_machine (opencl g)) by solve_setup.
    intros [[e|[r'|]] s4|c s4|w|s4] g4 [H4 Ho]; try (by destruct Ho);
      (assert (H34 : setup g g4) by (by etransitivity)); [done|destruct Ho as (-> & He4 & Ho)..].
    + cl_steps. split; [done|]. split; [done|]. exists p. rewrite Hm3 in Ho. destruct Ho as [Hn Hr].
      split; [|done]. unfold the_platform. rewrite <- Hm1, <- Hx, Hl, Hm1.
      by rewrite filter_app, Hf, filter_cons_True.
    + split; [done|]. split; [done|]. split; [congruence|].
      rewrite Hm3 in Ho. by rewrite filter_app, Hf, filter_cons_False.
  - intros s3 g3 (-> & H3 & He3 & Hf). cl_steps. split; [solve_setup|].
    split; [done|]. split; [done|]. split.
    + assert (Hm1 : cl_machine (opencl g1) = cl_machine (opencl g)) by solve_setup.
      unfold the_platform. by rewrite <- Hm1, <- Hx, Hm1, Hf.
    + exists warning. cbn [eprinted add_eprinted]. rewrite He3, He. cbn [eprinted set_opencl].
      by rewrite Hw, <- app_assoc.
Qed.

Lemma get_program_spec context device filename (s : S) g :
  wpn (get_program context device filename s)
    (fun o g' => setup g g' /\
       match o with
       | Done (inr program) s' => s' = s /\ eprinted g' = eprinted g /\
           cl_programs (opencl g') !! program = Some [default [] (files g filename)]
       | Exit code s' => s' = s /\ code = EXIT_FAILURE /\
           exists error, eprinted g' = eprinted g ++
             [string_bytes "Loading binary failed: " ++ what error ++ newline ++
              string_bytes "Error code: " ++ fmt_d (err error) ++ newline ++
              string_bytes "Error message: " ++ errorMessage (err error) ++ newline]
       | _ => False
       end) g.
Proof.
  unfold get_program, catch, createProgramFromBinaries, cout, cerr, exit. cl_steps.
  - subst. split; [done|]. split; [done|]. split; [done|]. by eexists.
  - subst. split; [done|]. split; [done|]. split; [done|]. apply lookup_insert_eq.
Qed.

End specs.

(** ** Error messages *)

Lemma switch_error_cases cases e :
  (exists text, (e, text) ∈ cases /\ switch_error cases e = string_bytes text) \/
  ((e ∉ cases.*1) /\ switch_error cases e = string_bytes "Unknown (" ++ fmt_d e ++ string_bytes ")").
Proof.
  induction cases as [|[c t] cases IH]; cbn [switch_error fmap list_fmap fst].
  - right. split; [by apply not_elem_of_nil|done].
  - destruct (Z.eqb_spec e c) as [->|Hn].
    + left. exists t. split; [|done]. apply elem_of_cons. by left.
    + destruct IH as [(u & Hu & E)|[Hu E]]; [left; exists u|right]; (split; [|done]).
      * apply elem_of_cons. by right.
      * by rewrite not_elem_of_cons.
Qed.

Lemma fmt_d_inj n m :
  INT_MIN <= n <= INT_MAX -> INT_MIN <= m <= INT_MAX -> fmt_d n = fmt_d m -> n = m.
Proof. intros Hn Hm E. apply (f_equal atoi) in E. rewrite !atoi_fmt_d in E by done. congruence. Qed.

(** No two cases share a message, and none starts like the default's. *)
Lemma error_messages_distinct :
  NoDup ((fun c => string_bytes c.2) <$> error_cases) /\
  Forall (fun c => take 9 (string_bytes c.2) <> string_bytes "Unknown (") error_cases.
Proof. split; apply (bool_decide_unpack _); vm_compute; exact I. Qed.

Lemma case_of_message c c' :
  c ∈ error_cases -> c' ∈ error_cases -> string_bytes c.2 = string_bytes c'.2 -> c = c'.
Proof.
  intros Hc Hc' E. destruct error_messages_distinct as [Hd _].
  apply list_elem_of_lookup in Hc as [i Hi]. apply list_elem_of_lookup in Hc' as [j Hj].
  assert (i = j); [|congruence].
  eapply NoDup_lookup; [exact Hd|rewrite list_lookup_fmap, Hi; done|].
  rewrite list_lookup_fmap, Hj. simpl. congruence.
Qed.

(** ** Properties *)

(** C29: createContext: the platform is the first installed one with the name
    PLATFORM gives, by default Intel's; the context is created for all its
    devices of the type TYPE names, of which there is at least one.  When no
    platform has that name the program says so and exits, having created
    nothing. *)
Theorem createContext_correct {S} sigint (s : S) g :
  net_wp sigint (createContext s)
    (fun o g' => setup g g' /\
       match o with
       | Done (inr (context, devices)) s' => s' = s /\ exists p,
           the_platform g = Some p /\
           devices = m_devices (cl_machine (opencl g)) p (wanted_type g) /\ devices <> [] /\
           cl_contexts (opencl g') !! context = Some devices
       | Done (inl _) s' => s' = s
       | Exit code s' => s' = s /\ code = 1 /\ the_platform g = None /\
           exists warning, eprinted g' = eprinted g ++ warning ++
             [string_bytes "Platform not found: " ++ [34] ++ wanted_platform g ++ [34] ++ newline]
       | _ => False
       end) g.
Proof.
  eapply wp_mono; [apply createContext_spec|].
  by intros [[e|[context devices]] s'|code s'|w|s'] g'.
Qed.

(** C30: get_program: the program is created from the contents of the file, from
    no bytes when there is no such file; an exception of OpenCL does not leave
    the function: it reports the error with its message and exits. *)
Theorem get_program_correct {S} sigint context device filename (s : S) g :
  net_wp sigint (get_program context device filename s)
    (fun o g' => setup g g' /\
       match o with
       | Done (inr program) s' => s' = s /\ eprinted g' = eprinted g /\
           cl_programs (opencl g') !! program = Some [default [] (files g filename)]
       | Exit code s' => s' = s /\ code = EXIT_FAILURE /\
           exists error, eprinted g' = eprinted g ++
             [string_bytes "Loading binary failed: " ++ what error ++ newline ++
              string_bytes "Error code: " ++ fmt_d (err error) ++ newline ++
              string_bytes "Error message: " ++ errorMessage (err error) ++ newline]
       | _ => False
       end) g.
Proof. apply get_program_spec. Qed.

(** Different error codes have different messages. *)
Theorem errorMessage_distinguishes e e' :
  INT_MIN <= e <= INT_MAX -> INT_MIN <= e' <= INT_MAX -> e <> e' ->
  errorMessage e <> errorMessage e'.
Proof.
  intros He He' Hn E. unfold errorMessage in E. destruct error_messages_distinct as [_ Hu].
  rewrite Forall_forall in Hu.
  destruct (switch_error_cases error_cases e) as [(t & Ht & Em)|[Ht Em]],
    (switch_error_cases error_cases e') as [(t' & Ht' & Em')|[Ht' Em']]; rewrite Em, Em' in E.
  - pose proof (case_of_message _ _ Ht Ht' E). congruence.
  - destruct (Hu _ Ht). cbn [snd]. by rewrite E.
  - destruct (Hu _ Ht'). cbn [snd]. by rewrite <- E.
  - apply app_inv_head, app_inv_tail in E. by apply Hn, fmt_d_inj.
Qed.

Lemma errorMessage_distinguishes_witness : errorMessage (-5) <> errorMessage (-1001).
Proof.
  apply errorMessage_distinguishes; unfold INT_MIN, INT_MAX; lia.
Defined.
