(* ===== verification/FpgaHost.v ===== *)
(** fpga_host.cc: handing the packet's headers to the FPGA kernel.

    Exceptions leave the function uncaught.  The destructors that run at its
    return only release objects, and are left out with the other reference
    counts. *)
From S2P Require Import Prelude CInt CLib RawPacket Prog ClApi Posix IbHeaders OpenClUtils.
Local Open Scope Z_scope.
Local Open Scope c_scope.

Definition header_size : Z := u32 (sizeof_ethhdr + sizeof_ib_headers).

Section code.
Context {S : Type}.

(** The body of [ib_fpga_send_loop], up to an exception. *)
Definition fpga_send (p : packet) (header_crc : Z) : throws S unit :=
  let? (context, devices) := createContext in
  let? device0 := lift (defined "devices[0]" (devices !! 0%nat)) in
  let? program := get_program context device0 (string_bytes "ibverbs.aocx") in
  let? queue := cl_call (Queue_new context (Some device0) CL_QUEUE_PROFILING_ENABLE) in
  let? device_buf := cl_call (Buffer_new context CL_MEM_READ_ONLY header_size) in
  let? host_buf := cl_call (Buffer_new context
                     (Z.lor CL_MEM_HOST_WRITE_ONLY CL_MEM_ALLOC_HOST_PTR) header_size) in
  let? buffer := cl_call (EnqueueMapBuffer queue host_buf true CL_MAP_WRITE 0 header_size) in
  lift (call (StoreMapped buffer (take (Z.to_nat header_size) (packet_bytes p)))) ;?
  let? kernel := Kernel_Kernel program (string_bytes "write_ibverb_packet") in
  cl_call (EnqueueCopyBuffer queue host_buf device_buf 0 0 header_size) ;?
  let? kernel := Kernel_call kernel
                   [ArgBuffer device_buf; ArgUint header_crc; ArgUint header_size; ArgInt 1] in
  finish kernel ;?
  cl_call (EnqueueUnmapMemObject queue host_buf buffer).

Definition ib_fpga_send_loop (p : packet) (header_crc : Z) : M posix S unit :=
  uncaught (fpga_send p header_crc).

End code.

(** ** What the kernel is launched with *)

Definition packet_headers (p : packet) : list Z :=
  take (Z.to_nat header_size) (packet_bytes p).

(** A launch of [write_ibverb_packet] for the headers of [p].  The copy that is to
    fill its buffer is of exactly the headers; but it reads a buffer that is still
    mapped, and it is on another queue, so the kernel may find anything there. *)
Definition headers_launch (p : packet) (header_crc : Z) (l : launch) : Prop :=
  exists program device_buf,
    l_kernel l = (program, string_bytes "write_ibverb_packet") /\
    l_args l 0 = Some (ArgBuffer device_buf) /\ l_args l 1 = Some (ArgUint header_crc) /\
    l_args l 2 = Some (ArgUint header_size) /\ l_args l 3 = Some (ArgInt 1) /\
    intended l device_buf = Some (Some <$> packet_headers p) /\
    device_buf ∈ l_undefined l /\ unsynchronised l device_buf = true /\
    forall bytes, may_read l device_buf bytes <-> length bytes = Z.to_nat header_size.

Definition wire_same (g g' : net) : Prop :=
  sent g' = sent g /\ sent_in g' = sent_in g /\ polls g' = polls g.

Definition launches_after (p : packet) (header_crc : Z) (g g' : net) : Prop :=
  cl_launches (opencl g') = cl_launches (opencl g) \/
  exists l, cl_launches (opencl g') = cl_launches (opencl g) ++ [l] /\ headers_launch p header_crc l.

(** ** Lemmas *)

Lemma is_mapped_insert p b off size s :
  cl_mapped s !! p = Some (b, off, size) -> is_mapped b s = true.
Proof.
  intros H. apply bool_decide_eq_true, list_elem_of_fmap. exists (p, (b, off, size)).
  split; [done|]. by apply elem_of_map_to_list.
Qed.

(** In a buffer that is written meanwhile, a kernel may find anything. *)
Lemma may_read_unsynchronised l b old bytes :
  unsynchronised l b = true -> l_memory l !! b = Some old ->
  may_read l b bytes <-> length bytes = length old.
Proof.
  intros Hu Hm. unfold may_read. rewrite Hu, Hm. cbn [orb]. split; [|by eauto].
  by intros (old' & [= <-] & H).
Qed.

Lemma length_packet_headers p :
  wf_packet p -> length (packet_headers p) = Z.to_nat header_size.
Proof.
  intros Hp. unfold packet_headers. rewrite length_take.
  pose proof (length_packet_bytes p Hp) as H.
  change sizeof_packet with 9014 in H. change header_size with 74. lia.
Qed.

(** The copy of [fpga_send], performed. *)
Definition header_copy (q host_buf device_buf : Z) : copy :=
  {| cp_queue := q; cp_src := host_buf; cp_dst := device_buf; cp_src_offset := 0;
     cp_dst_offset := 0; cp_size := header_size |}.

Lemma perform_header_copy p q host_buf device_buf (m : memory) :
  wf_packet p -> m !! host_buf = Some (Some <$> packet_headers p) ->
  m !! device_buf = Some (replicate (Z.to_nat header_size) None) ->
  perform m (header_copy q host_buf device_buf) !! device_buf = Some (Some <$> packet_headers p).
Proof.
  intros Hp Hh Hd. pose proof (length_packet_headers p Hp) as Hl.
  unfold perform, header_copy. cbn [cp_src cp_dst cp_src_offset cp_dst_offset cp_size].
  rewrite Hh, Hd, lookup_insert_eq. f_equal. change (Z.to_nat 0) with 0%nat.
  rewrite drop_0, take_ge by (rewrite length_fmap; lia).
  apply splice_all. by rewrite length_fmap, length_replicate.
Qed.

Lemma the_launch_headers p crc k q program host_buf device_buf event (s : cl_state) :
  wf_packet p -> queue k <> q ->
  cl_kernels s !! kernel k = Some (program, string_bytes "write_ibverb_packet") ->
  (forall i, 0 <= i < 4 -> cl_args s (kernel k) i =
     [ArgBuffer device_buf; ArgUint crc; ArgUint header_size; ArgInt 1] !! Z.to_nat i) ->
  cl_memory s !! device_buf = Some (replicate (Z.to_nat header_size) None) ->
  cl_memory s !! host_buf = Some (Some <$> packet_headers p) ->
  cl_pending s = [header_copy q host_buf device_buf] -> device_buf ∈ cl_undefined s ->
  headers_launch p crc (the_launch (queue k) (kernel k) event s).
Proof.
  intros Hp Hq Hk Ha Hd Hh Hc Hu. exists program, device_buf. split; [cbn; by rewrite Hk|].
  do 4 (split; [refine (Ha _ _); lia|]).
  assert (Hun : unsynchronised (the_launch (queue k) (kernel k) event s) device_buf = true).
  { unfold unsynchronised, written_elsewhere. cbn. rewrite Hc. cbn. rewrite Z.eqb_refl.
    by rewrite (proj2 (Z.eqb_neq q (queue k))) by done. }
  split; [|split; [|split; [done|]]].
  - unfold intended. cbn. rewrite Hc. by apply perform_header_copy.
  - cbn. apply elem_of_app. by left.
  - intros bytes. rewrite may_read_unsynchronised by done. by rewrite length_replicate.
Qed.

(** The state with the queue, the buffers, and the headers stored through the
    mapping. *)
Definition prepared (q device_buf host_buf buffer : Z) (hdr : list Z) (s : cl_state) : cl_state :=
  let s1 := add_buffer host_buf header_size (add_buffer device_buf header_size (add_handle q s)) in
  store_mapped buffer hdr
    (set_mapped (<[buffer := (host_buf, 0, header_size)]> (cl_mapped s1)) (settle q s1)).

Lemma prepared_spec p q device_buf host_buf buffer (s : cl_state)
    (s' := prepared q device_buf host_buf buffer (packet_headers p) s) :
  wf_packet p -> cl_pending s = [] -> host_buf <> device_buf ->
  cl_memory s' !! device_buf = Some (replicate (Z.to_nat header_size) None) /\
  cl_memory s' !! host_buf = Some (Some <$> packet_headers p) /\
  cl_mapped s' !! buffer = Some (host_buf, 0, header_size) /\
  cl_pending s' = [] /\ (q ∈ cl_used s') /\
  cl_launches s' = cl_launches s /\ cl_broken s' = cl_broken s.
Proof.
  intros Hp Hc Hne. pose proof (length_packet_headers p Hp) as Hl.
  subst s'. unfold prepared, store_mapped. cbn. rewrite lookup_insert_eq, Hc.
  rewrite (proj2 (Z.leb_le _ _)) by (change header_size with 74 in *; lia). cbn.
  rewrite lookup_alter_ne by done. rewrite lookup_alter_eq, !lookup_insert_eq.
  rewrite lookup_insert_ne, lookup_insert_eq by done. cbn.
  split_and!; try done.
  - change (Z.to_nat 0) with 0%nat. by rewrite splice_all by by rewrite length_fmap, length_replicate.
  - by rewrite Hc.
  - rewrite !elem_of_cons. auto.
Qed.

(** Once the kernel object is there: the copy, the launch, and waiting for it. *)
Section specs.
Context {S : Type} (sigint : nat -> bool).
Local Abbreviation wpn := (net_wp sigint).

Definition outcome_ok (p : packet) (crc : Z) (s : S) (g : net)
    (o : outcome S (cl_error + unit)) (g' : net) : Prop :=
  wire_same g g' /\
  match o with
  | Done (inr _) s' => s' = s /\ exists l,
      cl_launches (opencl g') = cl_launches (opencl g) ++ [l] /\ headers_launch p crc l /\
      (l_event l ∈ cl_waited (opencl g')) /\
      cl_broken (opencl g') = cl_broken (opencl g) ++ [copy_of_mapped]
  | Done (inl _) s' => s' = s /\ launches_after p crc g g'
  | Exit code s' => s' = s /\ code = EXIT_FAILURE /\ launches_after p crc g g'
  | _ => False
  end.

Lemma launch_spec p crc k program q device_buf host_buf buffer s g :
  wf_packet p -> queue k <> q ->
  cl_kernels (opencl g) !! kernel k = Some (program, string_bytes "write_ibverb_packet") ->
  cl_memory (opencl g) !! device_buf = Some (replicate (Z.to_nat header_size) None) ->
  cl_memory (opencl g) !! host_buf = Some (Some <$> packet_headers p) ->
  cl_mapped (opencl g) !! buffer = Some (host_buf, 0, header_size) ->
  cl_pending (opencl g) = [] ->
  wpn ((cl_call (EnqueueCopyBuffer q host_buf device_buf 0 0 header_size) ;?
        let? k := Kernel_call k [ArgBuffer device_buf; ArgUint crc; ArgUint header_size; ArgInt 1] in
        finish k ;?
        cl_call (EnqueueUnmapMemObject q host_buf buffer)) s)
    (outcome_ok p crc s g) g.
Proof.
  intros Hp Hq Hk Hd Hh Hm Hc. cl_steps; [by repeat split; left|].
  unfold enqueue_copy. cbn [cp_src cp_dst]. rewrite (is_mapped_insert _ _ _ _ _ Hm). cbn [orb].
  unfold finish. cl_steps.
  eapply wp_mono; [apply Kernel_call_spec|]. intros [[e|k'] s1|c s1|w|s1] g1 Ho; try done.
  - destruct Ho as [-> H1]. unfold outcome_ok, launches_after, wire_same. split; [solve_setup|].
    split; [done|]. left. solve_setup.
  - destruct Ho as (-> & g2 & H2 & Hk2 & Hargs & e & -> & ->).
    assert (Hl : headers_launch p crc (the_launch (queue k) (kernel k) e (opencl g2))).
    { unfold setup in H2. split_and_hyps. cbn in *.
      eapply (the_launch_headers _ _ _ q _ host_buf device_buf); [done|done|..];
        [rewrite Hk2; exact Hk|exact Hargs| | | |]; try congruence; [by rewrite Hc in *|].
      match goal with H : cl_undefined (opencl g2) = _ |- _ => rewrite H end.
      apply elem_of_cons. by left. }
    cl_steps; unfold outcome_ok, wire_same, launches_after; unfold setup in H2; split_and_hyps;
      cbn in *; (split; [split_and!; congruence|]); (split; [done|]).
    1-2: right; eexists; split; [|exact Hl]; congruence.
    eexists. split; [|split; [exact Hl|]]; [congruence|].
    split; [by apply elem_of_cons; left|done].
  - destruct Ho as (-> & -> & H1). unfold outcome_ok, launches_after, wire_same. split; [solve_setup|].
    split; [done|]. split; [done|]. left. solve_setup.
Qed.

(** Nothing sent or launched, no rule broken. *)
Definition still (g g' : net) : Prop :=
  wire_same g g' /\ cl_launches (opencl g') = cl_launches (opencl g) /\
  cl_broken (opencl g') = cl_broken (opencl g).

Lemma setup_still g g' : setup g g' -> still g g'.
Proof. intros H. unfold setup, still, wire_same in *. by intuition. Qed.

Lemma still_trans g1 g2 g3 : still g1 g2 -> still g2 g3 -> still g1 g3.
Proof. unfold still, wire_same. intuition congruence. Qed.

Lemma still_throw p crc s g e g' : still g g' -> outcome_ok p crc s g (Done (inl e) s) g'.
Proof. intros (Hw & Hl & _). split; [done|]. split; [done|by left]. Qed.

Lemma still_exit p crc s g g' : still g g' -> outcome_ok p crc s g (Exit EXIT_FAILURE s) g'.
Proof. intros (Hw & Hl & _). split; [done|]. do 2 (split; [done|]). by left. Qed.

Lemma still_outcome p crc s g g1 o g' :
  still g g1 -> outcome_ok p crc s g1 o g' -> outcome_ok p crc s g o g'.
Proof.
  intros (Hw & Hl & Hb) [Hw1 Ho]. unfold outcome_ok, launches_after in *. rewrite <- Hl, <- Hb.
  split; [|done]. unfold wire_same in *. intuition congruence.
Qed.

Lemma fpga_send_spec p crc s g :
  wf_packet p -> cl_pending (opencl g) = [] -> wpn (fpga_send p crc s) (outcome_ok p crc s g) g.
Proof.
  intros Hp Hc. unfold fpga_send. cl_steps.
  eapply wp_mono; [apply createContext_spec|].
  intros [[e|[context devices]] s1|c s1|w|s1] g1 [H1 Ho]; try done.
  { subst. by apply still_throw, setup_still. }
  2: { destruct Ho as (-> & -> & _). by apply still_exit, setup_still. }
  destruct Ho as (-> & _ & _ & _ & Hne & _). destruct devices as [|d devices]; [done|].
  cbn [lookup list_lookup defined]. cl_steps.
  eapply wp_mono; [apply get_program_spec|].
  intros [[e|program] s2|c s2|w|s2] g2 [H2 Ho]; try done.
  2: { destruct Ho as (-> & -> & _). apply still_exit, setup_still. by etransitivity. }
  destruct Ho as (-> & _ & _). assert (H12 : setup g g2) by (by etransitivity).
  pose proof (setup_still _ _ H12) as Hst.
  cl_steps; try by (eapply still_outcome; [exact Hst|]; by apply still_throw).
  match goal with |- wp _ _ ?st => set (g3 := st) end.
  assert (Hne1 : x1 <> x0) by (intros ->; apply Hx1; apply elem_of_cons; by left).
  assert (E3 : opencl g3 = prepared x x0 x1 x2 (packet_headers p) (opencl g2)) by done.
  assert (W3 : wire_same g2 g3) by done. clearbody g3.
  destruct (prepared_spec p x x0 x1 x2 (opencl g2)) as (P1 & P2 & P3 & P4 & P5 & P6 & P7);
    [done| |done|rewrite <- E3 in *]; [unfold setup in H12; intuition congruence|].
  assert (S3 : still g g3) by (eapply still_trans; [exact Hst|done]).
  eapply wp_mono; [apply Kernel_Kernel_spec|].
  intros [[e|k] s4|c s4|w|s4] g4 [H4 Ho]; try done;
    (assert (S4 : still g g4) by (eapply still_trans; [exact S3|by apply setup_still])).
  { subst. by apply still_throw. }
  destruct Ho as (-> & _ & Hq & Hk).
  eapply wp_mono; [|intros o g5; by apply still_outcome].
  unfold setup in H4. split_and_hyps. apply (launch_spec p crc k program); try congruence.
Qed.

(** The outcomes of the function: an exception that leaves it aborts the
    program. *)
Lemma ib_fpga_send_loop_spec p crc (s : S) g :
  wf_packet p -> cl_pending (opencl g) = [] ->
  wpn (ib_fpga_send_loop p crc s)
    (fun o g' => wire_same g g' /\
       match o with
       | Done _ s' => s' = s /\ exists l,
           cl_launches (opencl g') = cl_launches (opencl g) ++ [l] /\ headers_launch p crc l /\
           (l_event l ∈ cl_waited (opencl g')) /\
           cl_broken (opencl g') = cl_broken (opencl g) ++ [copy_of_mapped]
       | Exit code s' =>
           s' = s /\ (code = EXIT_FAILURE \/ code = ABORTED) /\ launches_after p crc g g'
       | _ => False
       end) g.
Proof.
  intros Hp Hc. apply wp_bind. eapply wp_mono; [by apply fpga_send_spec|].
  intros [[e|[]] s1|c s1|w|s1] g1 [H1 Ho]; cl_steps; (split; [done|]); try done.
  - destruct Ho as [-> Ho]. auto.
  - destruct Ho as (-> & -> & Ho). auto.
Qed.

End specs.

(** ** Properties *)

(** C27: ib_fpga_send_loop, from any state without pending copies.  It sends
    nothing itself.  When it returns it has launched write_ibverb_packet once,
    with the checksum and size it was given and a device buffer for which a copy
    of exactly the packet's headers is enqueued, and it has waited for the kernel.
    But the copy reads a buffer that is still mapped for writing, a rule of OpenCL
    it breaks, the only one; and the copy is on another queue, unordered with the
    kernel: either leaves what the kernel reads undefined, any bytes at all.
    Otherwise it exits, or an exception aborts the program, with at most that
    launch made. *)
Theorem fpga_host_correct {S} sigint p crc (s : S) g :
  wf_packet p -> cl_pending (opencl g) = [] ->
  net_wp sigint (ib_fpga_send_loop p crc s)
    (fun o g' => wire_same g g' /\
       match o with
       | Done _ s' => s' = s /\ exists l,
           cl_launches (opencl g') = cl_launches (opencl g) ++ [l] /\ headers_launch p crc l /\
           (l_event l ∈ cl_waited (opencl g')) /\
           cl_broken (opencl g') = cl_broken (opencl g) ++ [copy_of_mapped]
       | Exit code s' =>
           s' = s /\ (code = EXIT_FAILURE \/ code = ABORTED) /\ launches_after p crc g g'
       | _ => False
       end) g.
Proof. apply ib_fpga_send_loop_spec. Qed.

Lemma fpga_host_correct_witness :
  net_wp (fun _ => false) (ib_fpga_send_loop full_packet0 7 tt)
    (fun o g' => sent g' = [] /\ (forall why, o <> Undef why)) net0.
Proof.
  eapply wp_mono.
  - apply (fpga_host_correct (fun _ => false) full_packet0 7 tt net0).
    + apply wf_full_packet0.
    + reflexivity.
  - intros o g' [(Hs & _) Ho]. split; [exact Hs|]. intros why ->. exact Ho.
Defined.
