(* ===== verification/RawIbverbs.v ===== *)
(** raw_ibverbs.c, second half: the loop that sends InfiniBand packets over a
    raw socket, and the program.

    The program's static objects are a record.  [full_packet] is followed in
    memory by the bytes [beyond]: the loop stores its checksum at
    [&packet->data[MSG_SIZE]], the first byte after the object, so the model
    keeps what is there.  A store past the end of [beyond] is undefined. *)
From S2P Require Import Prelude CInt CLib RawPacket Crc32 Prog ClApi Posix LookupAddr IbHeaders.
From S2P Require Import OpenClUtils FpgaHost.
Local Open Scope Z_scope.
Local Open Scope c_scope.

Record raw_state := {
  packet_loop : Z;
  device : sockaddr_ll;
  full_packet : packet;
  beyond : list Z;
  count : Z  (** the send loop's local counter *)
}.

Definition set_packet_loop x (s : raw_state) : raw_state :=
  {| packet_loop := x; device := device s; full_packet := full_packet s; beyond := beyond s;
     count := count s |}.
Definition set_device x (s : raw_state) : raw_state :=
  {| packet_loop := packet_loop s; device := x; full_packet := full_packet s;
     beyond := beyond s; count := count s |}.
Definition set_full_packet x (s : raw_state) : raw_state :=
  {| packet_loop := packet_loop s; device := device s; full_packet := x; beyond := beyond s;
     count := count s |}.
Definition set_beyond x (s : raw_state) : raw_state :=
  {| packet_loop := packet_loop s; device := device s; full_packet := full_packet s;
     beyond := x; count := count s |}.
Definition set_count x (s : raw_state) : raw_state :=
  {| packet_loop := packet_loop s; device := device s; full_packet := full_packet s;
     beyond := beyond s; count := x |}.
Definition set_data x (p : packet) : packet :=
  {| ether_header := ether_header p; ib_header := ib_header p; data := x |}.

Definition device0 : sockaddr_ll :=
  {| sll_family := 0; sll_ifindex := 0; sll_halen := 0; sll_addr := replicate 8 0 |}.

(** The initial values of the static objects. *)
Definition raw_init (after : list Z) : raw_state :=
  {| packet_loop := 1; device := device0; full_packet := full_packet0; beyond := after;
     count := 0 |}.

(** The signal handler. *)
Definition stop_loop (s : raw_state) : raw_state := set_packet_loop 0 s.

Section code.
Context `{!AddrText}.

(** [while (packet_loop)]: SIGINT may have run the handler since the last
    test. *)
Definition loop_test : M posix raw_state bool :=
  let! delivered := call SigintDelivered in
  (if delivered : bool then modify stop_loop else ret tt) ;!
  gets (fun s => negb (packet_loop s =? 0)).

(** The body of the loop; [Some tt] leaves it. *)
Definition send_body (sock header_crc : Z) : M posix raw_state (option unit) :=
  let! go := loop_test in
  if negb go then ret (Some tt) else
  let! s := gets id in
  let p := full_packet s in
  let (result, buf) := snprintf (data p) MSG_SIZE (message (count s)) in
  if count s =? INT_MAX then undef "count++ overflows" else
  modify (set_count (count s + 1)) ;!
  let! buf := defined "snprintf writes past packet->data" buf in
  let p := set_data buf p in
  modify (set_full_packet p) ;!
  if (result <? 0) || (MSG_SIZE <=? result) then die "Error creating message" else
  let length := u32 (MSG_SIZE + total_header_size + checksum_size) in
  let! crc := defined "crc32" (crc32 header_crc (data p) MSG_SIZE) in
  let! after := defined "store past the end of full_packet"
                  (store_bytes 0 (le_bytes 4 crc) (beyond s)) in
  modify (set_beyond after) ;!
  printf_all (print_ib_headers inet_ntop6 (ib_header p)) ;!
  let! _ := call (Printf newline) in
  let! result := call (SendToLL sock (take (Z.to_nat length) (packet_bytes p ++ after))
                        (device s)) in
  if result =? -1 then die "Error sending message" else
  let! _ := call (Sleep 1) in
  ret None.

Definition ib_host_send_loop (fuel : nat) (header_crc : Z) : M posix raw_state unit :=
  let! sock := call (Socket AF_PACKET SOCK_RAW (htons ETH_P_ALL)) in
  if sock =? -1 then die "Error creating socket" else
  modify (set_count 0) ;!
  loop fuel (send_body sock header_crc).

Definition usage : list (list Z) :=
  [ string_bytes "Usage: raw_ibverbs host <dest IPv4> <dest IB GID> <IB QP> [<interface name>]";
    string_bytes "       raw_ibverbs fpga <dest MAC> <dest IPv4> <dest IB GID> <IB QP>";
    string_bytes "       raw_ibverbs fpga <src MAC> <src IPv4> <src IB GID> <dest MAC> <dest IPv4> <dest IB GID> <IB QP>" ].

Fixpoint eprintf_all (l : list (list Z)) : M posix raw_state unit :=
  match l with
  | [] => ret tt
  | o :: l => call (Eprintf (o ++ newline)) ;! eprintf_all l
  end.

Definition arg (argv : list (list Z)) (i : nat) : list Z := default [] (argv !! i).

(** The addresses and the queue pair, from the command line. *)
Definition parse_args (argv : list (list Z)) : M posix raw_state (bool * addr * addr * Z) :=
  let argc := length argv in
  if ((argc =? 5) || (argc =? 6))%nat && bool_decide (string_bytes "host" = arg argv 1) then
    let ifname := if (argc =? 6)%nat then arg argv 5 else string_bytes "eth4" in
    let! local := lookup_local_addr ifname in
    let! remote := lookup_remote_addr ifname (arg argv 2) (Some (arg argv 3)) in
    let! qp := defined "atoi" (atoi (arg argv 4)) in
    let! ifindex := call (IfNametoindex ifname) in
    let! d := gets device in
    modify (set_device {| sll_family := sll_family d; sll_ifindex := ifindex;
                          sll_halen := sll_halen d; sll_addr := sll_addr d |}) ;!
    if ifindex =? 0 then die "if_nametoindex() failed to obtain interface index " else
    ret (false, local, remote, u32 qp)
  else if ((argc =? 6) || (argc =? 9))%nat && bool_decide (string_bytes "fpga" = arg argv 1) then
    if (argc =? 6)%nat then
      let! local := addr_from_strings (string_bytes "04:3f:72:d4:2f:7c")
                      (string_bytes "10.149.5.104") (string_bytes "fe80::63f:72ff:fed4:2f7c") in
      let! remote := addr_from_strings (arg argv 2) (arg argv 3) (arg argv 4) in
      let! qp := defined "atoi" (atoi (arg argv 5)) in
      ret (true, local, remote, u32 qp)
    else
      let! local := addr_from_strings (arg argv 2) (arg argv 3) (arg argv 4) in
      let! remote := addr_from_strings (arg argv 5) (arg argv 6) (arg argv 7) in
      let! qp := defined "atoi" (atoi (arg argv 8)) in
      ret (true, local, remote, u32 qp)
  else eprintf_all usage ;! exit_ EXIT_FAILURE.

Definition main (fuel : nat) (argv : list (list Z)) : M posix raw_state Z :=
  let! r := call Sigaction in
  if negb (r =? 0) then die "Couldn't install signal handler" else
  let! (use_fpga, local, remote, queue_pair) := parse_args argv in
  let! _ := call (Printf (string_bytes "Local address:" ++ newline)) in
  print_addr local ;!
  let! _ := call (Printf (newline ++ string_bytes "Remote address:" ++ newline)) in
  print_addr remote ;!
  let! _ := call (Printf newline) in
  let! d := gets device in
  modify (set_device {| sll_family := AF_PACKET; sll_ifindex := sll_ifindex d; sll_halen := 6;
                        sll_addr := mac remote ++ drop ETH_ALEN (sll_addr d) |}) ;!
  let! p := gets full_packet in
  let! (p, header_crc) := defined "init_invariant_headers"
                            (init_invariant_headers p local remote queue_pair) in
  modify (set_full_packet p) ;!
  (if use_fpga : bool then ib_fpga_send_loop p header_crc
   else ib_host_send_loop fuel header_crc) ;!
  ret 0.

End code.

(** ** Specification *)

(** The payload of the [k]-th message, a frame with the packet's headers, and the
    one that carries message [k]. *)
Definition payload (k : nat) : list Z :=
  let m := message (Z.of_nat k) in m ++ replicate (Z.to_nat MSG_SIZE - length m) 0.

Definition headers_of (p : packet) : list Z :=
  eth_bytes (ether_header p) ++ ib_headers_bytes (ib_header p).

Definition frame_with (p : packet) (pl : list Z) : list Z :=
  headers_of p ++ pl ++ le_bytes 4 (icrc (ib_headers_bytes (ib_header p)) pl).

Definition frame (p : packet) (k : nat) : list Z := frame_with p (payload k).

(** The receiver: cut the frame, compute the checksum over the masked headers,
    the payload and the trailing checksum, compare with the residue. *)
Definition receiver_accepts (f : list Z) : bool :=
  let hdr := field 14 60 f in
  bool_decide (crc32_ref 0 (icrc_mask hdr ++ drop 74 f) = 0x2144DF1C).

(** The contents of [packet->data] before the [n]-th message. *)
Definition data_before (n : nat) : list Z :=
  match n with O => replicate (Z.to_nat MSG_SIZE) 0 | S k => payload k end.

(** ** Payloads *)

Lemma MSG_SIZE_nat : Z.of_nat (Z.to_nat MSG_SIZE) = MSG_SIZE.
Proof. rewrite Z2Nat.id; [done|]. unfold MSG_SIZE. lia. Qed.

Lemma MSG_SIZE_big : (50 < Z.to_nat MSG_SIZE)%nat.
Proof. unfold MSG_SIZE. lia. Qed.

Lemma length_payload k : length (payload k) = Z.to_nat MSG_SIZE.
Proof.
  unfold payload. rewrite length_app, length_replicate.
  pose proof (length_message (Z.of_nat k)). pose proof MSG_SIZE_big. lia.
Qed.

Lemma wf_payload k : wf_bytes (payload k).
Proof.
  apply Forall_app_2; [apply wf_message|]. apply Forall_replicate. unfold is_byte. lia.
Qed.

Lemma length_data_before n : length (data_before n) = Z.to_nat MSG_SIZE.
Proof. destruct n; [apply length_replicate|apply length_payload]. Qed.

(** Past the previous message the buffer is still zero: messages only grow. *)
Lemma drop_data_before n m :
  (length (message (Z.of_nat n)) <= m)%nat ->
  drop m (data_before n) = replicate (Z.to_nat MSG_SIZE - m) 0.
Proof.
  intros Hm. destruct n as [|k]; [apply drop_replicate|]. unfold data_before, payload.
  pose proof (message_mono (Z.of_nat k) (Z.of_nat (S k))).
  rewrite drop_app_ge by lia. rewrite drop_replicate. f_equal. lia.
Qed.

Lemma snprintf_payload n :
  snprintf (data_before n) MSG_SIZE (message (Z.of_nat n)) =
    (Z.of_nat (length (message (Z.of_nat n))), Some (payload n)).
Proof.
  pose proof (length_message (Z.of_nat n)) as Hm. pose proof MSG_SIZE_big.
  rewrite snprintf_fits; rewrite ?length_data_before, ?MSG_SIZE_nat; [|lia|lia].
  do 2 f_equal. rewrite drop_data_before by lia. unfold payload. f_equal.
  replace (Z.to_nat MSG_SIZE - length (message (Z.of_nat n)))%nat
    with (S (Z.to_nat MSG_SIZE - S (length (message (Z.of_nat n))))) by lia.
  done.
Qed.

(** ** The loop *)

Lemma set_data_id p : set_data (data p) p = p.
Proof. by destruct p. Qed.


(** The state after [n] messages, from the state [s0] at the loop's start. *)
Definition after_messages (s0 : raw_state) (n : nat) (s : raw_state) : Prop :=
  packet_loop s = 1 /\ device s = device s0 /\ count s = Z.of_nat n /\
  full_packet s = set_data (data_before n) (full_packet s0) /\
  length (beyond s) = length (beyond s0) /\ drop 4 (beyond s) = drop 4 (beyond s0).

Definition frames_sent (sock : Z) (s0 : raw_state) (n : nat) : list (Z * list Z * sockaddr_ll) :=
  (fun k => (sock, frame (full_packet s0) k, device s0)) <$> seq 0 n.

Lemma frames_sent_S sock s0 n :
  frames_sent sock s0 (S n) =
    frames_sent sock s0 n ++ [(sock, frame (full_packet s0) n, device s0)].
Proof. unfold frames_sent. rewrite seq_S, fmap_app. done. Qed.

(** What the loop prints about a frame before it sends it, and about [n] frames. *)
Definition report `{!AddrText} (h : ib_headers) : list (list Z) :=
  print_ib_headers inet_ntop6 h ++ [newline].
Definition reports `{!AddrText} (h : ib_headers) (n : nat) : list (list Z) :=
  concat (replicate n (report h)).

Lemma reports_S `{!AddrText} h n : reports h (S n) = reports h n ++ report h.
Proof.
  unfold reports. rewrite replicate_S_end, concat_app. cbn [concat]. by rewrite app_nil_r.
Qed.

(** The checksum handed to the loop is the one [init_invariant_headers]
    computed for these headers. *)
Definition header_crc_ok (p : packet) (crc : Z) : Prop :=
  wf_packet p /\ crc = crc32_ref 0 (icrc_mask (ib_headers_bytes (ib_header p))).

Lemma wf_icrc_mask l : wf_bytes l -> wf_bytes (icrc_mask l).
Proof.
  intros Hl. unfold icrc_mask. assert (is_byte 255) by (unfold is_byte; lia).
  assert (is_byte (Z.lor (nth_field 0 l) 15)).
  { pose proof (nth_field_byte 0 l Hl) as Hn. unfold is_byte in *.
    assert (0 <= Z.lor (nth_field 0 l) 15) by (apply Z.lor_nonneg; lia). split; [done|].
    apply (bits_bounded 8); [done|done|]. intros i Hi.
    rewrite Z.lor_spec, (testbit_high 8), (testbit_high 8 15) by lia. done. }
  repeat (apply Forall_app_2 || apply Forall_cons_2 || apply Forall_nil_2 || by apply field_wf);
    try done; try (by apply Forall_drop); by apply Forall_replicate.
Qed.

Lemma header_crc_range p crc : header_crc_ok p crc -> is_u 32 crc.
Proof.
  intros [(_ & Hh & _) ->]. apply crc32_ref_range; [unfold is_u; lia|].
  by apply wf_icrc_mask, wf_ib_headers_bytes.
Qed.

Lemma frame_crc p crc k :
  header_crc_ok p crc ->
  crc32 crc (payload k) MSG_SIZE = Some (icrc (ib_headers_bytes (ib_header p)) (payload k)).
Proof.
  intros H. pose proof (header_crc_range p crc H) as Hr. destruct H as [_ ->].
  rewrite (crc32_exact _ _ MSG_SIZE); [|done|apply wf_payload| |unfold MSG_SIZE, INT_MAX; lia].
  - unfold icrc. by rewrite crc32_ref_app.
  - by rewrite length_payload, MSG_SIZE_nat.
Qed.

Lemma length_headers_of p : wf_packet p -> length (headers_of p) = 74%nat.
Proof.
  intros (He & Hh & _). unfold headers_of.
  by rewrite length_app, length_eth_bytes, length_ib_headers_bytes.
Qed.

Lemma frame_bytes p k c tail :
  wf_packet p -> length c = 4%nat ->
  take (Z.to_nat (u32 (MSG_SIZE + total_header_size + checksum_size)))
    (packet_bytes (set_data (payload k) p) ++ c ++ tail) = headers_of p ++ payload k ++ c.
Proof.
  intros Hp Hc. unfold packet_bytes. cbn [ether_header ib_header data set_data].
  assert (Hl : Z.to_nat (u32 (MSG_SIZE + total_header_size + checksum_size)) =
               (74 + Z.to_nat MSG_SIZE + 4)%nat) by done.
  rewrite Hl. rewrite !app_assoc. fold (headers_of p). rewrite <- !app_assoc.
  rewrite !app_assoc. rewrite take_app_length'; [done|].
  rewrite !length_app, length_headers_of, length_payload, Hc by done. done.
Qed.

Section loop.
Context `{!AddrText} (sigint : nat -> bool).
Local Abbreviation wpn := (net_wp sigint).

(** One iteration: either the loop ends because SIGINT was delivered, or the
    next frame is sent. *)
Lemma send_body_spec sock crc s0 n s (g : net) (Q : outcome raw_state (option unit) -> net -> Prop) :
  header_crc_ok (full_packet s0) crc -> (4 <= length (beyond s0))%nat ->
  Z.of_nat n < INT_MAX -> after_messages s0 n s ->
  (sigint (polls g) = true -> Q (Done (Some tt) (stop_loop s)) (add_poll g)) ->
  (forall s', sigint (polls g) = false -> after_messages s0 (S n) s' ->
     Q (Done None s')
       (add_sent (sock, frame (full_packet s0) n, device s0)
          (add_printed (report (ib_header (full_packet s0))) (add_poll g)))) ->
  (forall s', sigint (polls g) = false ->
     Q (Exit EXIT_FAILURE s')
       (add_fault (add_printed (report (ib_header (full_packet s0))) (add_poll g)))) ->
  wpn (send_body sock crc s) Q g.
Proof.
  intros Hcrc Hlen Hn (A1 & A2 & A3 & A4 & A5 & A6) Hstop Hnext Hexit.
  unfold send_body, loop_test. net_steps. subst x.
  destruct (sigint (polls g)) eqn:Esig; net_steps; [by apply Hstop|].
  rewrite A1. cbn [Z.eqb negb]. net_steps. unfold id. rewrite A3, A4. cbn [data set_data].
  rewrite snprintf_payload. rewrite (proj2 (Z.eqb_neq _ _)) by lia. net_steps.
  pose proof (length_message (Z.of_nat n)). pose proof MSG_SIZE_big. pose proof MSG_SIZE_nat.
  rewrite (proj2 (Z.ltb_ge _ _)), (proj2 (Z.leb_gt _ _)) by lia. cbn [orb].
  rewrite (frame_crc _ _ _ Hcrc). net_steps.
  rewrite store_bytes_Some by (rewrite length_le_bytes; lia). net_steps.
  apply wp_printf_all. net_steps. rewrite add_printed_app, length_le_bytes.
  change (set_data (payload n) (set_data ?d ?p)) with (set_data (payload n) p).
  rewrite take_0. cbn [Nat.add app].
  rewrite frame_bytes by (exact (proj1 Hcrc) || apply length_le_bytes).
  rewrite A2. destruct (Z.eqb_spec x0 (-1)) as [->|]; net_steps; [by apply wp_die, Hexit|].
  apply Hnext; [done|]. unfold after_messages. cbn [packet_loop device count full_packet beyond
    set_beyond set_full_packet set_count].
  split; [done|]. split; [done|]. split; [lia|]. split; [done|]. split.
  - rewrite length_app, length_le_bytes, length_drop. lia.
  - rewrite drop_app_length' by by rewrite length_le_bytes. done.
Qed.

(** The outcomes of the whole loop: [n] frames, in order, then the end. *)
Lemma send_loop_spec sock crc s0 (g : net) fuel :
  header_crc_ok (full_packet s0) crc -> (4 <= length (beyond s0))%nat ->
  Z.of_nat fuel < INT_MAX -> after_messages s0 0 s0 ->
  wpn (loop fuel (send_body sock crc) s0)
    (fun o g' =>
       exists n, sent g' = sent g ++ frames_sent sock s0 n /\
         (forall i, (i < n)%nat -> sigint (polls g + i) = false) /\
         opencl g' = opencl g /\ sent_in g' = sent_in g /\ asked g g' /\ blamed (faults g) o g' /\
         printed g' = printed g ++ reports (ib_header (full_packet s0))
                        (match o with Exit _ _ => S n | _ => n end) /\
         match o with
         | Done _ s => (n < fuel)%nat /\ sigint (polls g + n)%nat = true /\ packet_loop s = 0 /\
                       length (beyond s) = length (beyond s0) /\
                       drop 4 (beyond s) = drop 4 (beyond s0)
         | Exit code _ => (n < fuel)%nat /\ code = EXIT_FAILURE
         | NoFuel _ => n = fuel
         | Undef _ => False
         end) g.
Proof.
  intros Hcrc Hlen Hfuel Ha0.
  apply (wp_loop (fun n s g' => after_messages s0 n s /\ polls g' = (polls g + n)%nat /\
           (forall i, (i < n)%nat -> sigint (polls g + i) = false) /\
           opencl g' = opencl g /\ sent_in g' = sent_in g /\ asked g g' /\ faults g' = faults g /\
           printed g' = printed g ++ reports (ib_header (full_packet s0)) n /\
           sent g' = sent g ++ frames_sent sock s0 n)).
  - split; [done|]. split; [lia|]. split; [lia|].
    do 4 (split; [done|]). split; symmetry; apply app_nil_r.
  - intros n s g' Hn (HI & Hp & Hsig & Hk & Hin & Hask & Hfa & Hpr & Hsent).
    apply (send_body_spec sock crc s0 n); [done|done|lia|done|..]; rewrite Hp.
    + intros Ht. exists n. destruct HI as (_ & _ & _ & _ & HI1 & HI2).
      by repeat split; try apply Hask.
    + intros s' Hf HI'. split; [done|]. split; [simpl; lia|]. split.
      * intros i Hi. destruct (decide (i = n)) as [->|]; [done|]. apply Hsig. lia.
      * split; [done|]. split; [done|]. split; [exact Hask|]. split; [exact Hfa|]. split.
        -- simpl. by rewrite Hpr, reports_S, <- app_assoc.
        -- simpl. by rewrite Hsent, frames_sent_S, <- app_assoc.
    + intros s' Hf. exists n. do 5 (split; [done|]). split; [cbn; lia|]. split; [|done].
      simpl. by rewrite Hpr, reports_S, <- app_assoc.
  - intros s g' (_ & _ & Hsig & Hk & Hin & Hask & Hfa & Hpr & Hsent). by exists fuel.
Qed.

Definition overflow_undef : string := "store past the end of full_packet".

(** Without four writable bytes after [full_packet], the first turn is undefined. *)
Lemma send_loop_short sock crc s0 (g : net) fuel :
  header_crc_ok (full_packet s0) crc -> (length (beyond s0) < 4)%nat -> after_messages s0 0 s0 ->
  wpn (loop fuel (send_body sock crc) s0)
    (fun o g' => sent g' = sent g /\ opencl g' = opencl g /\ sent_in g' = sent_in g /\ asked g g' /\
       blamed (faults g) o g' /\ paced tt (fun i => sigint (polls g + i)%nat) fuel 0 [overflow_undef] o) g.
Proof.
  intros Hcrc Hlen (A1 & _ & A3 & A4 & _). destruct fuel as [|fuel].
  { cbn. repeat split; lia. }
  unfold send_body, loop_test. cbn [loop]. net_steps. subst x.
  destruct (sigint (polls g)) eqn:Hsig; net_steps.
  { repeat split; cbn; [lia| |lia]. by rewrite Nat.add_0_r. }
  rewrite A1. cbn [Z.eqb negb]. net_steps. unfold id. rewrite A3, A4. cbn [data set_data].
  rewrite snprintf_payload. change (Z.of_nat 0 =? INT_MAX) with false. net_steps.
  pose proof (length_message (Z.of_nat 0)). pose proof MSG_SIZE_big. pose proof MSG_SIZE_nat.
  rewrite (proj2 (Z.ltb_ge _ _)), (proj2 (Z.leb_gt _ _)) by lia. cbn [orb].
  rewrite (frame_crc _ _ _ Hcrc). net_steps.
  unfold store_bytes. rewrite length_le_bytes. simpl beyond.
  rewrite (proj2 (Nat.leb_gt _ _)) by lia. net_steps. repeat split. by left.
Qed.

End loop.

(** ** The receiver accepts every frame *)

Lemma frame_fields p pl :
  wf_packet p -> field 14 60 (frame_with p pl) = ib_headers_bytes (ib_header p) /\
  drop 74 (frame_with p pl) = pl ++ le_bytes 4 (icrc (ib_headers_bytes (ib_header p)) pl).
Proof.
  intros Hp. pose proof (length_headers_of p Hp) as Hl. destruct Hp as (He & Hh & _).
  pose proof (length_eth_bytes _ He) as H1. pose proof (length_ib_headers_bytes _ Hh) as H2.
  split.
  - unfold frame_with, headers_of. rewrite <- !app_assoc.
    rewrite field_skip, H1 by lia. by apply field_head.
  - unfold frame_with. by rewrite drop_app_length'.
Qed.

Lemma icrc_residue hdr pl :
  wf_bytes hdr -> wf_bytes pl ->
  crc32_ref 0 (icrc_mask hdr ++ pl ++ le_bytes 4 (icrc hdr pl)) = 0x2144DF1C.
Proof.
  intros Hh Hp. rewrite app_assoc. apply crc32_ref_residue.
  - unfold is_u. lia.
  - apply Forall_app_2; [by apply wf_icrc_mask|done].
Qed.

(** ** The program up to the loop *)

Section program.
Context `{!AddrText} `{!AddrTextOk _} (sigint : nat -> bool).

(** [parse_args] only sets the interface index of [device]. *)
Definition args_ok (s s' : raw_state) (r : bool * addr * addr * Z) : Prop :=
  wf_addr r.1.1.2 /\ wf_addr r.1.2 /\ is_u 32 r.2 /\
  packet_loop s' = packet_loop s /\ full_packet s' = full_packet s /\ beyond s' = beyond s /\
  length (sll_addr (device s')) = length (sll_addr (device s)) /\
  drop ETH_ALEN (sll_addr (device s')) = drop ETH_ALEN (sll_addr (device s)).

Lemma args_ok_device i b local remote qp s :
  wf_addr local -> wf_addr remote ->
  args_ok s (set_device {| sll_family := sll_family (device s); sll_ifindex := i;
    sll_halen := sll_halen (device s); sll_addr := sll_addr (device s) |} s)
    (b, local, remote, u32 qp).
Proof. intros. split; [done|]. split; [done|]. split; [apply u32_range|]. by repeat split. Qed.

Lemma args_ok_refl b local remote qp s :
  wf_addr local -> wf_addr remote -> args_ok s s (b, local, remote, u32 qp).
Proof. intros. split; [done|]. split; [done|]. split; [apply u32_range|]. by repeat split. Qed.

(** Where the addresses and the queue pair of a run come from: in host mode the
    lookups, asked for the interface and the host of the command line; in FPGA mode
    the texts of the command line, or the fixed local ones. *)
Definition host_interface (argv : list (list Z)) : list Z :=
  if (length argv =? 6)%nat then arg argv 5 else string_bytes "eth4".

Definition queue_pair_of (text : list Z) (qp : Z) : Prop := exists n, atoi text = Some n /\ qp = u32 n.

Definition host_request (argv : list (list Z)) (before rest : list question) (g : net)
    (local remote : addr) (qp ifindex : Z) : Prop :=
  (length argv = 5 \/ length argv = 6)%nat /\ arg argv 1 = string_bytes "host" /\
  queue_pair_of (arg argv 4) qp /\
  hosts_found (host_interface argv) (arg argv 2) (Some (arg argv 3)) before rest g local remote ifindex.

Definition fpga_request (argv : list (list Z)) (local remote : addr) (qp : Z) : Prop :=
  arg argv 1 = string_bytes "fpga" /\
  (length argv = 6%nat /\
     from_strings (string_bytes "04:3f:72:d4:2f:7c") (string_bytes "10.149.5.104")
       (string_bytes "fe80::63f:72ff:fed4:2f7c") local /\
     from_strings (arg argv 2) (arg argv 3) (arg argv 4) remote /\ queue_pair_of (arg argv 5) qp \/
   length argv = 9%nat /\ from_strings (arg argv 2) (arg argv 3) (arg argv 4) local /\
     from_strings (arg argv 5) (arg argv 6) (arg argv 7) remote /\ queue_pair_of (arg argv 8) qp).

Definition request (argv : list (list Z)) (g g' : net) (s : raw_state)
    (r : bool * addr * addr * Z) : Prop :=
  let '(use, local, remote, qp) := r in
  if use : bool then fpga_request argv local remote qp
  else host_request argv (lookups g) [] g' local remote qp (sll_ifindex (device s)).

(** The two forms of the command line. *)
Definition usage_ok (argv : list (list Z)) : bool :=
  ((length argv =? 5) || (length argv =? 6))%nat && bool_decide (string_bytes "host" = arg argv 1) ||
  ((length argv =? 6) || (length argv =? 9))%nat && bool_decide (string_bytes "fpga" = arg argv 1).

(** What the command line and its lookups leave undefined. *)
Definition args_undefs : list string := lookup_undefs ++ [aton_undef; "atoi"].

Definition parsed (argv : list (list Z)) (s : raw_state) (g : net)
    (o : outcome raw_state (bool * addr * addr * Z)) (g' : net) : Prop :=
  quiet g g' /\
  match o with
  | Done r s' => args_ok s s' r /\ request argv g g' s' r /\ faults g' = faults g
  | Exit code _ => code = EXIT_FAILURE /\ (usage_ok argv = true -> (faults g < faults g')%nat)
  | Undef w => w ∈ args_undefs
  | NoFuel _ => False
  end.

(** FPGA mode: two addresses from their texts and a number. *)
Lemma wp_fpga_args m1 a1 g1 m2 a2 g2 text s (g : net)
    (Q : outcome raw_state (bool * addr * addr * Z) -> net -> Prop) :
  (forall local remote n, from_strings m1 a1 g1 local -> from_strings m2 a2 g2 remote ->
     wf_addr local -> wf_addr remote -> atoi text = Some n ->
     Q (Done (true, local, remote, u32 n) s) g) ->
  (forall w, w ∈ args_undefs -> Q (Undef w) g) ->
  net_wp sigint ((let! local := addr_from_strings m1 a1 g1 in
                  let! remote := addr_from_strings m2 a2 g2 in
                  let! qp := defined "atoi" (atoi text) in
                  ret (true, local, remote, u32 qp))%C s) Q g.
Proof.
  intros HD HU.
  apply wp_addr_from_strings; [intros local Hl Hwl|apply HU; by repeat constructor].
  apply wp_addr_from_strings; [intros remote Hr Hwr|apply HU; by repeat constructor].
  destruct (atoi text) as [n|] eqn:En; net_steps; [by apply HD|apply HU; by repeat constructor].
Qed.

Lemma parse_args_spec argv s (g : net) :
  net_wp sigint (parse_args argv s) (parsed argv s g) g.
Proof.
  assert (HU : forall w, w ∈ lookup_undefs -> w ∈ args_undefs)
    by (intros; apply elem_of_app; by left).
  unfold parse_args.
  destruct (((_ =? 5) || _)%nat && _) eqn:Ehost; [|destruct (((_ =? 6) || _)%nat && _) eqn:Efpga].
  - apply andb_true_iff in Ehost as [En Eh]. apply bool_decide_eq_true in Eh.
    apply orb_true_iff in En. rewrite !Nat.eqb_eq in En. fold (host_interface argv).
    apply wp_lookup_local; [|by intros g' Hq Hf|intros w g' Hw Hq; split; [done|by apply HU]].
    intros l g1 Hq1 Hl1 Hi1 Hf1 Hwl.
    apply wp_lookup_remote; [|by intros g' Hq Hf; split; [etransitivity|split; [|lia]]
      |intros w g' Hw Hq; split; [by etransitivity|by apply HU]].
    intros x fd arp g2 Hq2 Hl2 Hi2 Hf2 Hwr. assert (Hq : quiet g g2) by by etransitivity.
    destruct (atoi (arg argv 4)) as [n|] eqn:Eqp; net_steps; [|by split; [|repeat constructor]].
    destruct (x0 =? 0); net_steps; [apply wp_die; split; [done|]; split; [done|cbn; lia]|].
    split; [done|]. split; [by apply args_ok_device|]. split; [|by rewrite <- Hf1].
    split; [done|]. split; [done|]. split; [by exists n|]. split.
    + exists l. split; [|done]. cbn. by rewrite Hi2.
    + exists x, fd, arp. split; [done|]. cbn. by rewrite Hl2, Hl1, <- app_assoc.
  - apply andb_true_iff in Efpga as [En Ef]. apply bool_decide_eq_true in Ef.
    apply orb_true_iff in En. rewrite !Nat.eqb_eq in En.
    destruct (length argv =? 6)%nat eqn:E6; apply wp_fpga_args; try by intros w Hw;
      split; [|].
    + intros local remote n Hl Hr Hwl Hwr Hn. split; [done|]. split; [by apply args_ok_refl|].
      split; [|done]. split; [done|]. left. apply Nat.eqb_eq in E6. repeat (split; [done|]). by exists n.
    + intros local remote n Hl Hr Hwl Hwr Hn. split; [done|]. split; [by apply args_ok_refl|].
      split; [|done]. split; [done|]. right. apply Nat.eqb_neq in E6. split; [lia|]. repeat (split; [done|]).
      by exists n.
  - unfold usage, eprintf_all. net_steps. split; [done|]. split; [done|].
    unfold usage_ok. by rewrite Ehost, Efpga.
Qed.

End program.

(** What the program may put on the wire: frames for the remote host with the
    headers of [init_invariant_headers], a message payload and a checksum the
    receiver accepts. *)
Definition valid_transmission (local remote : addr) (qp : Z)
    (x : Z * list Z * sockaddr_ll) : Prop :=
  let p := init_headers full_packet0 local remote qp in
  exists k, x.1.2 = frame p k /\ sll_family x.2 = AF_PACKET /\ sll_halen x.2 = 6 /\
            sll_addr x.2 = mac remote ++ [0; 0] /\ receiver_accepts x.1.2 = true.

(** A launch of the FPGA kernel for these headers and their checksum. *)
Definition valid_launch (local remote : addr) (qp : Z) (l : launch) : Prop :=
  let p := init_headers full_packet0 local remote qp in
  headers_launch p (crc32_ref 0 (icrc_mask (ib_headers_bytes (ib_header p)))) l.

Lemma receiver_accepts_with p pl :
  wf_packet p -> wf_bytes pl -> receiver_accepts (frame_with p pl) = true.
Proof.
  intros Hp Hpl. unfold receiver_accepts. destruct (frame_fields p pl Hp) as [-> ->].
  rewrite icrc_residue; [done|apply wf_ib_headers_bytes, Hp|done].
Qed.

Lemma receiver_accepts_frame p k : wf_packet p -> receiver_accepts (frame p k) = true.
Proof. intros Hp. apply receiver_accepts_with; [done|apply wf_payload]. Qed.

Lemma packet_headers_eq p : wf_packet p -> packet_headers p = headers_of p.
Proof.
  intros Hp. unfold packet_headers, packet_bytes. rewrite app_assoc. fold (headers_of p).
  apply take_app_length'. by rewrite length_headers_of.
Qed.

(** ** Properties *)

(** The send loop, for every signal schedule and every answer of the
    system.  It sends the frames of messages 0, 1, 2, ... in order, each with
    the packet's headers, the message zero-padded to [MSG_SIZE], and the
    invariant checksum of exactly those bytes; it stops at the first test of
    the loop flag after SIGINT, or exits when the socket, or a send, fails.
    [NoFuel] only says that SIGINT has not come within [fuel] iterations. *)
Theorem host_send_loop_correct `{!AddrText} sigint fuel crc s0 (g : net) :
  header_crc_ok (full_packet s0) crc -> data (full_packet s0) = data_before 0 ->
  packet_loop s0 = 1 -> (4 <= length (beyond s0))%nat -> Z.of_nat fuel < INT_MAX ->
  net_wp sigint (ib_host_send_loop fuel crc s0)
    (fun o g' =>
       exists sock n, sent g' = sent g ++ frames_sent sock s0 n /\
         (forall i, (i < n)%nat -> sigint (polls g + i)%nat = false) /\
         match o with
         | Done _ _ => (n < fuel)%nat /\ sigint (polls g + n)%nat = true
         | Exit code _ => code = EXIT_FAILURE
         | NoFuel _ => n = fuel
         | Undef _ => False
         end) g.
Proof.
  intros Hcrc Hdata Hloop Hlen Hfuel. unfold ib_host_send_loop. net_steps.
  destruct (Z.eqb_spec x (-1)) as [->|]; net_steps.
  { apply wp_die. exists 0, O. split; [symmetry; apply app_nil_r|]. split; [lia|done]. }
  eapply wp_mono; [apply (send_loop_spec sigint x crc (set_count 0 s0)); try done|].
  { split; [done|]. split; [done|]. split; [done|]. split; [|done].
    change (full_packet (set_count 0 s0)) with (full_packet s0).
    by rewrite <- Hdata, set_data_id. }
  intros o g' (m & Hs & Hi & _ & _ & _ & _ & _ & Ho). exists x, m. split; [done|]. split; [done|].
  by destruct o; intuition.
Qed.

(** The state the program is in when it enters the loop with zeroed headers. *)
Definition raw_example : raw_state := raw_init [0; 0; 0; 0].
Definition crc_example : Z :=
  crc32_ref 0 (icrc_mask (ib_headers_bytes (ib_header full_packet0))).

Lemma host_send_loop_correct_witness :
  net_wp (Nat.eqb 2) (@ib_host_send_loop text_example 3 crc_example raw_example)
    (fun o g' => (forall s, o <> NoFuel s) /\
       forall s, o = Done tt s -> exists sock, sent g' = frames_sent sock raw_example 2) net0.
Proof.
  eapply wp_mono.
  - apply (@host_send_loop_correct text_example (Nat.eqb 2) 3 crc_example raw_example net0).
    + split; [apply wf_full_packet0|reflexivity].
    + reflexivity.
    + reflexivity.
    + simpl. lia.
    + reflexivity.
  - intros o g' (sock & n & Hs & Hi & Ho). split.
    + intros s ->. subst n. specialize (Hi 2%nat). simpl in Hi. discriminate Hi. lia.
    + intros s ->. destruct Ho as [_ Ho]. apply Nat.eqb_eq in Ho. simpl in Ho. subst n.
      exists sock. exact Hs.
Defined.

(** The loop stores its checksum past the end of [full_packet], a static
    object of exactly [sizeof_packet] bytes: without four more writable bytes
    after it, the first iteration is undefined behaviour. *)
Theorem host_send_loop_overflow `{!AddrText} sigint fuel crc s0 (g : net) :
  header_crc_ok (full_packet s0) crc -> data (full_packet s0) = data_before 0 ->
  packet_loop s0 = 1 -> (length (beyond s0) < 4)%nat -> sigint (polls g) = false ->
  Z.of_nat (length (packet_bytes (full_packet s0))) = sizeof_packet /\
  net_wp sigint (ib_host_send_loop (S fuel) crc s0)
    (fun o _ => o = Exit EXIT_FAILURE s0 \/ o = Undef "store past the end of full_packet") g.
Proof.
  intros Hcrc Hdata Hloop Hlen Hsig. split; [apply length_packet_bytes, Hcrc|].
  unfold ib_host_send_loop. net_steps.
  destruct (Z.eqb_spec x (-1)) as [->|]; net_steps; [by apply wp_die; left|].
  unfold send_body, loop_test. cbn [loop]. net_steps. subst x0.
  cbn [polls add_lookup note_fault]. rewrite Hsig. net_steps.
  change (packet_loop (set_count 0 s0)) with (packet_loop s0). rewrite Hloop.
  cbn [Z.eqb negb]. net_steps. unfold id.
  change (full_packet (set_count 0 s0)) with (full_packet s0).
  change (count (set_count 0 s0)) with 0. rewrite Hdata. change 0 with (Z.of_nat 0). rewrite snprintf_payload.
  change (Z.of_nat 0 =? INT_MAX) with false. net_steps.
  pose proof (length_message (Z.of_nat 0)). pose proof MSG_SIZE_big. pose proof MSG_SIZE_nat.
  rewrite (proj2 (Z.ltb_ge _ _)), (proj2 (Z.leb_gt _ _)) by lia. cbn [orb].
  change (data (set_data ?d ?p)) with d. rewrite (frame_crc _ _ _ Hcrc). net_steps.
  unfold store_bytes. rewrite length_le_bytes. simpl beyond.
  rewrite (proj2 (Nat.leb_gt _ _)) by lia. net_steps. by right.
Qed.

Lemma host_send_loop_overflow_witness :
  net_wp (fun _ => false) (@ib_host_send_loop text_example 1 crc_example (raw_init []))
    (fun o _ => o = Exit EXIT_FAILURE (raw_init []) \/
                o = Undef "store past the end of full_packet") net0.
Proof.
  apply (@host_send_loop_overflow text_example (fun _ => false) 0 crc_example (raw_init []) net0).
  - split; [apply wf_full_packet0|reflexivity].
  - reflexivity.
  - reflexivity.
  - simpl. lia.
  - reflexivity.
Defined.

(** What a run of [main] sends, launches and ends with.  [started] is before it:
    nothing sent, enqueued or launched. *)
Definition started (g : net) : Prop :=
  sent g = [] /\ sent_in g = [] /\ cl_launches (opencl g) = [] /\ cl_pending (opencl g) = [].

(** It stopped before it sent or launched anything: a call failed, or the command
    line has neither form. *)
Definition stopped (argv : list (list Z)) (g : net) (o : outcome raw_state Z) (g' : net) : Prop :=
  sent g' = [] /\ cl_launches (opencl g') = [] /\
  match o with
  | Exit code _ => code = EXIT_FAILURE /\ (usage_ok argv = true -> (faults g < faults g')%nat)
  | Undef w => w ∈ args_undefs
  | _ => False
  end.

(** Host mode: the frames of messages 0, 1, 2, ... in order, to the remote host's
    hardware address, each with a checksum that a receiver accepts.  Without four
    writable bytes after [full_packet] ([room]), nothing is sent. *)
Definition host_frames (local remote : addr) (qp sock ifindex : Z) (n : nat) :
    list (Z * list Z * sockaddr_ll) :=
  (fun k => (sock, frame (init_headers full_packet0 local remote qp) k,
             link_address ifindex remote)) <$> seq 0 n.

Definition room_undefs (room : nat) : list string := if (room <? 4)%nat then [overflow_undef] else [].

Definition host_sends `{!AddrText} (sigint : nat -> bool) (fuel : nat) (argv : list (list Z))
    (room : nat) (g : net) (o : outcome raw_state Z) (g' : net) : Prop :=
  exists local remote qp ifindex sock n,
    host_request argv (lookups g) [LSocket AF_PACKET SOCK_RAW (htons ETH_P_ALL) sock] g'
      local remote qp ifindex /\
    wf_addr local /\ wf_addr remote /\ cl_launches (opencl g') = [] /\
    sent g' = host_frames local remote qp sock ifindex n /\
    Forall (fun x => receiver_accepts x.1.2 = true) (sent g') /\
    paced EXIT_SUCCESS (fun i => sigint (polls g + i)%nat) fuel n (room_undefs room) o /\
    blamed (faults g) o g' /\ ((room < 4)%nat -> n = 0%nat).

(** FPGA mode: at most one launch, for the headers and their checksum. *)
Definition fpga_launches `{!AddrText} (argv : list (list Z)) (o : outcome raw_state Z) (g' : net) :
    Prop :=
  exists local remote qp, fpga_request argv local remote qp /\ wf_addr local /\ wf_addr remote /\
    sent g' = [] /\
    match o with
    | Done _ _ => exists l, cl_launches (opencl g') = [l] /\ valid_launch local remote qp l /\
                    l_event l ∈ cl_waited (opencl g')
    | Exit code _ => (code = EXIT_FAILURE \/ code = ABORTED) /\
        (cl_launches (opencl g') = [] \/
         exists l, cl_launches (opencl g') = [l] /\ valid_launch local remote qp l)
    | _ => False
    end.

Definition run_ok `{!AddrText} (sigint : nat -> bool) (fuel : nat) (argv : list (list Z))
    (room : nat) (g : net) (o : outcome raw_state Z) (g' : net) : Prop :=
  sent_in g' = [] /\
  (stopped argv g o g' \/ host_sends sigint fuel argv room g o g' \/ fpga_launches argv o g').

Lemma quiet_stopped `{!AddrText} sigint fuel argv room g0 g (o : outcome raw_state Z) :
  started g0 -> quiet g0 g ->
  match o with
  | Exit code _ => code = EXIT_FAILURE /\ (usage_ok argv = true -> (faults g0 < faults g)%nat)
  | Undef w => w ∈ args_undefs
  | _ => False
  end ->
  run_ok sigint fuel argv room g0 o g.
Proof.
  intros (Q1 & Q2 & Q3 & _) (H1 & H2 & H3 & _) Ho. split; [by rewrite H2|]. left.
  split; [by rewrite H1|]. by rewrite H3, Q3.
Qed.

Definition then_0 (o : outcome raw_state unit) : outcome raw_state Z :=
  match o with
  | Done _ s => Done 0 s
  | Exit c s => Exit c s
  | Undef w => Undef w
  | NoFuel s => NoFuel s
  end.

(** The state the headers are initialised in. *)
Definition ready (local remote : addr) (qp ifindex : Z) (s : raw_state) : Prop :=
  full_packet s = init_headers full_packet0 local remote qp /\ packet_loop s = 1 /\
  device s = link_address ifindex remote.

Lemma frames_sent_host sock local remote qp ifindex s n :
  wf_addr local -> wf_addr remote -> ready local remote qp ifindex s ->
  frames_sent sock s n = host_frames local remote qp sock ifindex n /\
  Forall (fun x => receiver_accepts x.1.2 = true) (frames_sent sock s n).
Proof.
  intros Hl Hr (Hp & _ & Hd). split.
  - unfold frames_sent, host_frames. by rewrite Hp, Hd.
  - unfold frames_sent. apply Forall_fmap, Forall_true. intros k. unfold compose. cbn [fst snd].
    apply receiver_accepts_frame. rewrite Hp. apply wf_init_headers; [apply wf_full_packet0|done|done].
Qed.

(** Host mode from the initialised headers on. *)
Lemma host_part `{!AddrText} sigint fuel argv local remote qp ifindex s (g0 g : net)
    (p := init_headers full_packet0 local remote qp) :
  wf_addr local -> wf_addr remote -> ready local remote qp ifindex s ->
  Z.of_nat fuel < INT_MAX -> started g0 -> quiet g0 g ->
  host_request argv (lookups g0) [] g local remote qp ifindex -> faults g = faults g0 ->
  net_wp sigint (ib_host_send_loop fuel (crc32_ref 0 (icrc_mask (ib_headers_bytes (ib_header p)))) s)
    (fun o => run_ok sigint fuel argv (length (beyond s)) g0 (then_0 o)) g.
Proof.
  intros Hl Hr Hs Hfuel Hst Hq Hreq Hfa. pose proof Hs as (Hp & Hloop & Hdev).
  assert (Hw : wf_packet p) by (apply wf_init_headers; [apply wf_full_packet0|done|done]).
  unfold ib_host_send_loop. net_steps.
  destruct (_ =? -1); net_steps.
  { apply wp_die, quiet_stopped; [done|done|]. split; [done|]. cbn. lia. }
  pose proof Hst as (S1 & S2 & S3 & _). pose proof Hq as (Q1 & Q2 & Q3 & Q4).
  assert (Hcrc : header_crc_ok (full_packet (set_count 0 s))
    (crc32_ref 0 (icrc_mask (ib_headers_bytes (ib_header p)))))
    by (change (full_packet (set_count 0 s)) with (full_packet s); by rewrite Hp).
  assert (Ha : after_messages (set_count 0 s) 0 (set_count 0 s)).
  { split; [done|]. split; [done|]. split; [done|]. split; [|done].
    change (full_packet (set_count 0 s)) with (full_packet s). by rewrite Hp. }
  assert (Hsock : forall g', asked (add_lookup (LSocket AF_PACKET SOCK_RAW (htons ETH_P_ALL) x) g) g' ->
    host_request argv (lookups g0) [LSocket AF_PACKET SOCK_RAW (htons ETH_P_ALL) x] g' local remote qp ifindex).
  { intros g' [A1 A2]. destruct Hreq as (R1 & R2 & R3 & R4 & y & fd & arp & R5 & R6).
    split; [done|]. split; [done|]. split; [done|]. split; [by rewrite A2|].
    exists y, fd, arp. split; [done|]. rewrite A1. cbn. by rewrite R6, <- !app_assoc. }
  destruct (Nat.ltb_spec (length (beyond s)) 4) as [Hshort|Hroom].
  - eapply wp_mono; [by apply (send_loop_short sigint x _ (set_count 0 s))|].
    cbn [sent sent_in opencl polls faults add_lookup note_fault]. rewrite Hfa.
    intros o g' (E1 & E2 & E3 & Hask & Hb & Hpace). split; [by rewrite E3, Q2|]. right. left.
    exists local, remote, qp, ifindex, x, 0%nat. split; [by apply Hsock|]. split; [done|].
    split; [done|]. rewrite E1, E2, Q1, Q3, S1, S3. do 3 (split; [done|]).
    unfold room_undefs. rewrite (proj2 (Nat.ltb_lt _ _)) by done. rewrite Q4 in Hpace.
    by destruct o; [destruct Hpace as (_ & ? & ? & ?)|..].
  - eapply wp_mono; [by apply (send_loop_spec sigint x _ (set_count 0 s))|].
    cbn [sent sent_in opencl polls faults add_lookup note_fault]. rewrite Hfa.
    intros o g' (n & E1 & Hsig & E2 & E3 & Hask & Hb & _ & Ho). split; [by rewrite E3, Q2|]. right. left.
    destruct (frames_sent_host x local remote qp ifindex (set_count 0 s) n Hl Hr Hs) as [Hf Hacc].
    exists local, remote, qp, ifindex, x, n. split; [by apply Hsock|]. split; [done|].
    split; [done|]. rewrite Q1, S1 in E1. rewrite E1, E2, Q3, S3. split; [done|].
    split; [exact Hf|]. split; [exact Hacc|]. rewrite Q4 in *.
    destruct o; cbn; intuition lia.
Qed.

(** FPGA mode from the initialised headers on. *)
Lemma fpga_part `{!AddrText} sigint fuel argv room local remote qp s (g0 g : net)
    (p := init_headers full_packet0 local remote qp) :
  wf_addr local -> wf_addr remote -> started g0 -> quiet g0 g -> fpga_request argv local remote qp ->
  net_wp sigint (ib_fpga_send_loop p (crc32_ref 0 (icrc_mask (ib_headers_bytes (ib_header p)))) s)
    (fun o => run_ok sigint fuel argv room g0 (then_0 o)) g.
Proof.
  intros Hl Hr (S1 & S2 & S3 & S4) (Q1 & Q2 & Q3 & _) Hreq.
  assert (Hw : wf_packet p) by (apply wf_init_headers; [apply wf_full_packet0|done|done]).
  eapply wp_mono; [apply ib_fpga_send_loop_spec; [done|by rewrite Q3]|].
  intros o g' [(W1 & W2 & _) Ho]. split; [by rewrite W2, Q2|]. right. right.
  exists local, remote, qp. split; [done|]. split; [done|]. split; [done|]. split; [by rewrite W1, Q1|].
  unfold launches_after in Ho. rewrite Q3, S3 in Ho.
  destruct o as [[] s'|c s'|w|s']; [| |done|done].
  - destruct Ho as (_ & l & Hl1 & Hl2 & Hl3 & _). by exists l.
  - destruct Ho as (_ & Hc & Hla). by split.
Qed.

Lemma main_spec `{!AddrText} `{!AddrTextOk _} sigint fuel argv after g :
  Z.of_nat fuel < INT_MAX -> started g ->
  net_wp sigint (main fuel argv (raw_init after)) (run_ok sigint fuel argv (length after) g) g.
Proof.
  intros Hfuel Hst. unfold main. net_steps.
  destruct (negb (x =? 0)).
  { apply wp_die, quiet_stopped; [done|done|]. split; [done|]. cbn. lia. }
  apply wp_bind. eapply wp_mono; [apply parse_args_spec|].
  intros o g1 [Hg Ho]. destruct o as [r s|c s|w|s]; net_steps; try by apply quiet_stopped.
  destruct Ho as ((Hl & Hr & Hqp & H1 & H2 & H3 & H4 & H5) & Hreq & Hfa).
  destruct r as [[[use local] remote] qp]. cbn [fst snd] in *. net_steps.
  apply wp_printf_all. net_steps. apply wp_printf_all. net_steps.
  change (full_packet (set_device ?d s)) with (full_packet s).
  rewrite H2, init_invariant_headers_eq by (apply wf_full_packet0 || done). net_steps.
  set (s' := set_full_packet _ _).
  assert (Hready : ready local remote qp (sll_ifindex (device s)) s').
  { split; [done|]. split; [done|]. unfold s', link_address. cbn [device set_full_packet set_device].
    by rewrite H5. }
  assert (Hthen : forall o g', run_ok sigint fuel argv (length after) g (then_0 o) g' ->
    net_wp sigint (continue (fun _ : unit => ret 0) o) (run_ok sigint fuel argv (length after) g) g')
    by by intros [].
  eapply wp_mono; [|intros o g'; apply Hthen]. destruct use.
  - by apply fpga_part.
  - assert (E : length after = length (beyond s')) by (unfold s'; cbn; by rewrite H3).
    rewrite E. by apply (host_part _ _ argv _ _ _ (sll_ifindex (device s))).
Qed.

(** What may be on the wire, and what may be launched, without the provenance. *)
Definition transmitted_ok (g : net) : Prop :=
  exists local remote qp, wf_addr local /\ wf_addr remote /\
    Forall (valid_transmission local remote qp) (sent g) /\
    Forall (valid_launch local remote qp) (cl_launches (opencl g)) /\ sent_in g = [].

Lemma run_transmitted_ok `{!AddrText} sigint fuel argv room g0 o g :
  run_ok sigint fuel argv room g0 o g -> transmitted_ok g.
Proof.
  intros [Hin [(Hs & Hk & _)|[(local & remote & qp & i & sock & n & _ & Hl & Hr & Hk & Hs & Ha & _ & _)|
    (local & remote & qp & _ & Hl & Hr & Hs & Ho)]]].
  - exists addr0, addr0, 0. rewrite Hs, Hk, Hin. repeat split; apply wf_addr0 || constructor.
  - exists local, remote, qp. split; [done|]. split; [done|]. rewrite Hk. split; [|by split; [constructor|]].
    rewrite Hs in *. unfold host_frames in *. rewrite Forall_fmap in *. eapply Forall_impl; [exact Ha|].
    intros k Hacc. exists k. by repeat split.
  - exists local, remote, qp. split; [done|]. split; [done|]. rewrite Hs. split; [constructor|].
    split; [|done]. destruct o as [z s|c s|w|s]; [| |done|done].
    + destruct Ho as (l & -> & Hv & _). by repeat constructor.
    + destruct Ho as (_ & [->|(l & -> & Hv)]); by repeat constructor.
Qed.

Lemma main_transmissions_spec `{!AddrText} `{!AddrTextOk _} sigint fuel argv after g :
  Z.of_nat fuel < INT_MAX -> started g ->
  net_wp sigint (main fuel argv (raw_init after)) (fun _ g' => transmitted_ok g') g.
Proof.
  intros Hfuel Hst. eapply wp_mono; [by apply main_spec|]. intros o g'. apply run_transmitted_ok.
Qed.

(** C4: whatever the command line, the environment and the signal schedule.  In
    host mode the program sends the frames of messages 0, 1, 2, ... in order: RoCEv1
    frames with the headers [init_invariant_headers] writes, for the addresses the
    system lists for the interface, those the resolver and the ARP table give for
    the host of the command line, and its GID and queue pair; each to that host's
    hardware address through that interface, with a checksum that a receiver
    accepts; it returns at the first test of the flag after SIGINT.  In FPGA mode it
    launches the kernel at most once, for such headers, from the texts of the
    command line, and their checksum.  It exits only when a call failed, for its
    usage, or, in FPGA mode, when the OpenCL part gives up or an exception aborts
    it.  Its behaviour is undefined in the ways of [args_undefs], and, in host mode,
    when fewer than four bytes after [full_packet] are writable: then it sends
    nothing. *)
Theorem main_transmissions `{!AddrText} `{!AddrTextOk _} sigint fuel argv after g :
  Z.of_nat fuel < INT_MAX -> started g ->
  net_wp sigint (main fuel argv (raw_init after)) (run_ok sigint fuel argv (length after) g) g.
Proof. apply main_spec. Qed.

Lemma main_transmissions_witness :
  let argv := [[]; string_bytes "host"; []; []; string_bytes "7"] in
  net_wp (Nat.eqb 2) (@main text_example 3 argv (raw_init [0; 0; 0; 0]))
    (@run_ok text_example (Nat.eqb 2) 3 argv 4 net0) net0.
Proof.
  apply (@main_transmissions text_example text_example_ok (Nat.eqb 2) 3 _ [0; 0; 0; 0]).
  - reflexivity.
  - repeat split.
Defined.
