(* ===== verification/PrintRead.v ===== *)
(** What raw_packet.c prints, read back.

    A reader takes a value off the front of a text.  [reads r out v] says that [r]
    finds [v] where [out] was printed, whatever follows, so readers compose as the
    printing functions do.  Read back, what raw_ibverbs prints is the headers of
    the frames it sends; only the reserved fields are not printed. *)
From S2P Require Import Prelude CInt CLib RawPacket Prog ClApi Posix IbHeaders RawIbverbs.
Local Open Scope Z_scope.

(** The text of an IPv6 address is on one line, and [inet_pton] reads it. *)
Class AddrTextLines (T : AddrText) : Prop := {
  inet_ntop6_line : forall a, Forall (fun c => c <> 10) (inet_ntop6 a);
  inet_pton6_ntop6 : forall a, wf_gid a -> inet_pton6 (inet_ntop6 a) = Some a
}.

(** ** Readers *)

Definition reader (A : Type) : Type := list Z -> option (A * list Z).

#[local] Instance reader_ret : MRet reader := fun A a l => Some (a, l).
#[local] Instance reader_bind : MBind reader := fun A B f r l => r l ≫= fun x => f x.1 x.2.

Definition reads {A} (r : reader A) (out : list Z) (v : A) : Prop :=
  forall rest, r (out ++ rest) = Some (v, rest).

Lemma reads_ret {A} (v : A) : reads (mret v) [] v.
Proof. done. Qed.

Lemma reads_bind {A B} (r : reader A) (f : A -> reader B) o1 o2 a b :
  reads r o1 a -> reads (f a) o2 b -> reads (r ≫= f) (o1 ++ o2) b.
Proof.
  intros Hr Hf rest. unfold mbind, reader_bind. rewrite <- app_assoc, Hr. apply Hf.
Qed.

(** The characters [l]. *)
Fixpoint label (l : list Z) : reader unit := fun text =>
  match l, text with
  | [], _ => Some (tt, text)
  | c :: l, c' :: text => if c =? c' then label l text else None
  | _, [] => None
  end.

Lemma reads_label l : reads (label l) l tt.
Proof.
  intros rest. induction l as [|c l IH]; [by destruct rest|]. simpl. by rewrite Z.eqb_refl.
Qed.

Definition digit_value (c : Z) : option Z :=
  if (48 <=? c) && (c <=? 57) then Some (c - 48)
  else if (97 <=? c) && (c <=? 102) then Some (c - 87) else None.

(** A number in base [b] and the end of its line. *)
Fixpoint number (b acc : Z) (text : list Z) : option (Z * list Z) :=
  match text with
  | [] => None
  | c :: text =>
      match digit_value c with
      | Some d => number b (acc * b + d) text
      | None => if c =? 10 then Some (acc, text) else None
      end
  end.

Lemma digit_value_char d : 0 <= d < 16 -> digit_value (digit_char d) = Some d.
Proof.
  intros Hd. unfold digit_value, digit_char. destruct (Z.ltb_spec d 10).
  - rewrite !(proj2 (Z.leb_le _ _)) by lia. cbn [andb]. f_equal. lia.
  - rewrite (proj2 (Z.leb_gt (87 + d) 57)), andb_false_r by lia.
    rewrite !(proj2 (Z.leb_le _ _)) by lia. cbn [andb]. f_equal. lia.
Qed.

Lemma number_digits b fuel acc n rest :
  1 < b <= 16 -> 0 <= n < b ^ Z.of_nat fuel ->
  number b acc (digits fuel b n rest) = number b (acc * b ^ Z.of_nat (ndigits fuel b n) + n) rest.
Proof.
  intros Hb. revert n rest. induction fuel as [|fuel IH]; intros n rest Hn.
  - cbn in *. f_equal. lia.
  - rewrite digits_S. cbn [ndigits]. rewrite Nat2Z.inj_succ, Z.pow_succ_r in Hn by lia.
    destruct (Z.ltb_spec n b).
    + cbn [number]. rewrite digit_value_char by lia. f_equal. lia.
    + rewrite IH by (split; [apply Z.div_pos; lia|apply Z.div_lt_upper_bound; lia]).
      pose proof (Z.mod_pos_bound n b ltac:(lia)). cbn [number].
      rewrite digit_value_char by lia. rewrite Nat2Z.inj_succ, Z.pow_succ_r by lia.
      f_equal. pose proof (Z.div_mod n b). nia.
Qed.

Lemma reads_number b n :
  1 < b <= 16 -> 0 <= n < b ^ 40 -> reads (number b 0) (digits 40 b n [] ++ newline) n.
Proof.
  intros Hb Hn rest. rewrite <- app_assoc, <- digits_app, number_digits by done. done.
Qed.

(** The rest of a line. *)
Fixpoint line (text : list Z) : option (list Z * list Z) :=
  match text with
  | [] => None
  | c :: text => if c =? 10 then Some ([], text) else x ← line text; Some (c :: x.1, x.2)
  end.

Lemma reads_line t : Forall (fun c => c <> 10) t -> reads line (t ++ newline) t.
Proof.
  intros Ht rest. induction Ht as [|c t Hc Ht IH]; [done|].
  cbn [app line]. rewrite (proj2 (Z.eqb_neq _ _) Hc), IH. done.
Qed.

(** ** Fields *)

Definition dec (l : string) : reader Z := label (string_bytes l) ≫= fun _ => number 10 0.
Definition hex (l : string) : reader Z := label (string_bytes l) ≫= fun _ => number 16 0.

Definition pton6 `{!AddrText} (t : list Z) : reader (list Z) := fun text =>
  match inet_pton6 t with Some a => Some (a, text) | None => None end.
Definition gid `{!AddrText} (l : string) : reader (list Z) :=
  label (string_bytes l) ≫= fun _ => (line : reader (list Z)) ≫= pton6.

Lemma reads_dec l n : 0 <= n < 2 ^ 32 -> reads (dec l) (string_bytes l ++ fmt_d n ++ newline) n.
Proof.
  intros Hn. apply (reads_bind _ _ _ _ tt); [apply reads_label|]. rewrite fmt_d_eq by lia.
  apply reads_number; lia.
Qed.

Lemma reads_hex l n : 0 <= n < 2 ^ 32 -> reads (hex l) (string_bytes l ++ fmt_x n ++ newline) n.
Proof.
  intros Hn. apply (reads_bind _ _ _ _ tt); [apply reads_label|]. apply reads_number; lia.
Qed.

Lemma reads_gid `{!AddrText} `{!AddrTextLines _} l a :
  wf_gid a -> reads (gid l) (string_bytes l ++ inet_ntop6 a ++ newline) a.
Proof.
  intros Ha. apply (reads_bind _ _ _ _ tt); [apply reads_label|]. rewrite <- (app_nil_r (_ ++ newline)).
  apply (reads_bind _ _ _ _ (inet_ntop6 a)); [apply reads_line, inet_ntop6_line|].
  intros rest. unfold pton6. by rewrite inet_pton6_ntop6.
Qed.

(** ** The headers *)

Definition read_grh `{!AddrText} : reader ib_grh :=
  version ← dec "IP Version: ";
  tc1 ← hex "Traffic class 1: ";
  tc2 ← hex "Traffic class 2: ";
  flow ← hex "Flow label: ";
  len ← dec "Length: ";
  next ← dec "Next header: ";
  hops ← dec "Hop limit: ";
  src ← gid "Source: ";
  dst ← gid "Dest: ";
  mret {| traffic_class_p1 := tc1; ip_version := version; traffic_class_p2 := tc2;
          flow_label := flow; payload_length := htons len; next_header := next; hop_limit := hops;
          source := src; dest := dst |}.

(** A number in the upper 24 bits in network order, as the code stores it. *)
Definition stored_24 (v : Z) : Z := htonl (u32 (Z.shiftl v 8)).

Definition read_bth : reader ib_bth :=
  code ← hex "Opcode: 0x";
  solicited ← dec "Sollicited: ";
  migration ← dec "Migration req: ";
  pad ← dec "Pad count: ";
  version ← dec "Header version: ";
  key ← dec "Partition key: ";
  qp ← hex "Destination QP: 0x";
  ack ← dec "Acknowledge req: ";
  sequence ← dec "Packet sequence number: ";
  mret {| opcode := code; transport_hdr_version := version; pad_count := pad;
          migration_request := migration; sollicited_event := solicited;
          partition_key := htons key; reserved1 := 0; destination_qp := stored_24 qp;
          acknowledge_req := ack; reserved2 := 0; packet_sequence := sequence |}.

Definition read_deth : reader ib_deth :=
  key ← hex "Queue key: 0x";
  qp ← hex "Source QP: 0x";
  mret {| queue_key := htonl key; reserved := 0; source_qp := stored_24 qp |}.

Definition read_ib_headers `{!AddrText} : reader ib_headers :=
  g ← read_grh;
  _ ← label newline;
  b ← read_bth;
  _ ← label newline;
  d ← read_deth;
  mret {| grh := g; bth := b; deth := d |}.

(** The headers without what is not printed. *)
Definition visible_bth (b : ib_bth) : ib_bth :=
  {| opcode := opcode b; transport_hdr_version := transport_hdr_version b;
     pad_count := pad_count b; migration_request := migration_request b;
     sollicited_event := sollicited_event b; partition_key := partition_key b;
     reserved1 := 0; destination_qp := destination_qp b;
     acknowledge_req := acknowledge_req b; reserved2 := 0;
     packet_sequence := packet_sequence b |}.
Definition visible_deth (d : ib_deth) : ib_deth :=
  {| queue_key := queue_key d; reserved := 0; source_qp := source_qp d |}.
Definition visible (h : ib_headers) : ib_headers :=
  {| grh := grh h; bth := visible_bth (bth h); deth := visible_deth (deth h) |}.

Lemma htonl_ntohl x : is_u 32 x -> htonl (ntohl x) = x.
Proof.
  intros Hx. change (ntohl (htonl x) = x). rewrite ntohl_htonl. by apply u_small.
Qed.

Lemma htons_ntohs x : is_u 16 x -> htons (ntohs x) = x.
Proof.
  intros Hx. change (ntohs (htons x) = x). rewrite ntohs_htons. by apply u_small.
Qed.

Lemma stored_24_read x : is_u 24 x -> stored_24 (Z.shiftr (ntohl x) 8) = x.
Proof.
  intros Hx. assert (Hx32 : is_u 32 x) by (unfold is_u in *; lia).
  assert (E : Z.shiftl (Z.shiftr (ntohl x) 8) 8 = ntohl x).
  { rewrite ntohl_24 by done. rewrite (ntohl_be_val x) by done. change 4%nat with (3 + 1)%nat.
    rewrite le_bytes_app. cbn [le_bytes]. assert (Z.shiftr x (8 * Z.of_nat 3) = 0) as ->.
    { rewrite Z.shiftr_div_pow2 by lia. by apply Z.div_small. }
    by rewrite be_val_snoc, Z.lor_0_l. }
  unfold stored_24. rewrite E. unfold u32. rewrite (u_small 32) by apply htonl_range.
  by apply htonl_ntohl.
Qed.

Lemma upper_24_range x : 0 <= Z.shiftr (ntohl x) 8 < 2 ^ 32.
Proof.
  pose proof (htonl_range x) as H. unfold is_u, ntohl in *.
  pose proof (shiftr_range 32 8 (htonl x)). lia.
Qed.

(** Reads the next printed line with the lemma for its kind. *)
Ltac read_field lem := eapply reads_bind; [apply lem|].
Ltac small := unfold is_u, is_byte in *; lia.

Section headers.
Context `{!AddrText} `{!AddrTextLines _}.

Lemma reads_grh h : wf_grh h -> reads read_grh (concat (print_grh inet_ntop6 h)) h.
Proof.
  intros (H1 & H2 & H3 & H4 & H5 & H6 & H7 & H8 & H9).
  pose proof (htons_range (payload_length h)) as Hlen.
  unfold read_grh, print_grh. cbn [concat].
  read_field reads_dec; [small|]. do 3 (read_field reads_hex; [small|]).
  read_field reads_dec; [unfold ntohs; small|]. do 2 (read_field reads_dec; [small|]).
  do 2 (read_field reads_gid; [done|]).
  rewrite htons_ntohs by done. destruct h. apply reads_ret.
Qed.

Lemma reads_bth h :
  wf_bth h -> reads read_bth (concat (print_bth h)) (visible_bth h).
Proof.
  intros (H1 & H2 & H3 & H4 & H5 & H6 & H7 & H8 & H9 & H10 & H11).
  pose proof (htons_range (partition_key h)) as Hkey. pose proof (upper_24_range (destination_qp h)).
  unfold read_bth, print_bth. cbn [concat].
  read_field reads_hex; [small|]. do 4 (read_field reads_dec; [small|]).
  read_field reads_dec; [unfold ntohs; small|]. read_field reads_hex; [done|].
  do 2 (read_field reads_dec; [small|]).
  rewrite htons_ntohs, stored_24_read by done. apply reads_ret.
Qed.

Lemma reads_deth h :
  wf_deth h -> reads read_deth (concat (print_deth h)) (visible_deth h).
Proof.
  intros (H1 & H2 & H3). pose proof (htonl_range (queue_key h)) as Hkey.
  pose proof (upper_24_range (source_qp h)). unfold read_deth, print_deth. cbn [concat].
  read_field reads_hex; [unfold ntohl; small|]. read_field reads_hex; [done|].
  rewrite htonl_ntohl, stored_24_read by done. apply reads_ret.
Qed.

Lemma reads_headers h :
  wf_headers h -> reads read_ib_headers (concat (print_ib_headers inet_ntop6 h)) (visible h).
Proof.
  intros (Hg & Hb & Hd). unfold read_ib_headers, print_ib_headers.
  rewrite !concat_app. cbn [concat]. rewrite !app_nil_r. rewrite <- (app_nil_r (concat (print_deth _))).
  read_field reads_grh; [done|]. read_field reads_label.
  read_field reads_bth; [done|]. read_field reads_label.
  read_field reads_deth; [done|]. apply reads_ret.
Qed.

End headers.

(** ** The reports of a run *)

Fixpoint read_reports `{!AddrText} (fuel : nat) (text : list Z) : option (list ib_headers) :=
  match text, fuel with
  | [], _ => Some []
  | _, O => None
  | _, S fuel =>
      x ← (read_ib_headers ≫= fun h => label newline ≫= fun _ => mret h : reader ib_headers) text;
      hs ← read_reports fuel x.2;
      Some (x.1 :: hs)
  end.

(** All reports of a text; it has no more of them than characters. *)
Definition read_all `{!AddrText} (text : list Z) : option (list ib_headers) :=
  read_reports (length text) text.

Lemma read_reports_spec `{!AddrText} `{!AddrTextLines _} h n fuel :
  wf_headers h -> (n <= fuel)%nat ->
  read_reports fuel (concat (reports h n)) = Some (replicate n (visible h)).
Proof.
  intros Hh. revert fuel. induction n as [|n IH]; intros fuel Hf; [by destruct fuel|].
  destruct fuel as [|fuel]; [lia|].
  assert (E : concat (reports h (S n)) = concat (report h) ++ concat (reports h n))
    by (unfold reports; cbn [replicate concat]; by rewrite concat_app).
  assert (Hr : reads (read_ib_headers ≫= fun h => label newline ≫= fun _ => mret h : reader ib_headers)
    (concat (report h)) (visible h)).
  { unfold report. rewrite concat_app. read_field reads_headers; [done|]. cbn [concat].
    read_field reads_label. apply reads_ret. }
  rewrite E. cbn [read_reports]. rewrite Hr. cbn [mbind option_bind fst snd].
  rewrite IH by lia.
  destruct (concat (report h) ++ concat (reports h n)) eqn:Et; [|done].
  specialize (Hr []). rewrite app_nil_r in Hr. by apply app_eq_nil in Et as [Et _]; rewrite Et in Hr.
Qed.

Lemma reports_long `{!AddrText} h n : (n <= length (concat (reports h n)))%nat.
Proof.
  induction n as [|n IH]; [lia|]. rewrite reports_S, concat_app, length_app.
  unfold report. rewrite concat_app, length_app. cbn [concat length app newline]. lia.
Qed.

Lemma read_all_reports `{!AddrText} `{!AddrTextLines _} h n :
  wf_headers h -> read_all (concat (reports h n)) = Some (replicate n (visible h)).
Proof. intros Hh. apply read_reports_spec; [done|]. apply reports_long. Qed.

(** ** An address text that can be read *)

Fixpoint hex_pairs (l : list Z) : option (list Z) :=
  match l with
  | a :: b :: l =>
      x ← digit_value a; y ← digit_value b; t ← hex_pairs l; Some (x * 16 + y :: t)
  | [] => Some []
  | [_] => None
  end.
Definition pairs_of (a : list Z) : list Z :=
  concat ((fun b => [digit_char (b / 16 mod 16); digit_char (b mod 16)]) <$> a).

Definition text_hex : AddrText :=
  {| inet_pton4 := fun _ => None; inet_pton6 := hex_pairs;
     inet_ntop4 := fun _ => []; inet_ntop6 := pairs_of;
     ether_aton := fun _ => None; ether_ntoa := fun _ => [] |}.

Lemma text_hex_lines : AddrTextLines text_hex.
Proof.
  assert (Hc : forall d, 0 <= d < 16 -> digit_char d <> 10).
  { intros d Hd. unfold digit_char. destruct (Z.ltb_spec d 10); lia. }
  split.
  - intros a. cbn [inet_ntop6 text_hex]. unfold pairs_of. induction a as [|b a IH]; [constructor|].
    cbn [fmap list_fmap concat app].
    repeat constructor; [apply Hc, Z.mod_pos_bound; lia..|exact IH].
  - intros a [_ Ha]. cbn [inet_pton6 inet_ntop6 text_hex]. unfold pairs_of.
    induction Ha as [|b a Hb Ha IH]; [done|]. cbn [fmap list_fmap concat app hex_pairs].
    unfold is_byte in Hb. rewrite !digit_value_char by (apply Z.mod_pos_bound; lia).
    cbn [mbind option_bind]. unfold pairs_of in IH. rewrite IH. cbn [mbind option_bind].
    rewrite (Z.mod_small (b / 16)) by (split; [apply Z.div_pos; lia|apply Z.div_lt_upper_bound; lia]).
    do 2 f_equal. pose proof (Z.div_mod b 16). lia.
Qed.

(** ** Properties *)

(** C33: what raw_ibverbs prints, read back line by line, is the headers that are in
    the bytes of the frames it sends, in order: every field, but for the three
    reserved ones, and for every signal schedule and failure.  Only when the last
    send fails is there a report of a frame that was not sent. *)
Theorem printed_headers_sent `{!AddrText} `{!AddrTextLines _} sigint fuel crc s0 (g : net) :
  header_crc_ok (full_packet s0) crc -> data (full_packet s0) = data_before 0 ->
  packet_loop s0 = 1 -> (4 <= length (beyond s0))%nat -> Z.of_nat fuel < INT_MAX ->
  net_wp sigint (ib_host_send_loop fuel crc s0) (fun o g' =>
    exists frames lines rest, sent g' = sent g ++ frames /\ printed g' = printed g ++ lines /\
      read_all (concat lines) =
        Some (((fun x => visible (ib_headers_of_bytes (field 14 60 x.1.2))) <$> frames) ++ rest) /\
      match o with
      | Exit _ _ => (length rest <= 1)%nat
      | Undef _ => False
      | _ => rest = []
      end) g.
Proof.
  intros Hcrc Hdata Hloop Hlen Hfuel. pose proof (proj1 Hcrc) as Hw.
  unfold ib_host_send_loop. net_steps.
  destruct (Z.eqb_spec x (-1)) as [->|]; net_steps.
  { apply wp_die. exists [], [], []. rewrite !app_nil_r. do 3 (split; [done|]). simpl. lia. }
  eapply wp_mono; [apply (send_loop_spec sigint x crc (set_count 0 s0)); try done|].
  { split; [done|]. split; [done|]. split; [done|]. split; [|done].
    change (full_packet (set_count 0 s0)) with (full_packet s0).
    by rewrite <- Hdata, set_data_id. }
  intros o g' (m & Hs & _ & _ & _ & _ & _ & Hp & Ho).
  change (full_packet (set_count 0 s0)) with (full_packet s0) in *.
  set (h := ib_header (full_packet s0)) in *.
  assert (Hf : (fun x => visible (ib_headers_of_bytes (field 14 60 x.1.2))) <$>
    frames_sent x (set_count 0 s0) m = replicate m (visible h)).
  { unfold frames_sent. rewrite <- list_fmap_compose.
    change (full_packet (set_count 0 s0)) with (full_packet s0).
    assert (E : forall k, ib_headers_of_bytes (field 14 60 (frame (full_packet s0) k)) = h).
    { intros k. unfold frame. rewrite (proj1 (frame_fields _ _ Hw)).
      apply ib_headers_read_back, Hw. }
    rewrite (list_fmap_ext _ (fun _ => visible h)).
    - by rewrite (const_fmap _ _ (visible h)), length_seq.
    - intros i k _. unfold compose. cbn [fst snd]. by rewrite E. }
  eexists _, _, (replicate (match o with Exit _ _ => 1 | _ => 0 end)%nat (visible h)).
  split; [exact Hs|]. split; [exact Hp|]. rewrite read_all_reports by apply Hw. rewrite Hf.
  split; [|by destruct o].
  rewrite <- replicate_add. do 2 f_equal. destruct o; lia.
Qed.

Lemma printed_headers_sent_witness :
  net_wp (Nat.eqb 2) (@ib_host_send_loop text_hex 3 crc_example raw_example) (fun o g' =>
    exists frames lines rest, sent g' = frames /\ printed g' = lines /\
      @read_all text_hex (concat lines) =
        Some (((fun x => visible (ib_headers_of_bytes (field 14 60 x.1.2))) <$> frames) ++ rest) /\
      (length rest <= 1)%nat) net0.
Proof.
  eapply wp_mono.
  - apply (@printed_headers_sent text_hex text_hex_lines (Nat.eqb 2) 3 crc_example raw_example net0).
    + split; [apply wf_full_packet0|reflexivity].
    + reflexivity.
    + reflexivity.
    + simpl. lia.
    + reflexivity.
  - intros o g' (frames & lines & rest & H1 & H2 & H3 & H4). exists frames, lines, rest.
    split; [exact H1|]. split; [exact H2|]. split; [exact H3|].
    destruct o; try done; subst; simpl; lia.
Defined.
