(* ===== verification/Layout.v ===== *)
(** The layout of C structures on a 64-bit host: natural alignment.

    A type is its tree of scalars; a field's offset is the end of the field
    before it, rounded up to its alignment.  The lemmas are what a program that
    casts between structures relies on: fields are aligned, apart and inside,
    and a structure that starts with the fields of another has them at the same
    offsets. *)
From S2P Require Import Prelude.
Local Open Scope Z_scope.

(** ** Types *)

(** A scalar is aligned to its size; the C library's own types are opaque. *)
#[warnings="-register-all"]
Inductive ctype :=
| Scalar (size : Z)
| Opaque (size align : Z)
| Arr (t : ctype) (n : Z)
| Struct (fs : list (string * ctype))
| Union (fs : list (string * ctype)).

Abbreviation fields := (list (string * ctype)).

Definition align_up (x a : Z) : Z := (x + a - 1) / a * a.

Fixpoint alignof (t : ctype) : Z :=
  match t with
  | Scalar size => size
  | Opaque _ align => align
  | Arr t _ => alignof t
  | Struct fs | Union fs => foldr (fun f a => Z.max (alignof f.2) a) 1 fs
  end.

(** The end of the fields [fs], placed from [pos]; [size] and [align] are the
    sizes and alignments of their types. *)
Definition fields_end (size align : ctype -> Z) : Z -> fields -> Z :=
  foldl (fun pos f => align_up pos (align f.2) + size f.2).

Fixpoint sizeof (t : ctype) : Z :=
  match t with
  | Scalar size | Opaque size _ => size
  | Arr t n => n * sizeof t
  | Struct fs =>
      align_up ((fix go pos fs :=
        match fs with
        | [] => pos
        | f :: fs => go (align_up pos (alignof f.2) + sizeof f.2) fs
        end) 0 fs) (alignof (Struct fs))
  | Union fs =>
      align_up (foldr (fun f s => Z.max (sizeof f.2) s) 0 fs) (alignof (Union fs))
  end.

(** The fields with their offsets. *)
Fixpoint place (pos : Z) (fs : fields) : list (string * Z * ctype) :=
  match fs with
  | [] => []
  | (f, t) :: fs =>
      let o := align_up pos (alignof t) in (f, o, t) :: place (o + sizeof t) fs
  end.

Definition field_named (f : string) (x : string * Z * ctype) : Prop := x.1.1 = f.
#[export] Instance field_named_dec f x : Decision (field_named f x).
Proof. unfold field_named. apply _. Defined.

(** [offsetof(struct, f)]; [-1] for a name that is no field. *)
Definition offsetof (fs : fields) (f : string) : Z :=
  from_option (fun x => x.2.1.2) (-1) (list_find (field_named f) (place 0 fs)).

(** The offsets of the scalars of a type, from [base]. *)
Fixpoint scalars (base : Z) (t : ctype) : list Z :=
  match t with
  | Scalar _ | Opaque _ _ => [base]
  | Arr t n => concat ((fun i => scalars (base + i * sizeof t) t) <$> seqZ 0 n)
  | Struct fs =>
      (fix go pos fs :=
        match fs with
        | [] => []
        | f :: fs =>
            let o := align_up pos (alignof f.2) in
            scalars (base + o) f.2 ++ go (o + sizeof f.2) fs
        end) 0 fs
  | Union fs => match fs with [] => [] | f :: _ => scalars base f.2 end
  end.

(** Sizes are not negative and alignments positive. *)
Fixpoint wf_ctype (t : ctype) : bool :=
  match t with
  | Scalar size => 0 <? size
  | Opaque size align => (0 <=? size) && (0 <? align)
  | Arr t n => (0 <=? n) && wf_ctype t
  | Struct fs | Union fs => forallb (fun f => wf_ctype f.2) fs
  end.

Abbreviation wf_fields fs := (wf_ctype (Struct fs) = true).

(** ** Lemmas *)

Lemma align_up_spec x a : 0 < a -> x <= align_up x a < x + a /\ (a | align_up x a).
Proof.
  intros Ha. unfold align_up. split; [|by apply Z.divide_factor_r].
  pose proof (Z.mod_pos_bound (x + a - 1) a Ha). pose proof (Z.div_mod (x + a - 1) a). lia.
Qed.

Lemma ctype_rect' (P : ctype -> Prop) :
  (forall s, P (Scalar s)) -> (forall s a, P (Opaque s a)) -> (forall t n, P t -> P (Arr t n)) ->
  (forall fs, Forall (fun f => P f.2) fs -> P (Struct fs)) ->
  (forall fs, Forall (fun f => P f.2) fs -> P (Union fs)) -> forall t, P t.
Proof.
  intros HS HO HA HT HU. fix IH 1. intros [s|s a|t n|fs|fs].
  - apply HS.
  - apply HO.
  - apply HA, IH.
  - apply HT. induction fs as [|[f t] fs IHfs]; constructor; [apply IH|apply IHfs].
  - apply HU. induction fs as [|[f t] fs IHfs]; constructor; [apply IH|apply IHfs].
Qed.

Lemma wf_struct_fields fs : wf_fields fs -> Forall (fun f => wf_ctype f.2 = true) fs.
Proof.
  intros H. apply Forall_forall. intros f Hf. cbn in H. rewrite forallb_forall in H.
  by apply H, list_elem_of_In.
Qed.

Lemma alignof_fields_pos fs : 0 < foldr (fun (f : string * ctype) a => Z.max (alignof f.2) a) 1 fs.
Proof. induction fs as [|f fs IH]; cbn; lia. Qed.

Lemma alignof_pos t : wf_ctype t = true -> 0 < alignof t.
Proof.
  induction t as [s|s a|t n IH|fs IH|fs IH] using ctype_rect'; cbn.
  - lia.
  - lia.
  - intros [_ H]%andb_true_iff. by apply IH.
  - intros _. apply alignof_fields_pos.
  - intros _. apply alignof_fields_pos.
Qed.

Lemma sizeof_struct fs :
  sizeof (Struct fs) = align_up (fields_end sizeof alignof 0 fs) (alignof (Struct fs)).
Proof. reflexivity. Qed.

Lemma fields_end_ge pos fs :
  Forall (fun f => wf_ctype f.2 = true /\ 0 <= sizeof f.2) fs -> pos <= fields_end sizeof alignof pos fs.
Proof.
  intros H. unfold fields_end. revert pos.
  induction H as [|f fs [Hw Hs] H IH]; intros pos; cbn [foldl]; [lia|].
  pose proof (align_up_spec pos _ (alignof_pos _ Hw)).
  specialize (IH (align_up pos (alignof f.2) + sizeof f.2)). lia.
Qed.

Lemma sizeof_nonneg t : wf_ctype t = true -> 0 <= sizeof t.
Proof.
  induction t as [s|s a|t n IH|fs IH|fs IH] using ctype_rect'; intros Hw.
  - cbn in *. lia.
  - cbn in *. lia.
  - cbn in *. apply andb_true_iff in Hw as [Hn Ht]. specialize (IH Ht). lia.
  - rewrite sizeof_struct. pose proof (wf_struct_fields fs Hw) as Hf.
    assert (Hb : Forall (fun f => wf_ctype f.2 = true /\ 0 <= sizeof f.2) fs).
    { clear Hw. induction IH as [|f fs Hx IH IHfs]; inversion Hf; subst; constructor; auto. }
    pose proof (fields_end_ge 0 fs Hb). pose proof (align_up_spec (fields_end sizeof alignof 0 fs) _
      (alignof_pos (Struct fs) Hw)). lia.
  - cbn. pose proof (align_up_spec (foldr (fun (f : string * ctype) s => Z.max (sizeof f.2) s) 0 fs) _
      (alignof_fields_pos fs)).
    assert (0 <= foldr (fun (f : string * ctype) s => Z.max (sizeof f.2) s) 0 fs); [|lia].
    clear. induction fs as [|f fs IH]; cbn; lia.
Qed.

Lemma wf_fields_sizes fs :
  wf_fields fs -> Forall (fun f => wf_ctype f.2 = true /\ 0 <= sizeof f.2) fs.
Proof.
  intros H%wf_struct_fields. eapply Forall_impl; [exact H|]. intros f Hf. split; [done|].
  by apply sizeof_nonneg.
Qed.

(** *** Where fields are *)

Lemma place_app pos fs gs :
  place pos (fs ++ gs) = place pos fs ++ place (fields_end sizeof alignof pos fs) gs.
Proof. revert pos. induction fs as [|[f t] fs IH]; intros pos; cbn; [done|]. by f_equal. Qed.

Lemma place_names pos fs : (fun x => x.1.1) <$> place pos fs = fs.*1.
Proof. revert pos. induction fs as [|[f t] fs IH]; intros pos; cbn; [done|]. by f_equal. Qed.

(** What [place] puts at index [i]. *)
Lemma place_lookup pos fs i f t :
  fs !! i = Some (f, t) ->
  place pos fs !! i =
    Some (f, align_up (fields_end sizeof alignof pos (take i fs)) (alignof t), t).
Proof.
  revert pos i. induction fs as [|[g u] fs IH]; intros pos [|i] Hi; try done.
  - by injection Hi as -> ->.
  - cbn. by apply IH.
Qed.

Lemma place_bounds pos fs i f o t :
  wf_fields fs -> place pos fs !! i = Some (f, o, t) ->
  pos <= o /\ (alignof t | o) /\ o + sizeof t <= fields_end sizeof alignof pos fs.
Proof.
  intros Hw%wf_fields_sizes. revert pos i. induction Hw as [|[g u] fs [Hu Hs] Hw IH]; intros pos i Hi; [done|].
  destruct (align_up_spec pos (alignof u) (alignof_pos _ Hu)) as [Hb Hd]. cbn [snd] in *.
  destruct i as [|i]; cbn in Hi.
  - injection Hi as -> <- ->. split; [lia|]. split; [done|].
    apply (fields_end_ge (align_up pos (alignof t) + sizeof t) fs Hw).
  - specialize (IH _ _ Hi) as (H1 & H2 & H3). split; [lia|]. done.
Qed.

(** Of two fields the earlier one ends before the later one. *)
Lemma place_apart pos fs i j f o t f' o' t' :
  wf_fields fs -> place pos fs !! i = Some (f, o, t) -> place pos fs !! j = Some (f', o', t') ->
  (i < j)%nat -> o + sizeof t <= o'.
Proof.
  revert pos i j. induction fs as [|[g u] fs IH]; intros pos i j Hw Hi Hj Hij; [done|].
  assert (Hw' : wf_fields fs) by (cbn in Hw; by apply andb_true_iff in Hw as [_ Hw]).
  destruct j as [|j]; [lia|]. destruct i as [|i]; cbn in Hi, Hj.
  - injection Hi as -> <- ->. by apply (place_bounds _ _ _ _ _ _ Hw') in Hj as [Hj _].
  - eapply IH; [done|exact Hi|exact Hj|lia].
Qed.

(** ** [offsetof] *)

Lemma offsetof_find fs f :
  f ∈ fs.*1 -> exists i t, list_find (field_named f) (place 0 fs) = Some (i, (f, offsetof fs f, t)).
Proof.
  intros Hf. rewrite <- (place_names 0) in Hf. apply list_elem_of_fmap in Hf as (x & -> & Hx).
  destruct (list_find_elem_of (field_named x.1.1) (place 0 fs) x Hx eq_refl) as [[i y] Hy].
  exists i, y.2. unfold offsetof. rewrite Hy. cbn. apply list_find_Some in Hy as (_ & Hn & _).
  unfold field_named in Hn. destruct y as [[f o] t]. cbn in *. by rewrite Hn.
Qed.

(** A field is inside its structure. *)
Lemma offsetof_bounds fs f :
  wf_fields fs -> f ∈ fs.*1 ->
  exists t, (f, t) ∈ fs /\ 0 <= offsetof fs f /\ (alignof t | offsetof fs f) /\
    offsetof fs f + sizeof t <= sizeof (Struct fs).
Proof.
  intros Hw Hf. destruct (offsetof_find fs f Hf) as (i & t & Hi). apply list_find_Some in Hi as (Hi & _).
  exists t. destruct (place_bounds 0 fs i _ _ _ Hw Hi) as (H1 & H2 & H3).
  assert (Hin : (f, t) ∈ fs).
  { assert (i < length fs)%nat as Hl.
    { apply lookup_lt_Some in Hi. pose proof (f_equal length (place_names 0 fs)) as E.
      rewrite !length_fmap in E. lia. }
    apply lookup_lt_is_Some in Hl as [[g u] Hg]. rewrite (place_lookup _ _ _ _ _ Hg) in Hi.
    injection Hi as <- _ <-. by eapply list_elem_of_lookup_2. }
  split; [done|]. split; [done|]. split; [done|]. rewrite sizeof_struct.
  pose proof (align_up_spec (fields_end sizeof alignof 0 fs) _ (alignof_pos (Struct fs) Hw)). lia.
Qed.

(** A structure that starts with the fields of another has them where it does. *)
Lemma offsetof_prefix fs gs f : f ∈ fs.*1 -> offsetof (fs ++ gs) f = offsetof fs f.
Proof.
  intros Hf. destruct (offsetof_find fs f Hf) as (i & t & Hi).
  assert (H : list_find (field_named f) (place 0 (fs ++ gs)) = Some (i, (f, offsetof fs f, t)))
    by (rewrite place_app; by apply list_find_app_l).
  unfold offsetof at 1. by rewrite H.
Qed.
