(* ===== verification/VerbsTypes.v ===== *)
(** verbs.h's structures, as laid out in memory.

    Those that the inline functions of the header read and write, cast between
    or measure; and the constants they test.  Pointers to functions and to data
    are both eight bytes.  The C library's mutex and condition are opaque. *)
From S2P Require Import Prelude Layout.
Local Open Scope Z_scope.
Local Open Scope string_scope.

(** ** Scalars *)

Definition uint8_t := Scalar 1.
Definition uint16_t := Scalar 2.
Definition uint32_t := Scalar 4.
Definition uint64_t := Scalar 8.
Definition size_t := Scalar 8.
Definition int := Scalar 4.
Definition enum := Scalar 4.
Definition be64 := Scalar 8.
Definition ptr := Scalar 8.
Definition char := Scalar 1.

(** pthread_mutex_t and pthread_cond_t. *)
Class Pthread := {
  mutex_size : Z; mutex_align : Z; cond_size : Z; cond_align : Z;
  mutex_ok : 0 <= mutex_size /\ 0 < mutex_align;
  cond_ok : 0 <= cond_size /\ 0 < cond_align
}.

(** Those of glibc on x86-64. *)
Definition glibc : Pthread.
Proof.
  refine {| mutex_size := 40; mutex_align := 8; cond_size := 48; cond_align := 8 |};
    (split; [discriminate|reflexivity]).
Defined.

(** ** Device attributes *)

Definition ibv_device_attr : fields :=
  [("fw_ver", Arr char 64); ("node_guid", be64); ("sys_image_guid", be64); ("max_mr_size", uint64_t);
   ("page_size_cap", uint64_t); ("vendor_id", uint32_t); ("vendor_part_id", uint32_t);
   ("hw_ver", uint32_t); ("max_qp", int); ("max_qp_wr", int); ("device_cap_flags", uint32_t);
   ("max_sge", int); ("max_sge_rd", int); ("max_cq", int); ("max_cqe", int); ("max_mr", int);
   ("max_pd", int); ("max_qp_rd_atom", int); ("max_ee_rd_atom", int); ("max_res_rd_atom", int);
   ("max_qp_init_rd_atom", int); ("max_ee_init_rd_atom", int); ("atomic_cap", enum); ("max_ee", int);
   ("max_rdd", int); ("max_mw", int); ("max_raw_ipv6_qp", int); ("max_raw_ethy_qp", int);
   ("max_mcast_grp", int); ("max_mcast_qp_attach", int); ("max_total_mcast_qp_attach", int);
   ("max_ah", int); ("max_fmr", int); ("max_map_per_fmr", int); ("max_srq", int); ("max_srq_wr", int);
   ("max_srq_sge", int); ("max_pkeys", uint16_t); ("local_ca_ack_delay", uint8_t);
   ("phys_port_cnt", uint8_t)].

Definition ibv_odp_caps : fields :=
  [("general_caps", uint64_t);
   ("per_transport_caps",
    Struct [("rc_odp_caps", uint32_t); ("uc_odp_caps", uint32_t); ("ud_odp_caps", uint32_t)])].
Definition ibv_tso_caps : fields := [("max_tso", uint32_t); ("supported_qpts", uint32_t)].
Definition ibv_rss_caps : fields :=
  [("supported_qpts", uint32_t); ("max_rwq_indirection_tables", uint32_t);
   ("max_rwq_indirection_table_size", uint32_t); ("rx_hash_fields_mask", uint64_t);
   ("rx_hash_function", uint8_t)].
Definition ibv_packet_pacing_caps : fields :=
  [("qp_rate_limit_min", uint32_t); ("qp_rate_limit_max", uint32_t); ("supported_qpts", uint32_t)].
Definition ibv_tm_caps : fields :=
  [("max_rndv_hdr_size", uint32_t); ("max_num_tags", uint32_t); ("flags", uint32_t);
   ("max_ops", uint32_t); ("max_sge", uint32_t)].
Definition ibv_cq_moderation_caps : fields :=
  [("max_cq_count", uint16_t); ("max_cq_period", uint16_t)].

Definition ibv_device_attr_ex : fields :=
  [("orig_attr", Struct ibv_device_attr); ("comp_mask", uint32_t); ("odp_caps", Struct ibv_odp_caps);
   ("completion_timestamp_mask", uint64_t); ("hca_core_clock", uint64_t);
   ("device_cap_flags_ex", uint64_t); ("tso_caps", Struct ibv_tso_caps);
   ("rss_caps", Struct ibv_rss_caps); ("max_wq_type_rq", uint32_t);
   ("packet_pacing_caps", Struct ibv_packet_pacing_caps); ("raw_packet_caps", uint32_t);
   ("tm_caps", Struct ibv_tm_caps); ("cq_mod_caps", Struct ibv_cq_moderation_caps)].

Definition ibv_port_attr : fields :=
  [("state", enum); ("max_mtu", enum); ("active_mtu", enum); ("gid_tbl_len", int);
   ("port_cap_flags", uint32_t); ("max_msg_sz", uint32_t); ("bad_pkey_cntr", uint32_t);
   ("qkey_viol_cntr", uint32_t); ("pkey_tbl_len", uint16_t); ("lid", uint16_t); ("sm_lid", uint16_t);
   ("lmc", uint8_t); ("max_vl_num", uint8_t); ("sm_sl", uint8_t); ("subnet_timeout", uint8_t);
   ("init_type_reply", uint8_t); ("active_width", uint8_t); ("active_speed", uint8_t);
   ("phys_state", uint8_t); ("link_layer", uint8_t); ("reserved", uint8_t)].

(** ** Objects *)

Definition ibv_pd : fields := [("context", ptr); ("handle", uint32_t)].
Definition ibv_td : fields := [("context", ptr)].
Definition ibv_xrcd : fields := [("context", ptr)].
Definition ibv_mw : fields :=
  [("context", ptr); ("pd", ptr); ("rkey", uint32_t); ("handle", uint32_t); ("type", enum)].
Definition ibv_rwq_ind_table : fields :=
  [("context", ptr); ("ind_tbl_handle", int); ("ind_tbl_num", int); ("comp_mask", uint32_t)].
Definition ibv_flow : fields := [("comp_mask", uint32_t); ("context", ptr); ("handle", uint32_t)].

Section pthread.
Context {PT : Pthread}.

Definition pthread_mutex_t := Opaque mutex_size mutex_align.
Definition pthread_cond_t := Opaque cond_size cond_align.

Definition ibv_srq : fields :=
  [("context", ptr); ("srq_context", ptr); ("pd", ptr); ("handle", uint32_t);
   ("mutex", pthread_mutex_t); ("cond", pthread_cond_t); ("events_completed", uint32_t)].
Definition ibv_wq : fields :=
  [("context", ptr); ("wq_context", ptr); ("pd", ptr); ("cq", ptr); ("wq_num", uint32_t);
   ("handle", uint32_t); ("state", enum); ("wq_type", enum); ("post_recv", ptr);
   ("mutex", pthread_mutex_t); ("cond", pthread_cond_t); ("events_completed", uint32_t);
   ("comp_mask", uint32_t)].
Definition ibv_qp : fields :=
  [("context", ptr); ("qp_context", ptr); ("pd", ptr); ("send_cq", ptr); ("recv_cq", ptr);
   ("srq", ptr); ("handle", uint32_t); ("qp_num", uint32_t); ("state", enum); ("qp_type", enum);
   ("mutex", pthread_mutex_t); ("cond", pthread_cond_t); ("events_completed", uint32_t)].
Definition ibv_cq : fields :=
  [("context", ptr); ("channel", ptr); ("cq_context", ptr); ("handle", uint32_t); ("cqe", int);
   ("mutex", pthread_mutex_t); ("cond", pthread_cond_t); ("comp_events_completed", uint32_t);
   ("async_events_completed", uint32_t)].
Definition ibv_cq_ex : fields :=
  [("context", ptr); ("channel", ptr); ("cq_context", ptr); ("handle", uint32_t); ("cqe", int);
   ("mutex", pthread_mutex_t); ("cond", pthread_cond_t); ("comp_events_completed", uint32_t);
   ("async_events_completed", uint32_t); ("comp_mask", uint32_t); ("status", enum);
   ("wr_id", uint64_t); ("start_poll", ptr); ("next_poll", ptr); ("end_poll", ptr);
   ("read_opcode", ptr); ("read_vendor_err", ptr); ("read_byte_len", ptr); ("read_imm_data", ptr);
   ("read_qp_num", ptr); ("read_src_qp", ptr); ("read_wc_flags", ptr); ("read_slid", ptr);
   ("read_sl", ptr); ("read_dlid_path_bits", ptr); ("read_completion_ts", ptr); ("read_cvlan", ptr);
   ("read_flow_tag", ptr); ("read_tm_info", ptr); ("read_completion_wallclock_ns", ptr)].

(** ** Contexts *)

Definition ibv_context_ops : fields :=
  [("query_device", ptr); ("query_port", ptr); ("alloc_pd", ptr); ("dealloc_pd", ptr);
   ("reg_mr", ptr); ("rereg_mr", ptr); ("dereg_mr", ptr); ("alloc_mw", ptr); ("bind_mw", ptr);
   ("dealloc_mw", ptr); ("create_cq", ptr); ("poll_cq", ptr); ("req_notify_cq", ptr);
   ("cq_event", ptr); ("resize_cq", ptr); ("destroy_cq", ptr); ("create_srq", ptr);
   ("modify_srq", ptr); ("query_srq", ptr); ("destroy_srq", ptr); ("post_srq_recv", ptr);
   ("create_qp", ptr); ("query_qp", ptr); ("modify_qp", ptr); ("destroy_qp", ptr);
   ("post_send", ptr); ("post_recv", ptr); ("create_ah", ptr); ("destroy_ah", ptr);
   ("attach_mcast", ptr); ("detach_mcast", ptr); ("async_event", ptr)].

Definition ibv_context : fields :=
  [("device", ptr); ("ops", Struct ibv_context_ops); ("cmd_fd", int); ("async_fd", int);
   ("num_comp_vectors", int); ("mutex", pthread_mutex_t); ("abi_compat", ptr)].

Definition verbs_context : fields :=
  [("alloc_parent_domain", ptr); ("dealloc_td", ptr); ("alloc_td", ptr); ("modify_cq", ptr);
   ("post_srq_ops", ptr); ("destroy_rwq_ind_table", ptr); ("create_rwq_ind_table", ptr);
   ("destroy_wq", ptr); ("modify_wq", ptr); ("create_wq", ptr); ("query_rt_values", ptr);
   ("create_cq_ex", ptr); ("priv", ptr); ("query_device_ex", ptr); ("ibv_destroy_flow", ptr);
   ("ABI_placeholder2", ptr); ("ibv_create_flow", ptr); ("ABI_placeholder1", ptr); ("open_qp", ptr);
   ("create_qp_ex", ptr); ("get_srq_num", ptr); ("create_srq_ex", ptr); ("open_xrcd", ptr);
   ("close_xrcd", ptr); ("_ABI_placeholder3", uint64_t); ("sz", size_t);
   ("context", Struct ibv_context)].

End pthread.

(** ** Attributes *)

Definition ibv_srq_attr : fields :=
  [("max_wr", uint32_t); ("max_sge", uint32_t); ("srq_limit", uint32_t)].
Definition ibv_srq_init_attr : fields := [("srq_context", ptr); ("attr", Struct ibv_srq_attr)].
Definition ibv_tm_cap : fields := [("max_num_tags", uint32_t); ("max_ops", uint32_t)].
Definition ibv_srq_init_attr_ex : fields :=
  [("srq_context", ptr); ("attr", Struct ibv_srq_attr); ("comp_mask", uint32_t); ("srq_type", enum);
   ("pd", ptr); ("xrcd", ptr); ("cq", ptr); ("tm_cap", Struct ibv_tm_cap)].

Definition ibv_qp_cap : fields :=
  [("max_send_wr", uint32_t); ("max_recv_wr", uint32_t); ("max_send_sge", uint32_t);
   ("max_recv_sge", uint32_t); ("max_inline_data", uint32_t)].
Definition ibv_qp_init_attr : fields :=
  [("qp_context", ptr); ("send_cq", ptr); ("recv_cq", ptr); ("srq", ptr);
   ("cap", Struct ibv_qp_cap); ("qp_type", enum); ("sq_sig_all", int)].
Definition ibv_rx_hash_conf : fields :=
  [("rx_hash_function", uint8_t); ("rx_hash_key_len", uint8_t); ("rx_hash_key", ptr);
   ("rx_hash_fields_mask", uint64_t)].
Definition ibv_qp_init_attr_ex : fields :=
  [("qp_context", ptr); ("send_cq", ptr); ("recv_cq", ptr); ("srq", ptr);
   ("cap", Struct ibv_qp_cap); ("qp_type", enum); ("sq_sig_all", int); ("comp_mask", uint32_t);
   ("pd", ptr); ("xrcd", ptr); ("create_flags", uint32_t); ("max_tso_header", uint16_t);
   ("rwq_ind_tbl", ptr); ("rx_hash_conf", Struct ibv_rx_hash_conf); ("source_qpn", uint32_t)].

(** ** Constants *)

(** [UINTPTR_MAX] as a pointer. *)
Definition VERBS_ABI_IS_EXTENDED : Z := 2 ^ 64 - 1.

Definition IBV_LINK_LAYER_UNSPECIFIED : Z := 0.

Definition IBV_MW_TYPE_1 : Z := 1.
Definition IBV_MW_TYPE_2 : Z := 2.

Definition IBV_SRQT_BASIC : Z := 0.
Definition IBV_SRQT_XRC : Z := 1.
Definition IBV_SRQT_TM : Z := 2.

Definition IBV_SRQ_INIT_ATTR_TYPE : Z := Z.shiftl 1 0.
Definition IBV_SRQ_INIT_ATTR_PD : Z := Z.shiftl 1 1.

Definition IBV_QP_INIT_ATTR_PD : Z := Z.shiftl 1 0.

(** ** Properties *)

Section layout.
Context {PT : Pthread}.

(** Structures that may be read as another: every field of the other is there,
    at the same offset and of the same type. *)
Definition readable_as (fs base : fields) : Prop :=
  forall f t, (f, t) ∈ base -> (f, t) ∈ fs /\ offsetof fs f = offsetof base f.

Lemma readable_prefix base rest : readable_as (base ++ rest) base.
Proof.
  intros f t Hf. split; [apply elem_of_app; by left|]. apply offsetof_prefix.
  apply list_elem_of_fmap. by exists (f, t).
Qed.

End layout.

(** The casts of verbs.h are sound: an [ibv_cq_ex] can be used as an
    [ibv_cq], an [ibv_srq_init_attr_ex] as an [ibv_srq_init_attr] and an
    [ibv_qp_init_attr_ex] as an [ibv_qp_init_attr], whatever the sizes of the C
    library's types: each field of the second is in the first, with the same type
    and at the same offset. *)
Theorem casts_readable `{!Pthread} :
  readable_as ibv_cq_ex ibv_cq /\
  readable_as ibv_srq_init_attr_ex ibv_srq_init_attr /\
  readable_as ibv_qp_init_attr_ex ibv_qp_init_attr.
Proof.
  split; [|split].
  - apply (readable_prefix ibv_cq (drop 9 ibv_cq_ex)).
  - apply (readable_prefix ibv_srq_init_attr (drop 2 ibv_srq_init_attr_ex)).
  - apply (readable_prefix ibv_qp_init_attr (drop 7 ibv_qp_init_attr_ex)).
Qed.

(** Sizes and offsets with glibc's types. *)
Example verbs_sizes :
  sizeof (Struct (@ibv_context glibc)) = 328 /\ sizeof (Struct (@verbs_context glibc)) = 536 /\
  sizeof (Struct ibv_device_attr) = 232 /\ sizeof (Struct ibv_device_attr_ex) = 376 /\
  sizeof (Struct ibv_qp_init_attr) = 64 /\ sizeof (Struct (@ibv_cq glibc)) = 128 /\
  offsetof (@ibv_qp glibc) "qp_num" = 52 /\ offsetof (@verbs_context glibc) "sz" = 200.
Proof. vm_compute. repeat split. Qed.
