(* ===== verification/Verbs.v ===== *)
(** libibverbs, as the two RDMA programs use it.

    The data are verbs.h's.  [verbs] is the alphabet of the calls the programs
    make; every answer comes from the environment.  [NicEnv] is the environment
    of the theorems: its ghost state [nic] holds the resources that are alive,
    the work requests the card owns, the memory, and what was transmitted.  A
    call may always fail.  When it succeeds it does what the ibverbs manual
    pages say; a call that breaks the library's rules (a dead handle, an object
    destroyed while others depend on it, memory touched while the card owns it)
    is recorded in [misuse]. *)
From stdpp Require Import gmap.
From S2P Require Import Prelude CInt CLib Prog Posix.
Local Open Scope Z_scope.

(** ** Data *)

Definition ibv_gid : Type := list Z.
Definition wf_gid (g : ibv_gid) : Prop := length g = 16%nat /\ wf_bytes g.

Inductive ibv_mtu := IBV_MTU_256 | IBV_MTU_512 | IBV_MTU_1024 | IBV_MTU_2048 | IBV_MTU_4096.

Definition ibv_mtu_val (m : ibv_mtu) : Z :=
  match m with
  | IBV_MTU_256 => 1 | IBV_MTU_512 => 2 | IBV_MTU_1024 => 3 | IBV_MTU_2048 => 4
  | IBV_MTU_4096 => 5
  end.

(** [struct ibv_port_attr], the fields the programs read. *)
Record ibv_port_attr := { active_mtu : ibv_mtu; lid : Z }.

Inductive ibv_wc_status :=
| IBV_WC_SUCCESS | IBV_WC_LOC_LEN_ERR | IBV_WC_LOC_QP_OP_ERR | IBV_WC_LOC_EEC_OP_ERR
| IBV_WC_LOC_PROT_ERR | IBV_WC_WR_FLUSH_ERR | IBV_WC_MW_BIND_ERR | IBV_WC_BAD_RESP_ERR
| IBV_WC_LOC_ACCESS_ERR | IBV_WC_REM_INV_REQ_ERR | IBV_WC_REM_ACCESS_ERR | IBV_WC_REM_OP_ERR
| IBV_WC_RETRY_EXC_ERR | IBV_WC_RNR_RETRY_EXC_ERR | IBV_WC_LOC_RDD_VIOL_ERR
| IBV_WC_REM_INV_RD_REQ_ERR | IBV_WC_REM_ABORT_ERR | IBV_WC_INV_EECN_ERR
| IBV_WC_INV_EEC_STATE_ERR | IBV_WC_FATAL_ERR | IBV_WC_RESP_TIMEOUT_ERR | IBV_WC_GENERAL_ERR
| IBV_WC_TM_ERR | IBV_WC_TM_RNDV_INCOMPLETE.

#[export] Instance ibv_wc_status_eq_dec : EqDecision ibv_wc_status.
Proof. solve_decision. Defined.

Definition ibv_wc_status_val (s : ibv_wc_status) : Z :=
  match s with
  | IBV_WC_SUCCESS => 0 | IBV_WC_LOC_LEN_ERR => 1 | IBV_WC_LOC_QP_OP_ERR => 2
  | IBV_WC_LOC_EEC_OP_ERR => 3 | IBV_WC_LOC_PROT_ERR => 4 | IBV_WC_WR_FLUSH_ERR => 5
  | IBV_WC_MW_BIND_ERR => 6 | IBV_WC_BAD_RESP_ERR => 7 | IBV_WC_LOC_ACCESS_ERR => 8
  | IBV_WC_REM_INV_REQ_ERR => 9 | IBV_WC_REM_ACCESS_ERR => 10 | IBV_WC_REM_OP_ERR => 11
  | IBV_WC_RETRY_EXC_ERR => 12 | IBV_WC_RNR_RETRY_EXC_ERR => 13 | IBV_WC_LOC_RDD_VIOL_ERR => 14
  | IBV_WC_REM_INV_RD_REQ_ERR => 15 | IBV_WC_REM_ABORT_ERR => 16 | IBV_WC_INV_EECN_ERR => 17
  | IBV_WC_INV_EEC_STATE_ERR => 18 | IBV_WC_FATAL_ERR => 19 | IBV_WC_RESP_TIMEOUT_ERR => 20
  | IBV_WC_GENERAL_ERR => 21 | IBV_WC_TM_ERR => 22 | IBV_WC_TM_RNDV_INCOMPLETE => 23
  end.

(** [struct ibv_wc], the fields the programs read. *)
Record ibv_wc := { wc_wr_id : Z; wc_status : ibv_wc_status; wc_byte_len : Z }.

(** [enum ibv_access_flags] *)
Definition IBV_ACCESS_LOCAL_WRITE : Z := 1.

(** [struct ibv_global_route], [struct ibv_ah_attr] *)
Record ibv_global_route := {
  dgid : ibv_gid; flow_label : Z; sgid_index : Z; hop_limit : Z; traffic_class : Z }.
Record ibv_ah_attr := {
  grh : ibv_global_route; dlid : Z; sl : Z; src_path_bits : Z; static_rate : Z;
  is_global : Z; ah_port_num : Z }.

Inductive ibv_qp_type :=
| IBV_QPT_RC | IBV_QPT_UC | IBV_QPT_UD | IBV_QPT_RAW_PACKET | IBV_QPT_XRC_SEND
| IBV_QPT_XRC_RECV | IBV_QPT_DRIVER.

Record ibv_qp_cap := {
  max_send_wr : Z; max_recv_wr : Z; max_send_sge : Z; max_recv_sge : Z; max_inline_data : Z }.

Record ibv_qp_init_attr := {
  qp_context : Z; send_cq : Z; recv_cq : Z; srq : Z; cap : ibv_qp_cap; qp_type : ibv_qp_type;
  sq_sig_all : Z }.

(** [enum ibv_qp_attr_mask] *)
Definition IBV_QP_STATE : Z := Z.shiftl 1 0.
Definition IBV_QP_PKEY_INDEX : Z := Z.shiftl 1 4.
Definition IBV_QP_PORT : Z := Z.shiftl 1 5.
Definition IBV_QP_QKEY : Z := Z.shiftl 1 6.
Definition IBV_QP_SQ_PSN : Z := Z.shiftl 1 16.
Definition IBV_QP_CAP : Z := Z.shiftl 1 19.

Inductive ibv_qp_state :=
| IBV_QPS_RESET | IBV_QPS_INIT | IBV_QPS_RTR | IBV_QPS_RTS | IBV_QPS_SQD | IBV_QPS_SQE
| IBV_QPS_ERR | IBV_QPS_UNKNOWN.

#[export] Instance ibv_qp_state_eq_dec : EqDecision ibv_qp_state.
Proof. solve_decision. Defined.

(** [struct ibv_qp_attr], the fields the programs set. *)
Record ibv_qp_attr := {
  qp_state : ibv_qp_state; qkey : Z; sq_psn : Z; pkey_index : Z; port_num : Z }.

Inductive ibv_wr_opcode :=
| IBV_WR_RDMA_WRITE | IBV_WR_RDMA_WRITE_WITH_IMM | IBV_WR_SEND | IBV_WR_SEND_WITH_IMM
| IBV_WR_RDMA_READ | IBV_WR_ATOMIC_CMP_AND_SWP | IBV_WR_ATOMIC_FETCH_AND_ADD
| IBV_WR_LOCAL_INV | IBV_WR_BIND_MW | IBV_WR_SEND_WITH_INV | IBV_WR_TSO.

(** [enum ibv_send_flags] *)
Definition IBV_SEND_SIGNALED : Z := Z.shiftl 1 1.
Definition IBV_SEND_INLINE : Z := Z.shiftl 1 3.

Record ibv_sge := { sge_addr : Z; sge_length : Z; sge_lkey : Z }.

(** The wr.ud member of [struct ibv_send_wr]. *)
Record ibv_ud := { ud_ah : Z; ud_remote_qpn : Z; ud_remote_qkey : Z }.

(** Work requests.  The programs keep them in arrays: a [next] pointer into the
    request's own array is the index of an element, NULL is [None]; [sg_list]
    is the index of the first entry in the scatter-gather array. *)
Record ibv_send_wr := {
  s_wr_id : Z; s_next : option Z; s_sg_list : Z; s_num_sge : Z;
  s_opcode : ibv_wr_opcode; s_send_flags : Z; s_ud : ibv_ud }.
Record ibv_recv_wr := {
  r_wr_id : Z; r_next : option Z; r_sg_list : Z; r_num_sge : Z }.

(** [struct ibv_mr]: the handle and the local key. *)
Record ibv_mr := { mr_handle : Z; lkey : Z }.

(** ** Calls *)

Inductive verbs : Type -> Type :=
| Sysconf_pagesize : verbs Z
| Get_device_list : verbs (Z * list Z)
| Free_device_list (l : Z) : verbs unit
| Get_device_name (dev : Z) : verbs (list Z)
| Open_device (dev : Z) : verbs Z
| Close_device (context : Z) : verbs Z
| Query_port (context port : Z) : verbs (Z * ibv_port_attr)
| Query_gid (context port index : Z) : verbs (Z * ibv_gid)
| Alloc_pd (context : Z) : verbs Z
| Dealloc_pd (pd : Z) : verbs Z
| Create_cq (context cqe : Z) : verbs Z
| Destroy_cq (cq : Z) : verbs Z
| Create_qp (pd : Z) (attr : ibv_qp_init_attr) : verbs Z
| Query_qp (qp mask : Z) : verbs (Z * ibv_qp_attr * ibv_qp_init_attr)
| Modify_qp (qp : Z) (attr : ibv_qp_attr) (mask : Z) : verbs Z
| Destroy_qp (qp : Z) : verbs Z
| Qp_num (qp : Z) : verbs Z
| Reg_mr (pd addr length access : Z) : verbs (option ibv_mr)
| Dereg_mr (mr : Z) : verbs Z
| Create_ah (pd : Z) (attr : ibv_ah_attr) : verbs Z
| Destroy_ah (ah : Z) : verbs Z
| Post_send (qp : Z) (wrs : list (ibv_send_wr * list ibv_sge)) : verbs (Z * nat)
| Post_recv (qp : Z) (wrs : list (ibv_recv_wr * list ibv_sge)) : verbs (Z * nat)
| Poll_cq (cq num_entries : Z) : verbs (Z * list ibv_wc)
| Wc_status_str (status : ibv_wc_status) : verbs (list Z)
| Posix_memalign (align size : Z) : verbs (Z * Z)
| Malloc (size : Z) : verbs Z
| Free (p : Z) : verbs unit
| Memset (p c n : Z) : verbs unit
| Load_char (p : Z) : verbs Z
| Errno : verbs Z
| Strerror (e : Z) : verbs (list Z)
| VSigaction : verbs Z
| VSigint : verbs bool
| VSleep : verbs unit
| VEprintf (out : list Z) : verbs unit
| VPrintf (out : list Z) : verbs unit.

(** ** The environment *)

(** What a live handle denotes. *)
Inductive obj :=
| ODevList
| OContext
| OPd (context : Z)
| OCq (context : Z)
| OQp (pd cq : Z) (st : ibv_qp_state)
| OMr (pd addr len key : Z)
| OAh (pd : Z)
| OBlock (size : Z).

(** A work request in the card's hands (a receive or a send), and a message
    handed over for transmission: its id, its destination and the bytes it was
    posted with. *)
Record work := { w_recv : bool; w_id : Z; w_sges : list ibv_sge }.
Record transmit := { t_id : Z; t_ud : ibv_ud; t_data : list Z }.

(** The failures a specification refers to. *)
Inductive failure := FOpenDevice | FAllocPd | FMalloc | FRelease.

#[export] Instance failure_eq_dec : EqDecision failure.
Proof. solve_decision. Defined.

(** What the program is seen to do: the ids of the requests it posts and of
    those it finds completed, and the lines it prints. *)
Inductive vevent :=
| EPost (ids : list Z)
| EComplete (ids : list Z)
| EPrint (out : list Z).

(** [incoming k] is the datagram of the [k]-th completed receive, with its
    global routing header; [arrived] of them have been delivered.  [mem] says what
    memory holds where [known] is true: elsewhere the card may have written. *)
Record nic := {
  live : gmap Z obj;
  devices : list Z;
  mem : Z -> Z;
  known : Z -> bool;
  incoming : nat -> list Z;
  arrived : nat;
  outstanding : list work;
  transmitted : list transmit;
  failed : list failure;
  misuse : list string;
  trail : list vevent;
  vpolls : nat
}.

(** The start, with the datagrams to come. *)
Definition nic_fed (inc : nat -> list Z) : nic :=
  {| live := ∅; devices := []; mem := fun _ => 0; known := fun _ => false;
     incoming := inc; arrived := 0; outstanding := []; transmitted := [];
     failed := []; misuse := []; trail := []; vpolls := 0 |}.
Definition nic0 : nic := nic_fed (fun _ => []).

(** *** Rules of the library *)

Definition is_context (m : gmap Z obj) (h : Z) : bool :=
  match m !! h with Some OContext => true | _ => false end.
Definition is_pd (m : gmap Z obj) (h : Z) : bool :=
  match m !! h with Some (OPd _) => true | _ => false end.
Definition is_cq (m : gmap Z obj) (h : Z) : bool :=
  match m !! h with Some (OCq _) => true | _ => false end.
Definition is_qp (m : gmap Z obj) (h : Z) : bool :=
  match m !! h with Some (OQp _ _ _) => true | _ => false end.
Definition is_mr (m : gmap Z obj) (h : Z) : bool :=
  match m !! h with Some (OMr _ _ _ _) => true | _ => false end.
Definition is_ah (m : gmap Z obj) (h : Z) : bool :=
  match m !! h with Some (OAh _) => true | _ => false end.
Definition is_block (m : gmap Z obj) (h : Z) : bool :=
  match m !! h with Some (OBlock _) => true | _ => false end.

(** [o] was created from [h], which has to outlive it.  A memory region uses the
    block it registers: while it is there, the card can reach the block. *)
Definition depends (h : Z) (o : obj) : bool :=
  match o with
  | OPd c | OCq c => c =? h
  | OQp p c _ => (p =? h) || (c =? h)
  | OMr p a _ _ => (p =? h) || (a =? h)
  | OAh p => p =? h
  | _ => false
  end.
Definition in_use (m : gmap Z obj) (h : Z) : bool :=
  bool_decide (map_Exists (fun _ o => depends h o = true) m).

(** [n] bytes at [a] are inside a block; an entry is inside a registered
    region with its key. *)
Definition in_block (m : gmap Z obj) (a n : Z) : bool :=
  bool_decide (map_Exists (fun p o =>
    match o with OBlock size => (p <=? a) && (a + n <=? p + size) | _ => false end = true) m).
Definition registered (m : gmap Z obj) (e : ibv_sge) : bool :=
  bool_decide (map_Exists (fun _ o =>
    match o with
    | OMr _ a n k => (k =? sge_lkey e) && (a <=? sge_addr e) &&
                     (sge_addr e + sge_length e <=? a + n)
    | _ => false
    end = true) m).

(** [n] bytes at [a] overlap memory of a request the card owns. *)
Definition overlaps (a n : Z) (e : ibv_sge) : bool :=
  (a <? sge_addr e + sge_length e) && (sge_addr e <? a + n).
Definition card_owns (ws : list work) (a n : Z) : bool :=
  existsb (fun w => existsb (overlaps a n) (w_sges w)) ws.

(** The transitions of an Unreliable Datagram queue pair and the attributes
    they require (ibv_modify_qp(3)). *)
Definition has_bits (mask bits : Z) : bool := Z.land mask bits =? bits.
Definition ud_transition (st st' : ibv_qp_state) (mask : Z) : bool :=
  has_bits mask IBV_QP_STATE &&
  match st, st' with
  | IBV_QPS_RESET, IBV_QPS_INIT =>
      has_bits mask (Z.lor IBV_QP_PKEY_INDEX (Z.lor IBV_QP_PORT IBV_QP_QKEY))
  | IBV_QPS_INIT, IBV_QPS_RTR => true
  | IBV_QPS_RTR, IBV_QPS_RTS => has_bits mask IBV_QP_SQ_PSN
  | _, IBV_QPS_RESET | _, IBV_QPS_ERR => true
  | _, _ => false
  end.

Definition qp_in (m : gmap Z obj) (h : Z) (P : ibv_qp_state -> bool) : Prop :=
  match m !! h with Some (OQp _ _ st) => P st = true | _ => False end.

(** *** Answers and their effects *)

Definition fresh_handle (m : gmap Z obj) (h : Z) : Prop := h <> 0 /\ m !! h = None.
Definition created (m : gmap Z obj) (h : Z) : Prop := h = 0 \/ fresh_handle m h.

(** A new block is inside the address space and apart from the others. *)
Definition fresh_block (m : gmap Z obj) (p size : Z) : Prop :=
  fresh_handle m p /\ 0 < p /\ p + size <= 2 ^ 64 /\
  map_Forall (fun q o => match o with OBlock n => p + size <= q \/ q + n <= p | _ => True end) m.

Definition send_work (w : ibv_send_wr * list ibv_sge) : work :=
  {| w_recv := false; w_id := s_wr_id w.1; w_sges := w.2 |}.
Definition recv_work (w : ibv_recv_wr * list ibv_sge) : work :=
  {| w_recv := true; w_id := r_wr_id w.1; w_sges := w.2 |}.

Definition load_bytes (m : Z -> Z) (a n : Z) : list Z := m <$> seqZ a n.
Definition sge_bytes (m : Z -> Z) (e : ibv_sge) : list Z := load_bytes m (sge_addr e) (sge_length e).
Definition transmission (m : Z -> Z) (w : ibv_send_wr * list ibv_sge) : transmit :=
  {| t_id := s_wr_id w.1; t_ud := s_ud w.1; t_data := concat (sge_bytes m <$> w.2) |}.

Definition memset_at (m : Z -> Z) (p c n : Z) : Z -> Z :=
  fun a => if (p <=? a) && (a <? p + n) then u8 c else m a.

(** Storing a list at an address, and scattering it over the entries of a
    request. *)
Definition store_at {A} (m : Z -> A) (a : Z) (l : list A) : Z -> A :=
  fun x => if a <=? x then default (m x) (l !! Z.to_nat (x - a)) else m x.

Fixpoint scatter {A} (m : Z -> A) (es : list ibv_sge) (l : list A) : Z -> A :=
  match es with
  | [] => m
  | e :: es =>
      let n := Z.to_nat (sge_length e) in
      scatter (store_at m (sge_addr e) (take n l)) es (drop n l)
  end.

Definition forget (es : list ibv_sge) (known : Z -> bool) : Z -> bool :=
  fun x => known x && negb (existsb (overlaps x 1) es).

Definition capacity (w : work) : Z := foldr Z.add 0 (sge_length <$> w_sges w).

(** A completed receive that succeeded has the length of its datagram, which
    fits its entries; the datagram is in them. *)
Fixpoint completions_ok (inc : nat -> list Z) (k : nat) (ws : list work) (wcs : list ibv_wc) : Prop :=
  match ws, wcs with
  | w :: ws, c :: wcs =>
      if w_recv w then
        (wc_status c = IBV_WC_SUCCESS ->
           wc_byte_len c = Z.of_nat (length (inc k)) /\ wc_byte_len c <= capacity w) /\
        completions_ok inc (S k) ws wcs
      else completions_ok inc k ws wcs
  | _, _ => True
  end.

Fixpoint deliver {A} (of_byte : Z -> A) (inc : nat -> list Z) (k : nat) (ws : list work)
    (wcs : list ibv_wc) (m : Z -> A) : Z -> A :=
  match ws, wcs with
  | w :: ws, c :: wcs =>
      if w_recv w then
        deliver of_byte inc (S k) ws wcs
          (if decide (wc_status c = IBV_WC_SUCCESS)
           then scatter m (w_sges w) (of_byte <$> inc k) else m)
      else deliver of_byte inc k ws wcs m
  | _, _ => m
  end.

Section env.
Variable sigint : nat -> bool.

(** Requests complete in the order they were posted. *)
Definition poll_ok (inc : nat -> list Z) (k : nat) (ws : list work) (n : Z)
    (r : Z * list ibv_wc) : Prop :=
  r.1 < 0 \/
  (0 <= r.1 <= n /\ length r.2 = Z.to_nat r.1 /\ (length r.2 <= length ws)%nat /\
   wc_wr_id <$> r.2 = take (length r.2) (w_id <$> ws) /\ completions_ok inc k ws r.2).

Definition nic_legal (X : Type) (g : nic) (e : verbs X) : X -> Prop :=
  match e in verbs X return X -> Prop with
  | Get_device_list => fun r => created (live g) r.1 /\ 0 ∉ r.2
  | Open_device _ | Alloc_pd _ | Create_cq _ _ | Create_qp _ _ | Create_ah _ _ =>
      fun h => created (live g) h
  | Query_gid _ _ _ => fun r => wf_gid r.2
  | Modify_qp qp a mask => fun r =>
      r = 0 -> qp_in (live g) qp (fun st => ud_transition st (qp_state a) mask)
  | Reg_mr _ _ _ _ => fun r =>
      match r with Some m => fresh_handle (live g) (mr_handle m) | None => True end
  | Post_send qp wrs => fun r => (r.2 <= length wrs)%nat /\
      (r.1 = 0 -> r.2 = length wrs /\
         qp_in (live g) qp (fun st => bool_decide (st = IBV_QPS_RTS)))
  | Post_recv _ wrs => fun r => (r.2 <= length wrs)%nat /\ (r.1 = 0 -> r.2 = length wrs)
  | Poll_cq _ n => fun r => poll_ok (incoming g) (arrived g) (outstanding g) n r
  | Load_char p => fun x => known g p = true -> x = mem g p
  | Posix_memalign _ size => fun r => r.1 = 0 -> fresh_block (live g) r.2 size
  | Malloc size => fun p => p = 0 \/ fresh_block (live g) p size
  | VSigint => fun b => b = sigint (vpolls g)
  | _ => fun _ => True
  end.

Definition complain (ok : bool) (why : string) : list string := if ok then [] else [why].

(** The rules a call breaks. *)
Definition rules (X : Type) (g : nic) (e : verbs X) : list string :=
  let m := live g in
  match e with
  | Free_device_list l =>
      complain (match m !! l with Some ODevList => true | _ => false end) "not a device list"
  | Get_device_name dev => complain (bool_decide (dev ∈ devices g)) "dead device"
  | Open_device dev => complain (bool_decide (dev ∈ devices g)) "dead device"
  | Close_device c => complain (is_context m c) "not a context" ++
                      complain (negb (in_use m c)) "context in use"
  | Query_port c _ | Query_gid c _ _ | Alloc_pd c | Create_cq c _ =>
      complain (is_context m c) "not a context"
  | Dealloc_pd p => complain (is_pd m p) "not a protection domain" ++
                    complain (negb (in_use m p)) "protection domain in use"
  | Destroy_cq c => complain (is_cq m c) "not a completion queue" ++
                    complain (negb (in_use m c)) "completion queue in use"
  | Create_qp p a => complain (is_pd m p) "not a protection domain" ++
                     complain (is_cq m (send_cq a) && is_cq m (recv_cq a)) "not a completion queue"
  | Query_qp q _ | Modify_qp q _ _ | Destroy_qp q | Qp_num q =>
      complain (is_qp m q) "not a queue pair"
  | Reg_mr p a n _ => complain (is_pd m p) "not a protection domain" ++
                      complain (is_block m a && in_block m a n) "registration of no block"
  | Dereg_mr h => complain (is_mr m h) "not a memory region"
  | Create_ah p _ => complain (is_pd m p) "not a protection domain"
  | Destroy_ah h => complain (is_ah m h) "not an address handle"
  | Post_send q wrs =>
      complain (is_qp m q) "not a queue pair" ++
      complain (forallb (fun w => forallb (registered m) w.2 && is_ah m (ud_ah (s_ud w.1))) wrs)
        "bad request"
  | Post_recv q wrs =>
      complain (is_qp m q) "not a queue pair" ++
      complain (forallb (fun w => forallb (registered m) w.2) wrs) "bad request"
  | Poll_cq c _ => complain (is_cq m c) "not a completion queue"
  | Free p => complain ((p =? 0) || is_block m p) "free of a dead block" ++
              complain ((p =? 0) || negb (in_use m p)) "free of a registered block"
  | Memset p _ n => complain (in_block m p n) "write outside a block" ++
                    complain (negb (card_owns (outstanding g) p n)) "write to memory the card owns"
  | Load_char p => complain (in_block m p 1) "read outside a block" ++
                   complain (negb (card_owns (outstanding g) p 1)) "read of memory the card owns"
  | _ => []
  end.

Definition create (h : Z) (o : obj) (m : gmap Z obj) : gmap Z obj :=
  if h =? 0 then m else <[h := o]> m.

Definition live_next (X : Type) (m : gmap Z obj) (e : verbs X) : X -> gmap Z obj :=
  match e in verbs X return X -> gmap Z obj with
  | Get_device_list => fun r => create r.1 ODevList m
  | Free_device_list l => fun _ => delete l m
  | Open_device _ => fun h => create h OContext m
  | Alloc_pd c => fun h => create h (OPd c) m
  | Create_cq c _ => fun h => create h (OCq c) m
  | Create_qp p a => fun h => create h (OQp p (send_cq a) IBV_QPS_RESET) m
  | Create_ah p _ => fun h => create h (OAh p) m
  | Reg_mr p a n _ => fun r =>
      match r with Some k => <[mr_handle k := OMr p a n (lkey k)]> m | None => m end
  | Modify_qp q a _ => fun r =>
      if r =? 0 then
        alter (fun o => match o with OQp p c _ => OQp p c (qp_state a) | _ => o end) q m
      else m
  | Close_device h | Dealloc_pd h | Destroy_cq h | Destroy_qp h | Dereg_mr h | Destroy_ah h =>
      fun r => if r =? 0 then delete h m else m
  | Posix_memalign _ size => fun r => if r.1 =? 0 then <[r.2 := OBlock size]> m else m
  | Malloc size => fun p => create p (OBlock size) m
  | Free p => fun _ => delete p m
  | _ => fun _ => m
  end.

Definition devices_next (X : Type) (l : list Z) (e : verbs X) : X -> list Z :=
  match e in verbs X return X -> list Z with
  | Get_device_list => fun r => r.2
  | Free_device_list _ => fun _ => []
  | _ => fun _ => l
  end.

Definition mem_next (X : Type) (g : nic) (e : verbs X) : X -> Z -> Z :=
  match e in verbs X return X -> Z -> Z with
  | Memset p c n => fun _ => memset_at (mem g) p c n
  | Poll_cq _ _ => fun r =>
      if r.1 <? 0 then mem g
      else deliver (fun b => b) (incoming g) (arrived g) (outstanding g) r.2 (mem g)
  | _ => fun _ => mem g
  end.

Definition known_next (X : Type) (g : nic) (e : verbs X) : X -> Z -> bool :=
  match e in verbs X return X -> Z -> bool with
  | Memset p _ n => fun _ a => (p <=? a) && (a <? p + n) || known g a
  | Post_recv _ wrs => fun r => forget (concat (snd <$> take r.2 wrs)) (known g)
  | Poll_cq _ _ => fun r =>
      if r.1 <? 0 then known g
      else deliver (fun _ => true) (incoming g) (arrived g) (outstanding g) r.2 (known g)
  | _ => fun _ => known g
  end.

Definition arrived_next (X : Type) (g : nic) (e : verbs X) : X -> nat :=
  match e in verbs X return X -> nat with
  | Poll_cq _ _ => fun r =>
      if r.1 <? 0 then arrived g
      else (arrived g + length (filter (fun w => w_recv w = true)
                                  (take (length r.2) (outstanding g))))%nat
  | _ => fun _ => arrived g
  end.

Definition trail_next (X : Type) (e : verbs X) : X -> list vevent :=
  match e in verbs X return X -> list vevent with
  | Post_send _ wrs => fun r => [EPost ((fun w => s_wr_id w.1) <$> take r.2 wrs)]
  | Post_recv _ wrs => fun r => [EPost ((fun w => r_wr_id w.1) <$> take r.2 wrs)]
  | Poll_cq _ _ => fun r => if r.1 <? 0 then [] else [EComplete (wc_wr_id <$> r.2)]
  | VPrintf out => fun _ => [EPrint out]
  | _ => fun _ => []
  end.

Definition outstanding_next (X : Type) (ws : list work) (e : verbs X) : X -> list work :=
  match e in verbs X return X -> list work with
  | Post_send _ wrs => fun r => ws ++ (send_work <$> take r.2 wrs)
  | Post_recv _ wrs => fun r => ws ++ (recv_work <$> take r.2 wrs)
  | Poll_cq _ _ => fun r => if r.1 <? 0 then ws else drop (length r.2) ws
  | _ => fun _ => ws
  end.

Definition transmitted_next (X : Type) (m : Z -> Z) (l : list transmit) (e : verbs X) :
    X -> list transmit :=
  match e in verbs X return X -> list transmit with
  | Post_send _ wrs => fun r => l ++ (transmission m <$> take r.2 wrs)
  | _ => fun _ => l
  end.

Definition failure_of (X : Type) (e : verbs X) : X -> list failure :=
  match e in verbs X return X -> list failure with
  | Open_device _ => fun h => if h =? 0 then [FOpenDevice] else []
  | Alloc_pd _ => fun h => if h =? 0 then [FAllocPd] else []
  | Malloc _ => fun p => if p =? 0 then [FMalloc] else []
  | Close_device _ | Dealloc_pd _ | Destroy_cq _ | Destroy_qp _ | Dereg_mr _ | Destroy_ah _ =>
      fun r => if r =? 0 then [] else [FRelease]
  | _ => fun _ => []
  end.

Definition nic_next (X : Type) (g : nic) (e : verbs X) (x : X) : nic :=
  {| live := live_next X (live g) e x;
     devices := devices_next X (devices g) e x;
     mem := mem_next X g e x;
     known := known_next X g e x;
     incoming := incoming g;
     arrived := arrived_next X g e x;
     outstanding := outstanding_next X (outstanding g) e x;
     transmitted := transmitted_next X (mem g) (transmitted g) e x;
     failed := failed g ++ failure_of X e x;
     misuse := misuse g ++ rules X g e;
     trail := trail g ++ trail_next X e x;
     vpolls := match e with VSigint => S (vpolls g) | _ => vpolls g end |}.

Definition NicEnv : EnvSpec verbs nic := {| legal := nic_legal; gnext := nic_next |}.

End env.

Abbreviation nic_wp sigint := (@wp verbs nic (NicEnv sigint) _).
