(* ===== verification/VerbsDispatch.v ===== *)
(** verbs.h's inline functions: the way from the programs' calls to the
    provider's code.

    A provider (the driver of a card) hands out contexts with tables of function
    pointers.  [ibv_context_ops] is the old table; [verbs_context] is the new one,
    which lies before the context in memory and grows downwards: a provider built
    against an older header has a shorter one, whose size it says in [sz].  The
    inline functions find the table from the context's address and must not look
    at entries the provider does not have.

    Memory is the values of its scalars by their addresses; reading or writing
    where there is none is undefined behaviour, and so is calling a null pointer.
    The provider's and the library's functions are calls that are given the
    memory and answer with a result and the memory they leave. *)
From stdpp Require Import gmap.
From S2P Require Import Prelude CInt Prog Layout VerbsTypes.
From S2P Require Verbs.
Local Open Scope Z_scope.
Local Open Scope c_scope.

(** ** Memory and calls *)

Record mstate := { cells : gmap Z Z; errno : Z }.

Definition set_cells m (s : mstate) : mstate := {| cells := m; errno := errno s |}.
Definition set_errno e (s : mstate) : mstate := {| cells := cells s; errno := e |}.

Inductive callee := Fn (p : Z) | Lib (name : string).

Inductive vcall : Type -> Type :=
| Invoke (f : callee) (args : list Z) (s : mstate) : vcall (Z * mstate).

Abbreviation V := (M vcall mstate).

Definition ENOSYS : Z := 38.
Definition EINVAL : Z := 22.

Definition load (p : Z) : V Z :=
  let! m := gets cells in defined "invalid read" (m !! p).

Definition store (p v : Z) : V unit :=
  let! m := gets cells in
  match m !! p with
  | None => undef "invalid write"
  | Some _ => modify (set_cells (<[p := v]> m))
  end.

(** [p->f] *)
Definition arrow (fs : fields) (p : Z) (f : string) : V Z :=
  if p =? 0 then undef "null pointer" else load (p + offsetof fs f).

Definition invoke (f : callee) (args : list Z) : V Z :=
  fun s => Vis (Invoke f args s) (fun x => Ret (Done x.1 x.2)).

(** [f(args)] *)
Definition call_ptr (f : Z) (args : list Z) : V Z :=
  if f =? 0 then undef "call of a null pointer" else invoke (Fn f) args.

Definition no_pointer : V Z := modify (set_errno ENOSYS) ;! ret 0.

Section code.
Context {PT : Pthread}.

(** ** Finding the table *)

Definition verbs_get_ctx (ctx : Z) : V Z :=
  let! abi := arrow ibv_context ctx "abi_compat" in
  if negb (abi =? VERBS_ABI_IS_EXTENDED) then ret 0
  else ret (ctx - offsetof verbs_context "context").

Definition verbs_get_ctx_op (ctx : Z) (op : string) : V Z :=
  let! vctx := verbs_get_ctx ctx in
  if vctx =? 0 then ret 0 else
  let! sz := arrow verbs_context vctx "sz" in
  if sz <? sizeof (Struct verbs_context) - offsetof verbs_context op then ret 0 else
  let! f := arrow verbs_context vctx op in
  ret (if f =? 0 then 0 else vctx).

(** [vctx->op(args)] *)
Definition method (vctx : Z) (op : string) (args : list Z) : V Z :=
  let! f := arrow verbs_context vctx op in call_ptr f args.

(** ** Operations of the new table *)

Definition ibv_create_flow (qp flow : Z) : V Z :=
  let! context := arrow ibv_qp qp "context" in
  let! vctx := verbs_get_ctx_op context "ibv_create_flow" in
  if vctx =? 0 then no_pointer else method vctx "ibv_create_flow" [qp; flow].

Definition ibv_destroy_flow (flow_id : Z) : V Z :=
  let! context := arrow ibv_flow flow_id "context" in
  let! vctx := verbs_get_ctx_op context "ibv_destroy_flow" in
  if vctx =? 0 then ret (- ENOSYS) else method vctx "ibv_destroy_flow" [flow_id].

Definition ibv_open_xrcd (context xrcd_init_attr : Z) : V Z :=
  let! vctx := verbs_get_ctx_op context "open_xrcd" in
  if vctx =? 0 then no_pointer else method vctx "open_xrcd" [context; xrcd_init_attr].

Definition ibv_close_xrcd (xrcd : Z) : V Z :=
  let! context := arrow ibv_xrcd xrcd "context" in
  let! vctx := verbs_get_ctx context in
  method vctx "close_xrcd" [xrcd].

Definition ibv_create_cq_ex (context cq_attr : Z) : V Z :=
  let! vctx := verbs_get_ctx_op context "create_cq_ex" in
  if vctx =? 0 then no_pointer else method vctx "create_cq_ex" [context; cq_attr].

Definition ibv_modify_cq (cq attr : Z) : V Z :=
  let! context := arrow ibv_cq cq "context" in
  let! vctx := verbs_get_ctx_op context "modify_cq" in
  if vctx =? 0 then ret ENOSYS else method vctx "modify_cq" [cq; attr].

Definition ibv_get_srq_num (srq srq_num : Z) : V Z :=
  let! context := arrow ibv_srq srq "context" in
  let! vctx := verbs_get_ctx_op context "get_srq_num" in
  if vctx =? 0 then ret ENOSYS else method vctx "get_srq_num" [srq; srq_num].

Definition ibv_post_srq_ops (srq op bad_op : Z) : V Z :=
  let! context := arrow ibv_srq srq "context" in
  let! vctx := verbs_get_ctx_op context "post_srq_ops" in
  if vctx =? 0 then store bad_op op ;! ret ENOSYS else method vctx "post_srq_ops" [srq; op; bad_op].

Definition ibv_alloc_td (context init_attr : Z) : V Z :=
  let! vctx := verbs_get_ctx_op context "alloc_td" in
  if vctx =? 0 then no_pointer else method vctx "alloc_td" [context; init_attr].

Definition ibv_dealloc_td (td : Z) : V Z :=
  let! context := arrow ibv_td td "context" in
  let! vctx := verbs_get_ctx_op context "dealloc_td" in
  if vctx =? 0 then ret ENOSYS else method vctx "dealloc_td" [td].

Definition ibv_alloc_parent_domain (context attr : Z) : V Z :=
  let! vctx := verbs_get_ctx_op context "alloc_parent_domain" in
  if vctx =? 0 then no_pointer else method vctx "alloc_parent_domain" [context; attr].

Definition ibv_query_rt_values_ex (context values : Z) : V Z :=
  let! vctx := verbs_get_ctx_op context "query_rt_values" in
  if vctx =? 0 then ret ENOSYS else method vctx "query_rt_values" [context; values].

Definition ibv_open_qp (context qp_open_attr : Z) : V Z :=
  let! vctx := verbs_get_ctx_op context "open_qp" in
  if vctx =? 0 then no_pointer else method vctx "open_qp" [context; qp_open_attr].

Definition ibv_modify_wq (wq wq_attr : Z) : V Z :=
  let! context := arrow ibv_wq wq "context" in
  let! vctx := verbs_get_ctx_op context "modify_wq" in
  if vctx =? 0 then ret ENOSYS else method vctx "modify_wq" [wq; wq_attr].

Definition ibv_destroy_wq (wq : Z) : V Z :=
  let! context := arrow ibv_wq wq "context" in
  let! vctx := verbs_get_ctx_op context "destroy_wq" in
  if vctx =? 0 then ret ENOSYS else method vctx "destroy_wq" [wq].

Definition ibv_create_rwq_ind_table (context init_attr : Z) : V Z :=
  let! vctx := verbs_get_ctx_op context "create_rwq_ind_table" in
  if vctx =? 0 then no_pointer else method vctx "create_rwq_ind_table" [context; init_attr].

Definition ibv_destroy_rwq_ind_table (table : Z) : V Z :=
  let! context := arrow ibv_rwq_ind_table table "context" in
  let! vctx := verbs_get_ctx_op context "destroy_rwq_ind_table" in
  if vctx =? 0 then ret ENOSYS else method vctx "destroy_rwq_ind_table" [table].

Definition ibv_create_wq (context wq_init_attr : Z) : V Z :=
  let! vctx := verbs_get_ctx_op context "create_wq" in
  if vctx =? 0 then no_pointer else
  let! wq := method vctx "create_wq" [context; wq_init_attr] in
  (if wq =? 0 then ret 0 else
   store (wq + offsetof ibv_wq "events_completed") 0 ;!
   invoke (Lib "pthread_mutex_init") [wq + offsetof ibv_wq "mutex"; 0] ;!
   invoke (Lib "pthread_cond_init") [wq + offsetof ibv_wq "cond"; 0]) ;!
  ret wq.

(** ** Operations that may go to an older function of the library *)

Definition ibv_create_srq_ex (context attr : Z) : V Z :=
  let! mask := arrow ibv_srq_init_attr_ex attr "comp_mask" in
  let! basic :=
    if negb (Z.land mask (u32 (Z.lnot (Z.lor IBV_SRQ_INIT_ATTR_PD IBV_SRQ_INIT_ATTR_TYPE))) =? 0)
    then ret false
    else if Z.land mask IBV_SRQ_INIT_ATTR_PD =? 0 then ret false
    else if Z.land mask IBV_SRQ_INIT_ATTR_TYPE =? 0 then ret true
    else let! srq_type := arrow ibv_srq_init_attr_ex attr "srq_type" in
         ret (srq_type =? IBV_SRQT_BASIC) in
  if basic : bool then
    let! pd := arrow ibv_srq_init_attr_ex attr "pd" in
    invoke (Lib "ibv_create_srq") [pd; attr]
  else
  let! vctx := verbs_get_ctx_op context "create_srq_ex" in
  if vctx =? 0 then no_pointer else method vctx "create_srq_ex" [context; attr].

Definition ibv_create_qp_ex (context attr : Z) : V Z :=
  let! mask := arrow ibv_qp_init_attr_ex attr "comp_mask" in
  if mask =? IBV_QP_INIT_ATTR_PD then
    let! pd := arrow ibv_qp_init_attr_ex attr "pd" in
    invoke (Lib "ibv_create_qp") [pd; attr]
  else
  let! vctx := verbs_get_ctx_op context "create_qp_ex" in
  if vctx =? 0 then no_pointer else method vctx "create_qp_ex" [context; attr].

(** [memset(p, 0, size)] of the scalars at the offsets [os]. *)
Fixpoint memset0 (p : Z) (os : list Z) : V unit :=
  match os with
  | [] => ret tt
  | o :: os => store (p + o) 0 ;! memset0 p os
  end.

(** The label [legacy]. *)
Definition query_device_legacy (context attr : Z) : V Z :=
  memset0 attr (scalars 0 (Struct ibv_device_attr_ex)) ;!
  invoke (Lib "ibv_query_device") [context; attr + offsetof ibv_device_attr_ex "orig_attr"].

Definition ibv_query_device_ex (context input attr : Z) : V Z :=
  let! vctx := verbs_get_ctx_op context "query_device_ex" in
  if vctx =? 0 then query_device_legacy context attr else
  let! r := method vctx "query_device_ex"
              [context; input; attr; sizeof (Struct ibv_device_attr_ex)] in
  if r =? ENOSYS then query_device_legacy context attr else ret r.

(** [___ibv_query_port] *)
Definition ibv_query_port (context port_num port_attr : Z) : V Z :=
  store (port_attr + offsetof ibv_port_attr "link_layer") IBV_LINK_LAYER_UNSPECIFIED ;!
  store (port_attr + offsetof ibv_port_attr "reserved") 0 ;!
  invoke (Lib "ibv_query_port") [context; port_num; port_attr].

(** ** Operations of the old table *)

(** [context->ops.op] *)
Definition context_op (context : Z) (op : string) : V Z :=
  if context =? 0 then undef "null pointer" else
  load (context + offsetof ibv_context "ops" + offsetof ibv_context_ops op).

Definition ibv_poll_cq (cq num_entries wc : Z) : V Z :=
  let! context := arrow ibv_cq cq "context" in
  let! f := context_op context "poll_cq" in call_ptr f [cq; num_entries; wc].

Definition ibv_req_notify_cq (cq solicited_only : Z) : V Z :=
  let! context := arrow ibv_cq cq "context" in
  let! f := context_op context "req_notify_cq" in call_ptr f [cq; solicited_only].

Definition ibv_post_srq_recv (srq recv_wr bad_recv_wr : Z) : V Z :=
  let! context := arrow ibv_srq srq "context" in
  let! f := context_op context "post_srq_recv" in call_ptr f [srq; recv_wr; bad_recv_wr].

Definition ibv_post_send (qp wr bad_wr : Z) : V Z :=
  let! context := arrow ibv_qp qp "context" in
  let! f := context_op context "post_send" in call_ptr f [qp; wr; bad_wr].

Definition ibv_post_recv (qp wr bad_wr : Z) : V Z :=
  let! context := arrow ibv_qp qp "context" in
  let! f := context_op context "post_recv" in call_ptr f [qp; wr; bad_wr].

Definition ibv_dealloc_mw (mw : Z) : V Z :=
  let! context := arrow ibv_mw mw "context" in
  let! f := context_op context "dealloc_mw" in call_ptr f [mw].

Definition ibv_alloc_mw (pd type : Z) : V Z :=
  let! context := arrow ibv_pd pd "context" in
  let! f := context_op context "alloc_mw" in
  if f =? 0 then no_pointer else call_ptr f [pd; type].

Definition ibv_bind_mw (qp mw mw_bind : Z) : V Z :=
  let! type := arrow ibv_mw mw "type" in
  if negb (type =? IBV_MW_TYPE_1) then ret EINVAL else
  let! context := arrow ibv_mw mw "context" in
  let! f := context_op context "bind_mw" in call_ptr f [qp; mw; mw_bind].

(** ** Operations an object carries itself *)

Definition object_op (fs : fields) (p : Z) (op : string) (args : list Z) : V Z :=
  let! f := arrow fs p op in call_ptr f args.

Definition ibv_start_poll (cq attr : Z) : V Z := object_op ibv_cq_ex cq "start_poll" [cq; attr].
Definition ibv_next_poll (cq : Z) : V Z := object_op ibv_cq_ex cq "next_poll" [cq].
Definition ibv_end_poll (cq : Z) : V Z := object_op ibv_cq_ex cq "end_poll" [cq].
Definition ibv_wc_read_opcode (cq : Z) : V Z := object_op ibv_cq_ex cq "read_opcode" [cq].
Definition ibv_wc_read_vendor_err (cq : Z) : V Z := object_op ibv_cq_ex cq "read_vendor_err" [cq].
Definition ibv_wc_read_byte_len (cq : Z) : V Z := object_op ibv_cq_ex cq "read_byte_len" [cq].
Definition ibv_wc_read_imm_data (cq : Z) : V Z := object_op ibv_cq_ex cq "read_imm_data" [cq].
Definition ibv_wc_read_invalidated_rkey (cq : Z) : V Z :=
  object_op ibv_cq_ex cq "read_imm_data" [cq].
Definition ibv_wc_read_qp_num (cq : Z) : V Z := object_op ibv_cq_ex cq "read_qp_num" [cq].
Definition ibv_wc_read_src_qp (cq : Z) : V Z := object_op ibv_cq_ex cq "read_src_qp" [cq].
Definition ibv_wc_read_wc_flags (cq : Z) : V Z := object_op ibv_cq_ex cq "read_wc_flags" [cq].
Definition ibv_wc_read_slid (cq : Z) : V Z := object_op ibv_cq_ex cq "read_slid" [cq].
Definition ibv_wc_read_sl (cq : Z) : V Z := object_op ibv_cq_ex cq "read_sl" [cq].
Definition ibv_wc_read_dlid_path_bits (cq : Z) : V Z :=
  object_op ibv_cq_ex cq "read_dlid_path_bits" [cq].
Definition ibv_wc_read_completion_ts (cq : Z) : V Z :=
  object_op ibv_cq_ex cq "read_completion_ts" [cq].
Definition ibv_wc_read_completion_wallclock_ns (cq : Z) : V Z :=
  object_op ibv_cq_ex cq "read_completion_wallclock_ns" [cq].
Definition ibv_wc_read_cvlan (cq : Z) : V Z := object_op ibv_cq_ex cq "read_cvlan" [cq].
Definition ibv_wc_read_flow_tag (cq : Z) : V Z := object_op ibv_cq_ex cq "read_flow_tag" [cq].
Definition ibv_wc_read_tm_info (cq tm_info : Z) : V Z :=
  object_op ibv_cq_ex cq "read_tm_info" [cq; tm_info].
Definition ibv_post_wq_recv (wq recv_wr bad_recv_wr : Z) : V Z :=
  object_op ibv_wq wq "post_recv" [wq; recv_wr; bad_recv_wr].

(** ** Operations without memory *)

Definition ibv_inc_rkey (rkey : Z) : Z :=
  let mask := 255 in
  let newtag := u8 (Z.land (u32 (rkey + 1)) mask) in
  Z.lor (Z.land rkey (u32 (Z.lnot mask))) newtag.

Definition ibv_qp_type_val (t : Verbs.ibv_qp_type) : Z :=
  match t with
  | Verbs.IBV_QPT_RC => 2 | Verbs.IBV_QPT_UC => 3 | Verbs.IBV_QPT_UD => 4
  | Verbs.IBV_QPT_RAW_PACKET => 8 | Verbs.IBV_QPT_XRC_SEND => 9 | Verbs.IBV_QPT_XRC_RECV => 10
  | Verbs.IBV_QPT_DRIVER => 255
  end.

(** Shifting an int's 1 by 31 or more is undefined. *)
Definition ibv_is_qpt_supported (caps qpt : Z) : option Z :=
  if 31 <=? qpt then None
  else Some (if Z.land caps (Z.shiftl 1 qpt) =? 0 then 0 else 1).

End code.

(** ** What the provider hands out *)

Section providers.
Context {PT : Pthread}.

(** The names of the table's entries. *)
Definition operations : list string := take 24 verbs_context.*1.

(** The table of a provider of size [sz] has this entry, and it is not null. *)
Definition offered (sz : Z) (table : string -> Z) (op : string) : option Z :=
  if sz <? sizeof (Struct verbs_context) - offsetof verbs_context op then None
  else if table op =? 0 then None else Some (table op).

(** [ctx] is the context of a provider with these operations.  Of a table there
    is in memory only what is inside its last [sz] bytes. *)
Inductive provider_context (m : gmap Z Z) (ctx : Z) : (string -> option Z) -> Prop :=
| old_provider abi :
    ctx <> 0 -> m !! (ctx + offsetof ibv_context "abi_compat") = Some abi ->
    abi <> VERBS_ABI_IS_EXTENDED -> provider_context m ctx (fun _ => None)
| new_provider sz table :
    ctx <> 0 -> ctx <> offsetof verbs_context "context" ->
    m !! (ctx + offsetof ibv_context "abi_compat") = Some VERBS_ABI_IS_EXTENDED ->
    m !! (ctx - offsetof verbs_context "context" + offsetof verbs_context "sz") = Some sz ->
    (forall op, op ∈ operations ->
       sizeof (Struct verbs_context) - offsetof verbs_context op <= sz ->
       m !! (ctx - offsetof verbs_context "context" + offsetof verbs_context op) = Some (table op)) ->
    provider_context m ctx (offered sz table).

(** ** Rules *)

Lemma bind_load {A} p v (k : Z -> V A) s : cells s !! p = Some v -> bind (load p) k s = k v s.
Proof. intros Hv. unfold load, bind, gets. cbn [pbind continue]. by rewrite Hv. Qed.

Lemma store_spec p v s :
  store p v s = match cells s !! p with
                | Some _ => Ret (Done tt (set_cells (<[p := v]> (cells s)) s))
                | None => Ret (Undef "invalid write")
                end.
Proof. unfold store, bind, gets. cbn [pbind continue]. by destruct (cells s !! p). Qed.

Lemma bind_arrow {A} fs p f v (k : Z -> V A) s :
  p <> 0 -> cells s !! (p + offsetof fs f) = Some v -> bind (arrow fs p f) k s = k v s.
Proof.
  intros Hp Hv. unfold arrow. rewrite (proj2 (Z.eqb_neq _ _) Hp). by apply bind_load.
Qed.

Lemma arrow_null {A} fs f (k : Z -> V A) s : bind (arrow fs 0 f) k s = Ret (Undef "null pointer").
Proof. done. Qed.

Lemma bind_if {A B} (b : bool) (m m' : V A) (k : A -> V B) s :
  bind (if b then m else m') k s = if b then bind m k s else bind m' k s.
Proof. by destruct b. Qed.

(** [verbs_get_ctx_op] makes no call and reads only what the provider has. *)
Lemma get_ctx_op_spec ctx off op s :
  provider_context (cells s) ctx off -> op ∈ operations ->
  exists vctx, verbs_get_ctx_op ctx op s = Ret (Done vctx s) /\
    match off op with
    | Some fn => vctx <> 0 /\ forall args, method vctx op args s = invoke (Fn fn) args s
    | None => vctx = 0
    end.
Proof.
  intros H Hop. destruct H as [abi Hctx Habi Hold|sz table Hctx Hbase Habi Hsz Htable].
  - exists 0. split; [|done]. unfold verbs_get_ctx_op, verbs_get_ctx, bind at 1.
    rewrite (bind_arrow _ _ _ _ _ _ Hctx Habi).
    by rewrite (proj2 (Z.eqb_neq _ _) Hold).
  - set (vctx := ctx - offsetof verbs_context "context") in *.
    assert (Hv : vctx <> 0) by (unfold vctx; lia).
    assert (Hget : verbs_get_ctx ctx s = Ret (Done vctx s)).
    { unfold verbs_get_ctx. by rewrite (bind_arrow _ _ _ _ _ _ Hctx Habi). }
    unfold verbs_get_ctx_op. unfold bind at 1. rewrite Hget. cbn [pbind continue].
    rewrite (proj2 (Z.eqb_neq _ _) Hv), (bind_arrow _ _ _ _ _ _ Hv Hsz). unfold offered.
    destruct (Z.ltb_spec sz (sizeof (Struct verbs_context) - offsetof verbs_context op)) as [Hlt|Hge].
    { exists 0. done. }
    specialize (Htable op Hop Hge). rewrite (bind_arrow _ _ _ _ _ _ Hv Htable).
    destruct (Z.eqb_spec (table op) 0) as [E|E].
    { exists 0. done. }
    exists vctx. split; [done|]. split; [done|]. intros args. unfold method, call_ptr.
    rewrite (bind_arrow _ _ _ _ _ _ Hv Htable). by rewrite (proj2 (Z.eqb_neq _ _) E).
Qed.

Lemma dispatch ctx off op args (missing : V Z) s :
  provider_context (cells s) ctx off -> op ∈ operations ->
  bind (verbs_get_ctx_op ctx op) (fun vctx => if vctx =? 0 then missing else method vctx op args) s =
    match off op with Some fn => invoke (Fn fn) args s | None => missing s end.
Proof.
  intros H Hop. destruct (get_ctx_op_spec ctx off op s H Hop) as (vctx & Hv & Ho).
  unfold bind. rewrite Hv. cbn [pbind continue]. destruct (off op) as [fn|].
  - destruct Ho as [Hne Ho]. by rewrite (proj2 (Z.eqb_neq _ _) Hne).
  - by rewrite Ho.
Qed.

(** ** The operations, as a table *)

(** An operation that goes through the new table: the type of its first argument
    when the context is found there, its entry, how many arguments it has, what
    it does when there is no such entry, and the function. *)
Record extended := {
  e_object : option fields; e_op : string; e_args : nat; e_missing : Z -> Z -> Z -> V Z;
  e_run : Z -> Z -> Z -> V Z }.

Definition extended_operations : list extended :=
  [ {| e_object := Some ibv_qp; e_op := "ibv_create_flow"; e_args := 2;
       e_missing _ _ _ := no_pointer; e_run a b _ := ibv_create_flow a b |};
    {| e_object := Some ibv_flow; e_op := "ibv_destroy_flow"; e_args := 1;
       e_missing _ _ _ := ret (- ENOSYS); e_run a _ _ := ibv_destroy_flow a |};
    {| e_object := None; e_op := "open_xrcd"; e_args := 2;
       e_missing _ _ _ := no_pointer; e_run a b _ := ibv_open_xrcd a b |};
    {| e_object := None; e_op := "create_cq_ex"; e_args := 2;
       e_missing _ _ _ := no_pointer; e_run a b _ := ibv_create_cq_ex a b |};
    {| e_object := Some ibv_cq; e_op := "modify_cq"; e_args := 2;
       e_missing _ _ _ := ret ENOSYS; e_run a b _ := ibv_modify_cq a b |};
    {| e_object := Some ibv_srq; e_op := "get_srq_num"; e_args := 2;
       e_missing _ _ _ := ret ENOSYS; e_run a b _ := ibv_get_srq_num a b |};
    {| e_object := Some ibv_srq; e_op := "post_srq_ops"; e_args := 3;
       e_missing _ b c := store c b ;! ret ENOSYS; e_run := ibv_post_srq_ops |};
    {| e_object := None; e_op := "alloc_td"; e_args := 2;
       e_missing _ _ _ := no_pointer; e_run a b _ := ibv_alloc_td a b |};
    {| e_object := Some ibv_td; e_op := "dealloc_td"; e_args := 1;
       e_missing _ _ _ := ret ENOSYS; e_run a _ _ := ibv_dealloc_td a |};
    {| e_object := None; e_op := "alloc_parent_domain"; e_args := 2;
       e_missing _ _ _ := no_pointer; e_run a b _ := ibv_alloc_parent_domain a b |};
    {| e_object := None; e_op := "query_rt_values"; e_args := 2;
       e_missing _ _ _ := ret ENOSYS; e_run a b _ := ibv_query_rt_values_ex a b |};
    {| e_object := None; e_op := "open_qp"; e_args := 2;
       e_missing _ _ _ := no_pointer; e_run a b _ := ibv_open_qp a b |};
    {| e_object := Some ibv_wq; e_op := "modify_wq"; e_args := 2;
       e_missing _ _ _ := ret ENOSYS; e_run a b _ := ibv_modify_wq a b |};
    {| e_object := Some ibv_wq; e_op := "destroy_wq"; e_args := 1;
       e_missing _ _ _ := ret ENOSYS; e_run a _ _ := ibv_destroy_wq a |};
    {| e_object := None; e_op := "create_rwq_ind_table"; e_args := 2;
       e_missing _ _ _ := no_pointer; e_run a b _ := ibv_create_rwq_ind_table a b |};
    {| e_object := Some ibv_rwq_ind_table; e_op := "destroy_rwq_ind_table"; e_args := 1;
       e_missing _ _ _ := ret ENOSYS; e_run a _ _ := ibv_destroy_rwq_ind_table a |} ].

(** The context an operation's first argument leads to. *)
Definition context_of (o : option fields) (p : Z) (m : gmap Z Z) : option Z :=
  match o with
  | None => Some p
  | Some fs => if p =? 0 then None else m !! (p + offsetof fs "context")
  end.

Lemma bind_context {A} fs p ctx (k : Z -> V A) s :
  context_of (Some fs) p (cells s) = Some ctx -> bind (arrow fs p "context") k s = k ctx s.
Proof.
  unfold context_of. destruct (Z.eqb_spec p 0); [done|]. by apply bind_arrow.
Qed.

Definition dispatched (e : extended) : Prop := forall a b c s ctx off,
  context_of (e_object e) a (cells s) = Some ctx -> provider_context (cells s) ctx off ->
  e_run e a b c s =
    match off (e_op e) with
    | Some fn => invoke (Fn fn) (take (e_args e) [a; b; c]) s
    | None => e_missing e a b c s
    end.

Lemma operations_in op : bool_decide (op ∈ operations) = true -> op ∈ operations.
Proof. apply bool_decide_eq_true_1. Qed.

Ltac prove_dispatched :=
  let Hc := fresh "Hc" in let Hp := fresh "Hp" in
  intros ??? ??? Hc Hp; cbn [e_object e_run e_op e_args e_missing take] in *;
  first [injection Hc as <-; apply dispatch
        |etransitivity; [apply (bind_context _ _ _ _ _ Hc)|apply dispatch]];
  first [exact Hp|apply operations_in; vm_compute; reflexivity].

Lemma extended_dispatched : Forall dispatched extended_operations.
Proof. repeat (constructor; [prove_dispatched|]). constructor. Qed.

(** The operations of the old table, and those of the object itself: the type of
    the object, the entry, the number of arguments, and the function. *)
Record direct := { d_object : fields; d_op : string; d_args : nat; d_run : Z -> Z -> Z -> V Z }.

Definition context_operations : list direct :=
  [ {| d_object := ibv_cq; d_op := "poll_cq"; d_args := 3; d_run := ibv_poll_cq |};
    {| d_object := ibv_cq; d_op := "req_notify_cq"; d_args := 2;
       d_run a b _ := ibv_req_notify_cq a b |};
    {| d_object := ibv_srq; d_op := "post_srq_recv"; d_args := 3; d_run := ibv_post_srq_recv |};
    {| d_object := ibv_qp; d_op := "post_send"; d_args := 3; d_run := ibv_post_send |};
    {| d_object := ibv_qp; d_op := "post_recv"; d_args := 3; d_run := ibv_post_recv |};
    {| d_object := ibv_mw; d_op := "dealloc_mw"; d_args := 1; d_run a _ _ := ibv_dealloc_mw a |} ].

Definition object_operations : list direct :=
  [ {| d_object := ibv_cq_ex; d_op := "start_poll"; d_args := 2; d_run a b _ := ibv_start_poll a b |};
    {| d_object := ibv_cq_ex; d_op := "next_poll"; d_args := 1; d_run a _ _ := ibv_next_poll a |};
    {| d_object := ibv_cq_ex; d_op := "end_poll"; d_args := 1; d_run a _ _ := ibv_end_poll a |};
    {| d_object := ibv_cq_ex; d_op := "read_opcode"; d_args := 1;
       d_run a _ _ := ibv_wc_read_opcode a |};
    {| d_object := ibv_cq_ex; d_op := "read_vendor_err"; d_args := 1;
       d_run a _ _ := ibv_wc_read_vendor_err a |};
    {| d_object := ibv_cq_ex; d_op := "read_byte_len"; d_args := 1;
       d_run a _ _ := ibv_wc_read_byte_len a |};
    {| d_object := ibv_cq_ex; d_op := "read_imm_data"; d_args := 1;
       d_run a _ _ := ibv_wc_read_imm_data a |};
    {| d_object := ibv_cq_ex; d_op := "read_imm_data"; d_args := 1;
       d_run a _ _ := ibv_wc_read_invalidated_rkey a |};
    {| d_object := ibv_cq_ex; d_op := "read_qp_num"; d_args := 1;
       d_run a _ _ := ibv_wc_read_qp_num a |};
    {| d_object := ibv_cq_ex; d_op := "read_src_qp"; d_args := 1;
       d_run a _ _ := ibv_wc_read_src_qp a |};
    {| d_object := ibv_cq_ex; d_op := "read_wc_flags"; d_args := 1;
       d_run a _ _ := ibv_wc_read_wc_flags a |};
    {| d_object := ibv_cq_ex; d_op := "read_slid"; d_args := 1; d_run a _ _ := ibv_wc_read_slid a |};
    {| d_object := ibv_cq_ex; d_op := "read_sl"; d_args := 1; d_run a _ _ := ibv_wc_read_sl a |};
    {| d_object := ibv_cq_ex; d_op := "read_dlid_path_bits"; d_args := 1;
       d_run a _ _ := ibv_wc_read_dlid_path_bits a |};
    {| d_object := ibv_cq_ex; d_op := "read_completion_ts"; d_args := 1;
       d_run a _ _ := ibv_wc_read_completion_ts a |};
    {| d_object := ibv_cq_ex; d_op := "read_completion_wallclock_ns"; d_args := 1;
       d_run a _ _ := ibv_wc_read_completion_wallclock_ns a |};
    {| d_object := ibv_cq_ex; d_op := "read_cvlan"; d_args := 1; d_run a _ _ := ibv_wc_read_cvlan a |};
    {| d_object := ibv_cq_ex; d_op := "read_flow_tag"; d_args := 1;
       d_run a _ _ := ibv_wc_read_flow_tag a |};
    {| d_object := ibv_cq_ex; d_op := "read_tm_info"; d_args := 2;
       d_run a b _ := ibv_wc_read_tm_info a b |};
    {| d_object := ibv_wq; d_op := "post_recv"; d_args := 3; d_run := ibv_post_wq_recv |} ].

(** Where the entry is. *)
Definition context_entry (d : direct) (p : Z) (m : gmap Z Z) : option Z :=
  match context_of (Some (d_object d)) p m with
  | Some 0 | None => None
  | Some ctx => m !! (ctx + offsetof ibv_context "ops" + offsetof ibv_context_ops (d_op d))
  end.

Definition object_entry (d : direct) (p : Z) (m : gmap Z Z) : option Z :=
  if p =? 0 then None else m !! (p + offsetof (d_object d) (d_op d)).

Lemma bind_context_op {A} fs p op ctx f (k : Z -> V A) s :
  context_of (Some fs) p (cells s) = Some ctx -> ctx <> 0 ->
  cells s !! (ctx + offsetof ibv_context "ops" + offsetof ibv_context_ops op) = Some f ->
  bind (arrow fs p "context") (fun context => bind (context_op context op) k) s = k f s.
Proof.
  intros Hp Hctx Hf. etransitivity; [apply (bind_context _ _ _ _ _ Hp)|].
  unfold context_op. rewrite (proj2 (Z.eqb_neq _ _) Hctx). by apply bind_load.
Qed.

Lemma context_entry_spec d p f s :
  context_entry d p (cells s) = Some f ->
  exists ctx, context_of (Some (d_object d)) p (cells s) = Some ctx /\ ctx <> 0 /\
    cells s !! (ctx + offsetof ibv_context "ops" + offsetof ibv_context_ops (d_op d)) = Some f.
Proof.
  unfold context_entry. destruct (context_of _ _ _) as [[|ctx|ctx]|]; try done; intros Hf; by eexists.
Qed.

Lemma context_operations_direct : Forall (fun d => forall a b c s f,
  context_entry d a (cells s) = Some f ->
  d_run d a b c s = call_ptr f (take (d_args d) [a; b; c]) s) context_operations.
Proof.
  repeat (constructor; [intros a b c s f (ctx & Hp & Hctx & Hf)%context_entry_spec;
    cbn [d_run d_object d_op d_args take] in *; 
    exact (bind_context_op _ _ _ _ _ (fun f => call_ptr f _) s Hp Hctx Hf)|]).
  constructor.
Qed.

Lemma object_operations_direct : Forall (fun d => forall a b c s f,
  object_entry d a (cells s) = Some f ->
  d_run d a b c s = call_ptr f (take (d_args d) [a; b; c]) s) object_operations.
Proof.
  repeat (constructor; [intros a b c s f Hf; unfold object_entry in Hf;
    destruct (Z.eqb_spec a 0) as [|Ha]; [done|]; cbn [d_run d_object d_op d_args take] in *;
    exact (bind_arrow _ _ _ _ (fun f => call_ptr f _) s Ha Hf)|]).
  constructor.
Qed.

(** ** The operations with a way back *)

(** The bits of a mask from [w] on. *)
Lemma land_high mask w k :
  0 <= w -> 0 <= k -> 0 <= mask < 2 ^ (w + k) ->
  Z.land mask (Z.shiftl (Z.ones k) w) = mask / 2 ^ w * 2 ^ w.
Proof.
  intros Hw Hk Hm. rewrite <- Z.shiftr_div_pow2, <- Z.shiftl_mul_pow2 by lia.
  apply Z.bits_inj'. intros i Hi. rewrite Z.land_spec. destruct (Z.ltb_spec i w) as [Hlt|Hge].
  - rewrite !Z.shiftl_spec_low by lia. apply andb_false_r.
  - rewrite !Z.shiftl_spec, Z.shiftr_spec by lia. replace (i - w + w) with i by lia.
    destruct (Z.ltb_spec i (w + k)) as [Hin|Hout].
    + rewrite Z.ones_spec_low by lia. apply andb_true_r.
    + by rewrite (testbit_high (w + k) mask) by lia.
Qed.

(** A shared receive queue that the old function can create. *)
Definition basic_srq (mask srq_type : Z) : bool :=
  (mask =? IBV_SRQ_INIT_ATTR_PD) ||
  (mask =? Z.lor IBV_SRQ_INIT_ATTR_PD IBV_SRQ_INIT_ATTR_TYPE) && (srq_type =? IBV_SRQT_BASIC).

Lemma other_bits mask :
  is_u 32 mask ->
  (Z.land mask (u32 (Z.lnot (Z.lor IBV_SRQ_INIT_ATTR_PD IBV_SRQ_INIT_ATTR_TYPE))) =? 0) = (mask <? 4).
Proof.
  intros Hm. unfold is_u in Hm.
  change (u32 (Z.lnot _)) with (Z.shiftl (Z.ones 30) 2).
  rewrite (land_high mask 2 30) by lia. change (2 ^ 2) with 4.
  pose proof (Z.div_mod mask 4). pose proof (Z.mod_pos_bound mask 4).
  destruct (Z.eqb_spec (mask / 4 * 4) 0), (Z.ltb_spec mask 4); lia.
Qed.

Lemma create_srq_ex_spec context attr mask srq_type pd off s :
  attr <> 0 -> is_u 32 mask ->
  cells s !! (attr + offsetof ibv_srq_init_attr_ex "comp_mask") = Some mask ->
  cells s !! (attr + offsetof ibv_srq_init_attr_ex "srq_type") = Some srq_type ->
  cells s !! (attr + offsetof ibv_srq_init_attr_ex "pd") = Some pd ->
  provider_context (cells s) context off ->
  ibv_create_srq_ex context attr s =
    if basic_srq mask srq_type then invoke (Lib "ibv_create_srq") [pd; attr] s
    else match off "create_srq_ex" with
         | Some fn => invoke (Fn fn) [context; attr] s
         | None => no_pointer s
         end.
Proof.
  intros Ha Hm Hmask Htype Hpd Hp. unfold ibv_create_srq_ex.
  rewrite (bind_arrow _ _ _ _ _ _ Ha Hmask), other_bits by done.
  match goal with |- bind _ ?k s = _ => set (rest := k) end.
  assert (Hold : rest true s = invoke (Lib "ibv_create_srq") [pd; attr] s)
    by exact (bind_arrow _ _ _ _ (fun pd => invoke (Lib "ibv_create_srq") [pd; attr]) s Ha Hpd).
  assert (Hnew : rest false s = match off "create_srq_ex" with
    | Some fn => invoke (Fn fn) [context; attr] s | None => no_pointer s end)
    by (apply dispatch; [exact Hp|apply operations_in; vm_compute; reflexivity]).
  destruct (Z.ltb_spec mask 4) as [Hlt|Hge]; cbn [negb].
  - assert (Hcase : mask = 0 \/ mask = 1 \/ mask = 2 \/ mask = 3) by (unfold is_u in Hm; lia).
    destruct Hcase as [-> | [-> | [-> | ->]]]; [exact Hnew|exact Hnew|exact Hold|].
    change (basic_srq 3 srq_type) with (srq_type =? IBV_SRQT_BASIC).
    assert (Hread : (let! srq_type := arrow ibv_srq_init_attr_ex attr "srq_type" in
      ret (srq_type =? IBV_SRQT_BASIC)) s = Ret (Done (srq_type =? IBV_SRQT_BASIC) s))
      by exact (bind_arrow _ _ _ _ (fun t => ret (t =? IBV_SRQT_BASIC)) s Ha Htype).
    cbn [Z.land Pos.land Z.eqb]. unfold bind at 1.
    change (Z.land 3 IBV_SRQ_INIT_ATTR_PD =? 0) with false.
    change (Z.land 3 IBV_SRQ_INIT_ATTR_TYPE =? 0) with false. cbv iota. rewrite Hread.
    cbn [pbind continue]. by destruct (srq_type =? IBV_SRQT_BASIC).
  - unfold basic_srq. rewrite (proj2 (Z.eqb_neq mask IBV_SRQ_INIT_ATTR_PD)) by
      (change IBV_SRQ_INIT_ATTR_PD with 2; lia).
    rewrite (proj2 (Z.eqb_neq mask (Z.lor _ _))) by
      (change (Z.lor IBV_SRQ_INIT_ATTR_PD IBV_SRQ_INIT_ATTR_TYPE) with 3; lia).
    exact Hnew.
Qed.

Lemma create_qp_ex_spec context attr mask pd off s :
  attr <> 0 ->
  cells s !! (attr + offsetof ibv_qp_init_attr_ex "comp_mask") = Some mask ->
  cells s !! (attr + offsetof ibv_qp_init_attr_ex "pd") = Some pd ->
  provider_context (cells s) context off ->
  ibv_create_qp_ex context attr s =
    if mask =? IBV_QP_INIT_ATTR_PD then invoke (Lib "ibv_create_qp") [pd; attr] s
    else match off "create_qp_ex" with
         | Some fn => invoke (Fn fn) [context; attr] s
         | None => no_pointer s
         end.
Proof.
  intros Ha Hmask Hpd Hp. unfold ibv_create_qp_ex. rewrite (bind_arrow _ _ _ _ _ _ Ha Hmask).
  destruct (mask =? IBV_QP_INIT_ATTR_PD).
  - exact (bind_arrow _ _ _ _ (fun pd => invoke (Lib "ibv_create_qp") [pd; attr]) s Ha Hpd).
  - apply dispatch; [exact Hp|apply operations_in; vm_compute; reflexivity].
Qed.

(** The memory after [memset], where it was there. *)
Definition zeroed (p : Z) (os : list Z) (m : gmap Z Z) : gmap Z Z :=
  foldl (fun m o => <[p + o := 0]> m) m os.

Definition mapped (p : Z) (os : list Z) (m : gmap Z Z) : bool :=
  forallb (fun o => bool_decide (is_Some (m !! (p + o)))) os.

Lemma mapped_insert p os m a v :
  is_Some (m !! a) -> mapped p os (<[a := v]> m) = mapped p os m.
Proof.
  intros Ha. unfold mapped. induction os as [|o os IH]; cbn [forallb]; [done|]. rewrite IH. f_equal.
  apply bool_decide_ext. destruct (decide (a = p + o)) as [->|Hne].
  - rewrite lookup_insert_eq. split; intros _; [done|by eexists].
  - by rewrite lookup_insert_ne.
Qed.

Lemma memset0_spec {A} p os (k : V A) s :
  bind (memset0 p os) (fun _ => k) s =
    if mapped p os (cells s) then k (set_cells (zeroed p os (cells s)) s)
    else Ret (Undef "invalid write").
Proof.
  revert s. induction os as [|o os IH]; intros s; [by destruct s|].
  assert (E : bind (memset0 p (o :: os)) (fun _ => k) s =
    bind (store (p + o) 0) (fun _ => bind (memset0 p os) (fun _ => k)) s).
  { cbn [memset0]. unfold bind. rewrite store_spec. by destruct (cells s !! (p + o)). }
  rewrite E. unfold bind at 1. rewrite store_spec.
  change (mapped p (o :: os) (cells s)) with
    (bool_decide (is_Some (cells s !! (p + o))) && mapped p os (cells s)).
  destruct (cells s !! (p + o)) as [v|] eqn:Hv; [|done].
  rewrite bool_decide_eq_true_2 by done. cbn [pbind continue andb].
  rewrite IH. cbn [cells set_cells]. by rewrite mapped_insert by done.
Qed.

(** What the label [legacy] does: the attributes are zero when the old function
    fills in those it knows. *)
Definition legacy_query (context attr : Z) (s : mstate) : prog vcall (outcome mstate Z) :=
  let os := scalars 0 (Struct ibv_device_attr_ex) in
  if mapped attr os (cells s)
  then invoke (Lib "ibv_query_device") [context; attr] (set_cells (zeroed attr os (cells s)) s)
  else Ret (Undef "invalid write").

Lemma query_device_legacy_spec context attr s :
  query_device_legacy context attr s = legacy_query context attr s.
Proof.
  unfold query_device_legacy, legacy_query. rewrite memset0_spec.
  replace (attr + offsetof ibv_device_attr_ex "orig_attr") with attr; [done|].
  change (offsetof ibv_device_attr_ex "orig_attr") with 0. lia.
Qed.

End providers.

(** *** Keys and queue pair types *)

Lemma ibv_inc_rkey_spec rkey :
  is_u 32 rkey -> ibv_inc_rkey rkey = rkey / 256 * 256 + (rkey + 1) mod 256.
Proof.
  intros Hr. unfold is_u in Hr. unfold ibv_inc_rkey.
  assert (Etag : u8 (Z.land (u32 (rkey + 1)) 255) = (rkey + 1) mod 256).
  { change 255 with (Z.ones 8). rewrite Z.land_ones by lia. unfold u8, u32.
    rewrite Z.mod_mod by lia. apply Z.mod_mod_divide. by exists (2 ^ 24). }
  rewrite Etag. change (u32 (Z.lnot 255)) with (Z.shiftl (Z.ones 24) 8).
  rewrite (land_high rkey 8 24) by lia. rewrite <- Z.shiftl_mul_pow2 by lia.
  rewrite Z.lor_comm, lor_shift_add by (try apply Z.mod_pos_bound; lia).
  change (2 ^ 8) with 256. lia.
Qed.

(** *** Examples *)

(** A provider at 10000 whose table has [sz] = 400 bytes: from [ABI_placeholder1]
    on, and so [open_qp] but not [ibv_create_flow]; and a queue pair of it. *)
#[local] Existing Instance glibc.

Definition example_table (op : string) : Z := 500 + offsetof verbs_context op / 8.

Definition example_cells : gmap Z Z :=
  list_to_map ([(10320, VERBS_ABI_IS_EXTENDED); (9992, 400); (20000, 10000)] ++
    ((fun i => (9792 + 8 * i, 500 + i)) <$> seqZ 17 7)).

Definition example_state : mstate := {| cells := example_cells; errno := 0 |}.

Lemma example_provider : provider_context example_cells 10000 (offered 400 example_table).
Proof.
  apply new_provider; [done|vm_compute; done|vm_compute; done|vm_compute; done|].
  assert (H : Forall (fun op => 536 - offsetof verbs_context op <= 400 ->
    example_cells !! (10000 - offsetof verbs_context "context" + offsetof verbs_context op) =
      Some (example_table op)) operations).
  { unfold operations. repeat (constructor; [vm_compute; intros H; first [done|by destruct H]|]). constructor. }
  intros op Hop. rewrite Forall_forall in H. by apply H.
Qed.

Lemma example_offers :
  offered 400 example_table "open_qp" = Some 518 /\ offered 400 example_table "ibv_create_flow" = None.
Proof. vm_compute. done. Qed.

(** ** Properties *)

(** C8: every operation of the new table, from [ibv_create_flow] to
    [ibv_destroy_rwq_ind_table], for a context of any provider: an older one
    without a table, one whose table is shorter, or one that left the entry null.
    When the provider offers the operation, the inline function is one call of
    that entry, with its own arguments, and its result; otherwise it calls
    nothing and reports ENOSYS.  Nothing outside the part of the table the
    provider has is read. *)
Theorem extended_operations_correct {PT : Pthread} e a b c s ctx off :
  e ∈ extended_operations -> context_of (e_object e) a (cells s) = Some ctx ->
  provider_context (cells s) ctx off ->
  e_run e a b c s =
    match off (e_op e) with
    | Some fn => invoke (Fn fn) (take (e_args e) [a; b; c]) s
    | None => e_missing e a b c s
    end.
Proof.
  intros He. revert a b c s ctx off. exact (proj1 (Forall_forall _ _) extended_dispatched e He).
Qed.

Lemma extended_operations_correct_witness :
  ibv_open_qp 10000 30000 example_state = invoke (Fn 518) [10000; 30000] example_state /\
  ibv_create_flow 20000 30000 example_state = no_pointer example_state.
Proof.
  destruct example_offers as [Eqp Eflow]. split.
  - pose proof (extended_operations_correct
      {| e_object := None; e_op := "open_qp"; e_args := 2; e_missing _ _ _ := no_pointer;
         e_run a b _ := ibv_open_qp a b |} 10000 30000 0 example_state 10000
      (offered 400 example_table)) as H.
    cbn [e_op] in H. rewrite Eqp in H. apply H.
    + do 11 apply list_elem_of_further. apply list_elem_of_here.
    + reflexivity.
    + exact example_provider.
  - pose proof (extended_operations_correct
      {| e_object := Some ibv_qp; e_op := "ibv_create_flow"; e_args := 2;
         e_missing _ _ _ := no_pointer; e_run a b _ := ibv_create_flow a b |} 20000 30000 0
      example_state 10000 (offered 400 example_table)) as H.
    cbn [e_op] in H. rewrite Eflow in H. apply H.
    + apply list_elem_of_here.
    + vm_compute. reflexivity.
    + exact example_provider.
Defined.

(** The operations of the old table (among them [ibv_poll_cq],
    [ibv_post_send] and [ibv_post_recv], which the RDMA programs use) and those
    in an object ([ibv_start_poll], ..., [ibv_post_wq_recv]): where the entry can
    be read, the function is one call of it with its own arguments; a null entry
    is called all the same, which is undefined. *)
Theorem table_operations_correct {PT : Pthread} d a b c s f :
  (d ∈ context_operations /\ context_entry d a (cells s) = Some f) \/
  (d ∈ object_operations /\ object_entry d a (cells s) = Some f) ->
  d_run d a b c s =
    if f =? 0 then Ret (Undef "call of a null pointer")
    else invoke (Fn f) (take (d_args d) [a; b; c]) s.
Proof.
  intros H. transitivity (call_ptr f (take (d_args d) [a; b; c]) s).
  - destruct H as [[Hd Hf]|[Hd Hf]].
    + by apply (proj1 (Forall_forall _ _) context_operations_direct d Hd).
    + by apply (proj1 (Forall_forall _ _) object_operations_direct d Hd).
  - unfold call_ptr. by destruct (f =? 0).
Qed.

(** The queue pair's provider offers [post_send] at 77. *)
Definition example_post : mstate :=
  {| cells := <[10000 + offsetof ibv_context "ops" + offsetof ibv_context_ops "post_send" := 77]>
                example_cells; errno := 0 |}.

Lemma table_operations_correct_witness :
  ibv_post_send 20000 30000 40000 example_post =
    invoke (Fn 77) [20000; 30000; 40000] example_post.
Proof.
  apply (table_operations_correct
    {| d_object := ibv_qp; d_op := "post_send"; d_args := 3; d_run := ibv_post_send |}
    20000 30000 40000 example_post 77).
  left. split.
  - do 3 apply list_elem_of_further. apply list_elem_of_here.
  - vm_compute. reflexivity.
Defined.

(** [ibv_create_srq_ex] and [ibv_create_qp_ex]: attributes that say no more
    than a protection domain (for the queue also that it is a basic one) go to
    the library's old function, with that domain and the same attributes, on any
    provider; all others go to the provider, or fail with ENOSYS when it has no
    such operation. *)
Theorem create_ex_correct {PT : Pthread} context attr mask srq_type pd off s :
  attr <> 0 -> is_u 32 mask -> provider_context (cells s) context off ->
  (cells s !! (attr + offsetof ibv_srq_init_attr_ex "comp_mask") = Some mask ->
   cells s !! (attr + offsetof ibv_srq_init_attr_ex "srq_type") = Some srq_type ->
   cells s !! (attr + offsetof ibv_srq_init_attr_ex "pd") = Some pd ->
   ibv_create_srq_ex context attr s =
     if basic_srq mask srq_type then invoke (Lib "ibv_create_srq") [pd; attr] s
     else match off "create_srq_ex" with
          | Some fn => invoke (Fn fn) [context; attr] s
          | None => Ret (Done 0 (set_errno ENOSYS s))
          end) /\
  (cells s !! (attr + offsetof ibv_qp_init_attr_ex "comp_mask") = Some mask ->
   cells s !! (attr + offsetof ibv_qp_init_attr_ex "pd") = Some pd ->
   ibv_create_qp_ex context attr s =
     if mask =? IBV_QP_INIT_ATTR_PD then invoke (Lib "ibv_create_qp") [pd; attr] s
     else match off "create_qp_ex" with
          | Some fn => invoke (Fn fn) [context; attr] s
          | None => Ret (Done 0 (set_errno ENOSYS s))
          end).
Proof.
  intros Ha Hm Hp. split; intros.
  - by apply create_srq_ex_spec.
  - by apply create_qp_ex_spec.
Qed.

(** Attributes at 30000, with the mask [PD] and the domain 600; the context is
    that of an old provider. *)
Definition example_attr : mstate :=
  {| cells := list_to_map
       [(10320, 0); (30000 + offsetof ibv_srq_init_attr_ex "comp_mask", 2);
        (30000 + offsetof ibv_srq_init_attr_ex "srq_type", 0);
        (30000 + offsetof ibv_srq_init_attr_ex "pd", 600)]; errno := 0 |}.

Lemma create_ex_correct_witness :
  ibv_create_srq_ex 10000 30000 example_attr = invoke (Lib "ibv_create_srq") [600; 30000] example_attr.
Proof.
  apply (create_ex_correct 10000 30000 2 0 600 (fun _ => None) example_attr).
  - discriminate.
  - unfold is_u. lia.
  - by apply (old_provider _ _ 0).
  - vm_compute. reflexivity.
  - vm_compute. reflexivity.
  - vm_compute. reflexivity.
Defined.

(** [ibv_query_device_ex]: when the provider has an extended query, it is
    called once with the size of the structure, and unless it answers ENOSYS its
    result is returned; in all other cases the old query of the library fills in a
    structure whose scalars are all zero. *)
Theorem ibv_query_device_ex_correct {PT : Pthread} context input attr off s :
  provider_context (cells s) context off ->
  match off "query_device_ex" with
  | Some fn => exists k,
      ibv_query_device_ex context input attr s =
        Vis (Invoke (Fn fn) [context; input; attr; sizeof (Struct ibv_device_attr_ex)] s) k /\
      forall r s', k (r, s') = if r =? ENOSYS then legacy_query context attr s' else Ret (Done r s')
  | None => ibv_query_device_ex context input attr s = legacy_query context attr s
  end.
Proof.
  intros Hp. assert (Hop : "query_device_ex" ∈ operations) by (apply operations_in; vm_compute; done).
  destruct (get_ctx_op_spec context off _ s Hp Hop) as (vctx & Hv & Ho).
  unfold ibv_query_device_ex. destruct (off "query_device_ex") as [fn|]; unfold bind; rewrite Hv;
    cbn [pbind continue].
  - destruct Ho as [Hne Ho]. rewrite (proj2 (Z.eqb_neq _ _) Hne), Ho.
    eexists. split; [reflexivity|]. intros r s'. cbn [pbind continue fst snd].
    destruct (r =? ENOSYS); [apply query_device_legacy_spec|done].
  - subst vctx. apply query_device_legacy_spec.
Qed.

Lemma ibv_query_device_ex_correct_witness :
  ibv_query_device_ex 10000 0 30000 example_attr = Ret (Undef "invalid write").
Proof.
  transitivity (legacy_query 10000 30000 example_attr).
  - apply (ibv_query_device_ex_correct 10000 0 30000 (fun _ => None) example_attr).
    by apply (old_provider _ _ 0).
  - vm_compute. reflexivity.
Defined.

(** C36: [ibv_inc_rkey], for every key: the tag, the lowest eight bits, is
    incremented modulo 256 and the index above it kept.  The result is a key, and
    256 increments lead back to the first. *)
Theorem ibv_inc_rkey_correct rkey :
  is_u 32 rkey ->
  ibv_inc_rkey rkey = rkey / 256 * 256 + (rkey + 1) mod 256 /\ is_u 32 (ibv_inc_rkey rkey) /\
  Nat.iter 256 ibv_inc_rkey rkey = rkey.
Proof.
  intros Hr. pose proof Hr as Hr'. unfold is_u in Hr'.
  assert (Hstep : forall k, is_u 32 k -> is_u 32 (ibv_inc_rkey k)).
  { intros k Hk. rewrite ibv_inc_rkey_spec by done. unfold is_u in *.
    pose proof (Z.div_mod k 256). pose proof (Z.mod_pos_bound k 256).
    pose proof (Z.mod_pos_bound (k + 1) 256).
    assert (k / 256 < 2 ^ 24) by (apply Z.div_lt_upper_bound; lia).
    assert (0 <= k / 256) by (apply Z.div_pos; lia). lia. }
  split; [by apply ibv_inc_rkey_spec|]. split; [by apply Hstep|].
  assert (Hiter : forall n, is_u 32 (Nat.iter n ibv_inc_rkey rkey) /\
    Nat.iter n ibv_inc_rkey rkey = rkey / 256 * 256 + (rkey + Z.of_nat n) mod 256).
  { induction n as [|n [Hn IH]].
    - split; [done|]. change (Nat.iter 0 ibv_inc_rkey rkey) with rkey. replace (rkey + Z.of_nat 0) with rkey by lia.
      rewrite Z.mul_comm. by apply Z.div_mod.
    - change (Nat.iter (S n) ibv_inc_rkey rkey) with (ibv_inc_rkey (Nat.iter n ibv_inc_rkey rkey)).
      split; [by apply Hstep|]. rewrite ibv_inc_rkey_spec by done. rewrite IH.
      pose proof (Z.mod_pos_bound (rkey + Z.of_nat n) 256).
      assert (Ediv : (rkey / 256 * 256 + (rkey + Z.of_nat n) mod 256) / 256 = rkey / 256).
      { rewrite Z.add_comm, Z.div_add by lia. rewrite Z.div_small by lia. done. }
      rewrite Ediv. f_equal. set (x := rkey + Z.of_nat n) in *.
      replace (rkey / 256 * 256 + x mod 256 + 1) with (x mod 256 + 1 + rkey / 256 * 256) by lia.
      rewrite Z.mod_add, Z.add_mod_idemp_l by lia. f_equal. lia. }
  rewrite (proj2 (Hiter 256%nat)). change (Z.of_nat 256) with (1 * 256).
  rewrite Z.mod_add by lia. rewrite Z.mul_comm. symmetry. by apply Z.div_mod.
Qed.

Lemma ibv_inc_rkey_correct_witness : Nat.iter 256 ibv_inc_rkey 1023 = 1023.
Proof. apply (ibv_inc_rkey_correct 1023). unfold is_u. lia. Defined.

(** [ibv_close_xrcd] does not ask whether the provider has the operation: on a
    provider without a table it follows a null pointer. *)
Theorem ibv_close_xrcd_undefined {PT : Pthread} xrcd ctx abi s :
  xrcd <> 0 -> ctx <> 0 -> cells s !! (xrcd + offsetof ibv_xrcd "context") = Some ctx ->
  cells s !! (ctx + offsetof ibv_context "abi_compat") = Some abi ->
  abi <> VERBS_ABI_IS_EXTENDED ->
  ibv_close_xrcd xrcd s = Ret (Undef "null pointer").
Proof.
  intros Hx Hctx Hc Ha Hold. unfold ibv_close_xrcd. rewrite (bind_arrow _ _ _ _ _ _ Hx Hc).
  unfold bind at 1, verbs_get_ctx. rewrite (bind_arrow _ _ _ _ _ _ Hctx Ha).
  by rewrite (proj2 (Z.eqb_neq _ _) Hold).
Qed.

(** [ibv_is_qpt_supported] is the bit of the type in the capabilities, for all
    types but IBV_QPT_DRIVER, whose 255 is more than an int can be shifted by. *)
Theorem ibv_is_qpt_supported_correct caps t :
  is_u 32 caps ->
  ibv_is_qpt_supported caps (ibv_qp_type_val t) =
    match t with
    | Verbs.IBV_QPT_DRIVER => None
    | _ => Some (if Z.testbit caps (ibv_qp_type_val t) then 1 else 0)
    end.
Proof.
  intros Hc.
  assert (Hbit : forall i, 0 <= i -> (Z.land caps (Z.shiftl 1 i) =? 0) = negb (Z.testbit caps i)).
  { intros i Hi. destruct (Z.testbit caps i) eqn:E.
    - apply Z.eqb_neq. intros H0. apply (f_equal (fun x => Z.testbit x i)) in H0.
      rewrite Z.land_spec, E, Z.shiftl_spec, Z.sub_diag, Z.bits_0 in H0 by done. done.
    - apply Z.eqb_eq, Z.bits_inj'. intros j Hj. rewrite Z.land_spec, Z.bits_0, Z.shiftl_1_l.
      destruct (decide (i = j)) as [->|Hne]; [by rewrite E|].
      rewrite Z.pow2_bits_false by done. apply andb_false_r. }
  unfold ibv_is_qpt_supported. destruct t; try done;
    cbn [ibv_qp_type_val Z.leb Z.compare Pos.compare Pos.compare_cont]; rewrite Hbit by lia;
    by destruct (Z.testbit caps _).
Qed.

Lemma ibv_is_qpt_supported_correct_witness :
  ibv_is_qpt_supported 16 (ibv_qp_type_val Verbs.IBV_QPT_UD) = Some 1.
Proof. apply (ibv_is_qpt_supported_correct 16 Verbs.IBV_QPT_UD). unfold is_u. lia. Defined.
