(* ===== verification/VerbsEnums.v ===== *)
(** verbs.h's enumerations.

    An enumeration is its list of enumerators as written: some have a value, the
    others follow the one before.  Many are masks: their members are combined with
    [|] and tested with [&], and the last, reserved member is where the next
    version of the header continues. *)
From S2P Require Import Prelude CInt.
From S2P Require Verbs VerbsTypes VerbsDispatch.
Local Open Scope Z_scope.
Local Open Scope string_scope.

(** ** Enumerations *)

Abbreviation enumeration := (list (string * option Z)).

Local Notation "n ::= v" := (n, Some v) (at level 70).
Local Notation "'next' n" := (n, None) (at level 10).

(** The enumerators with their values: without one, the value of the enumerator
    before plus one, starting at zero. *)
Fixpoint values_from (start : Z) (e : enumeration) : list (string * Z) :=
  match e with
  | [] => []
  | (n, v) :: e => let v := default start v in (n, v) :: values_from (v + 1) e
  end.
Definition values (e : enumeration) : list (string * Z) := values_from 0 e.

Definition value (e : enumeration) (n : string) : Z :=
  from_option (fun x => x.2.2) (-1) (list_find (fun x => x.1 = n) (values e)).

(** [a | b | ...] *)
Definition flags (e : enumeration) (ns : list string) : Z := foldr (fun n m => Z.lor (value e n) m) 0 ns.

Definition bit (n : Z) : Z := Z.shiftl 1 n.

(** ** The header's *)

Definition ibv_node_type : enumeration :=
  ["IBV_NODE_UNKNOWN" ::= (-1); "IBV_NODE_CA" ::= 1; next "IBV_NODE_SWITCH";
   next "IBV_NODE_ROUTER"; next "IBV_NODE_RNIC"; next "IBV_NODE_USNIC";
   next "IBV_NODE_USNIC_UDP"].
Definition ibv_transport_type : enumeration :=
  ["IBV_TRANSPORT_UNKNOWN" ::= (-1); "IBV_TRANSPORT_IB" ::= 0; next "IBV_TRANSPORT_IWARP";
   next "IBV_TRANSPORT_USNIC"; next "IBV_TRANSPORT_USNIC_UDP"].
Definition ibv_device_cap_flags : enumeration :=
  ["IBV_DEVICE_RESIZE_MAX_WR" ::= 1; "IBV_DEVICE_BAD_PKEY_CNTR" ::= bit 1;
   "IBV_DEVICE_BAD_QKEY_CNTR" ::= bit 2; "IBV_DEVICE_RAW_MULTI" ::= bit 3;
   "IBV_DEVICE_AUTO_PATH_MIG" ::= bit 4; "IBV_DEVICE_CHANGE_PHY_PORT" ::= bit 5;
   "IBV_DEVICE_UD_AV_PORT_ENFORCE" ::= bit 6; "IBV_DEVICE_CURR_QP_STATE_MOD" ::= bit 7;
   "IBV_DEVICE_SHUTDOWN_PORT" ::= bit 8; "IBV_DEVICE_INIT_TYPE" ::= bit 9;
   "IBV_DEVICE_PORT_ACTIVE_EVENT" ::= bit 10; "IBV_DEVICE_SYS_IMAGE_GUID" ::= bit 11;
   "IBV_DEVICE_RC_RNR_NAK_GEN" ::= bit 12; "IBV_DEVICE_SRQ_RESIZE" ::= bit 13;
   "IBV_DEVICE_N_NOTIFY_CQ" ::= bit 14; "IBV_DEVICE_MEM_WINDOW" ::= bit 17;
   "IBV_DEVICE_UD_IP_CSUM" ::= bit 18; "IBV_DEVICE_XRC" ::= bit 20;
   "IBV_DEVICE_MEM_MGT_EXTENSIONS" ::= bit 21; "IBV_DEVICE_MEM_WINDOW_TYPE_2A" ::= bit 23;
   "IBV_DEVICE_MEM_WINDOW_TYPE_2B" ::= bit 24; "IBV_DEVICE_RC_IP_CSUM" ::= bit 25;
   "IBV_DEVICE_RAW_IP_CSUM" ::= bit 26; "IBV_DEVICE_MANAGED_FLOW_STEERING" ::= bit 29].
(** What does not fit that enumeration's four bytes. *)
Definition IBV_DEVICE_RAW_SCATTER_FCS : Z := bit 34.
Definition IBV_DEVICE_PCI_WRITE_END_PADDING : Z := bit 36.
Definition ibv_atomic_cap : enumeration :=
  [next "IBV_ATOMIC_NONE"; next "IBV_ATOMIC_HCA"; next "IBV_ATOMIC_GLOB"].
Definition ibv_odp_transport_cap_bits : enumeration :=
  ["IBV_ODP_SUPPORT_SEND" ::= bit 0; "IBV_ODP_SUPPORT_RECV" ::= bit 1;
   "IBV_ODP_SUPPORT_WRITE" ::= bit 2; "IBV_ODP_SUPPORT_READ" ::= bit 3;
   "IBV_ODP_SUPPORT_ATOMIC" ::= bit 4].
Definition ibv_odp_general_caps : enumeration :=
  ["IBV_ODP_SUPPORT" ::= bit 0].
Definition ibv_rx_hash_function_flags : enumeration :=
  ["IBV_RX_HASH_FUNC_TOEPLITZ" ::= bit 0].
Definition ibv_rx_hash_fields : enumeration :=
  ["IBV_RX_HASH_SRC_IPV4" ::= bit 0; "IBV_RX_HASH_DST_IPV4" ::= bit 1;
   "IBV_RX_HASH_SRC_IPV6" ::= bit 2; "IBV_RX_HASH_DST_IPV6" ::= bit 3;
   "IBV_RX_HASH_SRC_PORT_TCP" ::= bit 4; "IBV_RX_HASH_DST_PORT_TCP" ::= bit 5;
   "IBV_RX_HASH_SRC_PORT_UDP" ::= bit 6; "IBV_RX_HASH_DST_PORT_UDP" ::= bit 7;
   "IBV_RX_HASH_INNER" ::= bit 31].
Definition ibv_raw_packet_caps : enumeration :=
  ["IBV_RAW_PACKET_CAP_CVLAN_STRIPPING" ::= bit 0; "IBV_RAW_PACKET_CAP_SCATTER_FCS" ::= bit 1;
   "IBV_RAW_PACKET_CAP_IP_CSUM" ::= bit 2; "IBV_RAW_PACKET_CAP_DELAY_DROP" ::= bit 3].
Definition ibv_tm_cap_flags : enumeration :=
  ["IBV_TM_CAP_RC" ::= bit 0].
Definition ibv_mtu_enum : enumeration :=
  ["IBV_MTU_256" ::= 1; "IBV_MTU_512" ::= 2; "IBV_MTU_1024" ::= 3; "IBV_MTU_2048" ::= 4;
   "IBV_MTU_4096" ::= 5].
Definition ibv_port_state : enumeration :=
  ["IBV_PORT_NOP" ::= 0; "IBV_PORT_DOWN" ::= 1; "IBV_PORT_INIT" ::= 2; "IBV_PORT_ARMED" ::= 3;
   "IBV_PORT_ACTIVE" ::= 4; "IBV_PORT_ACTIVE_DEFER" ::= 5].
Definition ibv_link_layer : enumeration :=
  [next "IBV_LINK_LAYER_UNSPECIFIED"; next "IBV_LINK_LAYER_INFINIBAND";
   next "IBV_LINK_LAYER_ETHERNET"].
Definition ibv_port_cap_flags : enumeration :=
  ["IBV_PORT_SM" ::= bit 1; "IBV_PORT_NOTICE_SUP" ::= bit 2; "IBV_PORT_TRAP_SUP" ::= bit 3;
   "IBV_PORT_OPT_IPD_SUP" ::= bit 4; "IBV_PORT_AUTO_MIGR_SUP" ::= bit 5;
   "IBV_PORT_SL_MAP_SUP" ::= bit 6; "IBV_PORT_MKEY_NVRAM" ::= bit 7;
   "IBV_PORT_PKEY_NVRAM" ::= bit 8; "IBV_PORT_LED_INFO_SUP" ::= bit 9;
   "IBV_PORT_SYS_IMAGE_GUID_SUP" ::= bit 11; "IBV_PORT_PKEY_SW_EXT_PORT_TRAP_SUP" ::= bit 12;
   "IBV_PORT_EXTENDED_SPEEDS_SUP" ::= bit 14; "IBV_PORT_CM_SUP" ::= bit 16;
   "IBV_PORT_SNMP_TUNNEL_SUP" ::= bit 17; "IBV_PORT_REINIT_SUP" ::= bit 18;
   "IBV_PORT_DEVICE_MGMT_SUP" ::= bit 19; "IBV_PORT_VENDOR_CLASS_SUP" ::= bit 20;
   "IBV_PORT_DR_NOTICE_SUP" ::= bit 21; "IBV_PORT_CAP_MASK_NOTICE_SUP" ::= bit 22;
   "IBV_PORT_BOOT_MGMT_SUP" ::= bit 23; "IBV_PORT_LINK_LATENCY_SUP" ::= bit 24;
   "IBV_PORT_CLIENT_REG_SUP" ::= bit 25; "IBV_PORT_IP_BASED_GIDS" ::= bit 26].
Definition ibv_event_type : enumeration :=
  [next "IBV_EVENT_CQ_ERR"; next "IBV_EVENT_QP_FATAL"; next "IBV_EVENT_QP_REQ_ERR";
   next "IBV_EVENT_QP_ACCESS_ERR"; next "IBV_EVENT_COMM_EST"; next "IBV_EVENT_SQ_DRAINED";
   next "IBV_EVENT_PATH_MIG"; next "IBV_EVENT_PATH_MIG_ERR"; next "IBV_EVENT_DEVICE_FATAL";
   next "IBV_EVENT_PORT_ACTIVE"; next "IBV_EVENT_PORT_ERR"; next "IBV_EVENT_LID_CHANGE";
   next "IBV_EVENT_PKEY_CHANGE"; next "IBV_EVENT_SM_CHANGE"; next "IBV_EVENT_SRQ_ERR";
   next "IBV_EVENT_SRQ_LIMIT_REACHED"; next "IBV_EVENT_QP_LAST_WQE_REACHED";
   next "IBV_EVENT_CLIENT_REREGISTER"; next "IBV_EVENT_GID_CHANGE"; next "IBV_EVENT_WQ_FATAL"].
Definition ibv_wc_status_enum : enumeration :=
  [next "IBV_WC_SUCCESS"; next "IBV_WC_LOC_LEN_ERR"; next "IBV_WC_LOC_QP_OP_ERR";
   next "IBV_WC_LOC_EEC_OP_ERR"; next "IBV_WC_LOC_PROT_ERR"; next "IBV_WC_WR_FLUSH_ERR";
   next "IBV_WC_MW_BIND_ERR"; next "IBV_WC_BAD_RESP_ERR"; next "IBV_WC_LOC_ACCESS_ERR";
   next "IBV_WC_REM_INV_REQ_ERR"; next "IBV_WC_REM_ACCESS_ERR"; next "IBV_WC_REM_OP_ERR";
   next "IBV_WC_RETRY_EXC_ERR"; next "IBV_WC_RNR_RETRY_EXC_ERR"; next "IBV_WC_LOC_RDD_VIOL_ERR";
   next "IBV_WC_REM_INV_RD_REQ_ERR"; next "IBV_WC_REM_ABORT_ERR"; next "IBV_WC_INV_EECN_ERR";
   next "IBV_WC_INV_EEC_STATE_ERR"; next "IBV_WC_FATAL_ERR"; next "IBV_WC_RESP_TIMEOUT_ERR";
   next "IBV_WC_GENERAL_ERR"; next "IBV_WC_TM_ERR"; next "IBV_WC_TM_RNDV_INCOMPLETE"].
Definition ibv_wc_opcode : enumeration :=
  [next "IBV_WC_SEND"; next "IBV_WC_RDMA_WRITE"; next "IBV_WC_RDMA_READ";
   next "IBV_WC_COMP_SWAP"; next "IBV_WC_FETCH_ADD"; next "IBV_WC_BIND_MW";
   next "IBV_WC_LOCAL_INV"; next "IBV_WC_TSO"; "IBV_WC_RECV" ::= bit 7;
   next "IBV_WC_RECV_RDMA_WITH_IMM"; next "IBV_WC_TM_ADD"; next "IBV_WC_TM_DEL";
   next "IBV_WC_TM_SYNC"; next "IBV_WC_TM_RECV"; next "IBV_WC_TM_NO_TAG"].
Definition ibv_wc_ip_csum_ok_shift : enumeration :=
  ["IBV_WC_IP_CSUM_OK_SHIFT" ::= 2].
Definition ibv_create_cq_wc_flags : enumeration :=
  ["IBV_WC_EX_WITH_BYTE_LEN" ::= bit 0; "IBV_WC_EX_WITH_IMM" ::= bit 1;
   "IBV_WC_EX_WITH_QP_NUM" ::= bit 2; "IBV_WC_EX_WITH_SRC_QP" ::= bit 3;
   "IBV_WC_EX_WITH_SLID" ::= bit 4; "IBV_WC_EX_WITH_SL" ::= bit 5;
   "IBV_WC_EX_WITH_DLID_PATH_BITS" ::= bit 6; "IBV_WC_EX_WITH_COMPLETION_TIMESTAMP" ::= bit 7;
   "IBV_WC_EX_WITH_CVLAN" ::= bit 8; "IBV_WC_EX_WITH_FLOW_TAG" ::= bit 9;
   "IBV_WC_EX_WITH_TM_INFO" ::= bit 10;
   "IBV_WC_EX_WITH_COMPLETION_TIMESTAMP_WALLCLOCK" ::= bit 11].
Definition ibv_wc_standard_flags : enumeration :=
  ["IBV_WC_STANDARD_FLAGS" ::= flags ibv_create_cq_wc_flags
     ["IBV_WC_EX_WITH_BYTE_LEN"; "IBV_WC_EX_WITH_IMM"; "IBV_WC_EX_WITH_QP_NUM";
      "IBV_WC_EX_WITH_SRC_QP"; "IBV_WC_EX_WITH_SLID"; "IBV_WC_EX_WITH_SL";
      "IBV_WC_EX_WITH_DLID_PATH_BITS"]].
Definition ibv_create_cq_sup_wc_flags : enumeration :=
  ["IBV_CREATE_CQ_SUP_WC_FLAGS" ::= Z.lor (value ibv_wc_standard_flags "IBV_WC_STANDARD_FLAGS")
     (flags ibv_create_cq_wc_flags
       ["IBV_WC_EX_WITH_COMPLETION_TIMESTAMP"; "IBV_WC_EX_WITH_CVLAN";
        "IBV_WC_EX_WITH_FLOW_TAG"; "IBV_WC_EX_WITH_TM_INFO";
        "IBV_WC_EX_WITH_COMPLETION_TIMESTAMP_WALLCLOCK"])].
Definition ibv_wc_flags : enumeration :=
  ["IBV_WC_GRH" ::= bit 0; "IBV_WC_WITH_IMM" ::= bit 1;
   "IBV_WC_IP_CSUM_OK" ::= bit (value ibv_wc_ip_csum_ok_shift "IBV_WC_IP_CSUM_OK_SHIFT"); "IBV_WC_WITH_INV" ::= bit 3;
   "IBV_WC_TM_SYNC_REQ" ::= bit 4; "IBV_WC_TM_MATCH" ::= bit 5; "IBV_WC_TM_DATA_VALID" ::= bit 6].
Definition ibv_access_flags : enumeration :=
  ["IBV_ACCESS_LOCAL_WRITE" ::= 1; "IBV_ACCESS_REMOTE_WRITE" ::= bit 1;
   "IBV_ACCESS_REMOTE_READ" ::= bit 2; "IBV_ACCESS_REMOTE_ATOMIC" ::= bit 3;
   "IBV_ACCESS_MW_BIND" ::= bit 4; "IBV_ACCESS_ZERO_BASED" ::= bit 5;
   "IBV_ACCESS_ON_DEMAND" ::= bit 6].
Definition ibv_xrcd_init_attr_mask : enumeration :=
  ["IBV_XRCD_INIT_ATTR_FD" ::= bit 0; "IBV_XRCD_INIT_ATTR_OFLAGS" ::= bit 1;
   "IBV_XRCD_INIT_ATTR_RESERVED" ::= bit 2].
Definition ibv_rereg_mr_flags : enumeration :=
  ["IBV_REREG_MR_CHANGE_TRANSLATION" ::= bit 0; "IBV_REREG_MR_CHANGE_PD" ::= bit 1;
   "IBV_REREG_MR_CHANGE_ACCESS" ::= bit 2; "IBV_REREG_MR_KEEP_VALID" ::= bit 3;
   "IBV_REREG_MR_FLAGS_SUPPORTED" ::= Z.shiftl (bit 3) 1 - 1].
Definition ibv_mw_type : enumeration :=
  ["IBV_MW_TYPE_1" ::= 1; "IBV_MW_TYPE_2" ::= 2].
Definition ibv_rate : enumeration :=
  ["IBV_RATE_MAX" ::= 0; "IBV_RATE_2_5_GBPS" ::= 2; "IBV_RATE_5_GBPS" ::= 5;
   "IBV_RATE_10_GBPS" ::= 3; "IBV_RATE_20_GBPS" ::= 6; "IBV_RATE_30_GBPS" ::= 4;
   "IBV_RATE_40_GBPS" ::= 7; "IBV_RATE_60_GBPS" ::= 8; "IBV_RATE_80_GBPS" ::= 9;
   "IBV_RATE_120_GBPS" ::= 10; "IBV_RATE_14_GBPS" ::= 11; "IBV_RATE_56_GBPS" ::= 12;
   "IBV_RATE_112_GBPS" ::= 13; "IBV_RATE_168_GBPS" ::= 14; "IBV_RATE_25_GBPS" ::= 15;
   "IBV_RATE_100_GBPS" ::= 16; "IBV_RATE_200_GBPS" ::= 17; "IBV_RATE_300_GBPS" ::= 18].
Definition ibv_srq_attr_mask : enumeration :=
  ["IBV_SRQ_MAX_WR" ::= bit 0; "IBV_SRQ_LIMIT" ::= bit 1].
Definition ibv_srq_type : enumeration :=
  [next "IBV_SRQT_BASIC"; next "IBV_SRQT_XRC"; next "IBV_SRQT_TM"].
Definition ibv_srq_init_attr_mask : enumeration :=
  ["IBV_SRQ_INIT_ATTR_TYPE" ::= bit 0; "IBV_SRQ_INIT_ATTR_PD" ::= bit 1;
   "IBV_SRQ_INIT_ATTR_XRCD" ::= bit 2; "IBV_SRQ_INIT_ATTR_CQ" ::= bit 3;
   "IBV_SRQ_INIT_ATTR_TM" ::= bit 4; "IBV_SRQ_INIT_ATTR_RESERVED" ::= bit 5].
Definition ibv_wq_type : enumeration :=
  [next "IBV_WQT_RQ"].
Definition ibv_wq_init_attr_mask : enumeration :=
  ["IBV_WQ_INIT_ATTR_FLAGS" ::= bit 0; "IBV_WQ_INIT_ATTR_RESERVED" ::= bit 1].
Definition ibv_wq_flags : enumeration :=
  ["IBV_WQ_FLAGS_CVLAN_STRIPPING" ::= bit 0; "IBV_WQ_FLAGS_SCATTER_FCS" ::= bit 1;
   "IBV_WQ_FLAGS_DELAY_DROP" ::= bit 2; "IBV_WQ_FLAGS_PCI_WRITE_END_PADDING" ::= bit 3;
   "IBV_WQ_FLAGS_RESERVED" ::= bit 4].
Definition ibv_wq_state : enumeration :=
  [next "IBV_WQS_RESET"; next "IBV_WQS_RDY"; next "IBV_WQS_ERR"; next "IBV_WQS_UNKNOWN"].
Definition ibv_wq_attr_mask : enumeration :=
  ["IBV_WQ_ATTR_STATE" ::= bit 0; "IBV_WQ_ATTR_CURR_STATE" ::= bit 1;
   "IBV_WQ_ATTR_FLAGS" ::= bit 2; "IBV_WQ_ATTR_RESERVED" ::= bit 3].
Definition ibv_ind_table_init_attr_mask : enumeration :=
  ["IBV_CREATE_IND_TABLE_RESERVED" ::= bit 0].
Definition ibv_qp_type_enum : enumeration :=
  ["IBV_QPT_RC" ::= 2; next "IBV_QPT_UC"; next "IBV_QPT_UD"; "IBV_QPT_RAW_PACKET" ::= 8;
   "IBV_QPT_XRC_SEND" ::= 9; next "IBV_QPT_XRC_RECV"; "IBV_QPT_DRIVER" ::= 0xff].
Definition ibv_qp_init_attr_mask : enumeration :=
  ["IBV_QP_INIT_ATTR_PD" ::= bit 0; "IBV_QP_INIT_ATTR_XRCD" ::= bit 1;
   "IBV_QP_INIT_ATTR_CREATE_FLAGS" ::= bit 2; "IBV_QP_INIT_ATTR_MAX_TSO_HEADER" ::= bit 3;
   "IBV_QP_INIT_ATTR_IND_TABLE" ::= bit 4; "IBV_QP_INIT_ATTR_RX_HASH" ::= bit 5;
   "IBV_QP_INIT_ATTR_RESERVED" ::= bit 6].
Definition ibv_qp_create_flags : enumeration :=
  ["IBV_QP_CREATE_BLOCK_SELF_MCAST_LB" ::= bit 1; "IBV_QP_CREATE_SCATTER_FCS" ::= bit 8;
   "IBV_QP_CREATE_CVLAN_STRIPPING" ::= bit 9; "IBV_QP_CREATE_SOURCE_QPN" ::= bit 10;
   "IBV_QP_CREATE_PCI_WRITE_END_PADDING" ::= bit 11].
Definition ibv_qp_open_attr_mask : enumeration :=
  ["IBV_QP_OPEN_ATTR_NUM" ::= bit 0; "IBV_QP_OPEN_ATTR_XRCD" ::= bit 1;
   "IBV_QP_OPEN_ATTR_CONTEXT" ::= bit 2; "IBV_QP_OPEN_ATTR_TYPE" ::= bit 3;
   "IBV_QP_OPEN_ATTR_RESERVED" ::= bit 4].
Definition ibv_qp_attr_mask : enumeration :=
  ["IBV_QP_STATE" ::= bit 0; "IBV_QP_CUR_STATE" ::= bit 1;
   "IBV_QP_EN_SQD_ASYNC_NOTIFY" ::= bit 2; "IBV_QP_ACCESS_FLAGS" ::= bit 3;
   "IBV_QP_PKEY_INDEX" ::= bit 4; "IBV_QP_PORT" ::= bit 5; "IBV_QP_QKEY" ::= bit 6;
   "IBV_QP_AV" ::= bit 7; "IBV_QP_PATH_MTU" ::= bit 8; "IBV_QP_TIMEOUT" ::= bit 9;
   "IBV_QP_RETRY_CNT" ::= bit 10; "IBV_QP_RNR_RETRY" ::= bit 11; "IBV_QP_RQ_PSN" ::= bit 12;
   "IBV_QP_MAX_QP_RD_ATOMIC" ::= bit 13; "IBV_QP_ALT_PATH" ::= bit 14;
   "IBV_QP_MIN_RNR_TIMER" ::= bit 15; "IBV_QP_SQ_PSN" ::= bit 16;
   "IBV_QP_MAX_DEST_RD_ATOMIC" ::= bit 17; "IBV_QP_PATH_MIG_STATE" ::= bit 18;
   "IBV_QP_CAP" ::= bit 19; "IBV_QP_DEST_QPN" ::= bit 20; "IBV_QP_RATE_LIMIT" ::= bit 25].
Definition ibv_qp_state_enum : enumeration :=
  [next "IBV_QPS_RESET"; next "IBV_QPS_INIT"; next "IBV_QPS_RTR"; next "IBV_QPS_RTS";
   next "IBV_QPS_SQD"; next "IBV_QPS_SQE"; next "IBV_QPS_ERR"; next "IBV_QPS_UNKNOWN"].
Definition ibv_mig_state : enumeration :=
  [next "IBV_MIG_MIGRATED"; next "IBV_MIG_REARM"; next "IBV_MIG_ARMED"].
Definition ibv_wr_opcode_enum : enumeration :=
  [next "IBV_WR_RDMA_WRITE"; next "IBV_WR_RDMA_WRITE_WITH_IMM"; next "IBV_WR_SEND";
   next "IBV_WR_SEND_WITH_IMM"; next "IBV_WR_RDMA_READ"; next "IBV_WR_ATOMIC_CMP_AND_SWP";
   next "IBV_WR_ATOMIC_FETCH_AND_ADD"; next "IBV_WR_LOCAL_INV"; next "IBV_WR_BIND_MW";
   next "IBV_WR_SEND_WITH_INV"; next "IBV_WR_TSO"].
Definition ibv_send_flags : enumeration :=
  ["IBV_SEND_FENCE" ::= bit 0; "IBV_SEND_SIGNALED" ::= bit 1; "IBV_SEND_SOLICITED" ::= bit 2;
   "IBV_SEND_INLINE" ::= bit 3; "IBV_SEND_IP_CSUM" ::= bit 4].
Definition ibv_ops_wr_opcode : enumeration :=
  [next "IBV_WR_TAG_ADD"; next "IBV_WR_TAG_DEL"; next "IBV_WR_TAG_SYNC"].
Definition ibv_ops_flags : enumeration :=
  ["IBV_OPS_SIGNALED" ::= bit 0; "IBV_OPS_TM_SYNC" ::= bit 1].
Definition ibv_cq_attr_mask : enumeration :=
  ["IBV_CQ_ATTR_MODERATE" ::= bit 0; "IBV_CQ_ATTR_RESERVED" ::= bit 1].
Definition ibv_flow_flags : enumeration :=
  ["IBV_FLOW_ATTR_FLAGS_ALLOW_LOOP_BACK" ::= bit 0; "IBV_FLOW_ATTR_FLAGS_DONT_TRAP" ::= bit 1].
Definition ibv_flow_attr_type : enumeration :=
  ["IBV_FLOW_ATTR_NORMAL" ::= 0x0; "IBV_FLOW_ATTR_ALL_DEFAULT" ::= 0x1;
   "IBV_FLOW_ATTR_MC_DEFAULT" ::= 0x2; "IBV_FLOW_ATTR_SNIFFER" ::= 0x3].
Definition ibv_flow_spec_type : enumeration :=
  ["IBV_FLOW_SPEC_ETH" ::= 0x20; "IBV_FLOW_SPEC_IPV4" ::= 0x30; "IBV_FLOW_SPEC_IPV6" ::= 0x31;
   "IBV_FLOW_SPEC_IPV4_EXT" ::= 0x32; "IBV_FLOW_SPEC_TCP" ::= 0x40; "IBV_FLOW_SPEC_UDP" ::= 0x41;
   "IBV_FLOW_SPEC_VXLAN_TUNNEL" ::= 0x50; "IBV_FLOW_SPEC_INNER" ::= 0x100;
   "IBV_FLOW_SPEC_ACTION_TAG" ::= 0x1000; "IBV_FLOW_SPEC_ACTION_DROP" ::= 0x1001].
Definition ibv_sysfs_max : enumeration :=
  ["IBV_SYSFS_NAME_MAX" ::= 64; "IBV_SYSFS_PATH_MAX" ::= 256].
Definition ibv_cq_init_attr_mask : enumeration :=
  ["IBV_CQ_INIT_ATTR_MASK_FLAGS" ::= bit 0; "IBV_CQ_INIT_ATTR_MASK_RESERVED" ::= bit 1].
Definition ibv_create_cq_attr_flags : enumeration :=
  ["IBV_CREATE_CQ_ATTR_SINGLE_THREADED" ::= bit 0; "IBV_CREATE_CQ_ATTR_RESERVED" ::= bit 1].
Definition ibv_values_mask : enumeration :=
  ["IBV_VALUES_MASK_RAW_CLOCK" ::= bit 0; "IBV_VALUES_MASK_RESERVED" ::= bit 1].
Definition ibv_rereg_mr_err_code : enumeration :=
  ["IBV_REREG_MR_ERR_INPUT" ::= (-1); "IBV_REREG_MR_ERR_DONT_FORK_NEW" ::= (-2);
   "IBV_REREG_MR_ERR_DO_FORK_OLD" ::= (-3); "IBV_REREG_MR_ERR_CMD" ::= (-4);
   "IBV_REREG_MR_ERR_CMD_AND_DO_FORK_NEW" ::= (-5)].

(** ** Masks *)

Local Close Scope string_scope.

(** The enumerations whose members are single bits. *)
Definition masks : list enumeration :=
  [ibv_device_cap_flags; ibv_odp_transport_cap_bits; ibv_odp_general_caps;
   ibv_rx_hash_function_flags; ibv_rx_hash_fields; ibv_raw_packet_caps; ibv_tm_cap_flags;
   ibv_port_cap_flags; ibv_create_cq_wc_flags; ibv_wc_flags; ibv_access_flags;
   ibv_xrcd_init_attr_mask; ibv_srq_attr_mask; ibv_srq_init_attr_mask; ibv_wq_init_attr_mask;
   ibv_wq_flags; ibv_wq_attr_mask; ibv_ind_table_init_attr_mask; ibv_qp_init_attr_mask;
   ibv_qp_create_flags; ibv_qp_open_attr_mask; ibv_qp_attr_mask; ibv_send_flags; ibv_ops_flags;
   ibv_cq_attr_mask; ibv_flow_flags; ibv_cq_init_attr_mask; ibv_create_cq_attr_flags;
   ibv_values_mask].

(** Those with a reserved last member. *)
Definition extensible : list enumeration :=
  [ibv_xrcd_init_attr_mask; ibv_srq_init_attr_mask; ibv_wq_init_attr_mask; ibv_wq_flags;
   ibv_wq_attr_mask; ibv_ind_table_init_attr_mask; ibv_qp_init_attr_mask; ibv_qp_open_attr_mask;
   ibv_cq_attr_mask; ibv_cq_init_attr_mask; ibv_create_cq_attr_flags; ibv_values_mask].

(** The members chosen, combined; and the test of one of them. *)
Definition combine (e : enumeration) (chosen : string -> bool) : Z :=
  foldr (fun x m => if chosen x.1 : bool then Z.lor x.2 m else m) 0 (values e).
Definition has_flag (m v : Z) : bool := negb (Z.land m v =? 0).

Definition single_bit (v : Z) : bool := bool_decide (0 < v) && (v =? bit (Z.log2 v)).
Definition mask_ok (e : enumeration) : bool :=
  forallb (fun x => single_bit x.2) (values e) && bool_decide (NoDup (values e).*2) &&
  bool_decide (NoDup (values e).*1) && forallb (fun x => x.2 <? 2 ^ 32) (values e).

Lemma masks_ok : forallb mask_ok masks = true.
Proof. vm_compute. reflexivity. Qed.

Lemma bit_pos n : 0 <= n -> 0 < bit n.
Proof. intros Hn. unfold bit. rewrite Z.shiftl_1_l. by apply Z.pow_pos_nonneg. Qed.

Lemma testbit_bit n i : 0 <= n -> Z.testbit (bit n) i = bool_decide (i = n).
Proof.
  intros Hn. unfold bit. rewrite Z.shiftl_1_l, Z.pow2_bits_eqb by done.
  destruct (Z.eqb_spec n i) as [->|Hne]; [by rewrite bool_decide_eq_true_2|].
  by rewrite bool_decide_eq_false_2.
Qed.

(** Testing a single bit. *)
Lemma has_flag_bit m n : 0 <= n -> has_flag m (bit n) = Z.testbit m n.
Proof.
  intros Hn. unfold has_flag. destruct (Z.eqb_spec (Z.land m (bit n)) 0) as [E|E]; cbn.
  - apply (f_equal (fun x => Z.testbit x n)) in E. rewrite Z.land_spec, testbit_bit in E by done.
    by rewrite bool_decide_eq_true_2, andb_true_r, Z.bits_0 in E.
  - destruct (Z.testbit m n) eqn:Em; [done|]. exfalso. apply E. apply Z.bits_inj'. intros i Hi.
    rewrite Z.land_spec, testbit_bit, Z.bits_0 by done.
    destruct (decide (i = n)) as [->|Hne]; [by rewrite Em|].
    by rewrite (bool_decide_eq_false_2 (i = n)), andb_false_r.
Qed.

Lemma has_flag_lor a b v : has_flag (Z.lor a b) v = has_flag a v || has_flag b v.
Proof.
  unfold has_flag. rewrite Z.land_lor_distr_l.
  destruct (Z.eqb_spec (Z.lor (Z.land a v) (Z.land b v)) 0) as [E|E].
  - apply Z.lor_eq_0_iff in E as [-> ->]. done.
  - destruct (Z.eqb_spec (Z.land a v) 0) as [Ea|Ea], (Z.eqb_spec (Z.land b v) 0) as [Eb|Eb]; try done.
    rewrite Ea, Eb in E. done.
Qed.

Lemma single_bit_eq v : single_bit v = true -> 0 < v /\ v = bit (Z.log2 v) /\ 0 <= Z.log2 v.
Proof.
  unfold single_bit. intros [H1 H2]%andb_true_iff. apply bool_decide_eq_true in H1.
  apply Z.eqb_eq in H2. split; [done|]. split; [done|]. apply Z.log2_nonneg.
Qed.

(** Two single bits meet only when they are the same. *)
Lemma has_flag_single v w :
  single_bit v = true -> single_bit w = true -> has_flag v w = bool_decide (v = w).
Proof.
  intros (Hv & Ev & Nv)%single_bit_eq (Hw & Ew & Nw)%single_bit_eq.
  rewrite Ew at 1. rewrite has_flag_bit by done. rewrite Ev at 1. rewrite testbit_bit by done.
  apply bool_decide_ext. split; [|by intros ->]. intros E. by rewrite Ev, Ew, E.
Qed.

(** What [combine] puts in a mask, [has_flag] finds, and nothing else. *)
Lemma combine_spec vs (chosen : string -> bool) n v :
  Forall (fun x => single_bit x.2 = true) vs -> NoDup vs.*2 -> (n, v) ∈ vs ->
  has_flag (foldr (fun x m => if chosen x.1 : bool then Z.lor x.2 m else m) 0 vs) v = chosen n.
Proof.
  intros Hb Hnd Hin.
  assert (Hv : single_bit v = true) by exact (proj1 (Forall_forall _ _) Hb _ Hin).
  assert (Hout : forall l : list (string * Z), Forall (fun x => single_bit x.2 = true) l -> v ∉ l.*2 ->
    has_flag (foldr (fun x m => if chosen x.1 : bool then Z.lor x.2 m else m) 0 l) v = false).
  { intros l Hl Hn. induction Hl as [|x l Hx Hl IH]; [done|].
    rewrite fmap_cons, not_elem_of_cons in Hn. destruct Hn as [Hn1 Hn2]. cbn [foldr].
    destruct (chosen x.1); [|by apply IH]. rewrite has_flag_lor, IH by done.
    rewrite has_flag_single, bool_decide_eq_false_2 by congruence. done. }
  induction vs as [|x vs IH]; [by apply not_elem_of_nil in Hin|].
  apply Forall_cons in Hb as [Hx Hb]. rewrite fmap_cons in Hnd. apply NoDup_cons in Hnd as [Hnx Hnd].
  cbn [foldr]. apply elem_of_cons in Hin as [<-|Hin].
  - cbn [fst snd] in *. destruct (chosen n); [|by apply Hout].
    by rewrite has_flag_lor, has_flag_single, bool_decide_eq_true_2.
  - assert (Hne : x.2 <> v).
    { intros <-. apply Hnx. apply list_elem_of_fmap. by exists (n, x.2). }
    destruct (chosen x.1); [|by apply IH].
    rewrite has_flag_lor, has_flag_single, bool_decide_eq_false_2 by done. by apply IH.
Qed.

(** Which members of the enumeration a mask has. *)
Definition decode (e : enumeration) (m : Z) (n : string) : bool := has_flag m (value e n).

(** The reserved member, the last. *)
Definition reserved (e : enumeration) : Z := default 0 (snd <$> last (values e)).

Definition extensible_ok (e : enumeration) : bool :=
  bool_decide ((values e).*2 = bit <$> seqZ 0 (Z.of_nat (length e))) &&
  forallb (fun m => combine e (decode e m) =? m) (seqZ 0 (reserved e)).

Lemma extensible_all_ok : forallb extensible_ok extensible = true.
Proof. vm_compute. reflexivity. Qed.

Lemma mask_member e n v :
  e ∈ masks -> (n, v) ∈ values e ->
  Forall (fun x => single_bit x.2 = true) (values e) /\ NoDup (values e).*2 /\ 0 < v < 2 ^ 32.
Proof.
  intros He Hin. pose proof masks_ok as Hall. rewrite forallb_forall in Hall.
  specialize (Hall e (proj1 (list_elem_of_In _ _) He)). unfold mask_ok in Hall.
  repeat match goal with H : _ && _ = true |- _ => apply andb_prop in H as [H ?] end.
  rewrite forallb_forall in *. split; [|split].
  - apply Forall_forall. intros x Hx. by apply Hall, list_elem_of_In.
  - by eapply bool_decide_eq_true.
  - split.
    + apply list_elem_of_In, Hall, single_bit_eq in Hin as [Hv _]. exact Hv.
    + match goal with H : forall x, In x _ -> (_ <? _) = true |- _ =>
        apply list_elem_of_In, H, Z.ltb_lt in Hin end. done.
Qed.

Lemma lor_range w a b : 0 <= w -> 0 <= a < 2 ^ w -> 0 <= b < 2 ^ w -> 0 <= Z.lor a b < 2 ^ w.
Proof.
  intros Hw Ha Hb. assert (0 <= Z.lor a b) by (apply Z.lor_nonneg; lia). split; [done|].
  apply bits_bounded; [done..|]. intros i Hi.
  by rewrite Z.lor_spec, (testbit_high w a), (testbit_high w b).
Qed.

Lemma combine_range e chosen : e ∈ masks -> 0 <= combine e chosen < 2 ^ 32.
Proof.
  intros He. unfold combine.
  assert (H : Forall (fun x => 0 < x.2 < 2 ^ 32) (values e)).
  { apply Forall_forall. intros [n v] Hin. by apply (mask_member e n v). }
  induction H as [|x l Hx H IH]; cbn [foldr]; [lia|]. destruct (chosen x.1); [|done].
  apply lor_range; lia.
Qed.

(** ** Properties *)

(** C35: the header's masks say what was put in them.  For each of its 29 masks,
    whatever members are combined, the result fits 32 bits, and testing it for a
    member tells whether that member was put in.  For the extensible ones, every
    value below the reserved member is such a combination: a provider that refuses
    masks from the reserved member on knows every bit it accepts. *)
Theorem masks_roundtrip e chosen :
  e ∈ masks ->
  (forall n v, (n, v) ∈ values e -> has_flag (combine e chosen) v = chosen n) /\
  0 <= combine e chosen < 2 ^ 32 /\
  (e ∈ extensible -> forall m, 0 <= m < reserved e -> combine e (decode e m) = m).
Proof.
  intros He. split; [|split].
  - intros n v Hin. destruct (mask_member e n v He Hin) as (Hb & Hnd & _). by apply combine_spec.
  - by apply combine_range.
  - intros Hx m Hm. pose proof extensible_all_ok as Hall. rewrite forallb_forall in Hall.
    apply list_elem_of_In, Hall, andb_prop in Hx as [_ Hx]. rewrite forallb_forall in Hx.
    apply Z.eqb_eq, Hx, list_elem_of_In, elem_of_seqZ. lia.
Qed.

Lemma masks_roundtrip_witness :
  has_flag (combine ibv_qp_attr_mask (fun n => bool_decide (n = "IBV_QP_QKEY"%string))) 64 = true /\
  combine ibv_srq_init_attr_mask (decode ibv_srq_init_attr_mask 19) = 19.
Proof.
  split.
  - destruct (masks_roundtrip ibv_qp_attr_mask (fun n => bool_decide (n = "IBV_QP_QKEY"%string)))
      as [H _]; [by apply (list_elem_of_lookup_2 _ 21)|].
    apply (H "IBV_QP_QKEY"%string). by apply (list_elem_of_lookup_2 _ 6).
  - destruct (masks_roundtrip ibv_srq_init_attr_mask (fun _ => true)) as (_ & _ & H);
      [by apply (list_elem_of_lookup_2 _ 13)|].
    apply H; [by apply (list_elem_of_lookup_2 _ 1)|split; [discriminate|reflexivity]].
Defined.

(** The test that the header's comment gives for receives, [opcode & IBV_WC_RECV],
    also holds of the completions of the tag matching operations. *)
Theorem wc_recv_test n v :
  (n, v) ∈ values ibv_wc_opcode ->
  has_flag v (value ibv_wc_opcode "IBV_WC_RECV") =
    bool_decide (n ∈ ["IBV_WC_RECV"; "IBV_WC_RECV_RDMA_WITH_IMM"; "IBV_WC_TM_ADD"; "IBV_WC_TM_DEL";
                      "IBV_WC_TM_SYNC"; "IBV_WC_TM_RECV"; "IBV_WC_TM_NO_TAG"]%string).
Proof.
  intros Hin. assert (H : forallb (fun x => Bool.eqb (has_flag x.2 (value ibv_wc_opcode "IBV_WC_RECV"))
    (bool_decide (x.1 ∈ ["IBV_WC_RECV"; "IBV_WC_RECV_RDMA_WITH_IMM"; "IBV_WC_TM_ADD"; "IBV_WC_TM_DEL";
                      "IBV_WC_TM_SYNC"; "IBV_WC_TM_RECV"; "IBV_WC_TM_NO_TAG"]%string)))
    (values ibv_wc_opcode) = true) by (vm_compute; reflexivity).
  rewrite forallb_forall in H. by apply list_elem_of_In, H, eqb_prop in Hin.
Qed.

(** The constants and constructors the programs' models use are those of the
    enumerations. *)
Example enums_match :
  Verbs.ibv_mtu_val <$> [Verbs.IBV_MTU_256; Verbs.IBV_MTU_512; Verbs.IBV_MTU_1024;
    Verbs.IBV_MTU_2048; Verbs.IBV_MTU_4096] = (values ibv_mtu_enum).*2 /\
  VerbsDispatch.ibv_qp_type_val <$> [Verbs.IBV_QPT_RC; Verbs.IBV_QPT_UC; Verbs.IBV_QPT_UD;
    Verbs.IBV_QPT_RAW_PACKET; Verbs.IBV_QPT_XRC_SEND; Verbs.IBV_QPT_XRC_RECV; Verbs.IBV_QPT_DRIVER] =
    (values ibv_qp_type_enum).*2 /\
  Verbs.ibv_wc_status_val <$> [Verbs.IBV_WC_SUCCESS; Verbs.IBV_WC_LOC_LEN_ERR;
    Verbs.IBV_WC_LOC_QP_OP_ERR; Verbs.IBV_WC_LOC_EEC_OP_ERR; Verbs.IBV_WC_LOC_PROT_ERR;
    Verbs.IBV_WC_WR_FLUSH_ERR; Verbs.IBV_WC_MW_BIND_ERR; Verbs.IBV_WC_BAD_RESP_ERR;
    Verbs.IBV_WC_LOC_ACCESS_ERR; Verbs.IBV_WC_REM_INV_REQ_ERR; Verbs.IBV_WC_REM_ACCESS_ERR;
    Verbs.IBV_WC_REM_OP_ERR; Verbs.IBV_WC_RETRY_EXC_ERR; Verbs.IBV_WC_RNR_RETRY_EXC_ERR;
    Verbs.IBV_WC_LOC_RDD_VIOL_ERR; Verbs.IBV_WC_REM_INV_RD_REQ_ERR; Verbs.IBV_WC_REM_ABORT_ERR;
    Verbs.IBV_WC_INV_EECN_ERR; Verbs.IBV_WC_INV_EEC_STATE_ERR; Verbs.IBV_WC_FATAL_ERR;
    Verbs.IBV_WC_RESP_TIMEOUT_ERR; Verbs.IBV_WC_GENERAL_ERR; Verbs.IBV_WC_TM_ERR;
    Verbs.IBV_WC_TM_RNDV_INCOMPLETE] = (values ibv_wc_status_enum).*2 /\
  (Verbs.IBV_QP_STATE, Verbs.IBV_QP_PKEY_INDEX, Verbs.IBV_QP_PORT, Verbs.IBV_QP_QKEY,
   Verbs.IBV_QP_SQ_PSN, Verbs.IBV_QP_CAP) =
    (value ibv_qp_attr_mask "IBV_QP_STATE", value ibv_qp_attr_mask "IBV_QP_PKEY_INDEX",
     value ibv_qp_attr_mask "IBV_QP_PORT", value ibv_qp_attr_mask "IBV_QP_QKEY",
     value ibv_qp_attr_mask "IBV_QP_SQ_PSN", value ibv_qp_attr_mask "IBV_QP_CAP") /\
  (Verbs.IBV_SEND_SIGNALED, Verbs.IBV_SEND_INLINE, Verbs.IBV_ACCESS_LOCAL_WRITE) =
    (value ibv_send_flags "IBV_SEND_SIGNALED", value ibv_send_flags "IBV_SEND_INLINE",
     value ibv_access_flags "IBV_ACCESS_LOCAL_WRITE") /\
  (VerbsTypes.IBV_SRQ_INIT_ATTR_TYPE, VerbsTypes.IBV_SRQ_INIT_ATTR_PD, VerbsTypes.IBV_QP_INIT_ATTR_PD,
   VerbsTypes.IBV_MW_TYPE_1, VerbsTypes.IBV_SRQT_BASIC, VerbsTypes.IBV_LINK_LAYER_UNSPECIFIED) =
    (value ibv_srq_init_attr_mask "IBV_SRQ_INIT_ATTR_TYPE",
     value ibv_srq_init_attr_mask "IBV_SRQ_INIT_ATTR_PD",
     value ibv_qp_init_attr_mask "IBV_QP_INIT_ATTR_PD", value ibv_mw_type "IBV_MW_TYPE_1",
     value ibv_srq_type "IBV_SRQT_BASIC", value ibv_link_layer "IBV_LINK_LAYER_UNSPECIFIED").
Proof. vm_compute. repeat split. Qed.
