(* ===== verification/VerbsRules.v ===== *)
(** Proof rules for libibverbs calls.

    [holds m io l F g] describes the environment from the program's point of
    view: beyond the resources [m] that were there before, it owns exactly the
    list [l] of handles, newest first; the failures reported so far are [F]; no
    rule of the library has been broken; and nothing was posted or completed
    since [io].  Each rule executes one call and says what the caller then
    owns. *)
From stdpp Require Import gmap.
From S2P Require Import Prelude CInt CLib Prog Posix Verbs.
Local Open Scope Z_scope.

(** ** Owned resources *)

Definition owned : Type := list (Z * obj).

Fixpoint grow (l : owned) (m : gmap Z obj) : gmap Z obj :=
  match l with [] => m | (h, o) :: l => <[h := o]> (grow l m) end.

Fixpoint grown (l : owned) (m : gmap Z obj) : Prop :=
  match l with [] => True | (h, _) :: l => fresh_handle (grow l m) h /\ grown l m end.

(** [l'] is [l] without the resource [h], which is an [o]. *)
Inductive removed (h : Z) (o : obj) : owned -> owned -> Prop :=
| removed_here l : removed h o ((h, o) :: l) l
| removed_there x l l' : removed h o l l' -> removed h o (x :: l) (x :: l').

Create HintDb owned.
#[export] Hint Constructors removed : owned.

(** Nothing in [m] depends on a handle of this program. *)
Definition blocks_only (m : gmap Z obj) : Prop :=
  map_Forall (fun _ o => match o with OBlock _ => True | _ => False end) m.

Lemma removed_elem h o l l' x : removed h o l l' -> x ∈ l' -> x ∈ l.
Proof.
  induction 1 as [l|y l l' Hr IH]; intros Hx; [by right|].
  apply elem_of_cons in Hx as [->|Hx]; [by left|right; auto].
Qed.

Lemma grow_None l m h : grow l m !! h = None -> m !! h = None /\ h ∉ l.*1.
Proof.
  induction l as [|[k o] l IH]; simpl; [intros ->; split; [done|apply not_elem_of_nil]|].
  rewrite lookup_insert_None. intros [H Hk]. destruct (IH H) as [? ?].
  split; [done|]. rewrite not_elem_of_cons. by split.
Qed.

Lemma removed_grow h o l l' m :
  removed h o l l' -> grown l m ->
  grow l m !! h = Some o /\ grown l' m /\ delete h (grow l m) = grow l' m.
Proof.
  induction 1 as [l|[k p] l l' Hr IH]; simpl; intros [Hf Hg].
  - split; [apply lookup_insert_eq|]. split; [done|]. apply delete_insert_id, Hf.
  - destruct (IH Hg) as (Hl & Hg' & Hd). destruct Hf as [H0 Hk].
    assert (k <> h) by (intros ->; congruence).
    split; [by rewrite lookup_insert_ne|]. rewrite delete_insert_ne, Hd by done.
    split; [|done]. split; [|done]. split; [done|].
    rewrite <- Hd, lookup_delete_ne by done. done.
Qed.

(** Changing one object in place. *)
Lemma grow_replace l1 h o o' l2 m :
  grown (l1 ++ (h, o) :: l2) m ->
  grow (l1 ++ (h, o) :: l2) m !! h = Some o /\ grown (l1 ++ (h, o') :: l2) m /\
  forall f, f o = o' -> alter f h (grow (l1 ++ (h, o) :: l2) m) = grow (l1 ++ (h, o') :: l2) m.
Proof.
  induction l1 as [|[k p] l1 IH]; simpl; intros [[Hk Hf] Hg].
  - split; [apply lookup_insert_eq|]. split; [done|]. intros f <-. apply alter_insert_eq.
  - destruct (IH Hg) as (Hl & Hg' & Ha). assert (k <> h) by (intros ->; congruence).
    split; [by rewrite lookup_insert_ne|]. split.
    + split; [|done]. split; [done|]. rewrite <- (Ha (fun _ => o')) by done.
      by rewrite lookup_alter_ne.
    + intros f Hfo. rewrite alter_insert_ne by done. by rewrite Ha.
Qed.

Lemma removed_lookup h o l l' m :
  removed h o l l' -> grown l m -> grow l m !! h = Some o.
Proof. intros. by eapply removed_grow. Qed.

Lemma grow_Forall (P : Z -> obj -> Prop) l m :
  Forall (fun x => P x.1 x.2) l -> map_Forall P m -> map_Forall P (grow l m).
Proof.
  intros Hl Hm. induction Hl as [|[h o] l Hx Hl IH]; simpl; [done|].
  by apply map_Forall_insert_2.
Qed.

Lemma not_in_use h l m :
  blocks_only m -> Forall (fun x => depends h x.2 = false) l -> in_use (grow l m) h = false.
Proof.
  intros Hm Hl. unfold in_use. apply bool_decide_eq_false. intros (k & o & Hk & Hd).
  assert (H : map_Forall (fun _ o => depends h o = false) (grow l m)).
  { apply (grow_Forall (fun _ o => depends h o = false)); [done|].
    eapply map_Forall_impl; [exact Hm|]. by intros ? []. }
  pose proof (map_Forall_lookup_1 _ _ _ _ H Hk) as Hd'. simpl in Hd'. congruence.
Qed.

Lemma map_Exists_intro {A} (P : Z -> A -> Prop) (m : gmap Z A) k a :
  m !! k = Some a -> P k a -> map_Exists P m.
Proof. intros Hk HP. by exists k, a. Qed.

Lemma in_block_spec m p size a n :
  m !! p = Some (OBlock size) -> p <= a -> a + n <= p + size -> in_block m a n = true.
Proof.
  intros Hp Ha Hn. unfold in_block. apply bool_decide_eq_true.
  eapply map_Exists_intro; [exact Hp|]. simpl. lia.
Qed.

Lemma registered_spec m h pd a n e :
  m !! h = Some (OMr pd a n (sge_lkey e)) -> a <= sge_addr e ->
  sge_addr e + sge_length e <= a + n -> registered m e = true.
Proof.
  intros Hh Ha Hn. unfold registered. apply bool_decide_eq_true.
  eapply map_Exists_intro; [exact Hh|]. simpl. lia.
Qed.

(** ** The assertion and the rules *)

Section rules.
Variable sigint : nat -> bool.
Variable m : gmap Z obj.
Variable io : list work * list transmit.
Local Abbreviation wpn := (nic_wp sigint).

Definition holds (l : owned) (F : list failure) (g : nic) : Prop :=
  grown l m /\ live g = grow l m /\ failed g = F /\ misuse g = [] /\
  (outstanding g, transmitted g) = io.

(** The state after a call that breaks no rule and posts nothing. *)
Lemma holds_next {X} (e : verbs X) x l l' F F' g :
  holds l F g -> grown l' m ->
  (live g = grow l m -> live_next X (live g) e x = grow l' m) ->
  F ++ failure_of X e x = F' -> (live g = grow l m -> rules X g e = []) ->
  (outstanding_next X (outstanding g) e x, transmitted_next X (mem g) (transmitted g) e x) =
    (outstanding g, transmitted g) ->
  holds l' F' (nic_next X g e x).
Proof.
  intros (Hg & Hl & HF & Hm & Hio) Hg' Hl' HF' Hr Hio'. unfold holds, nic_next. simpl.
  rewrite HF, Hm, Hr, Hl', Hio', HF' by done. done.
Qed.

Lemma holds_live l F g : holds l F g -> live g = grow l m.
Proof. by intros (_ & H & _). Qed.
Lemma holds_grown l F g : holds l F g -> grown l m.
Proof. by intros (H & _). Qed.

(** Calls that only answer. *)
Lemma wp_query {S A X} (e : verbs X) (f : X -> M verbs S A) s Q l F g :
  holds l F g ->
  (forall x, live_next X (live g) e x = live g) -> (forall x, failure_of X e x = []) ->
  rules X g e = [] ->
  (forall x, (outstanding_next X (outstanding g) e x,
              transmitted_next X (mem g) (transmitted g) e x) = (outstanding g, transmitted g)) ->
  (forall x g', nic_legal sigint X g e x -> holds l F g' -> wpn (f x s) Q g') ->
  wpn (bind (call e) f s) Q g.
Proof.
  intros H Hl HF Hr Hio HQ. apply wp_bind. intros x Hx. cbn. apply HQ; [exact Hx|].
  eapply holds_next; [exact H|by eapply holds_grown| | |done|apply Hio].
  - intros <-. apply Hl.
  - by rewrite HF, app_nil_r.
Qed.

Lemma wp_eprintf {S A} out (f : unit -> M verbs S A) s Q l F g :
  holds l F g -> (forall g', holds l F g' -> wpn (f tt s) Q g') ->
  wpn (bind (call (VEprintf out)) f s) Q g.
Proof. intros H HQ. eapply wp_query; try done. intros [] g' _. apply HQ. Qed.

(** Calls that create a handle, or answer NULL. *)
Lemma wp_create {S A} (e : verbs Z) o (f : Z -> M verbs S A) s Q l F F0 g :
  holds l F g ->
  (forall h, nic_legal sigint Z g e h -> created (live g) h) ->
  (forall h, live_next Z (live g) e h = create h o (live g)) ->
  (forall h, failure_of Z e h = if h =? 0 then F0 else []) ->
  rules Z g e = [] ->
  (forall h, (outstanding_next Z (outstanding g) e h,
              transmitted_next Z (mem g) (transmitted g) e h) = (outstanding g, transmitted g)) ->
  (forall g', holds l (F ++ F0) g' -> wpn (f 0 s) Q g') ->
  (forall h g', nic_legal sigint Z g e h -> h <> 0 -> holds ((h, o) :: l) F g' ->
     wpn (f h s) Q g') ->
  wpn (bind (call e) f s) Q g.
Proof.
  intros H Hc Hl HF Hr Hio H0 H1. apply wp_bind. intros h Hh. cbn.
  destruct (decide (h = 0)) as [->|Hn].
  - apply H0. eapply holds_next; [exact H|by eapply holds_grown| |by rewrite HF|done|apply Hio].
    intros <-. apply Hl.
  - apply H1; [exact Hh|done|]. destruct (Hc h Hh) as [|Hf]; [done|].
    assert (Hb : (h =? 0) = false) by lia.
    eapply holds_next; [exact H| | |rewrite HF, Hb; apply app_nil_r|done|apply Hio].
    + split; [|by eapply holds_grown]. by rewrite <- (holds_live _ _ _ H).
    + intros Hlive. rewrite Hl. unfold create. by rewrite Hb, Hlive.
Qed.

(** Calls that release a handle, or fail. *)
Lemma wp_release {S A} (e : verbs Z) h o (f : Z -> M verbs S A) s Q l l' F g :
  holds l F g -> removed h o l l' ->
  (forall r, live_next Z (live g) e r = if r =? 0 then delete h (live g) else live g) ->
  (forall r, failure_of Z e r = if r =? 0 then [] else [FRelease]) ->
  (live g !! h = Some o -> rules Z g e = []) ->
  (forall r, (outstanding_next Z (outstanding g) e r,
              transmitted_next Z (mem g) (transmitted g) e r) = (outstanding g, transmitted g)) ->
  (forall g', holds l' F g' -> wpn (f 0 s) Q g') ->
  (forall r g', r <> 0 -> holds l (F ++ [FRelease]) g' -> wpn (f r s) Q g') ->
  wpn (bind (call e) f s) Q g.
Proof.
  intros H Hr Hl HF Hru Hio H0 H1. apply wp_bind. intros r Hleg. cbn.
  destruct (removed_grow _ _ _ _ m Hr (holds_grown _ _ _ H)) as (Hlk & Hg' & Hd).
  assert (Hrules : live g = grow l m -> rules Z g e = []) by (intros E; apply Hru; by rewrite E).
  destruct (decide (r = 0)) as [->|Hn].
  - apply H0. eapply holds_next; [exact H|done| |rewrite HF; apply app_nil_r|done|apply Hio].
    intros E. by rewrite Hl, E.
  - apply H1; [done|]. assert (Hb : (r =? 0) = false) by lia.
    eapply holds_next; [exact H|by eapply holds_grown| |by rewrite HF, Hb|done|apply Hio].
    intros <-. by rewrite Hl, Hb.
Qed.

Lemma wp_malloc {S A} size (f : Z -> M verbs S A) s Q l F g :
  holds l F g ->
  (forall g', holds l (F ++ [FMalloc]) g' -> wpn (f 0 s) Q g') ->
  (forall p g', p <> 0 -> fresh_block (grow l m) p size ->
     holds ((p, OBlock size) :: l) F g' -> wpn (f p s) Q g') ->
  wpn (bind (call (Malloc size)) f s) Q g.
Proof.
  intros H H0 H1. eapply wp_create; [exact H| | | |done|done|exact H0|]; [|done|done|].
  - intros h [->|[Hf _]]; [by left|by right].
  - intros h g' [->|Hb] Hn Hh; [done|]. apply H1; [done| |done].
    by rewrite <- (holds_live _ _ _ H).
Qed.

Lemma wp_memalign {S A} align size (f : Z * Z -> M verbs S A) s Q l F g :
  holds l F g ->
  (forall r p g', r <> 0 -> holds l F g' -> wpn (f (r, p) s) Q g') ->
  (forall p g', fresh_block (grow l m) p size -> holds ((p, OBlock size) :: l) F g' ->
     wpn (f (0, p) s) Q g') ->
  wpn (bind (call (Posix_memalign align size)) f s) Q g.
Proof.
  intros H H0 H1. apply wp_bind. intros [r p] Hx. cbn.
  destruct (decide (r = 0)) as [->|Hn].
  - specialize (Hx eq_refl). cbn in Hx. rewrite (holds_live _ _ _ H) in Hx.
    apply H1; [done|].
    eapply holds_next; [exact H| | |apply app_nil_r|done|done].
    + split; [apply Hx|by eapply holds_grown].
    + intros E. cbn. by rewrite E.
  - apply H0; [done|]. assert (Hb : (r =? 0) = false) by lia.
    eapply holds_next; [exact H|by eapply holds_grown| |apply app_nil_r|done|done].
    intros E. cbn. by rewrite Hb, E.
Qed.

Lemma wp_memset {S A} p c n size (f : unit -> M verbs S A) s Q l l' F g :
  holds l F g -> removed p (OBlock size) l l' -> n <= size -> io.1 = [] ->
  (forall g', holds l F g' -> wpn (f tt s) Q g') ->
  wpn (bind (call (Memset p c n)) f s) Q g.
Proof.
  intros H Hr Hn Hio HQ. eapply wp_query; [exact H|done|done| |done|]; [|intros [] g2 _; apply HQ].
  cbn. pose proof (removed_lookup _ _ _ _ m Hr (holds_grown _ _ _ H)) as Hlk.
  rewrite (in_block_spec _ p size).
  - destruct H as (_ & _ & _ & _ & Hio'). rewrite <- Hio' in Hio. cbn in Hio. by rewrite Hio.
  - by rewrite (holds_live _ _ _ H).
  - lia.
  - lia.
Qed.

Lemma wp_reg_mr {S A} pd ctx p size access (f : option ibv_mr -> M verbs S A) s Q l l1 l2 F g :
  holds l F g -> removed pd (OPd ctx) l l1 -> removed p (OBlock size) l l2 ->
  (forall g', holds l F g' -> wpn (f None s) Q g') ->
  (forall r g', mr_handle r <> 0 -> holds ((mr_handle r, OMr pd p size (lkey r)) :: l) F g' ->
     wpn (f (Some r) s) Q g') ->
  wpn (bind (call (Reg_mr pd p size access)) f s) Q g.
Proof.
  intros H Hp Hb H0 H1. apply wp_bind. intros r Hx. cbn.
  pose proof (holds_grown _ _ _ H) as Hg. pose proof (holds_live _ _ _ H) as Hl.
  assert (Hr : live g = grow l m -> rules _ g (Reg_mr pd p size access) = []).
  { intros E. pose proof (removed_lookup _ _ _ _ m Hb Hg) as Hbl. rewrite <- E in Hbl.
    cbn. unfold is_pd, is_block. rewrite (in_block_spec _ p size), Hbl; [|done|lia|lia].
    by rewrite E, (removed_lookup _ _ _ _ m Hp Hg). }
  destruct r as [r|].
  - cbn in Hx. rewrite Hl in Hx. apply H1; [apply Hx|].
    eapply holds_next; [exact H|by split| |apply app_nil_r|exact Hr|done].
    intros E. cbn. by rewrite E.
  - apply H0. eapply holds_next; [exact H|done|by intros|apply app_nil_r|exact Hr|done].
Qed.

Lemma wp_modify_qp {S A} l1 qp pd cq st attr mask (f : Z -> M verbs S A) s Q l F g :
  holds (l1 ++ (qp, OQp pd cq st) :: l) F g ->
  (forall r g', r <> 0 -> holds (l1 ++ (qp, OQp pd cq st) :: l) F g' -> wpn (f r s) Q g') ->
  (forall g', ud_transition st (qp_state attr) mask = true ->
     holds (l1 ++ (qp, OQp pd cq (qp_state attr)) :: l) F g' -> wpn (f 0 s) Q g') ->
  wpn (bind (call (Modify_qp qp attr mask)) f s) Q g.
Proof.
  intros H H0 H1. apply wp_bind. intros r Hx. cbn. pose proof (holds_grown _ _ _ H) as Hg.
  destruct (grow_replace l1 qp (OQp pd cq st) (OQp pd cq (qp_state attr)) l m Hg) as (Hlk & Hg' & Ha).
  rewrite <- (holds_live _ _ _ H) in Hlk.
  assert (Hr : rules _ g (Modify_qp qp attr mask) = []) by (cbn; unfold is_qp; by rewrite Hlk).
  destruct (decide (r = 0)) as [->|Hn].
  - specialize (Hx eq_refl). unfold qp_in in Hx. rewrite Hlk in Hx. apply H1; [exact Hx|].
    eapply holds_next; [exact H|exact Hg'| |apply app_nil_r|done|done].
    intros E. cbn. rewrite E. by apply Ha.
  - apply H0; [done|]. assert (Hb : (r =? 0) = false) by lia.
    eapply holds_next; [exact H|done| |apply app_nil_r|done|done].
    intros E. cbn. by rewrite Hb.
Qed.

End rules.

(** ** Owning blocks besides verbs objects *)

Definition blocks (B : owned) : Prop := Forall (fun x => exists n, x.2 = OBlock n) B.

Lemma removed_app h o B l l' : removed h o l l' -> removed h o (B ++ l) (B ++ l').
Proof. induction B; simpl; [done|]. intros. constructor. auto. Qed.

Lemma grown_NoDup l m : grown l m -> NoDup l.*1.
Proof.
  induction l as [|[h o] l IH]; simpl; [constructor|]. intros [[_ Hf] Hg].
  constructor; [by apply (grow_None _ _ _ Hf)|auto].
Qed.

Lemma grown_nonzero l m h : grown l m -> h ∈ l.*1 -> h <> 0.
Proof.
  induction l as [|[k o] l IH]; simpl; [by intros _ ?%elem_of_nil|].
  intros [[Hk _] Hg] [->|Hh]%elem_of_cons; auto.
Qed.

Lemma blocks_independent h B l :
  blocks B -> Forall (fun x => depends h x.2 = false) l ->
  Forall (fun x => depends h x.2 = false) (B ++ l).
Proof.
  intros HB Hl. apply Forall_app_2; [|done]. eapply Forall_impl; [exact HB|].
  by intros x [n ->].
Qed.

(** The handles and blocks an object uses, and lists that contain all that their
    objects use. *)
Definition targets (o : obj) : list Z :=
  match o with
  | OPd c | OCq c => [c]
  | OQp p c _ => [p; c]
  | OMr p a _ _ => [p; a]
  | OAh p => [p]
  | _ => []
  end.

Definition closed (l : owned) : Prop :=
  Forall (fun x => Forall (fun t => t ∈ l.*1) (targets x.2)) l.

Lemma not_target h o : h ∉ targets o -> depends h o = false.
Proof.
  destruct o; simpl; rewrite ?not_elem_of_cons, ?orb_false_iff, ?Z.eqb_neq;
    intros Hn; try done; first [split; intros ->; tauto | intros ->; tauto].
Qed.

(** What is left without a block does not use it, when it is closed. *)
Lemma closed_independent p size l l' m :
  grown l m -> removed p (OBlock size) l l' -> closed l' ->
  Forall (fun x => depends p x.2 = false) l.
Proof.
  intros Hg Hr Hc. destruct (removed_grow _ _ _ _ m Hr Hg) as (_ & _ & Hd).
  assert (Hp : p ∉ l'.*1).
  { apply (grow_None l' m). rewrite <- Hd. apply lookup_delete_eq. }
  assert (Hi : Forall (fun x : Z * obj => depends p x.2 = false) l').
  { eapply Forall_impl; [exact Hc|]. intros x Hx. apply not_target. intros Ht.
    by apply Hp, (proj1 (list.Forall_forall _ _) Hx). }
  clear Hg Hc Hd Hp. induction Hr as [l|y l l' Hr IH]; [by constructor|].
  inversion Hi as [|? ? Hy Hl]; subst. constructor; [done|by apply IH].
Qed.

(** Find a resource among those owned. *)
Ltac removal := repeat first [apply removed_here | apply removed_app | apply removed_there].

Section release_rules.
Variable sigint : nat -> bool.
Variable m : gmap Z obj.
Variable io : list work * list transmit.
Hypothesis Hm : blocks_only m.
Local Abbreviation wpn := (nic_wp sigint).
Local Abbreviation holds := (holds m io).
Local Abbreviation independent h l := (Forall (fun x : Z * obj => depends h x.2 = false) l).

Lemma holds_free p size l l' F g :
  holds l F g -> removed p (OBlock size) l l' -> closed l' ->
  holds l' F (nic_next _ g (Free p) tt).
Proof.
  intros H Hr Hi.
  destruct (removed_grow _ _ _ _ m Hr (holds_grown _ _ _ _ _ H)) as (Hlk & Hg' & Hd).
  eapply holds_next; [exact H|done| |apply app_nil_r| |done].
  - intros E. cbn. by rewrite E.
  - intros E. cbn. unfold is_block. rewrite E, Hlk, not_in_use; [|done|by eapply closed_independent; [exact (holds_grown _ _ _ _ _ H)|..]]. by rewrite !orb_true_r.
Qed.

Lemma wp_free {S A} p size (f : unit -> M verbs S A) s Q l l' F g :
  holds l F g -> removed p (OBlock size) l l' -> closed l' ->
  (forall g', holds l' F g' -> wpn (f tt s) Q g') ->
  wpn (bind (call (Free p)) f s) Q g.
Proof. intros H Hr Hi HQ. apply wp_bind. intros [] _. by apply HQ, (holds_free _ size l l'). Qed.

Lemma wp_destroy_qp {S A} qp pd cq st (f : Z -> M verbs S A) s Q l l' F g :
  holds l F g -> removed qp (OQp pd cq st) l l' ->
  (forall g', holds l' F g' -> wpn (f 0 s) Q g') ->
  (forall r g', r <> 0 -> holds l (F ++ [FRelease]) g' -> wpn (f r s) Q g') ->
  wpn (bind (call (Destroy_qp qp)) f s) Q g.
Proof.
  intros H Hr. eapply wp_release; try done.
  intros Hlk. cbn. unfold is_qp. by rewrite Hlk.
Qed.

Lemma wp_destroy_ah {S A} h pd (f : Z -> M verbs S A) s Q l l' F g :
  holds l F g -> removed h (OAh pd) l l' ->
  (forall g', holds l' F g' -> wpn (f 0 s) Q g') ->
  (forall r g', r <> 0 -> holds l (F ++ [FRelease]) g' -> wpn (f r s) Q g') ->
  wpn (bind (call (Destroy_ah h)) f s) Q g.
Proof.
  intros H Hr. eapply wp_release; try done.
  intros Hlk. cbn. unfold is_ah. by rewrite Hlk.
Qed.

Lemma wp_dereg_mr {S A} h pd a n k (f : Z -> M verbs S A) s Q l l' F g :
  holds l F g -> removed h (OMr pd a n k) l l' ->
  (forall g', holds l' F g' -> wpn (f 0 s) Q g') ->
  (forall r g', r <> 0 -> holds l (F ++ [FRelease]) g' -> wpn (f r s) Q g') ->
  wpn (bind (call (Dereg_mr h)) f s) Q g.
Proof.
  intros H Hr. eapply wp_release; try done.
  intros Hlk. cbn. unfold is_mr. by rewrite Hlk.
Qed.

Lemma wp_destroy_cq {S A} cq ctx (f : Z -> M verbs S A) s Q l l' F g :
  holds l F g -> removed cq (OCq ctx) l l' -> independent cq l ->
  (forall g', holds l' F g' -> wpn (f 0 s) Q g') ->
  (forall r g', r <> 0 -> holds l (F ++ [FRelease]) g' -> wpn (f r s) Q g') ->
  wpn (bind (call (Destroy_cq cq)) f s) Q g.
Proof.
  intros H Hr Hi. eapply wp_release; try done.
  intros Hlk. cbn. unfold is_cq. rewrite Hlk, (holds_live _ _ _ _ _ H).
  by rewrite not_in_use.
Qed.

Lemma wp_dealloc_pd {S A} pd ctx (f : Z -> M verbs S A) s Q l l' F g :
  holds l F g -> removed pd (OPd ctx) l l' -> independent pd l ->
  (forall g', holds l' F g' -> wpn (f 0 s) Q g') ->
  (forall r g', r <> 0 -> holds l (F ++ [FRelease]) g' -> wpn (f r s) Q g') ->
  wpn (bind (call (Dealloc_pd pd)) f s) Q g.
Proof.
  intros H Hr Hi. eapply wp_release; try done.
  intros Hlk. cbn. unfold is_pd. rewrite Hlk, (holds_live _ _ _ _ _ H).
  by rewrite not_in_use.
Qed.

Lemma wp_close_device {S A} ctx (f : Z -> M verbs S A) s Q l l' F g :
  holds l F g -> removed ctx OContext l l' -> independent ctx l ->
  (forall g', holds l' F g' -> wpn (f 0 s) Q g') ->
  (forall r g', r <> 0 -> holds l (F ++ [FRelease]) g' -> wpn (f r s) Q g') ->
  wpn (bind (call (Close_device ctx)) f s) Q g.
Proof.
  intros H Hr Hi. eapply wp_release; try done.
  intros Hlk. cbn. unfold is_context. rewrite Hlk, (holds_live _ _ _ _ _ H).
  by rewrite not_in_use.
Qed.

End release_rules.

(** ** Numbered requests *)

Lemma take_seqZ b p k : 0 <= k -> (p <= Z.to_nat k)%nat -> take p (seqZ b k) = seqZ b (Z.of_nat p).
Proof.
  intros Hk Hp. replace k with (Z.of_nat p + (k - Z.of_nat p)) by lia.
  rewrite seqZ_app by lia. apply take_app_length'. rewrite length_seqZ. lia.
Qed.

Lemma seqZ_take_drop a k p :
  (p <= Z.to_nat k)%nat -> 0 <= k ->
  take p (seqZ a k) = seqZ a (Z.of_nat p) /\
  drop p (seqZ a k) = seqZ (a + Z.of_nat p) (k - Z.of_nat p).
Proof.
  intros Hp Hk. split; [by apply take_seqZ|].
  replace k with (Z.of_nat p + (k - Z.of_nat p)) at 1 by lia.
  rewrite seqZ_app by lia. apply drop_app_length'. rewrite length_seqZ. lia.
Qed.

(** The card owns requests number [a] to [b - 1], number [k] being [W k] with the
    id [k mod n].  A poll fails, or takes the oldest [ne] of them. *)
Definition polled_numbers (m : gmap Z obj) (n : Z) (W : Z -> work) (T : list transmit) (l : owned)
    (F : list failure) (cq a b : Z) (g : nic) (x : Z * list ibv_wc) : Prop :=
  x.1 < 0 /\ holds m (W <$> seqZ a (b - a), T) l F (nic_next _ g (Poll_cq cq 10) x) \/
  exists ne, x.1 = Z.of_nat ne /\ (ne <= 10)%nat /\ Z.of_nat ne <= b - a /\ length x.2 = ne /\
    wc_wr_id <$> x.2 = (fun k => k mod n) <$> seqZ a (Z.of_nat ne) /\
    completions_ok (incoming g) (arrived g) (W <$> seqZ a (b - a)) x.2 /\
    holds m (W <$> seqZ (a + Z.of_nat ne) (b - (a + Z.of_nat ne)), T) l F
      (nic_next _ g (Poll_cq cq 10) x).

Lemma poll_numbered m n W T l F cq ctx a b g x :
  holds m (W <$> seqZ a (b - a), T) l F g -> live g !! cq = Some (OCq ctx) ->
  (forall k, w_id (W k) = k mod n) -> a <= b -> poll_ok (incoming g) (arrived g) (outstanding g) 10 x ->
  polled_numbers m n W T l F cq a b g x.
Proof.
  intros H Hcq HW Hab Hx. pose proof H as (Hg & Hlive & HF & Hmis & Hio). injection Hio as Ho Ht.
  assert (Hr : rules _ g (Poll_cq cq 10) = []) by (cbn; unfold is_cq; by rewrite Hcq).
  assert (Hnext : forall ws, outstanding_next _ (outstanding g) (Poll_cq cq 10) x = ws ->
    holds m (ws, T) l F (nic_next _ g (Poll_cq cq 10) x)).
  { intros ws Hws. split; [done|]. split; [done|]. cbn [failed misuse nic_next]. rewrite Hr, HF, Hmis.
    split; [apply app_nil_r|]. split; [done|]. cbn [outstanding transmitted nic_next]. rewrite Hws.
    cbn [transmitted_next]. by rewrite Ht. }
  destruct Hx as [Hneg|(Hne & Hlen & Hle & Hids & Hcomp)].
  - left. split; [done|]. apply Hnext. cbn. by rewrite (proj2 (Z.ltb_lt _ _) Hneg).
  - right. exists (length x.2). rewrite Ho, length_fmap, length_seqZ in Hle.
    destruct (seqZ_take_drop a (b - a) (length x.2)) as [Htake Hdrop]; [lia|lia|].
    split; [lia|]. split; [lia|]. split; [lia|]. split; [done|]. split.
    + rewrite Hids, Ho, <- list_fmap_compose, <- fmap_take, Htake.
      apply list_fmap_ext. intros _ k _. apply HW.
    + split; [by rewrite <- Ho|]. apply Hnext. cbn [outstanding_next]. rewrite (proj2 (Z.ltb_ge _ _)) by lia.
      rewrite Ho, <- fmap_drop, Hdrop. do 2 f_equal. lia.
Qed.
