(* ===== verification/Rdma.v ===== *)
(** rdma.c: the resources of an RDMA endpoint, and the rings of work requests
    the programs post from.

    The file's static variables are the record [rdma]; pointers are addresses
    (0 is NULL).  The heap arrays are lists next to their addresses; memory that
    malloc returned and nothing has written is [Junk], about which nothing is
    known.  [goto] labels are the functions that continue at them. *)
From stdpp Require Import gmap.
From S2P Require Import Prelude CInt CLib RawPacket Prog Posix Verbs.
Local Open Scope Z_scope.
Local Open Scope c_scope.

(** ** State *)

Record array (T : Type) := { arr_ptr : Z; elems : list T }.
Arguments arr_ptr {T} a.
Arguments elems {T} a.
Arguments Build_array {T} arr_ptr elems.

Definition null_array {T} : array T := {| arr_ptr := 0; elems := [] |}.

Definition nthZ {T} (l : list T) (i : Z) : option T := if 0 <=? i then l !! Z.to_nat i else None.

(** [a[i] = v]; out of bounds is undefined. *)
Definition put {T} (a : array T) (i : Z) (v : T) : option (array T) :=
  if (0 <=? i) && (i <? Z.of_nat (length (elems a))) then
    Some {| arr_ptr := arr_ptr a; elems := <[Z.to_nat i := v]> (elems a) |}
  else None.

Record rdma := mk_rdma {
  max_mtu : Z;
  page_size : Z;
  queue_size : Z;
  send_flags : Z;
  context : Z;
  protection_domain : Z;
  completion_queue : Z;
  queue_pair : Z;
  header_buffer : Z;
  buffer : Z;
  scatter_gather : array ibv_sge;
  recv_requests : array ibv_recv_wr;
  send_requests : array ibv_send_wr;
  memory_region : option ibv_mr;
  header_memory_region : option ibv_mr;
  ah : Z
}.

Definition set_max_mtu x (s : rdma) : rdma :=
  mk_rdma x (page_size s) (queue_size s) (send_flags s) (context s) (protection_domain s)
    (completion_queue s) (queue_pair s) (header_buffer s) (buffer s) (scatter_gather s)
    (recv_requests s) (send_requests s) (memory_region s) (header_memory_region s) (ah s).
Definition set_page_size x (s : rdma) : rdma :=
  mk_rdma (max_mtu s) x (queue_size s) (send_flags s) (context s) (protection_domain s)
    (completion_queue s) (queue_pair s) (header_buffer s) (buffer s) (scatter_gather s)
    (recv_requests s) (send_requests s) (memory_region s) (header_memory_region s) (ah s).
Definition set_queue_size x (s : rdma) : rdma :=
  mk_rdma (max_mtu s) (page_size s) x (send_flags s) (context s) (protection_domain s)
    (completion_queue s) (queue_pair s) (header_buffer s) (buffer s) (scatter_gather s)
    (recv_requests s) (send_requests s) (memory_region s) (header_memory_region s) (ah s).
Definition set_send_flags x (s : rdma) : rdma :=
  mk_rdma (max_mtu s) (page_size s) (queue_size s) x (context s) (protection_domain s)
    (completion_queue s) (queue_pair s) (header_buffer s) (buffer s) (scatter_gather s)
    (recv_requests s) (send_requests s) (memory_region s) (header_memory_region s) (ah s).
Definition set_context x (s : rdma) : rdma :=
  mk_rdma (max_mtu s) (page_size s) (queue_size s) (send_flags s) x (protection_domain s)
    (completion_queue s) (queue_pair s) (header_buffer s) (buffer s) (scatter_gather s)
    (recv_requests s) (send_requests s) (memory_region s) (header_memory_region s) (ah s).
Definition set_protection_domain x (s : rdma) : rdma :=
  mk_rdma (max_mtu s) (page_size s) (queue_size s) (send_flags s) (context s) x
    (completion_queue s) (queue_pair s) (header_buffer s) (buffer s) (scatter_gather s)
    (recv_requests s) (send_requests s) (memory_region s) (header_memory_region s) (ah s).
Definition set_completion_queue x (s : rdma) : rdma :=
  mk_rdma (max_mtu s) (page_size s) (queue_size s) (send_flags s) (context s)
    (protection_domain s) x (queue_pair s) (header_buffer s) (buffer s) (scatter_gather s)
    (recv_requests s) (send_requests s) (memory_region s) (header_memory_region s) (ah s).
Definition set_queue_pair x (s : rdma) : rdma :=
  mk_rdma (max_mtu s) (page_size s) (queue_size s) (send_flags s) (context s)
    (protection_domain s) (completion_queue s) x (header_buffer s) (buffer s)
    (scatter_gather s) (recv_requests s) (send_requests s) (memory_region s)
    (header_memory_region s) (ah s).
Definition set_header_buffer x (s : rdma) : rdma :=
  mk_rdma (max_mtu s) (page_size s) (queue_size s) (send_flags s) (context s)
    (protection_domain s) (completion_queue s) (queue_pair s) x (buffer s) (scatter_gather
    s) (recv_requests s) (send_requests s) (memory_region s) (header_memory_region s) (ah s).
Definition set_buffer x (s : rdma) : rdma :=
  mk_rdma (max_mtu s) (page_size s) (queue_size s) (send_flags s) (context s)
    (protection_domain s) (completion_queue s) (queue_pair s) (header_buffer s) x
    (scatter_gather s) (recv_requests s) (send_requests s) (memory_region s)
    (header_memory_region s) (ah s).
Definition set_scatter_gather x (s : rdma) : rdma :=
  mk_rdma (max_mtu s) (page_size s) (queue_size s) (send_flags s) (context s)
    (protection_domain s) (completion_queue s) (queue_pair s) (header_buffer s) (buffer s) x
    (recv_requests s) (send_requests s) (memory_region s) (header_memory_region s) (ah s).
Definition set_recv_requests x (s : rdma) : rdma :=
  mk_rdma (max_mtu s) (page_size s) (queue_size s) (send_flags s) (context s)
    (protection_domain s) (completion_queue s) (queue_pair s) (header_buffer s) (buffer s)
    (scatter_gather s) x (send_requests s) (memory_region s) (header_memory_region s) (ah s).
Definition set_send_requests x (s : rdma) : rdma :=
  mk_rdma (max_mtu s) (page_size s) (queue_size s) (send_flags s) (context s)
    (protection_domain s) (completion_queue s) (queue_pair s) (header_buffer s) (buffer s)
    (scatter_gather s) (recv_requests s) x (memory_region s) (header_memory_region s) (ah s).
Definition set_memory_region x (s : rdma) : rdma :=
  mk_rdma (max_mtu s) (page_size s) (queue_size s) (send_flags s) (context s)
    (protection_domain s) (completion_queue s) (queue_pair s) (header_buffer s) (buffer s)
    (scatter_gather s) (recv_requests s) (send_requests s) x (header_memory_region s) (ah s).
Definition set_header_memory_region x (s : rdma) : rdma :=
  mk_rdma (max_mtu s) (page_size s) (queue_size s) (send_flags s) (context s)
    (protection_domain s) (completion_queue s) (queue_pair s) (header_buffer s) (buffer s)
    (scatter_gather s) (recv_requests s) (send_requests s) (memory_region s) x (ah s).
Definition set_ah x (s : rdma) : rdma :=
  mk_rdma (max_mtu s) (page_size s) (queue_size s) (send_flags s) (context s)
    (protection_domain s) (completion_queue s) (queue_pair s) (header_buffer s) (buffer s)
    (scatter_gather s) (recv_requests s) (send_requests s) (memory_region s)
    (header_memory_region s) x.

Definition rdma0 : rdma :=
  mk_rdma 0 0 0 IBV_SEND_SIGNALED 0 0 0 0 0 0 null_array null_array null_array None None 0.

(** [struct recv_buffer], [struct send_buffer] *)
Record recv_buffer := { rb_header_buffer : Z; rb_data_buffer : Z }.
Record send_buffer := { sb_data_buffer : Z }.

(** Memory nothing has been stored to. *)
Class Junk := {
  junk_sge : nat -> ibv_sge;
  junk_recv_wr : nat -> ibv_recv_wr;
  junk_send_wr : nat -> ibv_send_wr;
  junk_recv_buffer : nat -> recv_buffer;
  junk_send_buffer : nat -> send_buffer;
  junk_qp_attr : ibv_qp_attr;
  junk_gid : ibv_gid
}.

(** One such memory, for examples. *)
Definition junk_example : Junk :=
  {| junk_sge _ := {| sge_addr := 7; sge_length := 7; sge_lkey := 7 |};
     junk_recv_wr _ := {| r_wr_id := 7; r_next := None; r_sg_list := 7; r_num_sge := 7 |};
     junk_send_wr _ :=
       {| s_wr_id := 7; s_next := None; s_sg_list := 7; s_num_sge := 7; s_opcode := IBV_WR_SEND;
          s_send_flags := 7; s_ud := {| ud_ah := 7; ud_remote_qpn := 7; ud_remote_qkey := 7 |} |};
     junk_recv_buffer _ := {| rb_header_buffer := 7; rb_data_buffer := 7 |};
     junk_send_buffer _ := {| sb_data_buffer := 7 |};
     junk_qp_attr :=
       {| qp_state := IBV_QPS_RESET; qkey := 7; sq_psn := 7; pkey_index := 7; port_num := 7 |};
     junk_gid := replicate 16 7 |}.

Definition IB_PORT : Z := 1.
Definition QKEY : Z := 0x11111111.
Definition sizeof_recv_buffer : Z := 16.
Definition sizeof_send_buffer : Z := 8.
Definition sizeof_ibv_sge : Z := 16.
Definition sizeof_ibv_recv_wr : Z := 32.
Definition sizeof_ibv_send_wr : Z := 128.

Section code.
Context `{!AddrText} `{!Junk}.

Definition eprintf {S} (out : list Z) : M verbs S unit := call (VEprintf out).
Definition eputs {S} (s : string) : M verbs S unit := eprintf (string_bytes s ++ [10]).

(** The value of an int expression; overflow is undefined. *)
Definition int_expr {S} (z : Z) : M verbs S Z :=
  if (INT_MIN <=? z) && (z <=? INT_MAX) then ret z else undef "int overflow".

(** ** Initialisation *)

(** [buf] and [mr] store through the function's two pointers. *)
Definition allocate_buf (buf : Z -> rdma -> rdma) (mr : option ibv_mr -> rdma -> rdma)
    (size : Z) : M verbs rdma Z :=
  let! s := gets id in
  let! (rc, p) := call (Posix_memalign (u64 (page_size s)) size) in
  if negb (rc =? 0) then eputs "Couldn't allocate work buffer." ;! ret 1 else
  modify (buf p) ;!
  call (Memset p 0 size) ;!
  let! r := call (Reg_mr (protection_domain s) p size IBV_ACCESS_LOCAL_WRITE) in
  modify (mr r) ;!
  match r with
  | None =>
      eputs "Couldn't register memory region." ;!
      call (Free p) ;! modify (buf 0) ;! ret 1
  | Some _ => ret 0
  end.

(** The loop over the NULL-terminated device list; 0 when no device matches. *)
Fixpoint find_device (dev_name : list Z) (dev_list : list Z) : M verbs rdma Z :=
  match dev_list with
  | [] => ret 0
  | d :: dev_list =>
      let! name := call (Get_device_name d) in
      if bool_decide (name = dev_name) then ret d else find_device dev_name dev_list
  end.

Definition clean_context : M verbs rdma unit :=
  eputs "Failed to initialise RDMA context." ;! exit_ EXIT_FAILURE.
Definition clean_device : M verbs rdma unit :=
  let! s := gets id in call (Close_device (context s)) ;! clean_context.
Definition clean_protection_domain : M verbs rdma unit :=
  let! s := gets id in call (Dealloc_pd (protection_domain s)) ;! clean_device.
Definition clean_completion_queue : M verbs rdma unit :=
  let! s := gets id in call (Destroy_cq (completion_queue s)) ;! clean_protection_domain.
Definition clean_queue_pair : M verbs rdma unit :=
  let! s := gets id in call (Destroy_qp (queue_pair s)) ;! clean_completion_queue.

Definition init_attr (cq completion_queue_size : Z) : ibv_qp_init_attr :=
  {| qp_context := 0; send_cq := cq; recv_cq := cq; srq := 0;
     cap := {| max_send_wr := u32 completion_queue_size; max_recv_wr := u32 completion_queue_size;
               max_send_sge := 1; max_recv_sge := 2; max_inline_data := 0 |};
     qp_type := IBV_QPT_UD; sq_sig_all := 0 |}.

Definition init_state_attr (a : ibv_qp_attr) : ibv_qp_attr :=
  {| qp_state := IBV_QPS_INIT; qkey := QKEY; sq_psn := sq_psn a; pkey_index := 0;
     port_num := IB_PORT |}.
Definition with_state (st : ibv_qp_state) (a : ibv_qp_attr) : ibv_qp_attr :=
  {| qp_state := st; qkey := qkey a; sq_psn := sq_psn a; pkey_index := pkey_index a;
     port_num := port_num a |}.

(** The end of [rdma_init]: configure the queue pair. *)
Definition init_queue_pair : M verbs rdma unit :=
  let! s := gets id in
  let! (_, attr, iattr) := call (Query_qp (queue_pair s) IBV_QP_CAP) in
  (if max_mtu s <=? max_inline_data (cap iattr)
   then modify (set_send_flags (Z.lor (send_flags s) IBV_SEND_INLINE)) else ret tt) ;!
  let attr := init_state_attr attr in
  let! r := call (Modify_qp (queue_pair s) attr
                    (Z.lor (Z.lor (Z.lor IBV_QP_STATE IBV_QP_PKEY_INDEX) IBV_QP_PORT) IBV_QP_QKEY)) in
  if negb (r =? 0) then eputs "Failed to initialise queue pair." ;! clean_queue_pair else
  let attr := with_state IBV_QPS_RTR attr in
  let! r := call (Modify_qp (queue_pair s) attr IBV_QP_STATE) in
  if negb (r =? 0) then
    eputs "Failed to make queue pair ready to receive." ;! clean_queue_pair
  else ret tt.

(** The middle of [rdma_init]: the objects of an open device. *)
Definition init_objects (completion_queue_size : Z) : M verbs rdma unit :=
  let! s := gets id in
  let! (rc, port_info) := call (Query_port (context s) IB_PORT) in
  if negb (rc =? 0) then eputs "Failed to query port info." ;! clean_device else
  modify (set_max_mtu (u32 (Z.shiftl 1 (ibv_mtu_val (active_mtu port_info) + 7)))) ;!
  let! pd := call (Alloc_pd (context s)) in
  modify (set_protection_domain pd) ;!
  if pd =? 0 then eputs "Failed to allocate protection domain." ;! clean_context else
  let! cq := call (Create_cq (context s) completion_queue_size) in
  modify (set_completion_queue cq) ;!
  if cq =? 0 then
    eputs "Failed to create completion queue." ;! clean_protection_domain
  else
  let! qp := call (Create_qp pd (init_attr cq completion_queue_size)) in
  modify (set_queue_pair qp) ;!
  if qp =? 0 then eputs "Couldn't create queue pair." ;! clean_completion_queue else
  init_queue_pair.

Definition rdma_init (dev_name : list Z) (completion_queue_size : Z) : M verbs rdma unit :=
  let! page := call Sysconf_pagesize in
  modify (set_page_size (i32 page)) ;!
  modify (set_queue_size completion_queue_size) ;!
  let! (dev_list, devs) := call Get_device_list in
  if dev_list =? 0 then eputs "No IB devices found." ;! exit_ EXIT_FAILURE else
  let! ib_dev := find_device dev_name devs in
  if ib_dev =? 0 then
    eprintf (string_bytes "No device with name: " ++ dev_name ++ [10]) ;!
    call (Free_device_list dev_list) ;! exit_ EXIT_FAILURE
  else
  let! c := call (Open_device ib_dev) in
  modify (set_context c) ;!
  call (Free_device_list dev_list) ;!
  if c =? 0 then
    let! name := call (Get_device_name ib_dev) in
    eprintf (string_bytes "Failed to open device: " ++ name ++ [10]) ;! clean_context
  else init_objects completion_queue_size.

(** ** Cleanup *)

Definition release (what : string) (r : Z) : M verbs rdma unit :=
  if negb (r =? 0) then eputs what ;! exit_ EXIT_FAILURE else ret tt.

Definition internal_rdma_cleanup : M verbs rdma unit :=
  let! s := gets id in
  (if negb (ah s =? 0) then
     let! r := call (Destroy_ah (ah s)) in release "Couldn't destroy AH." r
   else ret tt) ;!
  let! r := call (Destroy_qp (queue_pair s)) in
  release "Couldn't destroy queue pair." r ;!
  let! r := call (Destroy_cq (completion_queue s)) in
  release "Couldn't destroy completion queue." r ;!
  let! r := call (Dealloc_pd (protection_domain s)) in
  release "Couldn't deallocate protection domain." r ;!
  let! r := call (Close_device (context s)) in
  release "Couldn't release context" r.

Definition mr_ptr (m : option ibv_mr) : Z := match m with Some m => mr_handle m | None => 0 end.

Definition rdma_cleanup : M verbs rdma unit :=
  let! s := gets id in
  let! r := call (Dereg_mr (mr_ptr (memory_region s))) in
  release "Couldn't destroy memory region." r ;!
  call (Free (buffer s)) ;!
  (match header_memory_region s with
   | Some m => let! r := call (Dereg_mr (mr_handle m)) in
               release "Couldn't destroy memory region." r
   | None => ret tt
   end) ;!
  (if negb (header_buffer s =? 0) then call (Free (header_buffer s)) else ret tt) ;!
  (if negb (arr_ptr (scatter_gather s) =? 0) then call (Free (arr_ptr (scatter_gather s)))
   else ret tt) ;!
  (if negb (arr_ptr (recv_requests s) =? 0) then call (Free (arr_ptr (recv_requests s)))
   else ret tt) ;!
  (if negb (arr_ptr (send_requests s) =? 0) then call (Free (arr_ptr (send_requests s)))
   else ret tt) ;!
  internal_rdma_cleanup.

(** ** The rings *)

(** [malloc(size)] of an array; its elements are [junk]. *)
Definition malloc_array {T} (junk : nat -> T) (size sizeof_elem : Z) : M verbs rdma (array T) :=
  let! p := call (Malloc size) in
  ret {| arr_ptr := p;
         elems := if p =? 0 then [] else junk <$> seq 0 (Z.to_nat (size / sizeof_elem)) |}.

Definition fail_cleanup {A} : M verbs rdma A := rdma_cleanup ;! exit_ EXIT_FAILURE.

Definition next_of (i completion_queue_size : Z) : option Z :=
  if i =? completion_queue_size - 1 then Some 0 else Some (i + 1).

(** The body of the loop of [rdma_init_server], and the loop. *)
Definition recv_ring : Type := array recv_buffer * array ibv_sge * array ibv_recv_wr.

Definition recv_ring_step (n header_buffers data_buffers header_key key i : Z)
    (st : recv_ring) : option recv_ring :=
  let '(result, sg, wrs) := st in
  let b := {| rb_header_buffer := header_buffers + i * sizeof_ib_grh;
              rb_data_buffer := data_buffers + i * MSG_SIZE |} in
  result ← put result i b;
  sg ← put sg (2 * i) {| sge_addr := u64 (rb_header_buffer b); sge_length := 40;
                         sge_lkey := header_key |};
  sg ← put sg (2 * i + 1) {| sge_addr := u64 (rb_data_buffer b); sge_length := MSG_SIZE;
                             sge_lkey := key |};
  wrs ← put wrs i {| r_wr_id := u64 i; r_next := next_of i n; r_sg_list := 2 * i;
                     r_num_sge := 2 |};
  Some (result, sg, wrs).

Fixpoint ring_loop {R} (step : Z -> R -> option R) (n : nat) (i : Z) (st : R) : option R :=
  match n with
  | O => Some st
  | S n => st ← step i st; ring_loop step n (i + 1) st
  end.

Definition rdma_init_server (dev_name : list Z) (completion_queue_size : Z) :
    M verbs rdma (array recv_buffer) :=
  let n := completion_queue_size in
  rdma_init dev_name n ;!
  let! size := int_expr (n * MSG_SIZE) in
  let! r := allocate_buf set_buffer set_memory_region (u64 size) in
  if negb (r =? 0) then internal_rdma_cleanup ;! exit_ EXIT_FAILURE else
  let! size := int_expr (n * 40) in
  let! r := allocate_buf set_header_buffer set_header_memory_region (u64 size) in
  if negb (r =? 0) then fail_cleanup else
  let! result := malloc_array junk_recv_buffer (u64 (u64 n * sizeof_recv_buffer))
                   sizeof_recv_buffer in
  if arr_ptr result =? 0 then fail_cleanup else
  let! n2 := int_expr (n * 2) in
  let! sg := malloc_array junk_sge (u64 (u64 n2 * sizeof_ibv_sge)) sizeof_ibv_sge in
  modify (set_scatter_gather sg) ;!
  if arr_ptr sg =? 0 then fail_cleanup else
  let! wrs := malloc_array junk_recv_wr (u64 (u64 n * sizeof_ibv_recv_wr)) sizeof_ibv_recv_wr in
  modify (set_recv_requests wrs) ;!
  if arr_ptr wrs =? 0 then fail_cleanup else
  let! s := gets id in
  let! header_mr := defined "header_memory_region" (header_memory_region s) in
  let! mr := defined "memory_region" (memory_region s) in
  let! (result, sg, wrs) := defined "store out of bounds"
      (ring_loop (recv_ring_step n (header_buffer s) (buffer s) (lkey header_mr) (lkey mr))
         (Z.to_nat n) 0 (result, sg, wrs)) in
  modify (set_scatter_gather sg) ;!
  modify (set_recv_requests wrs) ;!
  let! (rc, gid) := call (Query_gid (context s) IB_PORT 0) in
  if negb (rc =? 0) then
    eputs "Could not get local gid for gid index 0" ;!
    call (Free (arr_ptr result)) ;! fail_cleanup
  else
  let! (rc, port_attr) := call (Query_port (context s) IB_PORT) in
  if negb (rc =? 0) then
    eputs "Couldn't get port info" ;! call (Free (arr_ptr result)) ;! fail_cleanup
  else
  let gid_string := inet_ntop6 gid in
  if 33 <=? Z.of_nat (length gid_string) then
    eputs "Couldn't get global id" ;! call (Free (arr_ptr result)) ;! fail_cleanup
  else
  let! qp_num := call (Qp_num (queue_pair s)) in
  eprintf (string_bytes "LID: " ++ fmt_d (Verbs.lid port_attr) ++ [10] ++
           string_bytes "QPN: " ++ fmt_d (i32 qp_num) ++ [10] ++
           string_bytes "GID: " ++ gid_string ++ [10]) ;!
  ret result.

(** The body of the loop of [rdma_init_client]. *)
Definition send_ring : Type := array send_buffer * array ibv_sge * array ibv_send_wr.

Definition send_ring_step (n data_buffers key flags ah qpn i : Z)
    (st : send_ring) : option send_ring :=
  let '(result, sg, wrs) := st in
  let b := {| sb_data_buffer := data_buffers + i * MSG_SIZE |} in
  result ← put result i b;
  sg ← put sg i {| sge_addr := u64 (sb_data_buffer b); sge_length := MSG_SIZE;
                   sge_lkey := key |};
  wrs ← put wrs i
    {| s_wr_id := u64 i; s_next := next_of i n; s_sg_list := i; s_num_sge := 1;
       s_opcode := IBV_WR_SEND; s_send_flags := u32 flags;
       s_ud := {| ud_ah := ah; ud_remote_qpn := qpn; ud_remote_qkey := QKEY |} |};
  Some (result, sg, wrs).

Definition rts_attr (a : ibv_qp_attr) : ibv_qp_attr :=
  {| qp_state := IBV_QPS_RTS; qkey := qkey a; sq_psn := 0; pkey_index := pkey_index a;
     port_num := port_num a |}.

Definition server_ah (lid : Z) (gid : ibv_gid) : ibv_ah_attr :=
  {| grh := {| dgid := gid; flow_label := 0; sgid_index := 0; hop_limit := 1;
               traffic_class := 0 |};
     dlid := u16 lid; sl := 0; src_path_bits := 0; static_rate := 0; is_global := 1;
     ah_port_num := IB_PORT |}.

Definition rdma_init_client (dev_name : list Z) (completion_queue_size lid : Z)
    (gid : ibv_gid) (qpn : Z) : M verbs rdma (array send_buffer) :=
  let n := completion_queue_size in
  rdma_init dev_name n ;!
  let! size := int_expr (n * MSG_SIZE) in
  let! r := allocate_buf set_buffer set_memory_region (u64 size) in
  if negb (r =? 0) then internal_rdma_cleanup ;! exit_ EXIT_FAILURE else
  let! result := malloc_array junk_send_buffer (u64 (u64 n * sizeof_send_buffer))
                   sizeof_send_buffer in
  if arr_ptr result =? 0 then fail_cleanup else
  let! sg := malloc_array junk_sge (u64 (u64 n * sizeof_ibv_sge)) sizeof_ibv_sge in
  modify (set_scatter_gather sg) ;!
  if arr_ptr sg =? 0 then fail_cleanup else
  let! wrs := malloc_array junk_send_wr (u64 (u64 n * sizeof_ibv_send_wr)) sizeof_ibv_send_wr in
  modify (set_send_requests wrs) ;!
  if arr_ptr wrs =? 0 then fail_cleanup else
  let! s := gets id in
  let! rc := call (Modify_qp (queue_pair s) (rts_attr junk_qp_attr)
                     (Z.lor IBV_QP_STATE IBV_QP_SQ_PSN)) in
  if negb (rc =? 0) then
    eputs "Failed to make queue pair ready to send." ;!
    call (Free (arr_ptr result)) ;! fail_cleanup
  else
  let! a := call (Create_ah (protection_domain s) (server_ah lid gid)) in
  modify (set_ah a) ;!
  if a =? 0 then
    let! e := call Errno in
    let! msg := if negb (e =? 0) then let! e := call Errno in call (Strerror e) else ret [] in
    eprintf (string_bytes "Failed to create AH: " ++ msg ++ [10]) ;!
    call (Free (arr_ptr result)) ;! fail_cleanup
  else
  let! mr := defined "memory_region" (memory_region s) in
  let! (result, sg, wrs) := defined "store out of bounds"
      (ring_loop (send_ring_step n (buffer s) (lkey mr) (send_flags s) a qpn)
         (Z.to_nat n) 0 (result, sg, wrs)) in
  modify (set_scatter_gather sg) ;!
  modify (set_send_requests wrs) ;!
  ret result.

(** ** Posting *)

Definition sg_entries (sg : list ibv_sge) (i n : Z) : list ibv_sge :=
  take (Z.to_nat n) (drop (Z.to_nat i) sg).

(** The list of requests the library walks, from the one at [p]; [None] when it
    does not end or leaves the array. *)
Fixpoint wr_chain {W} (next : W -> option Z) (entries : W -> list ibv_sge) (fuel : nat)
    (wrs : list W) (p : option Z) : option (list (W * list ibv_sge)) :=
  match p, fuel with
  | None, _ => Some []
  | Some _, O => None
  | Some i, S fuel =>
      w ← nthZ wrs i;
      l ← wr_chain next entries fuel wrs (next w);
      Some ((w, entries w) :: l)
  end.

Definition send_chain (sg : list ibv_sge) (wrs : list ibv_send_wr) (p : option Z) :=
  wr_chain s_next (fun w => sg_entries sg (s_sg_list w) (s_num_sge w)) (length wrs) wrs p.
Definition recv_chain (sg : list ibv_sge) (wrs : list ibv_recv_wr) (p : option Z) :=
  wr_chain r_next (fun w => sg_entries sg (r_sg_list w) (r_num_sge w)) (length wrs) wrs p.

Definition set_s_next (p : option Z) (w : ibv_send_wr) : ibv_send_wr :=
  {| s_wr_id := s_wr_id w; s_next := p; s_sg_list := s_sg_list w; s_num_sge := s_num_sge w;
     s_opcode := s_opcode w; s_send_flags := s_send_flags w; s_ud := s_ud w |}.
Definition set_r_next (p : option Z) (w : ibv_recv_wr) : ibv_recv_wr :=
  {| r_wr_id := r_wr_id w; r_next := p; r_sg_list := r_sg_list w; r_num_sge := r_num_sge w |}.

(** [(start + count - 1) % queue_size], as size_t. *)
Definition last_index (start count : Z) : M verbs rdma Z :=
  let! sum := int_expr (start + count) in
  let! last := int_expr (sum - 1) in
  let! s := gets id in
  if queue_size s =? 0 then undef "division by zero" else ret (u64 (Z.rem last (queue_size s))).

Definition post_sends (start count : Z) : M verbs rdma Z :=
  let! last_idx := last_index start count in
  let! s := gets id in
  let wrs := send_requests s in
  let! w := defined "send_requests[last_idx]" (nthZ (elems wrs) last_idx) in
  let old := s_next w in
  let! wrs := defined "send_requests[last_idx]" (put wrs last_idx (set_s_next None w)) in
  modify (set_send_requests wrs) ;!
  let! l := defined "send request list"
              (send_chain (elems (scatter_gather s)) (elems wrs) (Some start)) in
  let! (result, bad_wr) := call (Post_send (queue_pair s) l) in
  let! return_value :=
    if negb (result =? 0) then
      let! e := call Errno in
      let! m1 := call (Strerror result) in
      let! m2 := call (Strerror e) in
      eprintf (string_bytes "post send failed (" ++ fmt_d result ++
               string_bytes ") with errno: " ++ fmt_d e ++ [10] ++ m1 ++ [10] ++ m2 ++ [10]) ;!
      ret (-1)
    else ret 0 in
  let! w := defined "send_requests[last_idx]" (nthZ (elems wrs) last_idx) in
  let! wrs := defined "send_requests[last_idx]" (put wrs last_idx (set_s_next old w)) in
  modify (set_send_requests wrs) ;!
  ret return_value.

Definition post_recvs (start count : Z) : M verbs rdma Z :=
  let! last_idx := last_index start count in
  let! s := gets id in
  let wrs := recv_requests s in
  let! w := defined "recv_requests[last_idx]" (nthZ (elems wrs) last_idx) in
  let old := r_next w in
  let! wrs := defined "recv_requests[last_idx]" (put wrs last_idx (set_r_next None w)) in
  modify (set_recv_requests wrs) ;!
  let! l := defined "receive request list"
              (recv_chain (elems (scatter_gather s)) (elems wrs) (Some start)) in
  let! (result, bad_wr) := call (Post_recv (queue_pair s) l) in
  let! return_value :=
    if negb (result =? 0) then
      let! e := call Errno in
      eprintf (string_bytes "post receive failed (" ++ fmt_d result ++
               string_bytes ") with errno: " ++ fmt_d e ++ [10]) ;!
      ret (-1)
    else ret 0 in
  let! w := defined "recv_requests[last_idx]" (nthZ (elems wrs) last_idx) in
  let! wrs := defined "recv_requests[last_idx]" (put wrs last_idx (set_r_next old w)) in
  modify (set_recv_requests wrs) ;!
  ret return_value.

End code.
