(* ===== verification/VerbsStructs.v ===== *)
(** verbs.h's other structures: what the programs and the provider exchange in
    memory, the requests and completions, address handles, flow steering rules and
    the attributes of the extended operations.

    The members of an anonymous union or structure are under the name [""]. *)
From S2P Require Import Prelude Layout VerbsTypes RawPacket.
From S2P Require Rdma.
Local Open Scope Z_scope.
Local Open Scope string_scope.

Definition be16 := Scalar 2.
Definition be32 := Scalar 4.

(** The C library's, of two 64-bit numbers. *)
Definition timespec : fields := [("tv_sec", Scalar 8); ("tv_nsec", Scalar 8)].

(** An anonymous member. *)
Abbreviation anonymous := (EmptyString : string).

(** ** Addresses *)

Definition ibv_gid : ctype :=
  Union [("raw", Arr uint8_t 16);
         ("global", Struct [("subnet_prefix", be64); ("interface_id", be64)])].
Definition ibv_global_route : fields :=
  [("dgid", ibv_gid); ("flow_label", uint32_t); ("sgid_index", uint8_t); ("hop_limit", uint8_t);
   ("traffic_class", uint8_t)].
Definition ibv_grh : fields :=
  [("version_tclass_flow", be32); ("paylen", be16); ("next_hdr", uint8_t); ("hop_limit", uint8_t);
   ("sgid", ibv_gid); ("dgid", ibv_gid)].
Definition ibv_ah_attr : fields :=
  [("grh", Struct ibv_global_route); ("dlid", uint16_t); ("sl", uint8_t); ("src_path_bits", uint8_t);
   ("static_rate", uint8_t); ("is_global", uint8_t); ("port_num", uint8_t)].
Definition ibv_ah : fields := [("context", ptr); ("pd", ptr); ("handle", uint32_t)].

(** ** Devices and events *)

Definition ibv_device_ops : fields := [("_dummy1", ptr); ("_dummy2", ptr)].
Definition IBV_SYSFS_NAME_MAX : Z := 64.
Definition IBV_SYSFS_PATH_MAX : Z := 256.
Definition ibv_device : fields :=
  [("_ops", Struct ibv_device_ops); ("node_type", enum); ("transport_type", enum);
   ("name", Arr char IBV_SYSFS_NAME_MAX); ("dev_name", Arr char IBV_SYSFS_NAME_MAX);
   ("dev_path", Arr char IBV_SYSFS_PATH_MAX); ("ibdev_path", Arr char IBV_SYSFS_PATH_MAX)].
Definition ibv_query_device_ex_input : fields := [("comp_mask", uint32_t)].
Definition ibv_async_event : fields :=
  [("element", Union [("cq", ptr); ("qp", ptr); ("srq", ptr); ("wq", ptr); ("port_num", int)]);
   ("event_type", enum)].
Definition ibv_comp_channel : fields := [("context", ptr); ("fd", int); ("refcnt", int)].

(** ** Memory *)

Definition ibv_mr : fields :=
  [("context", ptr); ("pd", ptr); ("addr", ptr); ("length", size_t); ("handle", uint32_t);
   ("lkey", uint32_t); ("rkey", uint32_t)].
Definition ibv_mw_bind_info : fields :=
  [("mr", ptr); ("addr", uint64_t); ("length", uint64_t); ("mw_access_flags", uint32_t)].
Definition ibv_mw_bind : fields :=
  [("wr_id", uint64_t); ("send_flags", uint32_t); ("bind_info", Struct ibv_mw_bind_info)].
Definition ibv_sge : fields := [("addr", uint64_t); ("length", uint32_t); ("lkey", uint32_t)].

(** ** Requests and completions *)

Definition ibv_wc : fields :=
  [("wr_id", uint64_t); ("status", enum); ("opcode", enum); ("vendor_err", uint32_t);
   ("byte_len", uint32_t); (anonymous, Union [("imm_data", be32); ("invalidated_rkey", uint32_t)]);
   ("qp_num", uint32_t); ("src_qp", uint32_t); ("wc_flags", uint32_t); ("pkey_index", uint16_t);
   ("slid", uint16_t); ("sl", uint8_t); ("dlid_path_bits", uint8_t)].
Definition ibv_send_wr : fields :=
  [("wr_id", uint64_t); ("next", ptr); ("sg_list", ptr); ("num_sge", int); ("opcode", enum);
   ("send_flags", uint32_t); (anonymous, Union [("imm_data", be32); ("invalidate_rkey", uint32_t)]);
   ("wr", Union
     [("rdma", Struct [("remote_addr", uint64_t); ("rkey", uint32_t)]);
      ("atomic", Struct [("remote_addr", uint64_t); ("compare_add", uint64_t); ("swap", uint64_t);
                         ("rkey", uint32_t)]);
      ("ud", Struct [("ah", ptr); ("remote_qpn", uint32_t); ("remote_qkey", uint32_t)])]);
   ("qp_type", Union [("xrc", Struct [("remote_srqn", uint32_t)])]);
   (anonymous, Union
     [("bind_mw", Struct [("mw", ptr); ("rkey", uint32_t); ("bind_info", Struct ibv_mw_bind_info)]);
      ("tso", Struct [("hdr", ptr); ("hdr_sz", uint16_t); ("mss", uint16_t)])])].
Definition ibv_recv_wr : fields :=
  [("wr_id", uint64_t); ("next", ptr); ("sg_list", ptr); ("num_sge", int)].
Definition ibv_ops_wr : fields :=
  [("wr_id", uint64_t); ("next", ptr); ("opcode", enum); ("flags", int);
   ("tm", Struct
     [("unexpected_cnt", uint32_t); ("handle", uint32_t);
      ("add", Struct [("recv_wr_id", uint64_t); ("sg_list", ptr); ("num_sge", int);
                      ("tag", uint64_t); ("mask", uint64_t)])])].
Definition ibv_poll_cq_attr : fields := [("comp_mask", uint32_t)].
Definition ibv_wc_tm_info : fields := [("tag", uint64_t); ("priv", uint32_t)].

(** ** Attributes *)

Definition ibv_td_init_attr : fields := [("comp_mask", uint32_t)].
Definition ibv_xrcd_init_attr : fields := [("comp_mask", uint32_t); ("fd", int); ("oflags", int)].
Definition ibv_wq_init_attr : fields :=
  [("wq_context", ptr); ("wq_type", enum); ("max_wr", uint32_t); ("max_sge", uint32_t); ("pd", ptr);
   ("cq", ptr); ("comp_mask", uint32_t); ("create_flags", uint32_t)].
Definition ibv_wq_attr : fields :=
  [("attr_mask", uint32_t); ("wq_state", enum); ("curr_wq_state", enum); ("flags", uint32_t);
   ("flags_mask", uint32_t)].
Definition ibv_rwq_ind_table_init_attr : fields :=
  [("log_ind_tbl_size", uint32_t); ("ind_tbl", ptr); ("comp_mask", uint32_t)].
Definition ibv_qp_open_attr : fields :=
  [("comp_mask", uint32_t); ("qp_num", uint32_t); ("xrcd", ptr); ("qp_context", ptr);
   ("qp_type", enum)].
Definition ibv_qp_attr : fields :=
  [("qp_state", enum); ("cur_qp_state", enum); ("path_mtu", enum); ("path_mig_state", enum);
   ("qkey", uint32_t); ("rq_psn", uint32_t); ("sq_psn", uint32_t); ("dest_qp_num", uint32_t);
   ("qp_access_flags", uint32_t); ("cap", Struct ibv_qp_cap); ("ah_attr", Struct ibv_ah_attr);
   ("alt_ah_attr", Struct ibv_ah_attr); ("pkey_index", uint16_t); ("alt_pkey_index", uint16_t);
   ("en_sqd_async_notify", uint8_t); ("sq_draining", uint8_t); ("max_rd_atomic", uint8_t);
   ("max_dest_rd_atomic", uint8_t); ("min_rnr_timer", uint8_t); ("port_num", uint8_t);
   ("timeout", uint8_t); ("retry_cnt", uint8_t); ("rnr_retry", uint8_t); ("alt_port_num", uint8_t);
   ("alt_timeout", uint8_t); ("rate_limit", uint32_t)].
Definition ibv_moderate_cq : fields := [("cq_count", uint16_t); ("cq_period", uint16_t)].
Definition ibv_modify_cq_attr : fields :=
  [("attr_mask", uint32_t); ("moderate", Struct ibv_moderate_cq)].
Definition ibv_cq_init_attr_ex : fields :=
  [("cqe", uint32_t); ("cq_context", ptr); ("channel", ptr); ("comp_vector", uint32_t);
   ("wc_flags", uint64_t); ("comp_mask", uint32_t); ("flags", uint32_t)].
Definition ibv_parent_domain_init_attr : fields :=
  [("pd", ptr); ("td", ptr); ("comp_mask", uint32_t)].
Definition ibv_values_ex : fields := [("comp_mask", uint32_t); ("raw_clock", Struct timespec)].

(** ** Flow steering rules *)

Definition ibv_flow_eth_filter : fields :=
  [("dst_mac", Arr uint8_t 6); ("src_mac", Arr uint8_t 6); ("ether_type", uint16_t);
   ("vlan_tag", uint16_t)].
Definition ibv_flow_ipv4_filter : fields := [("src_ip", uint32_t); ("dst_ip", uint32_t)].
Definition ibv_flow_ipv4_ext_filter : fields :=
  [("src_ip", uint32_t); ("dst_ip", uint32_t); ("proto", uint8_t); ("tos", uint8_t);
   ("ttl", uint8_t); ("flags", uint8_t)].
Definition ibv_flow_ipv6_filter : fields :=
  [("src_ip", Arr uint8_t 16); ("dst_ip", Arr uint8_t 16); ("flow_label", uint32_t);
   ("next_hdr", uint8_t); ("traffic_class", uint8_t); ("hop_limit", uint8_t)].
Definition ibv_flow_tcp_udp_filter : fields := [("dst_port", uint16_t); ("src_port", uint16_t)].
Definition ibv_flow_tunnel_filter : fields := [("tunnel_id", uint32_t)].

Definition ibv_flow_spec_eth : fields :=
  [("type", enum); ("size", uint16_t); ("val", Struct ibv_flow_eth_filter);
   ("mask", Struct ibv_flow_eth_filter)].
Definition ibv_flow_spec_ipv4 : fields :=
  [("type", enum); ("size", uint16_t); ("val", Struct ibv_flow_ipv4_filter);
   ("mask", Struct ibv_flow_ipv4_filter)].
Definition ibv_flow_spec_ipv4_ext : fields :=
  [("type", enum); ("size", uint16_t); ("val", Struct ibv_flow_ipv4_ext_filter);
   ("mask", Struct ibv_flow_ipv4_ext_filter)].
Definition ibv_flow_spec_ipv6 : fields :=
  [("type", enum); ("size", uint16_t); ("val", Struct ibv_flow_ipv6_filter);
   ("mask", Struct ibv_flow_ipv6_filter)].
Definition ibv_flow_spec_tcp_udp : fields :=
  [("type", enum); ("size", uint16_t); ("val", Struct ibv_flow_tcp_udp_filter);
   ("mask", Struct ibv_flow_tcp_udp_filter)].
Definition ibv_flow_spec_tunnel : fields :=
  [("type", enum); ("size", uint16_t); ("val", Struct ibv_flow_tunnel_filter);
   ("mask", Struct ibv_flow_tunnel_filter)].
Definition ibv_flow_spec_action_tag : fields :=
  [("type", enum); ("size", uint16_t); ("tag_id", uint32_t)].
Definition ibv_flow_spec_action_drop : fields := [("type", enum); ("size", uint16_t)].

(** The members of the union in [struct ibv_flow_spec]; [hdr] is the first. *)
Definition flow_spec_hdr : fields := [("type", enum); ("size", uint16_t)].
Definition flow_spec_members : fields :=
  [("hdr", Struct flow_spec_hdr); ("eth", Struct ibv_flow_spec_eth);
   ("ipv4", Struct ibv_flow_spec_ipv4); ("tcp_udp", Struct ibv_flow_spec_tcp_udp);
   ("ipv4_ext", Struct ibv_flow_spec_ipv4_ext); ("ipv6", Struct ibv_flow_spec_ipv6);
   ("tunnel", Struct ibv_flow_spec_tunnel); ("flow_tag", Struct ibv_flow_spec_action_tag);
   ("drop", Struct ibv_flow_spec_action_drop)].
Definition ibv_flow_spec : fields := [(anonymous, Union flow_spec_members)].

Definition ibv_flow_attr : fields :=
  [("comp_mask", uint32_t); ("type", enum); ("size", uint16_t); ("priority", uint16_t);
   ("num_of_specs", uint8_t); ("port", uint8_t); ("flags", uint32_t)].

(** [ibv_cq_ex_to_cq]: the same address. *)
Definition ibv_cq_ex_to_cq (cq : Z) : Z := cq.

(** ** Properties *)

(** The sizes rdma.c allocates by, and where it puts the routing header. *)
Lemma rdma_sizes :
  sizeof (Struct ibv_sge) = Rdma.sizeof_ibv_sge /\
  sizeof (Struct ibv_recv_wr) = Rdma.sizeof_ibv_recv_wr /\
  sizeof (Struct ibv_send_wr) = Rdma.sizeof_ibv_send_wr /\
  sizeof (Struct ibv_grh) = sizeof_ib_grh.
Proof. vm_compute. repeat split. Qed.

(** A field and its offset. *)
Definition field_offsets (fs : fields) : list (string * Z) :=
  (fun f => (f, offsetof fs f)) <$> fs.*1.

Lemma grh_offsets :
  field_offsets ibv_grh =
    [("version_tclass_flow", 0); ("paylen", 4); ("next_hdr", 6); ("hop_limit", 7); ("sgid", 8);
     ("dgid", 24)].
Proof. vm_compute. reflexivity. Qed.

(** A member of the union of the steering rules starts with the header by which
    its reader tells which one it is, and does not exceed the union. *)
Lemma flow_spec_member n fs :
  (n, Struct fs) ∈ flow_spec_members ->
  readable_as fs flow_spec_hdr /\ sizeof (Struct fs) <= sizeof (Struct ibv_flow_spec).
Proof.
  intros Hin. unfold flow_spec_members in Hin.
  repeat (apply elem_of_cons in Hin as [Hin|Hin]);
    [injection Hin as -> ->; split; [|by vm_compute].. | by apply not_elem_of_nil in Hin].
  - intros f t Hf. done.
  - apply (readable_prefix flow_spec_hdr (drop 2 ibv_flow_spec_eth)).
  - apply (readable_prefix flow_spec_hdr (drop 2 ibv_flow_spec_ipv4)).
  - apply (readable_prefix flow_spec_hdr (drop 2 ibv_flow_spec_tcp_udp)).
  - apply (readable_prefix flow_spec_hdr (drop 2 ibv_flow_spec_ipv4_ext)).
  - apply (readable_prefix flow_spec_hdr (drop 2 ibv_flow_spec_ipv6)).
  - apply (readable_prefix flow_spec_hdr (drop 2 ibv_flow_spec_tunnel)).
  - apply (readable_prefix flow_spec_hdr (drop 2 ibv_flow_spec_action_tag)).
  - apply (readable_prefix flow_spec_hdr (drop 2 ibv_flow_spec_action_drop)).
Qed.

(** C34: memory seen through two types.  The header's casts are layout compatible:
    an [ibv_cq_ex] can be read as an [ibv_cq], each field where [ibv_cq_ex_to_cq]'s
    pointer leads to, and the extended attributes of queue
    pairs and shared receive queues as the plain ones, whatever the sizes of the C
    library's types.  Every member of the union of the steering rules starts with
    the type and size by which it is told apart, and fits the union.  The 40 bytes
    rdma.c reserves before a payload are an [ibv_grh], whose fields are where
    raw_packet.h and the wire have them; and the sizes rdma.c's arrays are modelled
    with are those of the structures. *)
Theorem views_readable `{!Pthread} :
  (readable_as ibv_cq_ex ibv_cq /\
   (forall p f t, (f, t) ∈ ibv_cq -> ibv_cq_ex_to_cq p + offsetof ibv_cq f = p + offsetof ibv_cq_ex f) /\
   readable_as ibv_srq_init_attr_ex ibv_srq_init_attr /\
   readable_as ibv_qp_init_attr_ex ibv_qp_init_attr) /\
  (forall n fs, (n, Struct fs) ∈ flow_spec_members ->
     readable_as fs flow_spec_hdr /\ sizeof (Struct fs) <= sizeof (Struct ibv_flow_spec)) /\
  field_offsets ibv_grh =
    [("version_tclass_flow", 0); ("paylen", 4); ("next_hdr", 6); ("hop_limit", 7); ("sgid", 8);
     ("dgid", 24)] /\
  (sizeof (Struct ibv_sge) = Rdma.sizeof_ibv_sge /\
   sizeof (Struct ibv_recv_wr) = Rdma.sizeof_ibv_recv_wr /\
   sizeof (Struct ibv_send_wr) = Rdma.sizeof_ibv_send_wr /\
   sizeof (Struct ibv_grh) = sizeof_ib_grh).
Proof.
  split.
  { destruct casts_readable as (Hcq & Hsrq & Hqp). split; [done|]. split; [|by split].
    intros p f t Hf. unfold ibv_cq_ex_to_cq. by destruct (Hcq f t Hf) as [_ ->]. }
  split; [apply flow_spec_member|].
  split; [apply grh_offsets|apply rdma_sizes].
Qed.
