(* ===== verification/RdmaCalls.v ===== *)
(** The calls of rdma.c: initialisation and cleanup post nothing, complete
    nothing, print nothing and do not test the loop flag. *)
From S2P Require Import Prelude Prog Calls Posix Verbs Rdma.
Local Open Scope Z_scope.

Definition quiet_call (X : Type) (e : verbs X) : Prop :=
  match e with
  | VSigint | VPrintf _ | Post_send _ _ | Post_recv _ _ | Poll_cq _ _ => False
  | _ => True
  end.

(** The part of the environment's state such calls do not touch. *)
Definition unseen (g g' : nic) : Prop :=
  trail g' = trail g /\ arrived g' = arrived g /\ incoming g' = incoming g.

#[export] Instance unseen_preorder : PreOrder unseen.
Proof. split; [by intros g|]. intros g1 g2 g3 H1 H2. unfold unseen in *. intuition congruence. Qed.

Lemma quiet_call_unseen X (e : verbs X) g x : quiet_call X e -> unseen g (nic_next X g e x).
Proof. destruct e; intros He; try done; (split; [apply app_nil_r|done]). Qed.

Section rdma.
Context {TX : AddrText} {JK : Junk}.
Abbreviation quietly := (calls_only quiet_call).

Lemma calls_eprintf {S} out : quietly (eprintf (S:=S) out).
Proof. by apply calls_call. Qed.

Lemma calls_eputs {S} out : quietly (eputs (S:=S) out).
Proof. by apply calls_call. Qed.

Lemma calls_int_expr {S} z : quietly (int_expr (S:=S) z).
Proof. unfold int_expr. calls. Qed.

#[local] Hint Resolve calls_eprintf calls_eputs calls_int_expr : calls.

Lemma calls_allocate_buf buf mr size : quietly (allocate_buf buf mr size).
Proof. unfold allocate_buf. calls. Qed.

Lemma calls_find_device name l : quietly (find_device name l).
Proof. induction l as [|d l IH]; simpl; calls. Qed.

Lemma calls_clean_queue_pair : quietly clean_queue_pair.
Proof.
  unfold clean_queue_pair, clean_completion_queue, clean_protection_domain, clean_device,
    clean_context. calls.
Qed.

#[local] Hint Resolve calls_allocate_buf calls_find_device calls_clean_queue_pair : calls.

Lemma calls_rdma_init name n : quietly (rdma_init name n).
Proof.
  unfold rdma_init, init_objects, init_queue_pair, clean_completion_queue,
    clean_protection_domain, clean_device, clean_context. calls.
Qed.

Lemma calls_release what r : quietly (release what r).
Proof. unfold release. calls. Qed.

#[local] Hint Resolve calls_release : calls.

Lemma calls_internal_rdma_cleanup : quietly internal_rdma_cleanup.
Proof. unfold internal_rdma_cleanup. calls. Qed.

#[local] Hint Resolve calls_internal_rdma_cleanup : calls.

Lemma calls_rdma_cleanup : quietly rdma_cleanup.
Proof. unfold rdma_cleanup. calls. Qed.

Lemma calls_malloc_array {T} (junk : nat -> T) size z : quietly (malloc_array junk size z).
Proof. unfold malloc_array. calls. Qed.

#[local] Hint Resolve calls_rdma_init calls_rdma_cleanup calls_malloc_array : calls.

Lemma calls_rdma_init_server name n : quietly (rdma_init_server name n).
Proof. unfold rdma_init_server, fail_cleanup. calls. Qed.

Lemma calls_rdma_init_client name n lid gid qpn :
  quietly (rdma_init_client name n lid gid qpn).
Proof. unfold rdma_init_client, fail_cleanup. calls. Qed.

(** Such a computation's own theorem, and what it leaves unseen. *)
Lemma wp_quietly {S A} sigint (m : M verbs S A) s (Q : outcome S A -> nic -> Prop) g :
  quietly m -> nic_wp sigint (m s) Q g ->
  nic_wp sigint (m s) (fun o g' => Q o g' /\ unseen g g') g.
Proof.
  intros Hm HQ. apply wp_and; [exact HQ|].
  eapply wp_mono; [apply (wp_calls quiet_call unseen); [|exact Hm]|by intros o g' [H _]].
  intros X e g1 x. apply quiet_call_unseen.
Qed.

End rdma.

#[export] Hint Resolve calls_eprintf calls_eputs calls_int_expr calls_rdma_cleanup
  calls_rdma_init_server calls_rdma_init_client : calls.
