(* ===== verification/QueueSpec.v ===== *)
(** What the RDMA programs promise, abstractly: a bounded queue of numbered
    requests.

    The events of a program ([trail]) are the labels of a step relation.  The
    queue [fifo] submits requests in the order of their numbers, never more than
    [n] at a time, and completes the oldest.  [trace] is the reflexive transitive
    closure that collects the labels. *)
From S2P Require Import Prelude Prog Posix Verbs.
Local Open Scope Z_scope.

Section trace.
Context {St L : Type} (step : St -> L -> St -> Prop).

Inductive trace : St -> list L -> St -> Prop :=
| trace_nil s : trace s [] s
| trace_snoc s s' s'' t l : trace s t s' -> step s' l s'' -> trace s (t ++ [l]) s''.

Lemma trace_one s l s' : step s l s' -> trace s [l] s'.
Proof. intros H. change [l] with ([] ++ [l]). eapply trace_snoc; [apply trace_nil|done]. Qed.

Lemma trace_app s t s' t' s'' : trace s t s' -> trace s' t' s'' -> trace s (t ++ t') s''.
Proof.
  intros H. induction 1 as [|s1 s2 s3 t' l H2 IH Hl]; [by rewrite app_nil_r|].
  rewrite app_assoc. eapply trace_snoc; [by apply IH|done].
Qed.

(** An invariant of the steps holds along a trace. *)
Lemma trace_invariant (I : St -> list L -> Prop) s t s' :
  I s [] -> (forall s1 t l s2, trace s t s1 -> I s1 t -> step s1 l s2 -> I s2 (t ++ [l])) ->
  trace s t s' -> I s' t.
Proof. intros H0 Hstep. induction 1; [done|]. eapply Hstep; [done|by auto|done]. Qed.

End trace.

(** Requests [a], ..., [a + c - 1] of a ring of [n]. *)
Definition ring_ids (n a c : Z) : list Z := (fun k => k mod n) <$> seqZ a c.

(** The state [(a, b)]: [a] requests have been completed, [b] submitted. *)
Inductive fifo (n : Z) : Z * Z -> vevent -> Z * Z -> Prop :=
| fifo_submit a b p :
    0 <= p -> b + p <= a + n -> fifo n (a, b) (EPost (ring_ids n b p)) (a, b + p)
| fifo_complete a b c :
    0 <= c -> a + c <= b -> fifo n (a, b) (EComplete (ring_ids n a c)) (a + c, b).

(** Submitted requests are counted by the trail, completed ones too, and at most
    [n] are in flight. *)
Definition submitted_ids (t : list vevent) : list Z :=
  concat ((fun e => match e with EPost ids => ids | _ => [] end) <$> t).
Definition completed_ids (t : list vevent) : list Z :=
  concat ((fun e => match e with EComplete ids => ids | _ => [] end) <$> t).
Definition printed_lines (t : list vevent) : list (list Z) :=
  omap (fun e => match e with EPrint out => Some out | _ => None end) t.

Lemma submitted_ids_app t t' : submitted_ids (t ++ t') = submitted_ids t ++ submitted_ids t'.
Proof. unfold submitted_ids. by rewrite fmap_app, concat_app. Qed.
Lemma completed_ids_app t t' : completed_ids (t ++ t') = completed_ids t ++ completed_ids t'.
Proof. unfold completed_ids. by rewrite fmap_app, concat_app. Qed.

Lemma ring_ids_app n a c c' :
  0 <= c -> 0 <= c' -> ring_ids n a (c + c') = ring_ids n a c ++ ring_ids n (a + c) c'.
Proof. intros. unfold ring_ids. by rewrite seqZ_app, fmap_app. Qed.

(** What a queue's trail says. *)
Lemma fifo_trace n t a b :
  0 <= n -> trace (fifo n) (0, 0) t (a, b) ->
  0 <= a <= b /\ b <= a + n /\ submitted_ids t = ring_ids n 0 b /\ completed_ids t = ring_ids n 0 a.
Proof.
  intros Hn H. change ((fun s t => 0 <= s.1 <= s.2 /\ s.2 <= s.1 + n /\
    submitted_ids t = ring_ids n 0 s.2 /\ completed_ids t = ring_ids n 0 s.1) (a, b) t).
  eapply (trace_invariant (fifo n)); [| |exact H]; [cbn; repeat split; lia|].
  clear. intros [a b] t l s2 _ (Hab & Hb & Hs & Hc) Hstep. cbn [fst snd] in *.
  inversion Hstep; subst; clear Hstep; cbn [fst snd];
    rewrite submitted_ids_app, completed_ids_app, Hs, Hc; cbn; rewrite !app_nil_r;
    (split; [lia|]); (split; [lia|]).
  - split; [|done]. by rewrite ring_ids_app by lia.
  - split; [done|]. by rewrite ring_ids_app by lia.
Qed.

(** ** Refinement *)

(** What was added to the trail since it was [t0] takes the abstract machine
    from [s0] to [s]. *)
Definition behaves {St} (step : St -> vevent -> St -> Prop) (s0 : St) (t0 : list vevent)
    (g : nic) (s : St) : Prop :=
  exists t, trail g = t0 ++ t /\ trace step s0 t s.

Section behaves.
Context {St : Type} (step : St -> vevent -> St -> Prop) (s0 : St) (t0 : list vevent).
Abbreviation behaves := (behaves step s0 t0).

Lemma behaves_start g : trail g = t0 -> behaves g s0.
Proof. intros H. exists []. rewrite app_nil_r. split; [done|apply trace_nil]. Qed.

Lemma behaves_same g g' s : trail g' = trail g -> behaves g s -> behaves g' s.
Proof. intros E (t & H & Ht). exists t. by rewrite E. Qed.

Lemma behaves_step g g' s l s' :
  behaves g s -> step s l s' -> trail g' = trail g ++ [l] -> behaves g' s'.
Proof.
  intros (t & H & Ht) Hl E. exists (t ++ [l]). rewrite E, H, <- app_assoc. split; [done|].
  by eapply trace_snoc.
Qed.

End behaves.
