(* ===== verification/RdmaRing.v ===== *)
(** rdma.c: the rings of work requests.

    A ring is an array of [n] requests whose [next] pointers lead from each
    element to the following one and from the last to the first.  [Linked] is
    what posting needs of a request type, and the lemmas on rings are proved
    once, for both.  The theorems say that the initialisers build rings, and
    that [post_sends] and [post_recvs] hand the card exactly the requests
    [start], ..., [start + count - 1] modulo [n], and leave the ring as it
    was. *)
From stdpp Require Import gmap.
From S2P Require Import Prelude CInt CLib RawPacket Prog Posix Verbs VerbsRules Rdma.
Local Open Scope Z_scope.
Local Open Scope c_scope.

(** ** Requests with links *)

Class Linked (W : Type) := {
  next : W -> option Z;
  set_next : option Z -> W -> W;
  entries_of : list ibv_sge -> W -> list ibv_sge;
  next_set_next : forall p w, next (set_next p w) = p;
  set_next_next : forall w, set_next (next w) w = w;
  set_next_set_next : forall p q w, set_next p (set_next q w) = set_next p w;
  entries_set_next : forall sg p w, entries_of sg (set_next p w) = entries_of sg w
}.

#[export] Instance linked_send : Linked ibv_send_wr.
Proof.
  refine (Build_Linked _ s_next set_s_next
            (fun sg w => sg_entries sg (s_sg_list w) (s_num_sge w)) _ _ _ _); try done.
  by intros [].
Defined.

#[export] Instance linked_recv : Linked ibv_recv_wr.
Proof.
  refine (Build_Linked _ r_next set_r_next
            (fun sg w => sg_entries sg (r_sg_list w) (r_num_sge w)) _ _ _ _); try done.
  by intros [].
Defined.

(** The requests [start], ..., [start + count - 1] of a ring of [n]. *)
Definition ring_indexes (n start count : Z) : list Z :=
  (fun k => (start + k) mod n) <$> seqZ 0 count.

(** A request and its entries, without the link. *)
Definition unlinked {W} `{!Linked W} (sg : list ibv_sge) (w : W) : W * list ibv_sge :=
  (set_next None w, entries_of sg w).

Definition ring {W} `{!Linked W} (n : Z) (f : Z -> W) : Prop :=
  forall i, 0 <= i < n -> next (f i) = next_of i n.

Lemma lookup_fmap_seqZ {A} (f : Z -> A) n i :
  0 <= i < n -> nthZ (f <$> seqZ 0 n) i = Some (f i).
Proof.
  intros Hi. unfold nthZ. rewrite (proj2 (Z.leb_le _ _)) by lia.
  rewrite list_lookup_fmap, lookup_seqZ_lt by lia. simpl. do 2 f_equal. lia.
Qed.

Lemma length_fmap_seqZ {A} (f : Z -> A) n : 0 <= n -> Z.of_nat (length (f <$> seqZ 0 n)) = n.
Proof. intros. rewrite length_fmap, length_seqZ. lia. Qed.

Lemma put_ok {T} p (l : list T) i v :
  0 <= i < Z.of_nat (length l) ->
  put {| arr_ptr := p; elems := l |} i v = Some {| arr_ptr := p; elems := <[Z.to_nat i := v]> l |}.
Proof.
  intros Hi. unfold put. cbn [elems arr_ptr].
  by rewrite (proj2 (Z.leb_le _ _)), (proj2 (Z.ltb_lt _ _)) by lia.
Qed.

Section ring.
Context {W : Type} {L : Linked W} (sg : list ibv_sge) (n : Z) (f : Z -> W).
Hypothesis Hring : ring n f.

(** The ring cut after [last]. *)
Definition cut (last : Z) : list W :=
  <[Z.to_nat last := set_next None (f last)]> (f <$> seqZ 0 n).

Lemma nthZ_cut last i :
  0 <= last < n -> 0 <= i < n ->
  nthZ (cut last) i = Some (if i =? last then set_next None (f last) else f i).
Proof.
  intros Hl Hi. unfold cut, nthZ. rewrite (proj2 (Z.leb_le _ _)) by lia.
  destruct (Z.eqb_spec i last) as [->|Hn].
  - apply list_lookup_insert_eq. rewrite length_fmap, length_seqZ. lia.
  - rewrite list_lookup_insert_ne by lia. pose proof (lookup_fmap_seqZ f n i Hi) as H.
    unfold nthZ in H. by rewrite (proj2 (Z.leb_le _ _)) in H by lia.
Qed.

(** Walking the cut ring from [j], [c] requests before its end. *)
Lemma cut_chain last c fuel j :
  0 <= last < n -> 0 <= j < n -> Z.of_nat c < n -> (last - j) mod n = Z.of_nat c ->
  (c < fuel)%nat ->
  exists l, wr_chain next (entries_of sg) fuel (cut last) (Some j) = Some l /\
    (fun x : W * list ibv_sge => (set_next None x.1, x.2)) <$> l =
      unlinked sg ∘ f <$> ring_indexes n j (Z.of_nat c + 1).
Proof.
  intros Hl. revert fuel j. induction c as [|c IH]; intros fuel j Hj Hc Hd Hf;
    (destruct fuel as [|fuel]; [lia|]); simpl wr_chain; rewrite nthZ_cut by lia; simpl mbind.
  - assert (j = last) as ->.
    { apply Z.mod_divide in Hd; [|lia]. destruct Hd as [q Hq]. assert (q = 0) by nia. lia. }
    rewrite Z.eqb_refl, next_set_next. destruct fuel; simpl;
      (eexists; split; [done|]); unfold ring_indexes, unlinked; simpl;
      rewrite set_next_set_next, entries_set_next; do 3 f_equal; by rewrite Z.add_0_r, Z.mod_small.
  - assert (j <> last).
    { intros ->. rewrite Z.sub_diag, Z.mod_0_l in Hd; lia. }
    rewrite (proj2 (Z.eqb_neq _ _)) by done. rewrite Hring by done.
    assert (Hnx : next_of j n = Some ((j + 1) mod n)).
    { unfold next_of. destruct (Z.eqb_spec j (n - 1)) as [->|].
      - f_equal. replace (n - 1 + 1) with n by lia. symmetry. apply Z.mod_same. lia.
      - f_equal. symmetry. apply Z.mod_small. lia. }
    rewrite Hnx. destruct (IH fuel ((j + 1) mod n)) as (l & Hw & Heq).
    + apply Z.mod_pos_bound. lia.
    + lia.
    + rewrite Zminus_mod_idemp_r. replace (last - (j + 1)) with (last - j - 1) by lia.
      rewrite <- Zminus_mod_idemp_l, Hd, Z.mod_small; lia.
    + lia.
    + rewrite Hw. simpl. eexists. split; [done|]. rewrite fmap_cons, Heq.
      unfold ring_indexes. rewrite (seqZ_cons 0 (Z.of_nat (S c) + 1)) by lia.
      rewrite !fmap_cons. f_equal.
      * unfold unlinked, compose. simpl. by rewrite Z.add_0_r, Z.mod_small by lia.
      * replace (Z.pred (Z.of_nat (S c) + 1)) with (Z.of_nat c + 1) by lia.
        rewrite <- !list_fmap_compose.
        rewrite <- (fmap_add_seqZ 1 0). rewrite <- list_fmap_compose.
        apply list_fmap_ext. intros _ k _. unfold compose. do 2 f_equal.
        rewrite Zplus_mod_idemp_l. f_equal. lia.
Qed.

Lemma insert_cut last p :
  0 <= last < n -> p = next (f last) ->
  <[Z.to_nat last := set_next p (set_next None (f last))]> (cut last) = f <$> seqZ 0 n.
Proof.
  intros Hl ->. unfold cut. rewrite list_insert_insert_eq, set_next_set_next, set_next_next.
  apply list_insert_id. pose proof (lookup_fmap_seqZ f n last Hl) as H.
  unfold nthZ in H. by rewrite (proj2 (Z.leb_le _ _)) in H by lia.
Qed.

Lemma length_cut last : 0 <= n -> Z.of_nat (length (cut last)) = n.
Proof. intros. unfold cut. rewrite length_insert. by apply length_fmap_seqZ. Qed.

Lemma ring_chain start count :
  0 <= start < n -> 1 <= count <= n ->
  exists l, wr_chain next (entries_of sg) (length (cut ((start + count - 1) mod n)))
              (cut ((start + count - 1) mod n)) (Some start) = Some l /\
    (fun x : W * list ibv_sge => (set_next None x.1, x.2)) <$> l =
      unlinked sg ∘ f <$> ring_indexes n start count.
Proof.
  intros Hs Hc. pose proof (Z.mod_pos_bound (start + count - 1) n ltac:(lia)) as Hl.
  destruct (cut_chain ((start + count - 1) mod n) (Z.to_nat (count - 1))
              (length (cut ((start + count - 1) mod n))) start) as (l & Hw & He); try lia.
  - rewrite Zminus_mod_idemp_l. replace (start + count - 1 - start) with (count - 1) by lia.
    rewrite Z.mod_small; lia.
  - pose proof (length_cut ((start + count - 1) mod n)). lia.
  - exists l. split; [done|]. rewrite He. do 2 f_equal. lia.
Qed.

End ring.

(** ** Building the rings *)

(** The first [i] elements are done. *)
Definition filled {T} (f : Z -> T) (i : Z) (l : list T) : list T :=
  (f <$> seqZ 0 i) ++ drop (Z.to_nat i) l.

Lemma filled_0 {T} (f : Z -> T) l : filled f 0 l = l.
Proof. done. Qed.

Lemma filled_all {T} (f : Z -> T) n l :
  Z.of_nat (length l) = n -> filled f n l = f <$> seqZ 0 n.
Proof. intros Hl. unfold filled. rewrite drop_ge by lia. apply app_nil_r. Qed.

Lemma put_filled {T} p (f : Z -> T) i l :
  0 <= i < Z.of_nat (length l) ->
  put {| arr_ptr := p; elems := filled f i l |} i (f i) =
    Some {| arr_ptr := p; elems := filled f (i + 1) l |}.
Proof.
  intros Hi. assert (Hlen : length (f <$> seqZ 0 i) = Z.to_nat i)
    by (rewrite length_fmap, length_seqZ; done).
  rewrite put_ok by (unfold filled; rewrite length_app, Hlen, length_drop; lia).
  do 2 f_equal. unfold filled.
  replace (Z.to_nat i) with (length (f <$> seqZ 0 i) + 0)%nat at 1 by lia.
  rewrite insert_app_r. rewrite (seqZ_app 0 i 1) by lia. rewrite fmap_app, <- app_assoc. f_equal.
  destruct (drop (Z.to_nat i) l) as [|x l'] eqn:Hd.
  - pose proof (length_drop l (Z.to_nat i)) as H. rewrite Hd in H. simpl in H. lia.
  - simpl. f_equal. replace (Z.to_nat (i + 1)) with (Z.to_nat i + 1)%nat by lia.
    by rewrite <- drop_drop, Hd.
Qed.

(** What the two initialisers build: the buffers, the scatter-gather entries
    and the requests, by index. *)
Definition recv_buffer_at (hb db i : Z) : recv_buffer :=
  {| rb_header_buffer := hb + i * sizeof_ib_grh; rb_data_buffer := db + i * MSG_SIZE |}.
Definition recv_sge_at (hb db hkey key k : Z) : ibv_sge :=
  let b := recv_buffer_at hb db (k / 2) in
  if Z.even k then {| sge_addr := u64 (rb_header_buffer b); sge_length := 40; sge_lkey := hkey |}
  else {| sge_addr := u64 (rb_data_buffer b); sge_length := MSG_SIZE; sge_lkey := key |}.
Definition recv_wr_at (n i : Z) : ibv_recv_wr :=
  {| r_wr_id := u64 i; r_next := next_of i n; r_sg_list := 2 * i; r_num_sge := 2 |}.

Definition send_buffer_at (db i : Z) : send_buffer := {| sb_data_buffer := db + i * MSG_SIZE |}.
Definition send_sge_at (db key i : Z) : ibv_sge :=
  {| sge_addr := u64 (db + i * MSG_SIZE); sge_length := MSG_SIZE; sge_lkey := key |}.
Definition send_wr_at (n flags ah qpn i : Z) : ibv_send_wr :=
  {| s_wr_id := u64 i; s_next := next_of i n; s_sg_list := i; s_num_sge := 1;
     s_opcode := IBV_WR_SEND; s_send_flags := u32 flags;
     s_ud := {| ud_ah := ah; ud_remote_qpn := qpn; ud_remote_qkey := QKEY |} |}.

Lemma ring_loop_inv {R} (step : Z -> R -> option R) (I : Z -> R) i n :
  (forall j, i <= j < i + Z.of_nat n -> step j (I j) = Some (I (j + 1))) ->
  ring_loop step n i (I i) = Some (I (i + Z.of_nat n)).
Proof.
  revert i. induction n as [|n IH]; intros i H; simpl ring_loop; [by rewrite Z.add_0_r|].
  rewrite H by lia. simpl. rewrite IH.
  - do 2 f_equal. lia.
  - intros j Hj. apply H. lia.
Qed.

Lemma send_ring_loop n db key flags ah qpn pb lb ps ls pw lw :
  0 <= n -> Z.of_nat (length lb) = n -> Z.of_nat (length ls) = n -> Z.of_nat (length lw) = n ->
  ring_loop (send_ring_step n db key flags ah qpn) (Z.to_nat n) 0
    (Build_array pb lb, Build_array ps ls, Build_array pw lw) =
  Some (Build_array pb (send_buffer_at db <$> seqZ 0 n),
        Build_array ps (send_sge_at db key <$> seqZ 0 n),
        Build_array pw (send_wr_at n flags ah qpn <$> seqZ 0 n)).
Proof.
  intros Hn Hb Hs Hw.
  pose proof (ring_loop_inv (send_ring_step n db key flags ah qpn)
    (fun i => (Build_array pb (filled (send_buffer_at db) i lb),
               Build_array ps (filled (send_sge_at db key) i ls),
               Build_array pw (filled (send_wr_at n flags ah qpn) i lw))) 0 (Z.to_nat n)) as H.
  cbv beta in H. rewrite !filled_0, Z2Nat.id, Z.add_0_l, !filled_all in H by done. apply H.
  clear H.
  intros j Hj. unfold send_ring_step. fold (send_buffer_at db j).
  rewrite put_filled by lia. simpl. fold (send_sge_at db key j). rewrite put_filled by lia. simpl.
  fold (send_wr_at n flags ah qpn j). by rewrite put_filled by lia.
Qed.

Lemma recv_ring_loop n hb db hkey key pb lb ps ls pw lw :
  0 <= n -> Z.of_nat (length lb) = n -> Z.of_nat (length ls) = 2 * n ->
  Z.of_nat (length lw) = n ->
  ring_loop (recv_ring_step n hb db hkey key) (Z.to_nat n) 0
    (Build_array pb lb, Build_array ps ls, Build_array pw lw) =
  Some (Build_array pb (recv_buffer_at hb db <$> seqZ 0 n),
        Build_array ps (recv_sge_at hb db hkey key <$> seqZ 0 (2 * n)),
        Build_array pw (recv_wr_at n <$> seqZ 0 n)).
Proof.
  intros Hn Hb Hs Hw.
  pose proof (ring_loop_inv (recv_ring_step n hb db hkey key)
    (fun i => (Build_array pb (filled (recv_buffer_at hb db) i lb),
               Build_array ps (filled (recv_sge_at hb db hkey key) (2 * i) ls),
               Build_array pw (filled (recv_wr_at n) i lw))) 0 (Z.to_nat n)) as H.
  cbv beta in H. rewrite Z2Nat.id, Z.add_0_l, Z.mul_0_r, !filled_0, !filled_all in H by done.
  apply H. clear H.
  intros j Hj.
  assert (E0 : recv_sge_at hb db hkey key (2 * j) =
    {| sge_addr := u64 (rb_header_buffer (recv_buffer_at hb db j)); sge_length := 40;
       sge_lkey := hkey |}).
  { unfold recv_sge_at. rewrite Z.even_mul, Z.mul_comm, Z.div_mul by lia. done. }
  assert (E1 : recv_sge_at hb db hkey key (2 * j + 1) =
    {| sge_addr := u64 (rb_data_buffer (recv_buffer_at hb db j)); sge_length := MSG_SIZE;
       sge_lkey := key |}).
  { unfold recv_sge_at. rewrite Z.even_add, Z.even_mul. simpl.
    replace ((2 * j + 1) / 2) with j by (apply Z.div_unique with 1; lia). done. }
  transitivity (
    b ← put {| arr_ptr := pb; elems := filled (recv_buffer_at hb db) j lb |} j (recv_buffer_at hb db j);
    s1 ← put {| arr_ptr := ps; elems := filled (recv_sge_at hb db hkey key) (2 * j) ls |} (2 * j)
           (recv_sge_at hb db hkey key (2 * j));
    s2 ← put s1 (2 * j + 1) (recv_sge_at hb db hkey key (2 * j + 1));
    w ← put {| arr_ptr := pw; elems := filled (recv_wr_at n) j lw |} j (recv_wr_at n j);
    Some (b, s2, w)); [by rewrite E0, E1|].
  rewrite !put_filled by lia. simpl mbind. rewrite put_filled by lia. simpl mbind.
  by replace (2 * j + 1 + 1) with (2 * (j + 1)) by lia.
Qed.

(** ** Posting *)

Lemma nic_next_quiet X (e : verbs X) x g :
  (forall m, live_next X m e x = m) -> (forall l, devices_next X l e x = l) ->
  mem_next X g e x = mem g -> known_next X g e x = known g -> arrived_next X g e x = arrived g ->
  (forall ws, outstanding_next X ws e x = ws) -> (forall m l, transmitted_next X m l e x = l) ->
  failure_of X e x = [] -> rules X g e = [] -> trail_next X e x = [] ->
  match e with VSigint => S (vpolls g) | _ => vpolls g end = vpolls g ->
  nic_next X g e x = g.
Proof.
  intros H1 H2 H3 H4 H5 H6 H7 H8 H9 H10 H11. unfold nic_next.
  rewrite H1, H2, H3, H4, H5, H6, H7, H8, H9, H10, H11, !app_nil_r. by destruct g.
Qed.

Section posting.
Context {TX : AddrText} {JK : Junk} (sigint : nat -> bool).
Local Abbreviation wpn := (nic_wp sigint).

(** Calls that change nothing a specification refers to. *)
Lemma wp_quiet_call {S X A} (e : verbs X) (f : X -> M verbs S A) s Q g :
  (forall x, nic_next X g e x = g) -> (forall x, nic_legal sigint X g e x -> wpn (f x s) Q g) ->
  wpn (bind (call e) f s) Q g.
Proof. intros E HQ. apply wp_bind. intros x Hx. cbn. rewrite E. by apply HQ. Qed.

Lemma last_index_ok start count n s :
  queue_size s = n -> 0 <= start < n -> 1 <= count <= n -> 2 * n <= INT_MAX ->
  last_index start count s = Ret (Done ((start + count - 1) mod n) s).
Proof.
  intros Hq Hs Hc Hn. unfold last_index, int_expr, bind. unfold INT_MAX, INT_MIN in *.
  rewrite (proj2 (Z.leb_le _ (start + count))), (proj2 (Z.leb_le (start + count) _)) by lia.
  cbn [andb pbind ret continue].
  rewrite (proj2 (Z.leb_le _ (start + count - 1))), (proj2 (Z.leb_le (start + count - 1) _)) by lia.
  cbn [andb pbind ret continue gets id]. rewrite Hq. rewrite (proj2 (Z.eqb_neq n 0)) by lia.
  unfold ret. rewrite Z.rem_mod_nonneg by lia. do 2 f_equal. unfold u64.
  pose proof (Z.mod_pos_bound (start + count - 1) n). apply Z.mod_small. lia.
Qed.

Lemma put_cut {W} `{!Linked W} (f : Z -> W) n last p :
  0 <= last < n ->
  put {| arr_ptr := p; elems := f <$> seqZ 0 n |} last (set_next None (f last)) =
    Some {| arr_ptr := p; elems := cut n f last |}.
Proof. intros Hl. rewrite put_ok; [done|]. rewrite length_fmap_seqZ by lia. lia. Qed.

Lemma put_back {W} `{!Linked W} (f : Z -> W) n last p :
  0 <= last < n ->
  put {| arr_ptr := p; elems := cut n f last |} last
      (set_next (next (f last)) (set_next None (f last))) =
    Some {| arr_ptr := p; elems := f <$> seqZ 0 n |}.
Proof.
  intros Hl. rewrite put_ok by (rewrite length_cut; lia). by rewrite insert_cut.
Qed.

Lemma restore_send_requests a s : set_send_requests (send_requests s) (set_send_requests a s) = s.
Proof. by destruct s. Qed.

Lemma restore_recv_requests a s : set_recv_requests (recv_requests s) (set_recv_requests a s) = s.
Proof. by destruct s. Qed.

(** What both post functions do, around the call: the library is given the
    requests of the ring from [start] on, and the ring is whole again when the
    function returns. *)
Lemma wp_post_sends start count n f s Q g :
  queue_size s = n -> elems (send_requests s) = f <$> seqZ 0 n -> ring n f ->
  0 <= start < n -> 1 <= count <= n -> 2 * n <= INT_MAX ->
  (forall l r,
     (fun x : ibv_send_wr * list ibv_sge => (set_next None x.1, x.2)) <$> l =
       unlinked (elems (scatter_gather s)) ∘ f <$> ring_indexes n start count ->
     nic_legal sigint _ g (Post_send (queue_pair s) l) r ->
     Q (Done (if r.1 =? 0 then 0 else -1) s) (nic_next _ g (Post_send (queue_pair s) l) r)) ->
  wpn (post_sends start count s) Q g.
Proof.
  intros Hq Hel Hring Hs Hc Hn HQ. unfold post_sends. apply wp_bind.
  rewrite (last_index_ok _ _ n) by done. cbn [wp continue].
  pose proof (Z.mod_pos_bound (start + count - 1) n ltac:(lia)) as Hl.
  destruct (ring_chain (elems (scatter_gather s)) n f Hring start count Hs Hc) as (l & Hw & Heq).
  set (last := (start + count - 1) mod n) in *.
  apply wp_bind. cbn [wp continue gets id].
  destruct (send_requests s) as [p el] eqn:Hreq. cbn [elems] in *. subst el.
  rewrite lookup_fmap_seqZ by done. apply wp_bind. cbn [wp continue ret defined].
  change (set_s_next None (f last)) with (set_next None (f last)). rewrite put_cut by done.
  apply wp_bind. cbn [wp continue ret defined]. apply wp_bind. cbn [wp continue modify].
  cbn [elems]. unfold send_chain. change s_next with (next (W := ibv_send_wr)).
  change (fun w : ibv_send_wr => sg_entries (elems (scatter_gather s)) (s_sg_list w) (s_num_sge w))
    with (entries_of (W := ibv_send_wr) (elems (scatter_gather s))).
  rewrite Hw. apply wp_bind. cbn [wp continue ret defined]. apply wp_bind. intros r Hr.
  specialize (HQ l r Heq Hr). cbn [gnext NicEnv]. revert HQ. generalize (nic_next _ g (Post_send (queue_pair s) l) r).
  clear Hr g. intros g HQ. cbn [continue]. destruct r as [result bad]. cbn [fst] in *.
  assert (Hback : forall rv, Q (Done rv s) g ->
    wpn (bind (defined "send_requests[last_idx]" (nthZ (cut n f last) last)) (fun w =>
         bind (defined "send_requests[last_idx]"
           (put {| arr_ptr := p; elems := cut n f last |} last (set_s_next (next (f last)) w)))
         (fun wrs => bind (modify (set_send_requests wrs)) (fun _ => ret rv)))
      (set_send_requests {| arr_ptr := p; elems := cut n f last |} s)) Q g).
  { intros rv Hrv. rewrite nthZ_cut by done. rewrite Z.eqb_refl. apply wp_bind.
    cbn [wp continue ret defined]. change set_s_next with (set_next (W := ibv_send_wr)).
    rewrite put_back by done. apply wp_bind. cbn [wp continue ret defined]. apply wp_bind.
    cbn [wp continue modify ret]. by rewrite <- Hreq, restore_send_requests. }
  apply wp_bind. destruct (result =? 0); cbn [negb]; [by apply Hback|].
  apply wp_quiet_call; [intros x; by apply nic_next_quiet|]. intros e _.
  apply wp_quiet_call; [intros x; by apply nic_next_quiet|]. intros m1 _.
  apply wp_quiet_call; [intros x; by apply nic_next_quiet|]. intros m2 _.
  apply wp_quiet_call; [intros x; by apply nic_next_quiet|]. intros [] _.
  by apply Hback.
Qed.

Lemma wp_post_recvs start count n f s Q g :
  queue_size s = n -> elems (recv_requests s) = f <$> seqZ 0 n -> ring n f ->
  0 <= start < n -> 1 <= count <= n -> 2 * n <= INT_MAX ->
  (forall l r,
     (fun x : ibv_recv_wr * list ibv_sge => (set_next None x.1, x.2)) <$> l =
       unlinked (elems (scatter_gather s)) ∘ f <$> ring_indexes n start count ->
     nic_legal sigint _ g (Post_recv (queue_pair s) l) r ->
     Q (Done (if r.1 =? 0 then 0 else -1) s) (nic_next _ g (Post_recv (queue_pair s) l) r)) ->
  wpn (post_recvs start count s) Q g.
Proof.
  intros Hq Hel Hring Hs Hc Hn HQ. unfold post_recvs. apply wp_bind.
  rewrite (last_index_ok _ _ n) by done. cbn [wp continue].
  pose proof (Z.mod_pos_bound (start + count - 1) n ltac:(lia)) as Hl.
  destruct (ring_chain (elems (scatter_gather s)) n f Hring start count Hs Hc) as (l & Hw & Heq).
  set (last := (start + count - 1) mod n) in *.
  apply wp_bind. cbn [wp continue gets id].
  destruct (recv_requests s) as [p el] eqn:Hreq. cbn [elems] in *. subst el.
  rewrite lookup_fmap_seqZ by done. apply wp_bind. cbn [wp continue ret defined].
  change (set_r_next None (f last)) with (set_next None (f last)). rewrite put_cut by done.
  apply wp_bind. cbn [wp continue ret defined]. apply wp_bind. cbn [wp continue modify].
  cbn [elems]. unfold recv_chain. change r_next with (next (W := ibv_recv_wr)).
  change (fun w : ibv_recv_wr => sg_entries (elems (scatter_gather s)) (r_sg_list w) (r_num_sge w))
    with (entries_of (W := ibv_recv_wr) (elems (scatter_gather s))).
  rewrite Hw. apply wp_bind. cbn [wp continue ret defined]. apply wp_bind. intros r Hr.
  specialize (HQ l r Heq Hr). cbn [gnext NicEnv]. revert HQ. generalize (nic_next _ g (Post_recv (queue_pair s) l) r).
  clear Hr g. intros g HQ. cbn [continue]. destruct r as [result bad]. cbn [fst] in *.
  assert (Hback : forall rv, Q (Done rv s) g ->
    wpn (bind (defined "recv_requests[last_idx]" (nthZ (cut n f last) last)) (fun w =>
         bind (defined "recv_requests[last_idx]"
           (put {| arr_ptr := p; elems := cut n f last |} last (set_r_next (next (f last)) w)))
         (fun wrs => bind (modify (set_recv_requests wrs)) (fun _ => ret rv)))
      (set_recv_requests {| arr_ptr := p; elems := cut n f last |} s)) Q g).
  { intros rv Hrv. rewrite nthZ_cut by done. rewrite Z.eqb_refl. apply wp_bind.
    cbn [wp continue ret defined]. change set_r_next with (set_next (W := ibv_recv_wr)).
    rewrite put_back by done. apply wp_bind. cbn [wp continue ret defined]. apply wp_bind.
    cbn [wp continue modify ret]. by rewrite <- Hreq, restore_recv_requests. }
  apply wp_bind. destruct (result =? 0); cbn [negb]; [by apply Hback|].
  apply wp_quiet_call; [intros x; by apply nic_next_quiet|]. intros e _.
  apply wp_quiet_call; [intros x; by apply nic_next_quiet|]. intros [] _.
  by apply Hback.
Qed.

End posting.

(** *** What was posted, by number *)

Lemma load_bytes_const f a n v :
  (forall x, 0 <= x < n -> f (a + x) = v) -> load_bytes f a n = replicate (Z.to_nat n) v.
Proof.
  intros H. unfold load_bytes. apply list_eq. intros i. destruct (decide (i < Z.to_nat n)%nat).
  - rewrite list_lookup_fmap, lookup_seqZ_lt, lookup_replicate_2 by lia. simpl. f_equal.
    apply H. lia.
  - rewrite !lookup_ge_None_2; rewrite ?length_fmap, ?length_seqZ, ?length_replicate; lia || done.
Qed.

Lemma forallb_fmap_true {A B} (P : B -> bool) (h : A -> B) l :
  (forall x, P (h x) = true) -> forallb P (h <$> l) = true.
Proof. intros H. induction l as [|x l IH]; simpl; [done|]. by rewrite H. Qed.

Lemma forallb_fmap {A} (P : A -> bool) l : forallb id (P <$> l) = forallb P l.
Proof. induction l as [|x l IH]; [done|]. cbn [fmap list_fmap forallb]. f_equal. exact IH. Qed.

(** Anything that does not look at the links. *)
Lemma posted_map {W T} `{!Linked W} (G : W * list ibv_sge -> T) sg f n start count l :
  0 < n ->
  (forall x, G (set_next None x.1, x.2) = G x) ->
  (fun x : W * list ibv_sge => (set_next None x.1, x.2)) <$> l =
    unlinked sg ∘ f <$> ring_indexes n (start mod n) count ->
  G <$> l = (fun k => G (f (k mod n), entries_of sg (f (k mod n)))) <$> seqZ start count.
Proof.
  intros Hn HG Hl. apply (f_equal (fmap G)) in Hl. rewrite <- !list_fmap_compose in Hl.
  etransitivity; [|etransitivity; [exact Hl|]].
  - apply list_fmap_ext. intros _ x _. unfold compose. by rewrite HG.
  - unfold ring_indexes.
    replace (seqZ start count) with (Z.add start <$> seqZ 0 count)
      by (rewrite fmap_add_seqZ; f_equal; lia).
    rewrite <- !list_fmap_compose.
    apply list_fmap_ext. intros _ k _. unfold compose, unlinked.
    rewrite Zplus_mod_idemp_l.
    rewrite <- (HG (f _, entries_of sg _)). cbn [fst snd]. done.
Qed.

(** ** Properties *)

(** The witnesses instantiate the libraries with these. *)
#[local] Existing Instance text_example.
#[local] Existing Instance junk_example.

(** C5: [post_sends(start, count)] on a ring of [n] requests, whatever the
    library answers.  It makes one ibv_post_send call, for the requests
    [start], ..., [start + count - 1] modulo [n] in that order, each with its
    scatter-gather entries; it returns 0 when the call succeeded and -1 when it
    failed; and in both cases every static, the ring included, is as before. *)
Theorem post_sends_correct `{!AddrText} `{!Junk} sigint start count n f s g :
  queue_size s = n -> elems (send_requests s) = f <$> seqZ 0 n -> ring n f ->
  0 <= start < n -> 1 <= count <= n -> 2 * n <= INT_MAX ->
  nic_wp sigint (post_sends start count s) (fun o g' =>
    exists l r,
      (fun x : ibv_send_wr * list ibv_sge => (set_next None x.1, x.2)) <$> l =
        unlinked (elems (scatter_gather s)) ∘ f <$> ring_indexes n start count /\
      g' = nic_next _ g (Post_send (queue_pair s) l) r /\
      o = Done (if r.1 =? 0 then 0 else -1) s) g.
Proof. intros. eapply wp_post_sends; try done. intros l r Hl _. by exists l, r. Qed.

(** A ring of three requests, posted from the middle, past the end. *)
Definition ring_example : rdma :=
  set_send_requests (Build_array 8 (send_wr_at 3 2 9 5 <$> seqZ 0 3))
    (set_recv_requests (Build_array 8 (recv_wr_at 3 <$> seqZ 0 3))
       (set_queue_size 3 rdma0)).

Lemma post_sends_correct_witness :
  ring_indexes 3 2 2 = [2; 0] /\
  nic_wp (fun _ => false) (post_sends 2 2 ring_example) (fun o _ =>
    exists v, o = Done v ring_example) nic0.
Proof.
  split; [reflexivity|]. eapply wp_mono.
  - apply (post_sends_correct (fun _ => false) 2 2 3 (send_wr_at 3 2 9 5)); try done.
  - intros o g' (l & r & _ & _ & Ho). by eexists.
Defined.

(** [post_recvs(start, count)] on a ring of [n] requests, whatever the
    library answers.  It makes one ibv_post_recv call, for the requests
    [start], ..., [start + count - 1] modulo [n] in that order; it returns 0 when
    the call succeeded and -1 when it failed; every static is as before. *)
Theorem post_recvs_correct `{!AddrText} `{!Junk} sigint start count n f s g :
  queue_size s = n -> elems (recv_requests s) = f <$> seqZ 0 n -> ring n f ->
  0 <= start < n -> 1 <= count <= n -> 2 * n <= INT_MAX ->
  nic_wp sigint (post_recvs start count s) (fun o g' =>
    exists l r,
      (fun x : ibv_recv_wr * list ibv_sge => (set_next None x.1, x.2)) <$> l =
        unlinked (elems (scatter_gather s)) ∘ f <$> ring_indexes n start count /\
      g' = nic_next _ g (Post_recv (queue_pair s) l) r /\
      o = Done (if r.1 =? 0 then 0 else -1) s) g.
Proof. intros. eapply wp_post_recvs; try done. intros l r Hl _. by exists l, r. Qed.

Lemma post_recvs_correct_witness :
  nic_wp (fun _ => false) (post_recvs 2 2 ring_example) (fun o _ =>
    exists v, o = Done v ring_example) nic0.
Proof.
  eapply wp_mono.
  - apply (post_recvs_correct (fun _ => false) 2 2 3 (recv_wr_at 3)); try done.
  - intros o g' (l & r & _ & _ & Ho). by eexists.
Defined.

(** Posting no requests from the start of the ring is undefined: the last
    index is -1, which as a size_t is outside the array. *)
Theorem post_none_undefined `{!AddrText} `{!Junk} n f s :
  queue_size s = n -> elems (send_requests s) = f <$> seqZ 0 n -> ring n f ->
  1 < n <= INT_MAX ->
  post_sends 0 0 s = Ret (Undef "send_requests[last_idx]").
Proof.
  intros Hq Hf _ Hn.
  assert (Hlen : Z.of_nat (length (elems (send_requests s))) = n)
    by (rewrite Hf, length_fmap_seqZ; lia).
  assert (El : last_index 0 0 s = Ret (Done (u64 (Z.rem (-1) n)) s)).
  { change (last_index 0 0 s) with ((if queue_size s =? 0 then undef "division by zero" else
      ret (u64 (Z.rem (-1) (queue_size s)))) s : prog verbs (outcome rdma Z)). rewrite Hq.
    rewrite (proj2 (Z.eqb_neq n 0)) by lia. done. }
  assert (E : u64 (Z.rem (-1) n) = 2 ^ 64 - 1).
  { change (-1) with (- (1)). rewrite Z.rem_opp_l, Z.rem_small by lia. done. }
  unfold post_sends, bind at 1. rewrite El, E. cbn -[nthZ Z.pow].
  unfold nthZ, id. rewrite lookup_ge_None_2; [done|].
  unfold INT_MAX in Hn. lia.
Qed.

Lemma post_none_undefined_witness :
  post_sends 0 0 ring_example = Ret (Undef "send_requests[last_idx]").
Proof. by apply (post_none_undefined 3 (send_wr_at 3 2 9 5)). Defined.
