(* ===== verification/RdmaMemory.v ===== *)
(** The rings of rdma.c in memory.

    Rdma keeps the arrays of work requests and of scatter-gather entries as lists,
    with indexes for the pointers into them, and its call [Post_send] carries the
    list of requests that the library will walk.  Here the arrays are bytes' worth
    of fields at addresses, laid out by verbs.h's structures: [store]s through
    [&send_requests[last_idx].next], the inline function [ibv_post_send], and a
    provider that follows the pointers it is given ([walk]).  The theorem says
    that it finds the list the call carries. *)
From stdpp Require Import gmap.
From S2P Require Import Prelude CInt Prog Layout VerbsTypes Verbs VerbsDispatch Rdma RdmaRing.
From S2P Require VerbsStructs VerbsEnums.
Local Open Scope Z_scope.
Local Open Scope c_scope.

(** ** Requests as fields *)

Definition inside (fs : fields) (o : Z) : bool := (0 <=? o) && (o <? sizeof (Struct fs)).

(** How a request type is laid out: its structure, where its scalars are, but for
    the link and the two fields that lead to its entries, and what they hold. *)
Class InMemory (W : Type) {L : Linked W} {PT : Pthread} := {
  im_struct : fields;
  im_offsets : list Z;
  im_values : W -> list Z;
  im_sg : W -> Z;
  im_num : W -> Z;
  im_entries : forall sg w, entries_of sg w = sg_entries sg (im_sg w) (im_num w);
  im_set_next : forall p w, im_values (set_next p w) = im_values w /\
    im_sg (set_next p w) = im_sg w /\ im_num (set_next p w) = im_num w;
  im_apart : forallb (fun o => inside im_struct o && negb (o =? offsetof im_struct "next"))
    (offsetof im_struct "sg_list" :: offsetof im_struct "num_sge" :: im_offsets) = true;
  im_post : direct;
  im_object : d_object im_post = ibv_qp;
  im_post_in : im_post ∈ context_operations;
  im_post_args : d_args im_post = 3%nat;
  im_next : inside im_struct (offsetof im_struct "next") = true
}.

Definition wr_opcode_val (o : ibv_wr_opcode) : Z :=
  match o with
  | IBV_WR_RDMA_WRITE => 0 | IBV_WR_RDMA_WRITE_WITH_IMM => 1 | IBV_WR_SEND => 2
  | IBV_WR_SEND_WITH_IMM => 3 | IBV_WR_RDMA_READ => 4 | IBV_WR_ATOMIC_CMP_AND_SWP => 5
  | IBV_WR_ATOMIC_FETCH_AND_ADD => 6 | IBV_WR_LOCAL_INV => 7 | IBV_WR_BIND_MW => 8
  | IBV_WR_SEND_WITH_INV => 9 | IBV_WR_TSO => 10
  end.

Example wr_opcodes_match :
  wr_opcode_val <$> [IBV_WR_RDMA_WRITE; IBV_WR_RDMA_WRITE_WITH_IMM; IBV_WR_SEND;
    IBV_WR_SEND_WITH_IMM; IBV_WR_RDMA_READ; IBV_WR_ATOMIC_CMP_AND_SWP; IBV_WR_ATOMIC_FETCH_AND_ADD;
    IBV_WR_LOCAL_INV; IBV_WR_BIND_MW; IBV_WR_SEND_WITH_INV; IBV_WR_TSO] =
    (VerbsEnums.values VerbsEnums.ibv_wr_opcode_enum).*2.
Proof. vm_compute. reflexivity. Qed.

Definition ud_struct : fields := [("ah", ptr); ("remote_qpn", uint32_t); ("remote_qkey", uint32_t)]%string.

#[export] Instance send_in_memory {PT : Pthread} : InMemory ibv_send_wr.
Proof.
  refine {| im_struct := VerbsStructs.ibv_send_wr;
            im_offsets :=
              (offsetof VerbsStructs.ibv_send_wr <$> ["wr_id"; "opcode"; "send_flags"]%string) ++
              ((fun f => offsetof VerbsStructs.ibv_send_wr "wr" + offsetof ud_struct f) <$>
                ["ah"; "remote_qpn"; "remote_qkey"]%string);
            im_values := fun w => [s_wr_id w; wr_opcode_val (s_opcode w); s_send_flags w;
              ud_ah (s_ud w); ud_remote_qpn (s_ud w); ud_remote_qkey (s_ud w)];
            im_sg := s_sg_list; im_num := s_num_sge;
            im_post := {| d_object := ibv_qp; d_op := "post_send"; d_args := 3; d_run := ibv_post_send |} |}.
  - done.
  - done.
  - vm_compute. reflexivity.
  - done.
  - do 3 apply list_elem_of_further. apply list_elem_of_here.
  - done.
  - vm_compute. reflexivity.
Defined.

#[export] Instance recv_in_memory {PT : Pthread} : InMemory ibv_recv_wr.
Proof.
  refine {| im_struct := VerbsStructs.ibv_recv_wr;
            im_offsets := [offsetof VerbsStructs.ibv_recv_wr "wr_id"];
            im_values := fun w => [r_wr_id w]; im_sg := r_sg_list; im_num := r_num_sge;
            im_post := {| d_object := ibv_qp; d_op := "post_recv"; d_args := 3; d_run := ibv_post_recv |} |}.
  - done.
  - done.
  - vm_compute. reflexivity.
  - done.
  - do 4 apply list_elem_of_further. apply list_elem_of_here.
  - done.
  - vm_compute. reflexivity.
Defined.

(** ** The arrays *)

Definition sge_offsets : list Z :=
  offsetof VerbsStructs.ibv_sge <$> ["addr"; "length"; "lkey"]%string.
Definition sge_values (e : ibv_sge) : list Z := [sge_addr e; sge_length e; sge_lkey e].
Definition sge_size : Z := sizeof (Struct VerbsStructs.ibv_sge).

Section memory.
Context {W : Type} {L : Linked W} {PT : Pthread} {I : InMemory W}.
(** Where the arrays of requests and of entries are. *)
Variables (base sg_base : Z).

Definition wr_size : Z := sizeof (Struct im_struct).
(** [&wrs[i]] *)
Definition wr_at (i : Z) : Z := base + i * wr_size.
Definition link_ptr (p : option Z) : Z := from_option wr_at 0 p.

Definition fields_at (m : gmap Z Z) (p : Z) (os vs : list Z) : Prop :=
  Forall2 (fun o v => m !! (p + o) = Some v) os vs.

Definition wr_stored (m : gmap Z Z) (p : Z) (w : W) : Prop :=
  m !! (p + offsetof im_struct "next") = Some (link_ptr (next w)) /\
  fields_at m p (offsetof im_struct "sg_list" :: offsetof im_struct "num_sge" :: im_offsets)
    (sg_base + im_sg w * sge_size :: im_num w :: im_values w).

(** Memory holds both arrays. *)
Definition stored (wrs : list W) (sg : list ibv_sge) (m : gmap Z Z) : Prop :=
  (forall i w, nthZ wrs i = Some w -> wr_stored m (wr_at i) w) /\
  (forall i e, nthZ sg i = Some e -> fields_at m (sg_base + i * sge_size) sge_offsets (sge_values e)).

(** The provider: the scalars of a request and of its entries, from the request at
    [p] on, until a null pointer. *)
Definition read_fields (m : gmap Z Z) (p : Z) (os : list Z) : option (list Z) :=
  mapM (fun o => m !! (p + o)) os.

Fixpoint walk (fuel : nat) (m : gmap Z Z) (p : Z) : option (list (list Z * list (list Z))) :=
  if p =? 0 then Some [] else
  match fuel with
  | O => None
  | S fuel =>
      vs ← read_fields m p im_offsets;
      sg ← m !! (p + offsetof im_struct "sg_list");
      n ← m !! (p + offsetof im_struct "num_sge");
      es ← mapM (fun k => read_fields m (sg + k * sge_size) sge_offsets) (seqZ 0 n);
      nx ← m !! (p + offsetof im_struct "next");
      l ← walk fuel m nx;
      Some ((vs, es) :: l)
  end.

(** What it finds for a request of the model. *)
Definition seen (x : W * list ibv_sge) : list Z * list (list Z) :=
  (im_values x.1, sge_values <$> x.2).

(** The entries of a request are in the array. *)
Definition entries_in (sg : list ibv_sge) (w : W) : Prop :=
  0 <= im_sg w /\ 0 <= im_num w /\ im_sg w + im_num w <= Z.of_nat (length sg).

Lemma next_inside : 0 <= offsetof im_struct "next" < wr_size.
Proof.
  pose proof im_next as H. unfold inside in H. apply andb_prop in H as [H1 H2].
  apply Z.leb_le in H1. apply Z.ltb_lt in H2. by split.
Qed.

Lemma read_fields_at m p os vs : fields_at m p os vs -> read_fields m p os = Some vs.
Proof.
  induction 1 as [|o v os vs Ho Hvs IH]; [done|]. unfold read_fields in *.
  simpl. rewrite Ho. simpl. by rewrite IH.
Qed.

Lemma nthZ_inv {T} (l : list T) i x :
  nthZ l i = Some x -> 0 <= i < Z.of_nat (length l) /\ l !! Z.to_nat i = Some x.
Proof.
  unfold nthZ. destruct (Z.leb_spec 0 i); [|done]. intros Hx. split; [|done].
  apply lookup_lt_Some in Hx. lia.
Qed.

Lemma nthZ_of {T} (l : list T) i x : 0 <= i -> l !! Z.to_nat i = Some x -> nthZ l i = Some x.
Proof. intros Hi Hx. unfold nthZ. by rewrite (proj2 (Z.leb_le _ _)). Qed.

Lemma read_entries wrs sg m i n :
  stored wrs sg m -> 0 <= i -> 0 <= n -> i + n <= Z.of_nat (length sg) ->
  mapM (fun k => read_fields m (sg_base + i * sge_size + k * sge_size) sge_offsets) (seqZ 0 n) =
    Some (sge_values <$> sg_entries sg i n).
Proof.
  intros [_ Hsg] Hi Hn Hlen. apply mapM_Some. unfold sg_entries.
  apply Forall2_same_length_lookup. split.
  - rewrite length_seqZ, length_fmap, length_take, length_drop. lia.
  - intros j k v Hk Hv. apply lookup_seqZ in Hk as [-> Hj]. rewrite list_lookup_fmap in Hv.
    apply fmap_Some in Hv as (e & He & ->). apply lookup_take_Some in He as [He _].
    rewrite lookup_drop in He. apply read_fields_at.
    replace (sg_base + i * sge_size + (0 + Z.of_nat j) * sge_size)
      with (sg_base + (i + Z.of_nat j) * sge_size) by lia.
    apply Hsg, nthZ_of; [lia|]. rewrite <- He. f_equal. lia.
Qed.

(** The walk finds the list of the model. *)
Lemma walk_chain wrs sg m fuel p l :
  stored wrs sg m -> Forall (entries_in sg) wrs -> 0 < base ->
  wr_chain next (entries_of sg) fuel wrs p = Some l ->
  walk fuel m (link_ptr p) = Some (seen <$> l).
Proof.
  intros Hm Hin Hb. revert p l. induction fuel as [|fuel IH]; intros [i|] l Hl; cbn [wr_chain] in Hl;
    try done; try (by injection Hl as <-).
  destruct (nthZ wrs i) as [w|] eqn:Ew; [|done]. cbn [mbind option_bind] in Hl.
  destruct (wr_chain next (entries_of sg) fuel wrs (next w)) as [l'|] eqn:El; [|done].
  cbn [mbind option_bind] in Hl. injection Hl as <-. apply IH in El.
  destruct (nthZ_inv _ _ _ Ew) as [Hi Hw]. cbn [walk link_ptr from_option].
  assert (Hne : wr_at i <> 0).
  { unfold wr_at. pose proof next_inside. nia. }
  rewrite (proj2 (Z.eqb_neq _ _) Hne). destruct (proj1 Hm _ _ Ew) as [Hnx Hf].
  inversion Hf as [|? ? ? ? Hs Hf1]; subst. inversion Hf1 as [|? ? ? ? Hn Hf2]; subst.
  rewrite (read_fields_at _ _ _ _ Hf2). cbn [mbind option_bind]. rewrite Hs. cbn [mbind option_bind].
  rewrite Hn. cbn [mbind option_bind].
  pose proof (Forall_lookup_1 _ _ _ _ Hin Hw) as (E1 & E2 & E3).
  rewrite (read_entries wrs sg m _ _ Hm E1 E2 E3). cbn [mbind option_bind].
  rewrite Hnx. cbn [mbind option_bind]. rewrite El. cbn [mbind option_bind].
  by rewrite fmap_cons, <- im_entries.
Qed.

(** ** Changing a link *)

Definition link_addr (i : Z) : Z := wr_at i + offsetof im_struct "next".

(** An address is no part of the first [n] requests. *)
Definition outside (n a : Z) : Prop := a < base \/ base + n * wr_size <= a.

(** The arrays of [n] requests and [k] entries are apart. *)
Definition arrays_apart (n k : Z) : Prop :=
  base + n * wr_size <= sg_base \/ sg_base + k * sge_size <= base.

Lemma link_inside n i : 0 <= i < n -> base <= link_addr i < base + n * wr_size.
Proof. intros Hi. pose proof next_inside. unfold link_addr, wr_at. nia. Qed.

Lemma outside_link n a i : outside n a -> 0 <= i < n -> a <> link_addr i.
Proof. intros Ha Hi. pose proof (link_inside n i Hi). destruct Ha; lia. Qed.

(** The requests are all that changed. *)
Definition same_outside (n : Z) (m m' : gmap Z Z) : Prop :=
  forall a, outside n a -> m' !! a = m !! a.

Lemma same_outside_link n i x m : 0 <= i < n -> same_outside n m (<[link_addr i := x]> m).
Proof. intros Hi a Ha. rewrite lookup_insert_ne; [done|]. by apply not_eq_sym, (outside_link n). Qed.

Lemma other_link i j : i <> j -> link_addr i <> link_addr j.
Proof. pose proof next_inside. unfold link_addr, wr_at. nia. Qed.

Definition other_fields : list Z :=
  offsetof im_struct "sg_list" :: offsetof im_struct "num_sge" :: im_offsets.

Lemma field_inside o : o ∈ other_fields -> 0 <= o < wr_size /\ o <> offsetof im_struct "next".
Proof.
  intros Ho. pose proof im_apart as H. rewrite List.forallb_forall in H.
  specialize (H o (proj1 (list_elem_of_In _ _) Ho)).
  unfold inside in H. apply andb_prop in H as [[H1 H2]%andb_prop H3].
  apply Z.leb_le in H1. apply Z.ltb_lt in H2. by apply negb_true_iff, Z.eqb_neq in H3.
Qed.

(** No other field is where a link is. *)
Lemma field_no_link i j o : o ∈ other_fields -> wr_at j + o <> link_addr i.
Proof.
  intros [Ho Hn]%field_inside. pose proof next_inside. unfold link_addr, wr_at.
  destruct (Z.lt_trichotomy i j) as [?|[->|?]]; nia.
Qed.

Lemma sge_inside o : o ∈ sge_offsets -> 0 <= o < sge_size.
Proof.
  assert (H : forallb (inside VerbsStructs.ibv_sge) sge_offsets = true) by (vm_compute; reflexivity).
  rewrite List.forallb_forall in H. intros Ho. specialize (H o (proj1 (list_elem_of_In _ _) Ho)).
  unfold inside in H. apply andb_prop in H as [H1 H2]. apply Z.leb_le in H1. by apply Z.ltb_lt in H2.
Qed.

(** Fields that the address is no part of. *)
Lemma fields_at_insert m p os vs a x :
  (forall o, o ∈ os -> p + o <> a) -> fields_at m p os vs -> fields_at (<[a := x]> m) p os vs.
Proof.
  intros Ha. unfold fields_at. induction 1 as [|o v os vs Ho Hos IH]; constructor.
  - rewrite lookup_insert_ne; [done|]. intros ->. by apply (Ha o); [apply list_elem_of_here|].
  - apply IH. intros o' Ho'. apply Ha. by apply list_elem_of_further.
Qed.

Lemma stored_link wrs sg m i w p :
  stored wrs sg m -> nthZ wrs i = Some w ->
  arrays_apart (Z.of_nat (length wrs)) (Z.of_nat (length sg)) ->
  stored (<[Z.to_nat i := set_next p w]> wrs) sg (<[link_addr i := link_ptr p]> m).
Proof.
  intros [Hm Hsg] Hi Ha. destruct (nthZ_inv _ _ _ Hi) as [Hir Hw]. split.
  - intros j w' Hj. destruct (nthZ_inv _ _ _ Hj) as [Hjr Hw']. rewrite length_insert in Hjr.
    destruct (decide (i = j)) as [<-|Hne].
    + rewrite list_lookup_insert_eq in Hw' by lia. injection Hw' as <-.
      destruct (Hm _ _ Hi) as [_ Hf]. unfold wr_stored.
      destruct (im_set_next p w) as (-> & -> & ->). split.
      * rewrite next_set_next. apply lookup_insert_eq.
      * apply fields_at_insert; [|done]. intros o Ho. by apply field_no_link.
    + rewrite list_lookup_insert_ne in Hw' by lia.
      destruct (Hm j w' (nthZ_of _ _ _ (proj1 Hjr) Hw')) as [Hn Hf]. split.
      * rewrite lookup_insert_ne; [done|]. by apply other_link.
      * apply fields_at_insert; [|done]. intros o Ho. by apply field_no_link.
  - intros k e Hk. destruct (nthZ_inv _ _ _ Hk) as [Hkr _].
    apply fields_at_insert; [|by apply Hsg]. intros o Ho%sge_inside.
    pose proof (link_inside _ _ Hir). destruct Ha; nia.
Qed.

(** ** Posting *)

(** [post_sends] and [post_recvs] without the message on a failed call: the link of
    the last request is cut for the time of the call [post]. *)
Definition post_at (post : Z -> Z -> Z -> V Z) (queue_size qp start count bad_wr : Z) : V Z :=
  let last_idx := u64 (Z.rem (start + count - 1) queue_size) in
  let! old := load (link_addr last_idx) in
  store (link_addr last_idx) 0 ;!
  let! result := post qp (wr_at start) bad_wr in
  store (link_addr last_idx) old ;!
  ret (if result =? 0 then 0 else -1).

(** The queue pair leads to the provider's function [fn], outside the requests. *)
Record provider (n qp ctx fn : Z) (m : gmap Z Z) : Prop := {
  qp_set : qp <> 0;
  ctx_set : ctx <> 0;
  fn_set : fn <> 0;
  qp_context : m !! (qp + offsetof ibv_qp "context") = Some ctx;
  context_fn : m !! (ctx + offsetof ibv_context "ops" + offsetof ibv_context_ops (d_op im_post)) = Some fn;
  qp_outside : outside n (qp + offsetof ibv_qp "context");
  context_outside : outside n (ctx + offsetof ibv_context "ops" + offsetof ibv_context_ops (d_op im_post))
}.

(** While the link of request [i] is another. *)
Lemma provider_entry n qp ctx fn m i p :
  provider n qp ctx fn m -> 0 <= i < n ->
  context_entry im_post qp (<[link_addr i := p]> m) = Some fn.
Proof.
  intros [Hq Hc _ Hqc Hcf Ho1 Ho2] Hi. unfold context_entry. rewrite im_object. unfold context_of.
  rewrite (proj2 (Z.eqb_neq _ _) Hq), lookup_insert_ne, Hqc
    by (apply not_eq_sym; by apply (outside_link n)).
  destruct ctx; [done| |]; rewrite lookup_insert_ne; try done; apply not_eq_sym; by apply (outside_link n).
Qed.

Lemma last_idx_mod n start count :
  0 <= start < n -> 1 <= count <= n -> 2 * n <= INT_MAX ->
  u64 (Z.rem (start + count - 1) n) = (start + count - 1) mod n.
Proof.
  intros Hs Hc Hn. unfold INT_MAX in Hn. rewrite Z.rem_mod_nonneg by lia.
  pose proof (Z.mod_pos_bound (start + count - 1) n ltac:(lia)). apply u_small. unfold is_u. lia.
Qed.

(** What the provider finds of the requests [start], ..., [start + count - 1]. *)
Definition posted (n : Z) (f : Z -> W) (sg : list ibv_sge) (start count : Z) :=
  (fun i => seen (f i, entries_of sg (f i))) <$> ring_indexes n start count.

Lemma entries_cut sg n f last :
  Forall (entries_in sg) (f <$> seqZ 0 n) -> 0 <= last < n -> Forall (entries_in sg) (cut n f last).
Proof.
  intros Hin Hl. apply Forall_insert; [done|].
  destruct (nthZ_inv _ _ _ (lookup_fmap_seqZ f n last Hl)) as [_ Hw].
  pose proof (Forall_lookup_1 _ _ _ _ Hin Hw) as H. unfold entries_in in *.
  by destruct (im_set_next None (f last)) as (_ & -> & ->).
Qed.

Lemma seen_unlinked l sg n (f : Z -> W) start count :
  (fun x : W * list ibv_sge => (set_next None x.1, x.2)) <$> l =
    unlinked sg ∘ f <$> ring_indexes n start count ->
  seen <$> l = posted n f sg start count.
Proof.
  intros Heq. apply (f_equal (fmap seen)) in Heq. rewrite <- !list_fmap_compose in Heq.
  transitivity (seen ∘ (fun x : W * list ibv_sge => (set_next None x.1, x.2)) <$> l).
  - apply list_fmap_ext. intros _ x _. unfold seen. simpl. by destruct (im_set_next None x.1) as (-> & _).
  - rewrite Heq. apply list_fmap_ext. intros _ i _. unfold seen, unlinked. simpl.
    by destruct (im_set_next None (f i)) as (-> & _).
Qed.

(** The walk of the cut ring. *)
Lemma walk_cut n f sg m start count :
  0 < base -> ring n f -> 0 <= start < n -> 1 <= count <= n ->
  Forall (entries_in sg) (f <$> seqZ 0 n) ->
  stored (cut n f ((start + count - 1) mod n)) sg m ->
  exists l, wr_chain next (entries_of sg) (Z.to_nat n) (cut n f ((start + count - 1) mod n))
      (Some start) = Some l /\
    walk (Z.to_nat n) m (wr_at start) = Some (seen <$> l) /\ seen <$> l = posted n f sg start count.
Proof.
  intros Hb Hr Hs Hc Hin Hm. destruct (ring_chain sg n f Hr start count Hs Hc) as (l & Hw & Heq).
  pose proof (Z.mod_pos_bound (start + count - 1) n ltac:(lia)) as Hl.
  assert (Hlen : length (cut n f ((start + count - 1) mod n)) = Z.to_nat n)
    by (pose proof (length_cut n f ((start + count - 1) mod n)); lia).
  exists l. rewrite <- Hlen. split; [done|]. split; [|by apply seen_unlinked].
  change (wr_at start) with (link_ptr (Some start)).
  eapply walk_chain; [exact Hm| |done|exact Hw]. by apply entries_cut.
Qed.

Lemma post_at_spec n f sg queue_size qp ctx fn start count bad_wr s :
  0 < base -> ring n f -> queue_size = n -> 0 <= start < n -> 1 <= count <= n -> 2 * n <= INT_MAX ->
  Forall (entries_in sg) (f <$> seqZ 0 n) -> arrays_apart n (Z.of_nat (length sg)) ->
  stored (f <$> seqZ 0 n) sg (cells s) -> provider n qp ctx fn (cells s) ->
  exists m k l,
    post_at (d_run im_post) queue_size qp start count bad_wr s =
      Vis (Invoke (Fn fn) [qp; wr_at start; bad_wr] (set_cells m s)) k /\
    stored (cut n f ((start + count - 1) mod n)) sg m /\
    same_outside n (cells s) m /\
    wr_chain next (entries_of sg) (Z.to_nat n) (cut n f ((start + count - 1) mod n))
      (Some start) = Some l /\
    walk (Z.to_nat n) m (wr_at start) = Some (seen <$> l) /\
    seen <$> l = posted n f sg start count /\
    forall r s', stored (cut n f ((start + count - 1) mod n)) sg (cells s') ->
      exists s'', k (r, s') = Ret (Done (if r =? 0 then 0 else -1) s'') /\ errno s'' = errno s' /\
        stored (f <$> seqZ 0 n) sg (cells s'') /\ same_outside n (cells s') (cells s'').
Proof.
  intros Hb Hr -> Hs Hc Hn Hin Ha Hm Hp. unfold post_at. rewrite last_idx_mod by done.
  pose proof (Z.mod_pos_bound (start + count - 1) n ltac:(lia)) as Hl.
  pose proof (fun m => walk_cut n f sg m start count Hb Hr Hs Hc Hin) as Hwalk.
  set (last := (start + count - 1) mod n) in *.
  pose proof (lookup_fmap_seqZ f n last Hl) as Hf.
  pose proof (proj1 (proj1 Hm _ _ Hf)) as Hlink. fold (link_addr last) in Hlink.
  assert (Hlen : Z.of_nat (length (f <$> seqZ 0 n)) = n) by (apply length_fmap_seqZ; lia).
  pose proof (stored_link _ _ _ last (f last) None Hm Hf ltac:(by rewrite Hlen)) as Hcut.
  destruct (Hwalk _ Hcut) as (l & Hw & Hs1 & Hs2).
  exists (<[link_addr last := 0]> (cells s)). eexists. exists l.
  split; [|split; [done|split; [by apply same_outside_link|do 3 (split; [done|])]]].
  - rewrite (bind_load _ _ _ _ Hlink). unfold bind at 1. rewrite store_spec, Hlink.
    cbn [pbind continue]. unfold bind at 1.
    rewrite (proj1 (Forall_forall _ _) context_operations_direct im_post im_post_in _ _ _ _ fn)
      by (by apply (provider_entry n qp ctx)).
    rewrite im_post_args. unfold call_ptr.
    rewrite (proj2 (Z.eqb_neq _ _) (fn_set _ _ _ _ _ Hp)). reflexivity.
  - intros r s' Hs'. cbn [pbind continue fst snd]. unfold bind. rewrite store_spec.
    pose proof (nthZ_cut n f last last Hl Hl) as Hc'. rewrite Z.eqb_refl in Hc'.
    pose proof (proj1 (proj1 Hs' _ _ Hc')) as Hlink'. fold (link_addr last) in Hlink'.
    rewrite Hlink'. cbn [pbind continue]. eexists. split; [reflexivity|]. split; [done|].
    cbn [cells set_cells]. rewrite <- (insert_cut n f last (next (f last)) Hl eq_refl).
    split; [|by apply same_outside_link].
    apply stored_link; [done|done|]. rewrite length_cut by lia. done.
Qed.

End memory.

(** ** A ring of three requests in memory *)

Definition put_fields (p : Z) (os vs : list Z) (m : gmap Z Z) : gmap Z Z :=
  foldr (fun ov m => <[p + ov.1 := ov.2]> m) m (zip os vs).

#[local] Existing Instance glibc.

Definition send_offsets : list Z :=
  (offsetof VerbsStructs.ibv_send_wr <$> ["next"; "sg_list"; "num_sge"]%string) ++
    im_offsets (W := ibv_send_wr).
Definition send_values (base sg_base : Z) (w : ibv_send_wr) : list Z :=
  link_ptr (W := ibv_send_wr) base (next w) :: sg_base + im_sg w * sge_size :: im_num w :: im_values w.

Definition sends_example : Z -> ibv_send_wr := send_wr_at 3 2 9 5.
Definition sges_example : list ibv_sge :=
  [ {| sge_addr := 64; sge_length := 9000; sge_lkey := 7 |};
    {| sge_addr := 9064; sge_length := 9000; sge_lkey := 7 |};
    {| sge_addr := 18064; sge_length := 9000; sge_lkey := 7 |} ].

(** The requests at 100000, the entries at 200000, and a queue pair whose context's
    post_send is 77. *)
Definition memory_example : gmap Z Z :=
  foldr (fun iw => put_fields (wr_at (W := ibv_send_wr) 100000 iw.1) send_offsets (send_values 100000 200000 iw.2))
    (foldr (fun ie => put_fields (200000 + ie.1 * sge_size) sge_offsets (sge_values ie.2))
       {[ 20000 + offsetof ibv_qp "context" := 10000;
          10000 + offsetof ibv_context "ops" + offsetof ibv_context_ops "post_send" := 77 ]}
       (zip (seqZ 0 3) sges_example))
    (zip (seqZ 0 3) (sends_example <$> seqZ 0 3)).

Lemma three_cases i : 0 <= i < 3 -> i = 0 \/ i = 1 \/ i = 2.
Proof. lia. Qed.

Lemma fields_read m p os vs : read_fields m p os = Some vs -> fields_at m p os vs.
Proof. apply mapM_Some_1. Qed.

Lemma stored_example : stored 100000 200000 (sends_example <$> seqZ 0 3) sges_example memory_example.
Proof.
  split; intros i x Hx; destruct (nthZ_inv _ _ _ Hx) as [Hi _].
  - change (0 <= i < 3) in Hi. destruct (three_cases i Hi) as [-> | [-> | ->]];
      vm_compute in Hx; injection Hx as <-;
      (split; [|apply fields_read]; vm_compute; reflexivity).
  - change (0 <= i < 3) in Hi. destruct (three_cases i Hi) as [-> | [-> | ->]];
      vm_compute in Hx; injection Hx as <-; apply fields_read; vm_compute; reflexivity.
Qed.

(** ** Properties *)

(** C6: Posting, in memory.  [post_sends] and [post_recvs] on a ring of [n] requests
    that verbs.h's structures lay out at [base], with the scatter-gather entries
    at [sg_base]: the code cuts the link of the last request posted, and then
    calls the provider's function once, with the queue pair and the address of
    request [start].  A provider that follows the pointers it finds in that
    memory reads, in that order, the requests [start], ..., [start + count - 1]
    modulo [n], each with its entries, and nothing else: the list that the calls
    [Post_send] and [Post_recv] of the other files carry.  Whatever it answers
    (the code returns 0 for 0 and -1 otherwise), if it leaves the requests alone
    the ring is whole again afterwards, and no other memory has changed. *)
Theorem posts_in_memory {PT : Pthread} {W} {L : Linked W} {I : InMemory W}
    base sg_base n f sg queue_size qp ctx fn start count bad_wr s :
  0 < base -> ring n f -> queue_size = n -> 0 <= start < n -> 1 <= count <= n -> 2 * n <= INT_MAX ->
  Forall (entries_in sg) (f <$> seqZ 0 n) ->
  arrays_apart (W := W) base sg_base n (Z.of_nat (length sg)) ->
  stored base sg_base (f <$> seqZ 0 n) sg (cells s) ->
  provider (W := W) base n qp ctx fn (cells s) ->
  exists m k l,
    post_at (W := W) base (d_run (im_post (W := W))) queue_size qp start count bad_wr s =
      Vis (Invoke (Fn fn) [qp; wr_at (W := W) base start; bad_wr] (set_cells m s)) k /\
    stored base sg_base (cut n f ((start + count - 1) mod n)) sg m /\
    same_outside (W := W) base n (cells s) m /\
    wr_chain next (entries_of sg) (Z.to_nat n) (cut n f ((start + count - 1) mod n))
      (Some start) = Some l /\
    walk (W := W) (Z.to_nat n) m (wr_at (W := W) base start) = Some (seen <$> l) /\
    seen <$> l = posted n f sg start count /\
    forall r s', stored base sg_base (cut n f ((start + count - 1) mod n)) sg (cells s') ->
      exists s'', k (r, s') = Ret (Done (if r =? 0 then 0 else -1) s'') /\ errno s'' = errno s' /\
        stored base sg_base (f <$> seqZ 0 n) sg (cells s'') /\
        same_outside (W := W) base n (cells s') (cells s'').
Proof. by apply post_at_spec. Qed.

(** Two requests from the last one on: the provider finds the third and the first. *)
Lemma posts_in_memory_witness :
  exists m k,
    post_at (W := ibv_send_wr) 100000 ibv_post_send 3 20000 2 2 30000
        {| cells := memory_example; errno := 0 |} =
      Vis (Invoke (Fn 77) [20000; 100000 + 2 * 128; 30000] {| cells := m; errno := 0 |}) k /\
    walk (W := ibv_send_wr) 3 m (100000 + 2 * 128) =
      Some [([2; 2; 2; 9; 5; QKEY], [[18064; 9000; 7]]); ([0; 2; 2; 9; 5; QKEY], [[64; 9000; 7]])].
Proof.
  destruct (posts_in_memory (W := ibv_send_wr) 100000 200000 3 sends_example sges_example 3 20000
    10000 77 2 2 30000 {| cells := memory_example; errno := 0 |}) as (m & k & l & H1 & _ & _ & _ & H2 & H3 & _).
  - lia.
  - by intros i Hi.
  - done.
  - lia.
  - lia.
  - unfold INT_MAX. lia.
  - repeat constructor; vm_compute; discriminate.
  - left. vm_compute. discriminate.
  - exact stored_example.
  - constructor; try (vm_compute; reflexivity); try lia; left; vm_compute; reflexivity.
  - exists m, k. split; [exact H1|]. rewrite H3 in H2. exact H2.
Defined.
