(* ===== verification/RdmaDriver.v ===== *)
(** The loops of the RDMA programs, in memory, driving a card.

    Both programs poll for completions into an array of ten [ibv_wc], look at
    each one's status, and post as many requests again, from the number of the
    first one on.  Here this happens in memory, through verbs.h's inline
    functions: what a provider learns of the requests is what it finds by
    following the pointers it is given ([walk]).  The provider is an environment:
    a queue of the requests it found, which completes some of the oldest at each
    poll, with any status.  The theorem says that the loop drives it as a queue
    ought to be driven.  The messages' contents, what is printed and the loop flag
    are in the files of the two programs. *)
From stdpp Require Import gmap.
From S2P Require Import Prelude CInt Prog Posix Layout VerbsTypes Verbs VerbsDispatch.
From S2P Require Import VerbsRules Rdma QueueSpec RdmaRing RdmaMemory.
From S2P Require VerbsStructs.
Local Open Scope Z_scope.
Local Open Scope c_scope.

(** ** The loop *)

Definition wc_size : Z := sizeof (Struct VerbsStructs.ibv_wc).
(** [struct ibv_wc wc[10]] *)
Definition wc_entries : Z := 10.
Definition wr_id_at (wc i : Z) : Z := wc + i * wc_size + offsetof VerbsStructs.ibv_wc "wr_id".
Definition status_at (wc i : Z) : Z := wc + i * wc_size + offsetof VerbsStructs.ibv_wc "status".

Section loops.
Context {W : Type} {L : Linked W} {PT : Pthread} {I : InMemory W}.

(** [for (int i = 0; i < ne; ++i) if (wc[i].status != IBV_WC_SUCCESS) goto cleanup;] *)
Fixpoint check_at (n : nat) (wc i : Z) : V bool :=
  match n with
  | O => ret false
  | S n =>
      let! status := load (status_at wc i) in
      if negb (status =? 0) then ret true else check_at n wc (i + 1)
  end.

(** The programs' variables: where the ring, the queues, [wc] and [bad_wr] are. *)
Record variables := {
  v_ring : Z; v_size : Z; v_qp : Z; v_cq : Z; v_wc : Z; v_bad : Z
}.

Section code.
Variable v : variables.

(** [post_sends] or [post_recvs] *)
Definition post_from (start count : Z) : V Z :=
  post_at (v_ring v) (d_run im_post) (v_size v) (v_qp v) start count (v_bad v).

(** One turn; [Some result] leaves the loop for cleanup. *)
Definition turn_at : V (option Z) :=
  let! ne := ibv_poll_cq (v_cq v) wc_entries (v_wc v) in
  if ne <? 0 then ret (Some EXIT_FAILURE) else
  let! bad := check_at (Z.to_nat ne) (v_wc v) 0 in
  if bad : bool then ret (Some EXIT_FAILURE) else
  if 0 <? ne then
    let! wr_id := load (wr_id_at (v_wc v) 0) in
    let! failed := post_from (i32 wr_id) ne in
    if negb (failed =? 0) then ret (Some EXIT_FAILURE) else ret None
  else ret None.

(** All requests are posted, then the loop; the fuel is the number of turns until
    the loop flag is seen cleared. *)
Definition run_at (fuel : nat) : V Z :=
  let! failed := post_from 0 (v_size v) in
  if negb (failed =? 0) then ret EXIT_FAILURE else loop fuel turn_at.

End code.

(** ** The provider *)

(** The requests it has taken and not completed, oldest first, by their numbers;
    all it ever found, as it found them; and the calls that made no sense to it. *)
Record card := {
  waiting : list Z; found : list (list Z * list (list Z)); refused : nat
}.
Definition card0 : card := {| waiting := []; found := []; refused := 0 |}.

Section driver.
Variable v : variables.
(** The addresses of its functions. *)
Variables (poll_fn post_fn : Z).

(** What a call may write. *)
Definition scratch (a : Z) : Prop :=
  v_wc v <= a < v_wc v + wc_entries * wc_size \/ a = v_bad v.
Definition same_but_scratch (m m' : gmap Z Z) : Prop := forall a, ~ scratch a -> m' !! a = m !! a.

(** [r] completions for the requests [ids], with any status. *)
Definition completions_at (m : gmap Z Z) (ids : list Z) : Prop :=
  forall i x, nthZ ids i = Some x ->
    m !! wr_id_at (v_wc v) i = Some x /\ exists status, m !! status_at (v_wc v) i = Some status.

(** A request's number is the first of its fields. *)
Definition number_of (x : list Z * list (list Z)) : Z := default 0 (head x.1).

Definition is_poll (f : callee) (args : list Z) : bool :=
  match f with
  | Fn p => (p =? poll_fn) && bool_decide (args = [v_cq v; wc_entries; v_wc v])
  | Lib _ => false
  end.
(** A call to post, and the address of the first request. *)
Definition posts (f : callee) (args : list Z) : option Z :=
  match f, args with
  | Fn p, [qp; wr; bad] =>
      if bool_decide (p = post_fn /\ qp = v_qp v /\ bad = v_bad v) then Some wr else None
  | _, _ => None
  end.

Definition driver_legal (g : card) (f : callee) (args : list Z) (s : mstate) (x : Z * mstate) : Prop :=
  if is_poll f args then
    same_but_scratch (cells s) (cells x.2) /\ x.1 <= Z.min wc_entries (Z.of_nat (length (waiting g))) /\
    completions_at (cells x.2) (take (Z.to_nat x.1) (waiting g))
  else match posts f args with
       | Some _ => same_but_scratch (cells s) (cells x.2)
       | None => True
       end.

(** How many requests from the one at [wr] on come before the one that a failed
    call could not take, which it stores in [bad_wr]. *)
Definition before (m : gmap Z Z) (wr : Z) : nat :=
  Z.to_nat ((default wr (m !! v_bad v) - wr) / wr_size (W := W) mod v_size v).

Definition driver_next (g : card) (f : callee) (args : list Z) (s : mstate) (x : Z * mstate) : card :=
  let refuse := {| waiting := waiting g; found := found g; refused := S (refused g) |} in
  if is_poll f args then
    {| waiting := drop (Z.to_nat x.1) (waiting g); found := found g; refused := refused g |}
  else match posts f args with
       | None => refuse
       | Some wr =>
           match walk (W := W) (Z.to_nat (v_size v)) (cells s) wr with
           | None => refuse
           | Some l =>
               let l := if x.1 =? 0 then l else take (before (cells x.2) wr) l in
               {| waiting := waiting g ++ (number_of <$> l); found := found g ++ l;
                  refused := refused g |}
           end
       end.

#[local] Instance Driver : EnvSpec vcall card := {|
  legal X g e := match e in vcall X return X -> Prop with
                 | Invoke f args s => driver_legal g f args s
                 end;
  gnext X g e := match e in vcall X return X -> card with
                 | Invoke f args s => driver_next g f args s
                 end
|}.

(** ** Where everything is *)

(** The ring [f] and the entries [sg], at [v_ring] and [sg_base]; the contexts of
    the two queues. *)
Variables (sg_base qctx cctx : Z) (f : Z -> W) (sg : list ibv_sge).
Abbreviation n := (v_size v).

(** The pointers that lead from the queues to the functions. *)
Definition pointers : list (Z * Z) :=
  [ (v_qp v + offsetof ibv_qp "context", qctx);
    (qctx + offsetof ibv_context "ops" + offsetof ibv_context_ops (d_op im_post), post_fn);
    (v_cq v + offsetof ibv_cq "context", cctx);
    (cctx + offsetof ibv_context "ops" + offsetof ibv_context_ops "poll_cq", poll_fn) ].

Record arranged : Prop := {
  ar_base : 0 < v_ring v;
  ar_size : 1 <= n /\ 2 * n <= INT_MAX;
  ar_ring : ring n f;
  ar_ids : forall i, 0 <= i < n -> head (im_values (f i)) = Some i;
  ar_entries : Forall (entries_in sg) (f <$> seqZ 0 n);
  ar_arrays : arrays_apart (W := W) (v_ring v) sg_base n (Z.of_nat (length sg));
  ar_queues : v_qp v <> 0 /\ qctx <> 0 /\ v_cq v <> 0 /\ cctx <> 0;
  ar_fns : poll_fn <> 0 /\ post_fn <> 0 /\ poll_fn <> post_fn;
  ar_pointers : Forall (fun p => outside (W := W) (v_ring v) n p.1 /\ ~ scratch p.1) pointers;
  ar_scratch : forall a, scratch a -> outside (W := W) (v_ring v) n a;
  ar_sg_scratch : forall a,
    scratch a -> a < sg_base \/ sg_base + Z.of_nat (length sg) * sge_size <= a
}.

Definition in_place (m : gmap Z Z) : Prop :=
  stored (v_ring v) sg_base (f <$> seqZ 0 n) sg m /\
  Forall (fun p => m !! p.1 = Some p.2) pointers.

Section correct.
Hypothesis Ha : arranged.

Lemma fields_same m m' p os vs :
  (forall o, o ∈ os -> ~ scratch (p + o)) -> fields_at m p os vs -> same_but_scratch m m' ->
  fields_at m' p os vs.
Proof.
  intros Hos Hf Hm. unfold fields_at in *. induction Hf as [|o x os vs E Hf IH]; constructor.
  - rewrite Hm; [done|]. apply Hos, list_elem_of_here.
  - apply IH. intros o' Ho'. by apply Hos, list_elem_of_further.
Qed.

Lemma stored_same wrs m m' :
  Z.of_nat (length wrs) = n -> stored (v_ring v) sg_base wrs sg m -> same_but_scratch m m' ->
  stored (v_ring v) sg_base wrs sg m'.
Proof.
  intros Hlen [Hw Hsg] Hm. split.
  - intros i w Hi. destruct (nthZ_inv _ _ _ Hi) as [Hir _]. destruct (Hw i w Hi) as [Hn Hf].
    assert (Hin : forall o, 0 <= o < wr_size (W := W) -> ~ scratch (wr_at (W := W) (v_ring v) i + o)).
    { intros o Ho Hs%(ar_scratch Ha). unfold outside, wr_at in Hs. destruct Hs; nia. }
    split; [rewrite Hm; [done|apply Hin, next_inside]|].
    eapply fields_same; [|exact Hf|done]. intros o Ho. by apply Hin, field_inside.
  - intros i e Hi. destruct (nthZ_inv _ _ _ Hi) as [Hir _].
    eapply fields_same; [|exact (Hsg i e Hi)|done]. intros o Ho%sge_inside Hs%(ar_sg_scratch Ha).
    destruct Hs; nia.
Qed.

Lemma in_place_same m m' : in_place m -> same_but_scratch m m' -> in_place m'.
Proof.
  intros [Hs Hp] Hm. split.
  - eapply stored_same; [|done|done]. apply length_fmap_seqZ. pose proof (ar_size Ha). lia.
  - apply Forall_forall. intros p Hin. pose proof (proj1 (Forall_forall _ _) Hp p Hin) as E.
    rewrite Hm; [done|]. by apply (proj1 (Forall_forall _ _) (ar_pointers Ha) p Hin).
Qed.

Lemma in_place_provider m :
  in_place m -> provider (W := W) (v_ring v) n (v_qp v) qctx post_fn m.
Proof.
  intros [_ Hp]. pose proof (ar_pointers Ha) as Ho. pose proof (ar_queues Ha). pose proof (ar_fns Ha).
  unfold pointers in *. rewrite !Forall_cons in Hp, Ho. constructor; tauto.
Qed.

Lemma poll_call s :
  in_place (cells s) ->
  ibv_poll_cq (v_cq v) wc_entries (v_wc v) s =
    invoke (Fn poll_fn) [v_cq v; wc_entries; v_wc v] s.
Proof.
  intros [_ Hp]. unfold pointers in Hp. rewrite !Forall_cons in Hp. destruct Hp as (_ & _ & Hc & Hf & _).
  pose proof (ar_queues Ha) as (_ & _ & Hcq & Hctx). pose proof (ar_fns Ha) as (Hfn & _).
  assert (Hin : {| d_object := ibv_cq; d_op := "poll_cq"; d_args := 3; d_run := ibv_poll_cq |}
    ∈ context_operations) by apply list_elem_of_here.
  pose proof (proj1 (Forall_forall _ _) context_operations_direct _ Hin (v_cq v) wc_entries (v_wc v) s poll_fn) as E.
  cbn [d_run d_args take] in E. rewrite E.
  - unfold call_ptr. by rewrite (proj2 (Z.eqb_neq _ _) Hfn).
  - unfold context_entry, context_of. cbn [d_object d_op fst snd] in *.
    rewrite (proj2 (Z.eqb_neq _ _) Hcq), Hc. by destruct cctx.
Qed.

(** ** The queue it is driven as *)

(** What the provider finds for the request of number [k]. *)
Definition request (k : Z) : list Z * list (list Z) :=
  seen (f (k mod n), entries_of sg (f (k mod n))).

(** [a] requests were completed and [b] taken, all as the ring has them. *)
Record driven (a b : Z) (g : card) : Prop := {
  driven_bounds : 0 <= a <= b /\ b <= a + n;
  driven_waiting : waiting g = ring_ids n a (b - a);
  driven_found : found g = request <$> seqZ 0 b;
  driven_refused : refused g = O
}.

Abbreviation wpd := (wp (EnvSpec0 := Driver)).

Lemma number_of_request k : number_of (request k) = k mod n.
Proof.
  unfold number_of, request, seen. cbn [fst]. rewrite (ar_ids Ha); [done|].
  apply Z.mod_pos_bound. pose proof (ar_size Ha). lia.
Qed.

Lemma posted_requests b c : 0 <= c -> posted n f sg (b mod n) c = request <$> seqZ b c.
Proof.
  intros Hc. unfold posted, ring_indexes, request. rewrite <- list_fmap_compose.
  replace (seqZ b c) with (Z.add b <$> seqZ 0 c) by (by rewrite fmap_add_seqZ, Z.add_0_r).
  rewrite <- list_fmap_compose.
  apply list_fmap_ext. intros _ k _. unfold compose.
  by rewrite Zplus_mod_idemp_l.
Qed.

(** A post of [c] requests, of which the provider takes [k]. *)
Lemma driven_post a b c k g :
  driven a b g -> 0 <= k <= c -> b + c <= a + n ->
  driven a (b + k)
    {| waiting := waiting g ++ (number_of <$> (request <$> seqZ b k));
       found := found g ++ (request <$> seqZ b k); refused := refused g |}.
Proof.
  intros [Hb Hw Hf Hr] Hk Hc. constructor; cbn [waiting found refused]; [lia| | |done].
  - rewrite Hw. replace (b + k - a) with ((b - a) + k) by lia. rewrite ring_ids_app by lia. f_equal.
    replace (a + (b - a)) with b by lia. unfold ring_ids. rewrite <- list_fmap_compose.
    apply list_fmap_ext. intros _ j _. apply number_of_request.
  - rewrite Hf, seqZ_app, fmap_app by lia. by rewrite Z.add_0_l.
Qed.

Lemma driven_complete a b r g :
  driven a b g -> r <= b - a ->
  driven (a + Z.max 0 r) b
    {| waiting := drop (Z.to_nat r) (waiting g); found := found g; refused := refused g |}.
Proof.
  intros [Hb Hw Hf Hr] Hle. constructor; cbn [waiting found refused]; [lia| |done|done].
  rewrite Hw. replace (b - a) with (Z.max 0 r + (b - (a + Z.max 0 r))) at 1 by lia.
  rewrite ring_ids_app by lia. apply drop_app_length'. unfold ring_ids.
  rewrite length_fmap, length_seqZ. lia.
Qed.

(** *** The calls *)

Lemma is_poll_post wr : is_poll (Fn post_fn) [v_qp v; wr; v_bad v] = false.
Proof.
  unfold is_poll. pose proof (ar_fns Ha) as (_ & _ & Hne).
  by rewrite (proj2 (Z.eqb_neq _ _) (not_eq_sym Hne)).
Qed.

Lemma is_poll_poll : is_poll (Fn poll_fn) [v_cq v; wc_entries; v_wc v] = true.
Proof. unfold is_poll. rewrite Z.eqb_refl. by apply bool_decide_eq_true. Qed.

Lemma posts_post wr : posts (Fn post_fn) [v_qp v; wr; v_bad v] = Some wr.
Proof. unfold posts. by rewrite bool_decide_eq_true_2. Qed.

Lemma wp_poll s Q g :
  in_place (cells s) ->
  (forall r s', in_place (cells s') -> r <= Z.min wc_entries (Z.of_nat (length (waiting g))) ->
     completions_at (cells s') (take (Z.to_nat r) (waiting g)) ->
     Q (Done r s') {| waiting := drop (Z.to_nat r) (waiting g); found := found g; refused := refused g |}) ->
  wpd (ibv_poll_cq (v_cq v) wc_entries (v_wc v) s) Q g.
Proof.
  intros Hin HQ. rewrite poll_call by done. intros [r s'] Hx. cbn [legal gnext Driver] in *.
  unfold driver_legal, driver_next in *. rewrite is_poll_poll in *. cbn [fst snd] in *.
  destruct Hx as (Hs & Hr & Hc). apply HQ; [|done..]. by eapply in_place_same.
Qed.

Lemma wp_post a b c s Q g :
  in_place (cells s) -> driven a b g -> 1 <= c -> b + c <= a + n ->
  (forall r s' k g', in_place (cells s') -> 0 <= k <= c -> (r = 0 -> k = c) -> driven a (b + k) g' ->
     Q (Done (if r =? 0 then 0 else -1) s') g') ->
  wpd (post_from v (b mod n) c s) Q g.
Proof.
  intros [Hst Hp] Hg Hc Hbc HQ. pose proof (ar_size Ha) as [Hn1 Hn2].
  pose proof (driven_bounds _ _ _ Hg) as Hb.
  pose proof (Z.mod_pos_bound b n ltac:(lia)) as Hmod. unfold post_from.
  destruct (post_at_spec (v_ring v) sg_base n f sg n (v_qp v) qctx post_fn (b mod n) c (v_bad v) s)
    as (m & k & l & E & Hcut & Hout & _ & Hwalk & Hl & Hback); try done; try (by apply Ha); try lia.
  { by apply in_place_provider. }
  rewrite E. intros [r s'] Hx. cbn [legal gnext Driver] in *.
  unfold driver_legal, driver_next in *. rewrite is_poll_post, posts_post in *. cbn [fst snd cells set_cells] in *.
  rewrite Hwalk, Hl, posted_requests by lia.
  assert (Hcut' : stored (v_ring v) sg_base (cut n f ((b mod n + c - 1) mod n)) sg (cells s')).
  { eapply stored_same; [|exact Hcut|done]. apply length_cut. lia. }
  destruct (Hback r s' Hcut') as (s'' & -> & _ & Hst' & Hout').
  assert (Hin : in_place (cells s'')).
  { split; [done|]. apply Forall_forall. intros p Hpin.
    pose proof (proj1 (Forall_forall _ _) Hp p Hpin) as Ep.
    destruct (proj1 (Forall_forall _ _) (ar_pointers Ha) p Hpin) as [Ho Hs].
    by rewrite (Hout' _ Ho), (Hx _ Hs), (Hout _ Ho). }
  cbn [wp]. set (t := before (cells s') (wr_at (W := W) (v_ring v) (b mod n))).
  assert (Hl' : exists j, 0 <= j <= c /\ (r = 0 -> j = c) /\
    (if r =? 0 then request <$> seqZ b c else take t (request <$> seqZ b c)) = request <$> seqZ b j).
  { destruct (Z.eqb_spec r 0) as [->|Hr]; [exists c; split; [lia|done]|].
    exists (Z.min (Z.of_nat t) c). split; [lia|]. split; [done|].
    rewrite <- fmap_take. f_equal. destruct (Z.le_ge_cases (Z.of_nat t) c).
    - rewrite take_seqZ by lia. f_equal. lia.
    - rewrite take_ge by (rewrite length_seqZ; lia). f_equal. lia. }
  destruct Hl' as (j & Hj & Hrj & ->). by eapply HQ, driven_post.
Qed.

(** *** The loop *)

Lemma wp_check ids s Q g :
  completions_at (cells s) ids -> (forall b, Q (Done b s) g) ->
  wpd (check_at (length ids) (v_wc v) 0 s) Q g.
Proof.
  intros Hc HQ. assert (H : forall k i, 0 <= i -> i + Z.of_nat k <= Z.of_nat (length ids) ->
    wpd (check_at k (v_wc v) i s) Q g); [|apply H; lia].
  induction k as [|k IH]; intros i Hi Hk; cbn [check_at]; [by apply HQ|].
  destruct (lookup_lt_is_Some_2 ids (Z.to_nat i) ltac:(lia)) as [x Hx].
  destruct (Hc i x (nthZ_of _ _ _ Hi Hx)) as [_ [st Hst]]. rewrite (bind_load _ _ _ _ Hst).
  destruct (negb (st =? 0)); [by apply HQ|]. apply IH; lia.
Qed.

Definition turn_post (o : outcome mstate (option Z)) (g : card) : Prop :=
  exists a b, driven a b g /\
    match o with
    | Done None s => in_place (cells s) /\ b = a + n
    | Done (Some r) s => in_place (cells s) /\ r = EXIT_FAILURE
    | _ => False
    end.

Lemma turn_spec a s g :
  in_place (cells s) -> driven a (a + n) g -> wpd (turn_at v s) turn_post g.
Proof.
  intros Hin Hg. pose proof (ar_size Ha) as [Hn1 Hn2]. pose proof (driven_bounds _ _ _ Hg).
  pose proof (driven_waiting _ _ _ Hg) as Hw.
  assert (Hlen : Z.of_nat (length (waiting g)) = n).
  { rewrite Hw. unfold ring_ids. rewrite length_fmap, length_seqZ. lia. }
  unfold turn_at. apply wp_bind, wp_poll; [done|]. intros r s1 Hin1 Hr Hc. rewrite Hlen in Hr.
  apply (driven_complete _ _ r) in Hg; [|lia]. set (g1 := Build_card _ _ _) in *. cbn [continue].
  destruct (Z.ltb_spec r 0) as [Hneg|Hr0]; [exists (a + Z.max 0 r), (a + n); by split|].
  replace (Z.max 0 r) with r in Hg by lia. apply wp_bind.
  assert (Hids : length (take (Z.to_nat r) (waiting g)) = Z.to_nat r)
    by (rewrite length_take; lia).
  rewrite <- Hids. apply (wp_check (take (Z.to_nat r) (waiting g))); [done|]. intros bad. cbn [continue].
  destruct bad; [by exists (a + r), (a + n)|].
  destruct (Z.ltb_spec 0 r) as [Hpos|Hz]; [|exists (a + r), (a + n); split; [done|]; split; [done|lia]].
  assert (Hfirst : nthZ (take (Z.to_nat r) (waiting g)) 0 = Some (a mod n)).
  { unfold nthZ. cbn [Z.leb Z.compare Z.to_nat]. rewrite lookup_take_lt by lia. rewrite Hw.
    unfold ring_ids. rewrite list_lookup_fmap, lookup_seqZ_lt by lia. cbn. by rewrite Z.add_0_r. }
  destruct (Hc 0 (a mod n) Hfirst) as [Hid _]. rewrite (bind_load _ _ _ _ Hid).
  pose proof (Z.mod_pos_bound a n ltac:(lia)) as Hmod.
  rewrite i32_small by (unfold INT_MIN, INT_MAX in *; lia). apply wp_bind.
  replace (a mod n) with ((a + n) mod n) by (rewrite <- Zplus_mod_idemp_r, Z.mod_same, Z.add_0_r; lia).
  eapply wp_post; [done|exact Hg|lia|lia|]. intros r' s2 k g2 Hin2 Hk Hkr Hg2. cbn [continue].
  destruct (Z.eqb_spec r' 0) as [Hr'|Hr']; cbn [Z.eqb negb].
  - exists (a + r), (a + n + k). split; [done|]. split; [done|]. specialize (Hkr Hr'). lia.
  - by exists (a + r), (a + n + k).
Qed.

Definition run_post (o : outcome mstate Z) (g : card) : Prop :=
  exists a b, driven a b g /\
    match o with
    | Done r s => in_place (cells s) /\ r = EXIT_FAILURE
    | NoFuel s => in_place (cells s) /\ b = a + n
    | _ => False
    end.

Lemma run_at_spec fuel s : in_place (cells s) -> wpd (run_at v fuel s) run_post card0.
Proof.
  intros Hin. pose proof (ar_size Ha) as [Hn1 Hn2].
  assert (H0 : driven 0 0 card0) by (constructor; by (done || lia)).
  unfold run_at. apply wp_bind. replace 0 with (0 mod n) at 1 by (apply Z.mod_0_l; lia).
  eapply wp_post; [done|exact H0|lia|lia|]. intros r s1 k g Hin1 Hk Hkr Hg. cbn [continue].
  destruct (Z.eqb_spec r 0) as [Hr|Hr]; cbn [Z.eqb negb]; [|by exists 0, (0 + k)].
  rewrite (Hkr Hr) in Hg. clear Hk Hkr Hr k.
  apply (wp_loop (fun _ s g => in_place (cells s) /\ exists a, driven a (a + n) g)).
  - split; [done|]. by exists 0.
  - intros _ s2 g2 _ [Hin2 [a Hg2]]. eapply wp_mono; [by eapply turn_spec|].
    intros o g' (a' & b & Hd & Ho). destruct o as [[c|] s'| | |]; try done.
    + by exists a', b.
    + destruct Ho as [Hs' ->]. split; [done|]. by exists a'.
  - intros s2 g2 [Hin2 [a Hg2]]. by exists a, (a + n).
Qed.

End correct.
End driver.
End loops.

(** ** A card that completes everything at once *)

(** It stores a completion without error for each of its oldest requests. *)
Fixpoint complete_at (wc i : Z) (ids : list Z) (m : gmap Z Z) : gmap Z Z :=
  match ids with
  | [] => m
  | x :: ids => complete_at wc (i + 1) ids (<[wr_id_at wc i := x]> (<[status_at wc i := 0]> m))
  end.

Definition card_answer (v : variables) (poll_fn : Z) X (g : card) (e : vcall X) : X :=
  match e in vcall X return X with
  | Invoke f args s =>
      if is_poll v poll_fn f args then
        let ids := take (Z.to_nat wc_entries) (waiting g) in
        (Z.of_nat (length ids), set_cells (complete_at (v_wc v) 0 ids (cells s)) s)
      else (0, s)
  end.

Lemma wc_cells wc i :
  wc_size = 48 /\ wr_id_at wc i = wc + i * 48 /\ status_at wc i = wc + i * 48 + 8.
Proof.
  unfold wr_id_at, status_at. assert (H : wc_size = 48) by (vm_compute; reflexivity).
  assert (H1 : offsetof VerbsStructs.ibv_wc "wr_id" = 0) by (vm_compute; reflexivity).
  assert (H2 : offsetof VerbsStructs.ibv_wc "status" = 8) by (vm_compute; reflexivity).
  rewrite H, H1, H2. lia.
Qed.

Lemma complete_at_other wc i ids m a :
  (forall j, i <= j < i + Z.of_nat (length ids) -> a <> wr_id_at wc j /\ a <> status_at wc j) ->
  complete_at wc i ids m !! a = m !! a.
Proof.
  revert i m. induction ids as [|x ids IH]; intros i m Ho; [done|]. cbn [complete_at length] in *.
  rewrite IH by (intros j Hj; apply Ho; lia).
  destruct (Ho i) as [H1 H2]; [lia|]. by rewrite !lookup_insert_ne.
Qed.

Lemma complete_at_spec wc i ids m j x :
  ids !! j = Some x ->
  complete_at wc i ids m !! wr_id_at wc (i + Z.of_nat j) = Some x /\
  complete_at wc i ids m !! status_at wc (i + Z.of_nat j) = Some 0.
Proof.
  revert i m j. induction ids as [|y ids IH]; intros i m j Hj; [done|]. cbn [complete_at].
  destruct j as [|j]; cbn in Hj.
  - injection Hj as ->. rewrite Z.add_0_r.
    destruct (wc_cells wc i) as (_ & E1 & E2).
    split; (rewrite complete_at_other;
      [|intros k Hk; destruct (wc_cells wc k) as (_ & -> & ->); rewrite ?E1, ?E2; lia]).
    + apply lookup_insert_eq.
    + rewrite lookup_insert_ne by lia. apply lookup_insert_eq.
  - replace (i + Z.of_nat (S j)) with (i + 1 + Z.of_nat j) by lia. by apply IH.
Qed.

Lemma card_answer_legal {W} {L : Linked W} {PT : Pthread} {I : InMemory W} v poll_fn post_fn X g (e : vcall X) :
  legal (EnvSpec := Driver (W := W) v poll_fn post_fn) g e (card_answer v poll_fn X g e).
Proof.
  destruct e as [fn args s]. cbn [legal Driver card_answer]. unfold driver_legal.
  destruct (is_poll v poll_fn fn args); [|by destruct (posts v post_fn fn args)].
  cbn [fst snd cells set_cells]. rewrite Nat2Z.id.
  assert (Hlen : (length (take (Z.to_nat wc_entries) (waiting g)) <= Z.to_nat wc_entries)%nat)
    by (rewrite length_take; lia).
  assert (H10 : wc_entries = 10) by done.
  split; [|split].
  - intros a Hs. apply complete_at_other. intros j Hj. destruct (wc_cells (v_wc v) j) as (E & -> & ->).
    unfold scratch in Hs. rewrite E in Hs. split; intros ->; apply Hs; left; lia.
  - rewrite length_take. lia.
  - assert (E : take (length (take (Z.to_nat wc_entries) (waiting g))) (waiting g) =
      take (Z.to_nat wc_entries) (waiting g)).
    { rewrite length_take. destruct (Nat.min_spec (Z.to_nat wc_entries) (length (waiting g))) as [[? ->]|[? ->]];
        [done|by rewrite !take_ge by done]. }
    rewrite E. intros i x Hi.
    destruct (nthZ_inv _ _ _ Hi) as [Hr Hx].
    destruct (complete_at_spec (v_wc v) 0 _ (cells s) _ _ Hx) as [H1 H2].
    replace (0 + Z.of_nat (Z.to_nat i)) with i in * by lia. split; [done|by exists 0].
Qed.

(** ** Three requests *)

#[local] Existing Instance glibc.

Definition variables_example : variables :=
  {| v_ring := 100000; v_size := 3; v_qp := 20000; v_cq := 25000; v_wc := 300000; v_bad := 400000 |}.

(** The ring of RdmaMemory's example, with a completion queue. *)
Definition driver_memory : gmap Z Z :=
  <[25000 + offsetof ibv_cq "context" := 10000]>
    (<[10000 + offsetof ibv_context "ops" + offsetof ibv_context_ops "poll_cq" := 66]> memory_example).

Lemma arranged_example :
  arranged variables_example 66 77 200000 10000 10000 sends_example sges_example.
Proof.
  constructor; cbn [v_ring v_size v_qp v_cq variables_example].
  - lia.
  - unfold INT_MAX. lia.
  - by intros i Hi.
  - intros i Hi. by destruct (three_cases i Hi) as [-> | [-> | ->]].
  - repeat constructor; vm_compute; discriminate.
  - left. vm_compute. discriminate.
  - lia.
  - lia.
  - repeat constructor; try (left; vm_compute; reflexivity);
      intros [[H _]|H]; vm_compute in H; try done; by apply H.
  - intros a [[H _]|H]; cbn [v_wc v_bad variables_example] in H; right;
      change (wr_size (W := ibv_send_wr)) with 128; lia.
  - intros a [[H _]|H]; cbn [v_wc v_bad variables_example] in H; right;
      change (Z.of_nat (length sges_example) * sge_size) with 48; lia.
Qed.

Lemma in_place_example :
  in_place variables_example 66 77 200000 10000 10000 sends_example sges_example driver_memory.
Proof.
  split; [|repeat constructor; vm_compute; reflexivity].
  pose proof stored_example as [Hw Hs]. split.
  - intros i w Hi. destruct (nthZ_inv _ _ _ Hi) as [Hr _]. change (0 <= i < 3) in Hr.
    destruct (three_cases i Hr) as [-> | [-> | ->]]; vm_compute in Hi; injection Hi as <-;
      (split; [|apply fields_read]; vm_compute; reflexivity).
  - intros i e Hi. destruct (nthZ_inv _ _ _ Hi) as [Hr _]. change (0 <= i < 3) in Hr.
    destruct (three_cases i Hr) as [-> | [-> | ->]]; vm_compute in Hi; injection Hi as <-;
      apply fields_read; vm_compute; reflexivity.
Qed.

(** ** Properties *)

(** C7: the loops of the client and the server, in memory, against every provider
    that keeps a queue: it takes the requests it finds by following the pointers it
    is given (of a post that fails, those before the one it reports), completes
    any number of the oldest at a poll, each with any status, and writes nothing
    but [wc] and [bad_wr].  After any number of turns, and however the loop ends,
    the provider has understood every call; the requests it took are number 0, 1,
    2, ... of the ring, round and round, each with its entries as the program laid
    them out; it holds those it has not completed, at most as many as the ring
    has, and exactly as many while the loop goes on; and in memory the ring is
    whole.  The program reads and writes only memory that exists, and leaves the
    loop only with a failure. *)
Theorem loop_drives_card {PT : Pthread} {W} {L : Linked W} {I : InMemory W}
    v poll_fn post_fn sg_base qctx cctx f sg fuel s :
  arranged v poll_fn post_fn sg_base qctx cctx f sg ->
  in_place v poll_fn post_fn sg_base qctx cctx f sg (cells s) ->
  wp (EnvSpec0 := Driver (W := W) v poll_fn post_fn) (run_at (W := W) v fuel s) (fun o g =>
    exists a b, driven v f sg a b g /\
      match o with
      | Done r s' => in_place v poll_fn post_fn sg_base qctx cctx f sg (cells s') /\ r = EXIT_FAILURE
      | NoFuel s' => in_place v poll_fn post_fn sg_base qctx cctx f sg (cells s') /\ b = a + v_size v
      | _ => False
      end) card0.
Proof. intros Ha Hin. exact (run_at_spec _ _ _ _ _ _ _ _ Ha fuel s Hin). Qed.

(** Four turns with a card that completes everything. *)
Lemma loop_drives_card_witness :
  let r := run (EnvSpec0 := Driver (W := ibv_send_wr) variables_example 66 77)
    (card_answer variables_example 66)
    (run_at (W := ibv_send_wr) variables_example 4 {| cells := driver_memory; errno := 0 |}) card0 in
  number_of <$> found r.2 = [0; 1; 2; 0; 1; 2; 0; 1; 2; 0; 1; 2; 0; 1; 2] /\
  exists a b, driven variables_example sends_example sges_example a b r.2.
Proof.
  intros r. split; [vm_compute; reflexivity|].
  destruct (wp_run (EnvSpec0 := Driver (W := ibv_send_wr) variables_example 66 77)
    (card_answer variables_example 66) _ _ _
    (card_answer_legal variables_example 66 77)
    (loop_drives_card (W := ibv_send_wr) variables_example 66 77 200000 10000 10000 sends_example sges_example 4
       {| cells := driver_memory; errno := 0 |} arranged_example in_place_example)) as (a & b & H & _).
  by exists a, b.
Defined.
