(* ===== verification/RdmaResources.v ===== *)
(** rdma.c: which resources an endpoint holds.

    [core] are the four objects of an initialised endpoint; [endpoint_client]
    and [endpoint_server] all that the two initialisers hand to their callers.
    The theorems say that initialisation ends either with exactly those, in the
    right queue pair state, or in [exit] with everything released but for the
    leaks they name, and that cleanup releases them all. *)
From stdpp Require Import gmap.
From S2P Require Import Prelude CInt CLib RawPacket Prog Posix Verbs VerbsRules Rdma RdmaRing.
Local Open Scope Z_scope.
Local Open Scope c_scope.

(** The endpoint's own objects, newest first. *)
Definition core (s : rdma) (st : ibv_qp_state) : owned :=
  [(queue_pair s, OQp (protection_domain s) (completion_queue s) st);
   (completion_queue s, OCq (context s));
   (protection_domain s, OPd (context s));
   (context s, OContext)].

Definition ah_owned (s : rdma) : owned :=
  if ah s =? 0 then [] else [(ah s, OAh (protection_domain s))].

(** A buffer and its registration; an array. *)
Definition region_owned (s : rdma) (p : Z) (mr : option ibv_mr) (size : Z) : owned :=
  match mr with
  | Some r => [(mr_handle r, OMr (protection_domain s) p size (lkey r)); (p, OBlock size)]
  | None => []
  end.
Definition array_owned {T} (a : array T) (size : Z) : owned :=
  if arr_ptr a =? 0 then [] else [(arr_ptr a, OBlock size)].

(** The sizes of an endpoint's allocations. *)
Record sizes := { z_buffer : Z; z_header : Z; z_sg : Z; z_recv : Z; z_send : Z }.

(** Everything an endpoint holds, besides blocks [B] of its caller. *)
Definition endpoint (s : rdma) (st : ibv_qp_state) (z : sizes) (B : owned) : owned :=
  ah_owned s ++ array_owned (send_requests s) (z_send z) ++
  array_owned (recv_requests s) (z_recv z) ++ array_owned (scatter_gather s) (z_sg z) ++ B ++
  region_owned s (header_buffer s) (header_memory_region s) (z_header z) ++
  region_owned s (buffer s) (memory_region s) (z_buffer z) ++ core s st.

(** Lists made of these parts contain all that their objects use. *)
Lemma closed_parts (X Y : owned) :
  (forall x, x ∈ X -> exists n, x.2 = OBlock n) -> closed Y -> closed (X ++ Y).
Proof.
  intros HX HY. unfold closed. rewrite Forall_app. split.
  - apply list.Forall_forall. intros x Hx. by destruct (HX x Hx) as [n ->].
  - eapply Forall_impl; [exact HY|]. intros x Hx. eapply Forall_impl; [exact Hx|].
    intros t Ht. rewrite fmap_app, elem_of_app. by right.
Qed.

Lemma closed_array {T} (a : array T) size Y : closed Y -> closed (array_owned a size ++ Y).
Proof.
  apply closed_parts. unfold array_owned. destruct (_ =? 0); [by intros x ?%elem_of_nil|].
  intros x ->%list_elem_of_singleton. by eexists.
Qed.

Lemma closed_blocks B Y : blocks B -> closed Y -> closed (B ++ Y).
Proof. intros HB. apply closed_parts. by apply list.Forall_forall. Qed.

Lemma closed_ah s Y : protection_domain s ∈ Y.*1 -> closed Y -> closed (ah_owned s ++ Y).
Proof.
  intros Hpd HY. unfold ah_owned. destruct (ah s =? 0); [done|]. unfold closed in *. simpl.
  constructor.
  - constructor; [|done]. by right.
  - eapply Forall_impl; [exact HY|]. intros x Hx. eapply Forall_impl; [exact Hx|]. intros t Ht. by right.
Qed.

Lemma closed_region s p mr size Y :
  protection_domain s ∈ Y.*1 -> closed Y -> closed (region_owned s p mr size ++ Y).
Proof.
  intros Hpd HY. unfold region_owned. destruct mr as [r|]; [|done]. unfold closed in *. simpl.
  constructor; [|constructor].
  - constructor; [by right; right|]. constructor; [by right; left|done].
  - done.
  - eapply Forall_impl; [exact HY|]. intros x Hx. eapply Forall_impl; [exact Hx|]. intros t Ht.
    by right; right.
Qed.

Ltac key :=
  repeat (rewrite fmap_app; apply elem_of_app; right); simpl; repeat first [by left | right].

Lemma closed_core s st : closed (core s st).
Proof. unfold closed, core. repeat constructor; key. Qed.

Ltac closing :=
  repeat first [apply closed_ah; [key|] | apply closed_array | apply closed_region; [key|]
               | apply closed_blocks; [done|] | apply closed_core].
Ltac closed_list := unfold closed; repeat constructor; key.

Lemma closed_endpoint s st z B : blocks B -> closed (endpoint s st z B).
Proof. intros HB. unfold endpoint. closing. Qed.

(** [l'] is [l] without the part [x]. *)
Definition dropped (x l l' : owned) : Prop := exists l1 l2, l = l1 ++ x ++ l2 /\ l' = l1 ++ l2.

Lemma dropped_here x l : dropped x (x ++ l) l.
Proof. by exists [], l. Qed.

Lemma dropped_app x B l l' : dropped x l l' -> dropped x (B ++ l) (B ++ l').
Proof. intros (l1 & l2 & -> & ->). exists (B ++ l1), l2. by rewrite <- !app_assoc. Qed.

(** One step of a call: name the answer and go on. *)
Ltac vstep := cbn [wp continue ret gets modify exit_ undef call defined bind eprintf eputs id].

Section resources.
Context {TX : AddrText} {JK : Junk} (sigint : nat -> bool).
Variable m : gmap Z obj.
Variable io : list work * list transmit.
Hypothesis Hm : blocks_only m.
Local Abbreviation wpn := (nic_wp sigint).
Local Abbreviation holds := (holds m io).

Lemma wp_eputs {A} msg (f : unit -> M verbs rdma A) s Q l F g :
  holds l F g -> (forall g', holds l F g' -> wpn (f tt s) Q g') ->
  wpn (bind (eputs msg) f s) Q g.
Proof. apply wp_eprintf. Qed.

(** [release(what, r)]: goes on after a success, exits after a failure. *)
Lemma wp_release_0 {A} what (f : unit -> M verbs rdma A) s Q g :
  wpn (f tt s) Q g -> wpn (bind (release what 0) f s) Q g.
Proof. intros H. apply wp_bind. done. Qed.

Lemma wp_release_fail {A} what r (f : unit -> M verbs rdma A) s Q l F g :
  r <> 0 -> holds l F g -> (forall g', holds l F g' -> Q (Exit EXIT_FAILURE s) g') ->
  wpn (bind (release what r) f s) Q g.
Proof.
  intros Hr H HQ. apply wp_bind. unfold release. assert (E : (r =? 0) = false) by lia.
  rewrite E. eapply wp_eputs; [exact H|]. intros g' H'. by apply HQ.
Qed.

(** ** Cleanup *)

(** The postcondition of the cleanup functions: everything but [B] is
    released, or the program exits at the first release that fails. *)
Definition cleaned (B : owned) (F : list failure) (s : rdma) (o : outcome rdma unit) (g : nic) : Prop :=
  match o with
  | Done _ s' => s' = s /\ holds B F g
  | Exit c s' => c = EXIT_FAILURE /\ s' = s /\ exists l, holds l (F ++ [FRelease]) g
  | _ => False
  end.

Lemma holds_failed l F x g : holds l (F ++ [x]) g -> x ∈ failed g.
Proof. intros (_ & _ & -> & _). apply elem_of_app. right. by left. Qed.

Lemma core_distinct B s st :
  grown (B ++ core s st) m -> completion_queue s <> protection_domain s /\
  completion_queue s <> context s /\ protection_domain s <> context s.
Proof.
  intros Hg%grown_NoDup. rewrite fmap_app, NoDup_app in Hg. destruct Hg as (_ & _ & Hg).
  simpl in Hg. rewrite !NoDup_cons, !not_elem_of_cons in Hg. tauto.
Qed.

Ltac release_failed r Hr g' Hg' :=
  intros r g' Hr Hg'; eapply wp_release_fail; [exact Hr|exact Hg'|];
  let g2 := fresh in let H2 := fresh in intros g2 H2;
  split; [done|]; split; [done|]; by eexists.

Lemma internal_rdma_cleanup_spec B st F s g :
  blocks B -> holds (ah_owned s ++ B ++ core s st) F g ->
  wpn (internal_rdma_cleanup s) (cleaned B F s) g.
Proof.
  intros HB H. unfold internal_rdma_cleanup. wp_step. vstep.
  assert (Hah : forall Q, (forall g', holds (B ++ core s st) F g' -> Q (Done tt s) g') ->
    (forall l g', holds l (F ++ [FRelease]) g' -> Q (Exit EXIT_FAILURE s) g') ->
    wpn ((if negb (ah s =? 0) then bind (call (Destroy_ah (ah s))) (release "Couldn't destroy AH.")
          else ret tt) s) Q g).
  { intros Q HD HE. unfold ah_owned in H. destruct (ah s =? 0); simpl in *; [by apply HD|].
    eapply wp_destroy_ah; [exact H|constructor|by apply HD|].
    intros r g' Hr H'. unfold release. assert (E : (r =? 0) = false) by lia. rewrite E.
    eapply wp_eputs; [exact H'|]. intros g2 H2. by eapply HE. }
  apply wp_bind, Hah; clear Hah H; [|intros l g' Hg'; split; [done|]; split; [done|by eexists]].
  intros g1 H. vstep. destruct (core_distinct _ _ _ (holds_grown _ _ _ _ _ H)) as (N1 & N2 & N3).
  apply Z.eqb_neq in N1, N2, N3. rewrite Z.eqb_sym in N1, N2, N3.
  eapply wp_destroy_qp; [exact H|apply removed_app; constructor| |]; clear H.
  2: release_failed r Hr g' Hg'.
  intros g2 H. apply wp_release_0.
  eapply wp_destroy_cq; [done|exact H|apply removed_app; constructor| | |]; clear H.
  { apply blocks_independent; [done|]. by repeat constructor. }
  2: release_failed r Hr g' Hg'.
  intros g3 H. apply wp_release_0.
  eapply wp_dealloc_pd; [done|exact H|apply removed_app; constructor| | |]; clear H.
  { apply blocks_independent; [done|]. by repeat constructor. }
  2: release_failed r Hr g' Hg'.
  intros g4 H. apply wp_release_0.
  eapply wp_close_device; [done|exact H|apply removed_app; constructor| | |]; clear H.
  { apply blocks_independent; [done|]. by repeat constructor. }
  - intros g5 H. split; [done|]. by rewrite app_nil_r in H.
  - intros r g' Hr H. unfold release. assert (E : (r =? 0) = false) by lia. rewrite E.
    eapply wp_eputs; [exact H|]. intros g5 H5. split; [done|]. split; [done|by eexists].
Qed.

(** Freeing an array that may be NULL. *)
Lemma wp_free_array {A T} (a : array T) size (f : unit -> M verbs rdma A) s Q l l' F g :
  holds l F g -> dropped (array_owned a size) l l' -> closed l' ->
  (forall g', holds l' F g' -> wpn (f tt s) Q g') ->
  wpn (bind (if negb (arr_ptr a =? 0) then call (Free (arr_ptr a)) else ret tt) f s) Q g.
Proof.
  intros H (l1 & l2 & -> & ->) Hc HQ. unfold array_owned in H. destruct (arr_ptr a =? 0); cbn [negb].
  - apply wp_bind. by apply HQ.
  - eapply wp_free; [done|exact H|apply removed_app; constructor|done|done].
Qed.

Ltac dropping := repeat first [apply dropped_here | apply dropped_app].

Lemma rdma_cleanup_spec B st z F r s g :
  blocks B -> memory_region s = Some r ->
  (header_memory_region s = None -> header_buffer s = 0) ->
  holds (endpoint s st z B) F g ->
  wpn (rdma_cleanup s) (cleaned B F s) g.
Proof.
  intros HB Hmr Hhdr H. unfold rdma_cleanup. wp_step. vstep. unfold endpoint in H.
  rewrite Hmr in H |- *. cbn [region_owned mr_ptr] in *.
  eapply wp_dereg_mr; [exact H|removal| |]; clear H.
  2: release_failed e He g' Hg'.
  intros g1 H. apply wp_release_0.
  eapply wp_free; [done|exact H|removal|closing|]; clear H. intros g2 H.
  assert (Hh : forall (f : unit -> M verbs rdma unit),
    (forall g', holds (ah_owned s ++ array_owned (send_requests s) (z_send z) ++
       array_owned (recv_requests s) (z_recv z) ++ array_owned (scatter_gather s) (z_sg z) ++
       B ++ core s st) F g' -> wpn (f tt s) (cleaned B F s) g') ->
    wpn (bind (match header_memory_region s with
               | Some m => bind (call (Dereg_mr (mr_handle m)))
                             (release "Couldn't destroy memory region.")
               | None => ret tt end)
          (fun _ => bind (if negb (header_buffer s =? 0) then call (Free (header_buffer s)) else ret tt)
            f) s) (cleaned B F s) g2).
  { intros f Hf. destruct (header_memory_region s) as [h|]; cbn [region_owned] in H.
    - apply wp_bind. eapply wp_dereg_mr; [exact H|removal| |].
      + intros g3 H3. vstep. change (release _ 0 s) with (Ret (E:=verbs) (Done (S:=rdma) tt s)).
        vstep. pose proof (grown_nonzero _ _ (header_buffer s) (holds_grown _ _ _ _ _ H3)) as Hn.
        rewrite (proj2 (Z.eqb_neq _ _)).
        * eapply wp_free; [done|exact H3|removal|closing|done].
        * apply Hn. rewrite !fmap_app. set_solver.
      + intros e g3 He H3. apply wp_bind. eapply wp_release_fail; [exact He|exact H3|].
        intros g4 H4. split; [done|]. split; [done|by eexists].
    - rewrite Hhdr by done. apply wp_bind. vstep. apply wp_bind. by apply Hf. }
  apply Hh. clear Hh H g1 g2 g. intros g H.
  eapply (wp_free_array _ (z_sg z)); [exact H|dropping|closing|]; clear H g. intros g H.
  eapply (wp_free_array _ (z_recv z)); [exact H|dropping|closing|]; clear H g. intros g H.
  eapply (wp_free_array _ (z_send z)); [exact H|dropping|closing|]; clear H g. intros g H.
  by eapply internal_rdma_cleanup_spec.
Qed.

(** ** Initialisation *)

Lemma wp_find_device {A} name devs (f : Z -> M verbs rdma A) s Q l F g :
  holds l F g -> (forall d, d ∈ devs -> d ∈ devices g) ->
  (forall d g', holds l F g' -> devices g' = devices g -> d = 0 \/ d ∈ devs -> wpn (f d s) Q g') ->
  wpn (bind (find_device name devs) f s) Q g.
Proof.
  intros H Hd HQ. apply wp_bind.
  cut (wpn (find_device name devs s) (fun o g' => exists d, o = Done d s /\ holds l F g' /\
         devices g' = devices g /\ (d = 0 \/ d ∈ devs)) g).
  { intros Hw. eapply wp_mono; [exact Hw|]. intros o g' (d & -> & H' & E & Hin). by apply HQ. }
  clear HQ f. revert g H Hd. induction devs as [|d devs IH]; intros g H Hd; simpl.
  - exists 0. auto.
  - intros n _. set (g1 := nic_next _ _ _ _).
    assert (H1 : holds l F g1).
    { eapply holds_next; [exact H|by eapply holds_grown|done|apply app_nil_r| |done].
      intros _. cbn. rewrite bool_decide_eq_true_2; [done|]. apply Hd. by left. }
    assert (E1 : devices g1 = devices g) by done.
    case_bool_decide; vstep; [exists d; split; [done|]; split; [done|]; split; [done|]; right; by left|].
    eapply wp_mono; [apply IH; [exact H1|]|].
    + intros d' Hd'. rewrite E1. apply Hd. by right.
    + intros o g' (d' & -> & H' & E & Hin). exists d'. split; [done|]. split; [done|].
      split; [congruence|]. destruct Hin as [->|Hin]; [by left|right; by right].
Qed.

Lemma wp_free_device_list {A} dl (f : unit -> M verbs rdma A) s Q l l' F g :
  holds l F g -> removed dl ODevList l l' ->
  (forall g', holds l' F g' -> devices g' = [] -> wpn (f tt s) Q g') ->
  wpn (bind (call (Free_device_list dl)) f s) Q g.
Proof.
  intros H Hr HQ. apply wp_bind. intros [] _. cbn [wp continue]. apply HQ; [|done].
  destruct (removed_grow _ _ _ _ m Hr (holds_grown _ _ _ _ _ H)) as (Hlk & Hg' & Hd).
  eapply holds_next; [exact H|done| |apply app_nil_r| |done].
  - intros E. cbn. by rewrite E.
  - intros E. cbn. by rewrite E, Hlk.
Qed.

Lemma wp_allocate_buf {A} buf mr size pd ctx (f : Z -> M verbs rdma A) s Q l l' F g :
  holds l F g -> removed pd (OPd ctx) l l' -> closed l -> protection_domain s = pd -> io.1 = [] ->
  (forall g', holds l F g' -> wpn (f 1 s) Q g') ->
  (forall p g', holds l F g' -> wpn (f 1 (buf 0 (mr None (buf p s)))) Q g') ->
  (forall p r g', fresh_block (grow l m) p size ->
     holds ((mr_handle r, OMr pd p size (lkey r)) :: (p, OBlock size) :: l) F g' ->
     wpn (f 0 (mr (Some r) (buf p s))) Q g') ->
  wpn (bind (allocate_buf buf mr size) f s) Q g.
Proof.
  intros H Hpd Hc Hs Hio H1 H2 H3. apply wp_bind. unfold allocate_buf. apply wp_bind. vstep.
  eapply wp_memalign; [exact H| |].
  - intros r p g1 Hr Hg1. rewrite (proj2 (Z.eqb_neq _ _) Hr). cbn [negb].
    eapply wp_eputs; [exact Hg1|]. intros g2 Hg2. by apply H1.
  - intros p g1 Hp Hg1. cbn [Z.eqb negb]. apply wp_bind. vstep.
    eapply wp_memset; [exact Hg1|constructor|done|done|]. intros g2 Hg2.
    rewrite Hs. eapply wp_reg_mr; [exact Hg2|constructor; exact Hpd|constructor| |].
    + intros g3 Hg3. apply wp_bind. vstep. eapply wp_eputs; [exact Hg3|]. intros g4 Hg4.
      eapply wp_free; [done|exact Hg4|constructor|done|]. intros g5 Hg5. vstep. by apply H2.
    + intros r g3 Hr Hg3. vstep. by apply (H3 p r g3).
Qed.

(** A failed release stays on record, whatever follows. *)
Lemma wp_failed_mono {A} (p : prog verbs A) x g :
  x ∈ failed g -> wpn p (fun _ g' => x ∈ failed g') g.
Proof.
  revert g. induction p as [a|X e k IH]; intros g Hx; simpl; [done|].
  intros y _. apply IH. simpl. apply elem_of_app. by left.
Qed.

(** Nothing is posted and nothing completes. *)
Definition same_io (g : nic) : Prop := (outstanding g, transmitted g) = io.

Lemma holds_io l F g : holds l F g -> same_io g.
Proof. by intros (_ & _ & _ & _ & H). Qed.

(** The state in which [rdma_init] gives up. *)
Definition gave_up (l : owned) (F : list failure) (s : rdma) (o : outcome rdma unit) (g : nic) : Prop :=
  o = Exit EXIT_FAILURE s /\ (FRelease ∈ failed g /\ same_io g \/ holds l F g).

Lemma wp_gave_up_failed (p : prog verbs (outcome rdma unit)) l l' F F' s g :
  holds l' (F' ++ [FRelease]) g -> 
  (forall g, same_io g -> wpn p (fun o g' => o = Exit EXIT_FAILURE s /\ same_io g') g) ->
  wpn p (gave_up l F s) g.
Proof.
  intros H Hp. eapply wp_mono.
  - eapply wp_and; [by eapply Hp, holds_io|by eapply wp_failed_mono, holds_failed].
  - intros o g' [[-> Hio] HF]. split; [done|by left].
Qed.

Lemma clean_context_spec l F s g : holds l F g -> wpn (clean_context s) (gave_up l F s) g.
Proof. intros H. eapply wp_eputs; [exact H|]. intros g' H'. split; [done|by right]. Qed.

Lemma clean_device_spec F s g :
  holds [(context s, OContext)] F g -> wpn (clean_device s) (gave_up [] F s) g.
Proof.
  intros H. unfold clean_device. wp_step. vstep.
  eapply wp_close_device; [done|exact H|constructor|by repeat constructor| |].
  - intros g1 H1. by apply clean_context_spec.
  - intros r g1 Hr H1. eapply wp_gave_up_failed; [exact H1|]. clear. cbn. auto.
Qed.

Lemma clean_protection_domain_spec F s g :
  holds [(protection_domain s, OPd (context s)); (context s, OContext)] F g ->
  wpn (clean_protection_domain s) (gave_up [] F s) g.
Proof.
  intros H. unfold clean_protection_domain. wp_step. vstep.
  pose proof (grown_NoDup _ _ (holds_grown _ _ _ _ _ H)) as Hn. simpl in Hn.
  rewrite NoDup_cons, list_elem_of_singleton in Hn. destruct Hn as [Hn%Z.eqb_neq _].
  rewrite Z.eqb_sym in Hn.
  eapply wp_dealloc_pd; [done|exact H|constructor|by repeat constructor| |].
  - intros g1 H1. by apply clean_device_spec.
  - intros r g1 Hr H1. eapply wp_gave_up_failed; [exact H1|]. clear. cbn. auto.
Qed.

Lemma clean_completion_queue_spec F s g :
  holds [(completion_queue s, OCq (context s)); (protection_domain s, OPd (context s));
         (context s, OContext)] F g ->
  wpn (clean_completion_queue s) (gave_up [] F s) g.
Proof.
  intros H. unfold clean_completion_queue. wp_step. vstep.
  pose proof (grown_NoDup _ _ (holds_grown _ _ _ _ _ H)) as Hn. simpl in Hn.
  rewrite NoDup_cons, !not_elem_of_cons in Hn.
  destruct Hn as [(_ & Hn%Z.eqb_neq & _) _]. rewrite Z.eqb_sym in Hn.
  eapply wp_destroy_cq; [done|exact H|constructor|by repeat constructor| |].
  - intros g1 H1. by apply clean_protection_domain_spec.
  - intros r g1 Hr H1. eapply wp_gave_up_failed; [exact H1|]. clear. cbn. auto.
Qed.

Lemma clean_queue_pair_spec st F s g :
  holds (core s st) F g -> wpn (clean_queue_pair s) (gave_up [] F s) g.
Proof.
  intros H. unfold clean_queue_pair. wp_step. vstep.
  eapply wp_destroy_qp; [exact H|constructor| |].
  - intros g1 H1. by apply clean_completion_queue_spec.
  - intros r g1 Hr H1. eapply wp_gave_up_failed; [exact H1|]. clear. cbn. auto.
Qed.

(** [rdma_init] leaves the other statics alone. *)
Definition same_statics (s s' : rdma) : Prop :=
  header_buffer s' = header_buffer s /\ buffer s' = buffer s /\
  scatter_gather s' = scatter_gather s /\ recv_requests s' = recv_requests s /\
  send_requests s' = send_requests s /\ memory_region s' = memory_region s /\
  header_memory_region s' = header_memory_region s /\ ah s' = ah s.

(** What [rdma_init] left behind when it exited: nothing; or the context, after
    ibv_alloc_pd failed; or nothing but a use of the device after its list was
    freed, when ibv_open_device failed.  If releasing an object failed, there
    is no claim. *)
Definition init_failed (s : rdma) (g : nic) : Prop :=
  FRelease ∈ failed g /\ same_io g \/ holds [] [] g \/ holds [(context s, OContext)] [FAllocPd] g \/
  (live g = m /\ failed g = [FOpenDevice] /\ misuse g = ["dead device"] /\ same_io g).

Definition init_post (n : Z) (s : rdma) (o : outcome rdma unit) (g : nic) : Prop :=
  match o with
  | Done _ s' => same_statics s s' /\ holds (core s' IBV_QPS_RTR) [] g /\ queue_size s' = n /\
                 (send_flags s' = send_flags s \/
                  send_flags s' = Z.lor (send_flags s) IBV_SEND_INLINE) /\
                 (exists mtu, max_mtu s' = u32 (Z.shiftl 1 (ibv_mtu_val mtu + 7)))
  | Exit c s' => c = EXIT_FAILURE /\ init_failed s' g
  | _ => False
  end.

Lemma wp_clean {l F s s0 n} (p : prog verbs (outcome rdma unit)) g :
  wpn p (gave_up l F s) g -> (l = [] /\ F = [] \/ l = [(context s, OContext)] /\ F = [FAllocPd]) ->
  wpn p (init_post n s0) g.
Proof.
  intros Hp HF. eapply wp_mono; [exact Hp|]. intros o g' [-> [H|H]]; split; try done.
  - by left.
  - right. destruct HF as [[-> ->]|[-> ->]]; [by left|right; by left].
Qed.

Lemma init_queue_pair_spec s0 s g mtu :
  same_statics s0 s -> send_flags s = send_flags s0 ->
  max_mtu s = u32 (Z.shiftl 1 (ibv_mtu_val mtu + 7)) -> holds (core s IBV_QPS_RESET) [] g ->
  wpn (init_queue_pair s) (init_post (queue_size s) s0) g.
Proof.
  intros Hs Hf Hmtu H. unfold init_queue_pair. apply wp_bind. vstep.
  eapply wp_query; [exact H|done|done| |done|].
  { cbn [rules]. unfold is_qp. rewrite (holds_live _ _ _ _ _ H). simpl. by rewrite lookup_insert_eq. }
  intros [[rc attr] iattr] g1 _ H1. apply wp_bind.
  assert (Hend : forall s1, core s1 = core s -> same_statics s0 s1 -> queue_size s1 = queue_size s ->
    max_mtu s1 = max_mtu s -> queue_pair s1 = queue_pair s ->
    (send_flags s1 = send_flags s0 \/ send_flags s1 = Z.lor (send_flags s0) IBV_SEND_INLINE) ->
    wpn (bind (call (Modify_qp (queue_pair s) (init_state_attr attr)
              (Z.lor (Z.lor (Z.lor IBV_QP_STATE IBV_QP_PKEY_INDEX) IBV_QP_PORT) IBV_QP_QKEY)))
      (fun r => if negb (r =? 0) then bind (eputs "Failed to initialise queue pair.") (fun _ => clean_queue_pair)
       else bind (call (Modify_qp (queue_pair s) (with_state IBV_QPS_RTR (init_state_attr attr)) IBV_QP_STATE))
        (fun r => if negb (r =? 0) then
          bind (eputs "Failed to make queue pair ready to receive.") (fun _ => clean_queue_pair)
          else ret tt)) s1) (init_post (queue_size s) s0) g1).
  { intros s1 Hc Hs1 Hq1 Hm1 Hp1 Hf1. rewrite <- Hc in H1. rewrite <- Hp1.
    eapply (wp_modify_qp _ _ _ []); [exact H1| |].
    - intros r g2 Hr H2. rewrite (proj2 (Z.eqb_neq _ _) Hr). cbn [negb].
      eapply wp_eputs; [exact H2|]. intros g3 H3. eapply wp_clean; [by eapply clean_queue_pair_spec|by left].
    - intros g2 _ H2. cbn [Z.eqb negb qp_state init_state_attr] in *.
      eapply (wp_modify_qp _ _ _ []); [exact H2| |].
      + intros r g3 Hr H3. rewrite (proj2 (Z.eqb_neq _ _) Hr). cbn [negb].
        eapply wp_eputs; [exact H3|]. intros g4 H4. eapply wp_clean; [by eapply clean_queue_pair_spec|by left].
      + intros g3 _ H3. cbn [Z.eqb negb]. vstep. split; [done|]. split; [exact H3|]. split; [done|].
        split; [done|]. exists mtu. congruence. }
  destruct (max_mtu s <=? _); vstep; apply Hend; try done;
    [right; cbn; congruence|by left].
Qed.

Lemma init_objects_spec n s0 s g :
  same_statics s0 s -> send_flags s = send_flags s0 -> queue_size s = n ->
  holds [(context s, OContext)] [] g ->
  wpn (init_objects n s) (init_post n s0) g.
Proof.
  intros Hs Hf Hq H. unfold init_objects. apply wp_bind. vstep.
  assert (Hctx : forall l g, holds (l ++ [(context s, OContext)]) [] g ->
             is_context (live g) (context s) = true).
  { intros l g' H'. unfold is_context. rewrite (holds_live _ _ _ _ _ H').
    rewrite (removed_lookup (context s) OContext _ l); [done| |by eapply holds_grown].
    rewrite <- (app_nil_r l) at 2. apply removed_app. constructor. }
  eapply wp_query; [exact H|done|done| |done|].
  { cbn [rules]. by rewrite (Hctx [] g H). }
  intros [rc port] g1 _ H1. cbn beta iota. destruct (rc =? 0); cbn [negb].
  2: { eapply wp_eputs; [exact H1|]. intros g2 H2.
       eapply wp_clean; [by apply clean_device_spec|by left]. }
  apply wp_bind. vstep.
  eapply wp_create; [exact H1|done|done|done| |done| |].
  { cbn [rules]. by rewrite (Hctx [] g1 H1). }
  { intros g2 H2. apply wp_bind. vstep. cbn [Z.eqb negb]. eapply wp_eputs; [exact H2|].
    intros g3 H3. eapply wp_clean; [by apply clean_context_spec|by right]. }
  intros pd g2 _ Hpd H2. apply wp_bind. vstep. rewrite (proj2 (Z.eqb_neq _ _) Hpd).
  eapply wp_create; [exact H2|done|done|intros h; instantiate (1 := []); by destruct (h =? 0)| |done| |].
  { cbn [rules]. by rewrite (Hctx [_] g2 H2). }
  { intros g3 H3. apply wp_bind. vstep. cbn [Z.eqb negb]. eapply wp_eputs; [exact H3|].
    intros g4 H4. eapply wp_clean; [by apply clean_protection_domain_spec|by left]. }
  intros cq g3 _ Hcq H3. apply wp_bind. vstep. rewrite (proj2 (Z.eqb_neq _ _) Hcq).
  eapply wp_create; [exact H3|done|done|intros h; instantiate (1 := []); by destruct (h =? 0)| |done| |].
  { cbn [rules send_cq recv_cq init_attr]. unfold is_pd, is_cq. rewrite (holds_live _ _ _ _ _ H3).
    pose proof (holds_grown _ _ _ _ _ H3) as Hg. rewrite (removed_lookup cq (OCq (context s)) _ _ m (removed_here _ _ _) Hg).
    rewrite (removed_lookup pd (OPd (context s)) _ _ m (removed_there _ _ _ _ _ (removed_here _ _ _)) Hg).
    done. }
  { intros g4 H4. apply wp_bind. vstep. cbn [Z.eqb negb]. eapply wp_eputs; [exact H4|].
    intros g5 H5. eapply wp_clean; [by apply clean_completion_queue_spec|by left]. }
  intros qp g4 _ Hqp H4. apply wp_bind. vstep. rewrite (proj2 (Z.eqb_neq _ _) Hqp).
  rewrite <- Hq. change (queue_size s) with (queue_size
    (set_queue_pair qp (set_completion_queue cq (set_protection_domain pd
       (set_max_mtu (u32 (Z.shiftl 1 (ibv_mtu_val (active_mtu port) + 7))) s))))).
  by eapply init_queue_pair_spec.
Qed.

Lemma wp_get_device_list {A} (f : Z * list Z -> M verbs rdma A) s Q l F g :
  holds l F g ->
  (forall devs g', holds l F g' -> wpn (f (0, devs) s) Q g') ->
  (forall dl devs g', dl <> 0 -> 0 ∉ devs -> holds ((dl, ODevList) :: l) F g' ->
     devices g' = devs -> wpn (f (dl, devs) s) Q g') ->
  wpn (bind (call Get_device_list) f s) Q g.
Proof.
  intros H H0 H1. apply wp_bind. intros [dl devs] [Hc Hd]. cbn [wp continue fst snd] in *.
  destruct Hc as [->|Hf].
  - apply H0. eapply holds_next; [exact H|by eapply holds_grown|done|apply app_nil_r|done|done].
  - apply H1; [apply Hf|done| |done]. rewrite (holds_live _ _ _ _ _ H) in Hf.
    eapply holds_next; [exact H|by split; [|by eapply holds_grown]| |apply app_nil_r|done|done].
    intros E. cbn. unfold create. by rewrite (proj2 (Z.eqb_neq _ _) (proj1 Hf)), E.
Qed.

Lemma wp_open_device {A} dev (f : Z -> M verbs rdma A) s Q l F g :
  holds l F g -> dev ∈ devices g ->
  (forall g', holds l (F ++ [FOpenDevice]) g' -> wpn (f 0 s) Q g') ->
  (forall c g', c <> 0 -> holds ((c, OContext) :: l) F g' -> wpn (f c s) Q g') ->
  wpn (bind (call (Open_device dev)) f s) Q g.
Proof.
  intros H Hd H0 H1.
  eapply wp_create; [exact H|done|done|done| |done|exact H0|by intros c g' _; apply H1].
  cbn [rules]. by rewrite bool_decide_eq_true_2.
Qed.

(** The name of the device is read after its list is gone. *)
Lemma open_failed_spec n s0 dev s g :
  holds [] [FOpenDevice] g -> devices g = [] ->
  wpn (bind (call (Get_device_name dev)) (fun name =>
         bind (eprintf (string_bytes "Failed to open device: " ++ name ++ [10]))
           (fun _ => clean_context)) s) (init_post n s0) g.
Proof.
  intros (_ & Hl & HF & Hmis & Hio) Hd. apply wp_bind. intros name _. cbn [wp continue].
  apply wp_bind. intros [] _. cbn [wp continue]. apply wp_bind. intros [] _. cbn [wp continue].
  split; [done|]. do 3 right. unfold same_io. cbn. rewrite Hl, HF, Hmis, Hd, Hio.
  by rewrite bool_decide_eq_false_2 by apply not_elem_of_nil.
Qed.

Lemma rdma_init_spec name n s g :
  holds [] [] g -> wpn (rdma_init name n s) (init_post n s) g.
Proof.
  intros H. unfold rdma_init.
  eapply wp_query; [exact H|done|done|done|done|]. clear H. intros page g1 _ H.
  apply wp_bind. vstep. apply wp_bind. vstep.
  eapply wp_get_device_list; [exact H| |]; clear H.
  { intros devs g2 H. cbn [Z.eqb]. eapply wp_eputs; [exact H|]. intros g3 H3.
    split; [done|]. right. by left. }
  intros dl devs g2 Hdl H0 H Hdevs. rewrite (proj2 (Z.eqb_neq _ _) Hdl).
  eapply wp_find_device; [exact H|by rewrite Hdevs|]. intros d g3 H3 Hdev Hd.
  rewrite Hdevs in Hdev. clear g2 H Hdevs g1. rename H3 into H.
  assert (Hfree : forall l l' F g (f : unit -> M verbs rdma unit) s Q, holds l F g ->
    removed dl ODevList l l' -> (forall g', holds l' F g' -> devices g' = [] -> wpn (f tt s) Q g') ->
    wpn (bind (call (Free_device_list dl)) f s) Q g)
    by (intros; by eapply wp_free_device_list).
  destruct (Z.eqb_spec d 0) as [->|Hnz].
  { eapply wp_eprintf; [exact H|]. clear g3 H Hdev. intros g4 H.
    eapply Hfree; [exact H|constructor|]. clear g4 H. intros g5 H _. vstep.
    split; [done|]. right. by left. }
  destruct Hd as [|Hd]; [done|].
  eapply wp_open_device; [exact H| | |].
  - by rewrite Hdev.
  - clear g3 H Hdev. intros g4 H. apply wp_bind. vstep.
    eapply Hfree; [exact H|constructor|]. clear g4 H. intros g5 H He. cbn [Z.eqb].
    by eapply open_failed_spec.
  - clear g3 H Hdev. intros c g4 Hc H. apply wp_bind. vstep.
    eapply Hfree; [exact H|constructor; constructor|]. clear g4 H. intros g5 H _.
    rewrite (proj2 (Z.eqb_neq _ _) Hc). by apply init_objects_spec.
Qed.

(** ** The whole endpoint *)

Lemma wp_malloc_array {A T} (junk : nat -> T) size sz (f : array T -> M verbs rdma A) s Q l F g :
  holds l F g ->
  (forall g', holds l (F ++ [FMalloc]) g' -> wpn (f null_array s) Q g') ->
  (forall p g', p <> 0 ->
     holds ((p, OBlock size) :: l) F g' ->
     wpn (f (Build_array p (junk <$> seq 0 (Z.to_nat (size / sz)))) s) Q g') ->
  wpn (bind (malloc_array junk size sz) f s) Q g.
Proof.
  intros H H0 H1. apply wp_bind. unfold malloc_array. eapply wp_malloc; [exact H| |].
  - intros g' H'. by apply H0.
  - intros p g' Hp _ H'. vstep. rewrite (proj2 (Z.eqb_neq _ _) Hp). by apply H1.
Qed.

Lemma wp_int_expr {A} z (f : Z -> M verbs rdma A) s Q g :
  0 <= z <= INT_MAX -> wpn (f z s) Q g -> wpn (bind (int_expr z) f s) Q g.
Proof.
  intros Hz H. apply wp_bind. unfold int_expr. unfold INT_MIN, INT_MAX in *.
  by rewrite (proj2 (Z.leb_le _ z)), (proj2 (Z.leb_le z _)) by lia.
Qed.

(** An initialiser that gave up, after [rdma_init] succeeded: everything is
    released, but for the array of buffers when a later malloc failed. *)
Definition endpoint_failed (rsize : Z) (s : rdma) (g : nic) : Prop :=
  init_failed s g \/ (exists F, (F = [] \/ F = [FMalloc]) /\ holds [] F g) \/
  (exists p, holds [(p, OBlock rsize)] [FMalloc] g) \/
  (exists l F, holds l (F ++ [FRelease]) g).

(** [rdma_cleanup(); exit(EXIT_FAILURE);] with blocks [B] of the caller. *)
Lemma wp_fail_cleanup {A} B st z F r s rsize (P : A -> rdma -> nic -> Prop) g :
  blocks B -> memory_region s = Some r ->
  (header_memory_region s = None -> header_buffer s = 0) ->
  holds (endpoint s st z B) F g -> F = [] \/ F = [FMalloc] ->
  B = [] \/ F = [FMalloc] /\ (exists p, B = [(p, OBlock rsize)]) ->
  wpn (fail_cleanup s) (fun o g' => match o with
    | Done a s' => P a s' g'
    | Exit c s' => c = EXIT_FAILURE /\ endpoint_failed rsize s' g'
    | _ => False end) g.
Proof.
  intros HB Hmr Hh H HFF HBF. unfold fail_cleanup. apply wp_bind.
  eapply wp_mono; [by eapply rdma_cleanup_spec|].
  intros o g' Ho. destruct o as [[] s'|c s'|w|s']; [| |done|done].
  - destruct Ho as [-> Hg']. vstep. split; [done|]. destruct HBF as [->|[-> [p ->]]].
    + right. left. by exists F.
    + right. right. left. by exists p.
  - destruct Ho as (-> & -> & l & HF). vstep. split; [done|]. do 3 right. by exists l, F.
Qed.

(** Before initialisation nothing is allocated. *)
Definition fresh_statics (s : rdma) : Prop := same_statics rdma0 s.

Definition client_sizes (n : Z) : sizes :=
  {| z_buffer := u64 (n * MSG_SIZE); z_header := 0; z_sg := u64 (u64 n * sizeof_ibv_sge);
     z_recv := 0; z_send := u64 (u64 n * sizeof_ibv_send_wr) |}.

(** What [rdma_init_client] hands over. *)
Definition client_ready (n qpn : Z) (result : array send_buffer) (s : rdma) (g : nic) : Prop :=
  exists r,
    holds (endpoint s IBV_QPS_RTS (client_sizes n)
             [(arr_ptr result, OBlock (u64 (u64 n * sizeof_send_buffer)))]) [] g /\
    memory_region s = Some r /\ header_memory_region s = None /\ header_buffer s = 0 /\
    recv_requests s = null_array /\ ah s <> 0 /\ queue_size s = n /\
    0 < buffer s /\ buffer s + n * MSG_SIZE <= 2 ^ 64 /\
    elems result = send_buffer_at (buffer s) <$> seqZ 0 n /\
    elems (scatter_gather s) = send_sge_at (buffer s) (lkey r) <$> seqZ 0 n /\
    elems (send_requests s) = send_wr_at n (send_flags s) (ah s) qpn <$> seqZ 0 n.

Definition client_post (n qpn : Z) (o : outcome rdma (array send_buffer)) (g : nic) : Prop :=
  match o with
  | Done result s => client_ready n qpn result s g
  | Exit c s => c = EXIT_FAILURE /\ endpoint_failed (u64 (u64 n * sizeof_send_buffer)) s g
  | _ => False
  end.

Lemma fresh_statics_eq s :
  fresh_statics s ->
  s = mk_rdma (max_mtu s) (page_size s) (queue_size s) (send_flags s) (context s)
        (protection_domain s) (completion_queue s) (queue_pair s) 0 0 null_array null_array
        null_array None None 0.
Proof.
  destruct s. unfold fresh_statics, same_statics, rdma0. cbn.
  intros (-> & -> & -> & -> & -> & -> & -> & ->). done.
Qed.

Lemma length_junk {T} (junk : nat -> T) n sz k :
  0 <= n <= INT_MAX -> k = 1 \/ k = 2 -> 0 < sz <= 128 ->
  Z.of_nat (length (junk <$> seq 0 (Z.to_nat (u64 (u64 (n * k) * sz) / sz)))) = n * k.
Proof.
  intros Hn Hk Hsz. rewrite length_fmap, length_seq. unfold INT_MAX in Hn.
  assert (E1 : u64 (n * k) = n * k) by (apply Z.mod_small; lia).
  assert (E2 : u64 (n * k * sz) = n * k * sz) by (apply Z.mod_small; nia).
  rewrite E1, E2, Z.div_mul by lia. lia.
Qed.

Lemma length_junk_1 {T} (junk : nat -> T) n sz :
  0 <= n <= INT_MAX -> 0 < sz <= 128 ->
  Z.of_nat (length (junk <$> seq 0 (Z.to_nat (u64 (u64 n * sz) / sz)))) = n.
Proof. intros. rewrite <- (Z.mul_1_r n) at 1. rewrite length_junk; lia. Qed.

Lemma buffer_size n : 0 < n -> n * MSG_SIZE <= INT_MAX -> u64 (n * MSG_SIZE) = n * MSG_SIZE.
Proof. unfold INT_MAX, MSG_SIZE. intros. apply Z.mod_small. lia. Qed.

Lemma n_small n : 0 < n -> n * MSG_SIZE <= INT_MAX -> 0 <= n <= INT_MAX /\ 2 * n <= INT_MAX.
Proof. unfold INT_MAX, MSG_SIZE. lia. Qed.

(** [rdma_init], then the caller's part. *)
Lemma wp_rdma_init {A} name n (f : unit -> M verbs rdma A) s Q rsize g :
  holds [] [] g -> fresh_statics s ->
  (forall s' g', fresh_statics s' -> queue_size s' = n -> holds (core s' IBV_QPS_RTR) [] g' ->
     wpn (f tt s') Q g') ->
  (forall s' g', endpoint_failed rsize s' g' -> Q (Exit EXIT_FAILURE s') g') ->
  wpn (bind (rdma_init name n) f s) Q g.
Proof.
  intros H Hs HQ HE. apply wp_bind. eapply wp_mono; [by eapply rdma_init_spec|].
  intros o g' Ho. destruct o as [[] s'|c s'|w|s']; [| |done|done]; vstep.
  - destruct Ho as (Hst & Hg' & Hq & _). apply HQ; [|done..].
    unfold fresh_statics, same_statics in *. intuition congruence.
  - destruct Ho as [-> Ho]. apply HE. by left.
Qed.

(** [internal_rdma_cleanup(); exit(EXIT_FAILURE);] *)
Lemma wp_fail_internal {A} st s rsize (P : A -> rdma -> nic -> Prop) g :
  ah s = 0 -> holds (core s st) [] g ->
  wpn (bind internal_rdma_cleanup (fun _ => exit_ EXIT_FAILURE) s) (fun o g' => match o with
    | Done a s' => P a s' g'
    | Exit c s' => c = EXIT_FAILURE /\ endpoint_failed rsize s' g'
    | _ => False end) g.
Proof.
  intros Ha H. apply wp_bind.
  eapply wp_mono; [apply (internal_rdma_cleanup_spec [] st []); [constructor|]|].
  - unfold ah_owned. by rewrite Ha.
  - intros o g' Ho. destruct o as [[] s'|c s'|w|s']; [| |done|done]; vstep.
    + destruct Ho as [-> Hg']. split; [done|]. right. left. exists []. auto.
    + destruct Ho as (-> & -> & l & HF). split; [done|]. do 3 right. by exists l, [].
Qed.

(** Reduce the state; match the resources with an endpoint's. *)
Ltac fields := cbn [set_buffer set_memory_region set_header_buffer set_header_memory_region
  set_scatter_gather set_recv_requests set_send_requests set_ah set_send_flags header_buffer buffer
  scatter_gather recv_requests send_requests memory_region header_memory_region ah max_mtu
  page_size queue_size send_flags context protection_domain completion_queue queue_pair
  arr_ptr elems null_array].
Ltac nonzero := repeat match goal with H : ?p <> 0 |- context [?p =? 0] =>
  rewrite (proj2 (Z.eqb_neq p 0) H) end.
Ltac shape H :=
  unfold endpoint, ah_owned, array_owned, region_owned, core; fields; nonzero; exact H.
Ltac fails_with B st F z :=
  eapply (wp_fail_cleanup B st z F);
    [by repeat (constructor; eauto)|reflexivity|done| |first [by left|by right]|first [by left|right; by eauto]].

(** The statics once the data buffer is allocated. *)
Definition with_buffer (mtu ps n fl ctx pd cq qp b : Z) (r : ibv_mr) : rdma :=
  mk_rdma mtu ps n fl ctx pd cq qp 0 b null_array null_array null_array (Some r) None 0.

Definition buffer_owned (n ctx pd cq qp b : Z) (r : ibv_mr) : owned :=
  (mr_handle r, OMr pd b (u64 (n * MSG_SIZE)) (lkey r)) :: (b, OBlock (u64 (n * MSG_SIZE))) ::
  [(qp, OQp pd cq IBV_QPS_RTR); (cq, OCq ctx); (pd, OPd ctx); (ctx, OContext)].

(** The common start of both initialisers: [rdma_init] and the data buffer. *)
Lemma wp_init_buffer {A} name n (f : M verbs rdma A) s rsize (P : A -> rdma -> nic -> Prop) g
    (Q := fun o g' => match o with
            | Done a s' => P a s' g'
            | Exit c s' => c = EXIT_FAILURE /\ endpoint_failed rsize s' g'
            | _ => False end) :
  0 < n -> n * MSG_SIZE <= INT_MAX -> io.1 = [] -> fresh_statics s -> holds [] [] g ->
  (forall mtu ps fl ctx pd cq qp b r g',
     fresh_block (grow [(qp, OQp pd cq IBV_QPS_RTR); (cq, OCq ctx); (pd, OPd ctx); (ctx, OContext)] m)
       b (u64 (n * MSG_SIZE)) ->
     holds (buffer_owned n ctx pd cq qp b r) [] g' ->
     wpn (f (with_buffer mtu ps n fl ctx pd cq qp b r)) Q g') ->
  wpn (bind (rdma_init name n) (fun _ =>
       bind (int_expr (n * MSG_SIZE)) (fun size =>
       bind (allocate_buf set_buffer set_memory_region (u64 size)) (fun r =>
       if negb (r =? 0) then bind internal_rdma_cleanup (fun _ => exit_ EXIT_FAILURE) else f))) s)
    Q g.
Proof.
  intros Hn Hsize Hio Hs H Hf.
  eapply wp_rdma_init; [exact H|exact Hs| |by split]. clear s Hs g H. intros s g Hs Hq H.
  apply wp_int_expr; [unfold MSG_SIZE in *; lia|].
  pose proof (fresh_statics_eq s Hs) as E. revert H Hq E. clear Hs.
  generalize (max_mtu s), (page_size s), (queue_size s), (send_flags s), (context s),
    (protection_domain s), (completion_queue s), (queue_pair s).
  intros mtu ps qs fl ctx pd cq qp H -> ->. revert H. unfold core. cbn [queue_pair completion_queue
    protection_domain context]. intros H.
  eapply wp_allocate_buf; [exact H|do 2 constructor; constructor|closed_list|done|done| | |].
  - intros g1 H1. cbn [Z.eqb negb]. by eapply wp_fail_internal.
  - intros p g1 H1. cbn [Z.eqb negb]. by eapply wp_fail_internal.
  - intros b r g1 Hb H1. cbn [Z.eqb negb]. by apply (Hf _ _ _ _ _ _ _ _ _ _ Hb).
Qed.

(** The client's statics and resources before the address handle. *)
Definition with_send_arrays (p2 p3 n : Z) (s : rdma) : rdma :=
  set_send_requests
    (Build_array p3 (junk_send_wr <$>
       seq 0 (Z.to_nat (u64 (u64 n * sizeof_ibv_send_wr) / sizeof_ibv_send_wr))))
    (set_scatter_gather
       (Build_array p2 (junk_sge <$> seq 0 (Z.to_nat (u64 (u64 n * sizeof_ibv_sge) / sizeof_ibv_sge)))) s).

Definition send_owned (p1 p2 p3 n ctx pd cq qp b : Z) (st : ibv_qp_state) (r : ibv_mr) : owned :=
  [(p3, OBlock (u64 (u64 n * sizeof_ibv_send_wr))); (p2, OBlock (u64 (u64 n * sizeof_ibv_sge)));
   (p1, OBlock (u64 (u64 n * sizeof_send_buffer)));
   (mr_handle r, OMr pd b (u64 (n * MSG_SIZE)) (lkey r)); (b, OBlock (u64 (n * MSG_SIZE)));
   (qp, OQp pd cq st); (cq, OCq ctx); (pd, OPd ctx); (ctx, OContext)].

(** A message, [free(result); rdma_cleanup(); exit(EXIT_FAILURE);] *)
Lemma client_give_up out p1 p2 p3 n mtu ps fl ctx pd cq qp qpn b st r g :
  p2 <> 0 -> p3 <> 0 -> holds (send_owned p1 p2 p3 n ctx pd cq qp b st r) [] g ->
  wpn (bind (eprintf out) (fun _ => bind (call (Free p1)) (fun _ => fail_cleanup))
         (with_send_arrays p2 p3 n (with_buffer mtu ps n fl ctx pd cq qp b r)))
    (client_post n qpn) g.
Proof.
  intros Hp2 Hp3 H. eapply wp_eprintf; [exact H|]. clear H g. intros g H.
  eapply wp_free; [done|exact H|removal|closed_list|]. clear H g. intros g H.
  unfold with_send_arrays, with_buffer.
  fails_with ([] : owned) st ([] : list failure) (client_sizes n). shape H.
Qed.

(** The address handle, and filling the ring. *)
Lemma client_finish p1 p2 p3 n lid gid mtu ps fl ctx pd cq qp qpn b r g :
  0 < n -> n * MSG_SIZE <= INT_MAX -> 0 < b -> b + n * MSG_SIZE <= 2 ^ 64 -> p2 <> 0 -> p3 <> 0 ->
  holds (send_owned p1 p2 p3 n ctx pd cq qp b IBV_QPS_RTS r) [] g ->
  wpn ((let! a := call (Create_ah pd (server_ah lid gid)) in
        modify (set_ah a) ;!
        if a =? 0 then
          let! e := call Errno in
          let! msg := if negb (e =? 0) then let! e := call Errno in call (Strerror e) else ret [] in
          eprintf (string_bytes "Failed to create AH: " ++ msg ++ [10]) ;!
          call (Free p1) ;! fail_cleanup
        else
        let! mr := defined "memory_region" (Some r) in
        let! (result, sg, wrs) := defined "store out of bounds"
            (ring_loop (send_ring_step n b (lkey mr) fl a qpn) (Z.to_nat n) 0
               (Build_array p1 (junk_send_buffer <$>
                  seq 0 (Z.to_nat (u64 (u64 n * sizeof_send_buffer) / sizeof_send_buffer))),
                scatter_gather (with_send_arrays p2 p3 n (with_buffer mtu ps n fl ctx pd cq qp b r)),
                send_requests (with_send_arrays p2 p3 n (with_buffer mtu ps n fl ctx pd cq qp b r)))) in
        modify (set_scatter_gather sg) ;!
        modify (set_send_requests wrs) ;!
        ret result)%C
      (with_send_arrays p2 p3 n (with_buffer mtu ps n fl ctx pd cq qp b r))) (client_post n qpn) g.
Proof.
  intros Hn Hsize Hb1 Hb2 Hp2 Hp3 H. pose proof (n_small n Hn Hsize) as [Hn1 Hn2].
  eapply wp_create; [exact H|done|done|intros h; instantiate (1 := []); by destruct (h =? 0)| |done| |].
  { cbn [rules]. unfold is_pd. rewrite (holds_live _ _ _ _ _ H).
    by erewrite removed_lookup; [|removal|by eapply holds_grown]. }
  - clear H g. intros g H. apply wp_bind. vstep. cbn [Z.eqb].
    eapply wp_query; [exact H|done|done|done|done|]. intros e g1 _ H1.
    apply wp_bind. destruct (negb (e =? 0)); vstep; [|by eapply client_give_up].
    eapply wp_query; [exact H1|done|done|done|done|]. intros e' g2 _ H2.
    cbn [call wp]. intros msg _. cbn [gnext NicEnv]. rewrite nic_next_quiet by done.
    by eapply client_give_up.
  - intros a g1 _ Ha H1. clear H g. rename H1 into H, g1 into g. unfold with_send_arrays, with_buffer.
    apply wp_bind. vstep. nonzero. fields. apply wp_bind. vstep. apply wp_bind. fields.
    rewrite send_ring_loop by (lia || by apply length_junk_1). vstep.
    apply wp_bind. vstep. apply wp_bind. vstep.
    exists r. fields. split; [unfold send_owned in H; shape H|]. by repeat (split; [done|]).
Qed.

Lemma rdma_init_client_spec name n lid gid qpn s g :
  0 < n -> n * MSG_SIZE <= INT_MAX -> io.1 = [] -> fresh_statics s -> holds [] [] g ->
  wpn (rdma_init_client name n lid gid qpn s) (client_post n qpn) g.
Proof.
  intros Hn Hsize Hio Hs H. unfold rdma_init_client. eapply wp_init_buffer; [done..|].
  clear s Hs g H. intros mtu ps fl ctx pd cq qp b r g Hb H.
  unfold with_buffer. unfold buffer_owned in H.
  eapply wp_malloc_array; [exact H| |]; clear H g; [intros g H|intros p1 g Hp1 H].
  { fails_with ([] : owned) IBV_QPS_RTR [FMalloc] (client_sizes n). shape H. }
  set (B := [(p1, OBlock (u64 (u64 n * sizeof_send_buffer)))]). fields. nonzero.
  eapply wp_malloc_array; [exact H| |]; clear H g; [intros g H|intros p2 g Hp2 H].
  { apply wp_bind. vstep. cbn [arr_ptr null_array Z.eqb].
    fails_with B IBV_QPS_RTR [FMalloc] (client_sizes n). shape H. }
  apply wp_bind. vstep. fields. nonzero.
  eapply wp_malloc_array; [exact H| |]; clear H g; [intros g H|intros p3 g Hp3 H].
  { apply wp_bind. vstep. cbn [arr_ptr null_array Z.eqb].
    fails_with B IBV_QPS_RTR [FMalloc] (client_sizes n). shape H. }
  apply wp_bind. vstep. fields. nonzero. apply wp_bind. vstep. fields.
  eapply (wp_modify_qp _ _ _ [_; _; _; _; _]); [exact H| |]; clear H g; [intros rc g Hrc H|intros g _ H];
    cbn [app] in H; [rewrite (proj2 (Z.eqb_neq _ _) Hrc)|]; cbn [Z.eqb negb].
  - by apply (client_give_up _ p1 p2 p3 n mtu ps fl ctx pd cq qp qpn b IBV_QPS_RTR r).
  - destruct Hb as (_ & Hb1 & Hb2 & _). rewrite buffer_size in Hb2 by done.
    by apply (client_finish p1 p2 p3 n lid gid mtu ps fl ctx pd cq qp qpn b r).
Qed.

Definition server_sizes (n : Z) : sizes :=
  {| z_buffer := u64 (n * MSG_SIZE); z_header := u64 (n * 40);
     z_sg := u64 (u64 (n * 2) * sizeof_ibv_sge); z_recv := u64 (u64 n * sizeof_ibv_recv_wr);
     z_send := 0 |}.

(** What [rdma_init_server] hands over. *)
Definition server_ready (n : Z) (result : array recv_buffer) (s : rdma) (g : nic) : Prop :=
  exists r h,
    holds (endpoint s IBV_QPS_RTR (server_sizes n)
             [(arr_ptr result, OBlock (u64 (u64 n * sizeof_recv_buffer)))]) [] g /\
    memory_region s = Some r /\ header_memory_region s = Some h /\
    send_requests s = null_array /\ ah s = 0 /\ queue_size s = n /\
    0 < buffer s /\ buffer s + n * MSG_SIZE <= 2 ^ 64 /\
    0 < header_buffer s /\ header_buffer s + n * 40 <= 2 ^ 64 /\
    (header_buffer s + n * 40 <= buffer s \/ buffer s + n * MSG_SIZE <= header_buffer s) /\
    elems result = recv_buffer_at (header_buffer s) (buffer s) <$> seqZ 0 n /\
    elems (scatter_gather s) =
      recv_sge_at (header_buffer s) (buffer s) (lkey h) (lkey r) <$> seqZ 0 (2 * n) /\
    elems (recv_requests s) = recv_wr_at n <$> seqZ 0 n.

Definition server_post (n : Z) (o : outcome rdma (array recv_buffer)) (g : nic) : Prop :=
  match o with
  | Done result s => server_ready n result s g
  | Exit c s => c = EXIT_FAILURE /\ endpoint_failed (u64 (u64 n * sizeof_recv_buffer)) s g
  | _ => False
  end.

(** The server's statics and resources once the ring is filled. *)
Definition with_recv_ring (p2 p3 n hb : Z) (h r : ibv_mr) (s : rdma) : rdma :=
  set_recv_requests (Build_array p3 (recv_wr_at n <$> seqZ 0 n))
    (set_scatter_gather
       (Build_array p2 (recv_sge_at hb (buffer s) (lkey h) (lkey r) <$> seqZ 0 (2 * n)))
       (set_header_memory_region (Some h) (set_header_buffer hb s))).

Definition recv_owned (p1 p2 p3 n ctx pd cq qp b hb : Z) (h r : ibv_mr) : owned :=
  [(p3, OBlock (u64 (u64 n * sizeof_ibv_recv_wr))); (p2, OBlock (u64 (u64 (n * 2) * sizeof_ibv_sge)));
   (p1, OBlock (u64 (u64 n * sizeof_recv_buffer)));
   (mr_handle h, OMr pd hb (u64 (n * 40)) (lkey h)); (hb, OBlock (u64 (n * 40)));
   (mr_handle r, OMr pd b (u64 (n * MSG_SIZE)) (lkey r)); (b, OBlock (u64 (n * MSG_SIZE)));
   (qp, OQp pd cq IBV_QPS_RTR); (cq, OCq ctx); (pd, OPd ctx); (ctx, OContext)].

(** A message, [free(result); rdma_cleanup(); exit(EXIT_FAILURE);] *)
Lemma server_give_up msg p1 p2 p3 n mtu ps fl ctx pd cq qp b hb h r g :
  p2 <> 0 -> p3 <> 0 -> hb <> 0 -> holds (recv_owned p1 p2 p3 n ctx pd cq qp b hb h r) [] g ->
  wpn (bind (eputs msg) (fun _ => bind (call (Free p1)) (fun _ => fail_cleanup))
         (with_recv_ring p2 p3 n hb h r (with_buffer mtu ps n fl ctx pd cq qp b r)))
    (server_post n) g.
Proof.
  intros Hp2 Hp3 Hhb H. eapply wp_eputs; [exact H|]. clear H g. intros g H.
  eapply wp_free; [done|exact H|removal|closed_list|]. clear H g. intros g H.
  unfold with_recv_ring, with_buffer.
  fails_with ([] : owned) IBV_QPS_RTR ([] : list failure) (server_sizes n). shape H.
Qed.

(** The two buffers are apart. *)
Lemma buffers_apart x l (b hb size hsize : Z) :
  x.1 <> b -> fresh_block (grow (x :: (b, OBlock size) :: l) m) hb hsize ->
  hb + hsize <= b \/ b + size <= hb.
Proof.
  destruct x as [k o]. intros Hx (_ & _ & _ & Hapart).
  apply (map_Forall_lookup_1 _ _ b (OBlock size)) in Hapart; [done|].
  cbn [grow]. apply lookup_insert_Some. right. split; [done|apply lookup_insert_eq].
Qed.

(** The last part of [rdma_init_server]: what it reports. *)
Lemma server_finish p1 p2 p3 n mtu ps fl ctx pd cq qp b hb h r g
    (s := with_recv_ring p2 p3 n hb h r (with_buffer mtu ps n fl ctx pd cq qp b r))
    (result := Build_array p1 (recv_buffer_at hb b <$> seqZ 0 n)) :
  p2 <> 0 -> p3 <> 0 -> hb <> 0 ->
  holds (recv_owned p1 p2 p3 n ctx pd cq qp b hb h r) [] g ->
  (forall g', holds (recv_owned p1 p2 p3 n ctx pd cq qp b hb h r) [] g' -> server_ready n result s g') ->
  wpn ((let! (rc, gid) := call (Query_gid ctx IB_PORT 0) in
        if negb (rc =? 0) then
          eputs "Could not get local gid for gid index 0" ;! call (Free p1) ;! fail_cleanup
        else
        let! (rc, port_attr) := call (Query_port ctx IB_PORT) in
        if negb (rc =? 0) then eputs "Couldn't get port info" ;! call (Free p1) ;! fail_cleanup else
        let gid_string := inet_ntop6 gid in
        if 33 <=? Z.of_nat (length gid_string) then
          eputs "Couldn't get global id" ;! call (Free p1) ;! fail_cleanup
        else
        let! qp_num := call (Qp_num qp) in
        eprintf (string_bytes "LID: " ++ fmt_d (Verbs.lid port_attr) ++ [10] ++
                 string_bytes "QPN: " ++ fmt_d (i32 qp_num) ++ [10] ++
                 string_bytes "GID: " ++ gid_string ++ [10]) ;!
        ret result)%C s) (server_post n) g.
Proof.
  intros Hp2 Hp3 Hhb H Hready. set (L := recv_owned _ _ _ _ _ _ _ _ _ _ _ _) in *.
  assert (Hctx : forall g1, holds L [] g1 -> is_context (live g1) ctx = true /\ is_qp (live g1) qp = true).
  { intros g1 H1. unfold is_context, is_qp. rewrite (holds_live _ _ _ _ _ H1).
    pose proof (holds_grown _ _ _ _ _ H1) as Hg. unfold L, recv_owned in *.
    erewrite (removed_lookup ctx OContext); [|removal|exact Hg].
    erewrite (removed_lookup qp (OQp pd cq IBV_QPS_RTR)); [by split|removal|exact Hg]. }
  eapply wp_query; [exact H|done|done| |done|].
  { cbn [rules]. by rewrite (proj1 (Hctx g H)). }
  intros [rc gid] g1 _ H1. cbn beta iota. destruct (rc =? 0); cbn [negb]; [|by apply server_give_up].
  eapply wp_query; [exact H1|done|done| |done|].
  { cbn [rules]. by rewrite (proj1 (Hctx g1 H1)). }
  intros [rc' port] g2 _ H2. cbn beta iota. destruct (rc' =? 0); cbn [negb]; [|by apply server_give_up].
  cbv zeta. destruct (33 <=? _); [by apply server_give_up|].
  eapply wp_query; [exact H2|done|done| |done|].
  { cbn [rules]. by rewrite (proj2 (Hctx g2 H2)). }
  intros qpn g3 _ H3. eapply wp_eprintf; [exact H3|]. intros g4 H4. vstep. by apply Hready.
Qed.

Lemma rdma_init_server_spec name n s g :
  0 < n -> n * MSG_SIZE <= INT_MAX -> io.1 = [] -> fresh_statics s -> holds [] [] g ->
  wpn (rdma_init_server name n s) (server_post n) g.
Proof.
  intros Hn Hsize Hio Hs H. pose proof (n_small n Hn Hsize) as [Hn1 Hn2].
  assert (E40 : u64 (n * 40) = n * 40) by (apply Z.mod_small; unfold MSG_SIZE, INT_MAX in *; lia).
  unfold rdma_init_server. eapply wp_init_buffer; [done..|].
  clear s Hs g H. intros mtu ps fl ctx pd cq qp b r g Hb H. unfold buffer_owned in H.
  apply wp_int_expr; [unfold MSG_SIZE in *; lia|].
  eapply wp_allocate_buf; [exact H|do 4 constructor; constructor|closed_list|done|done| | |];
    unfold with_buffer; cbn [Z.eqb negb].
  { intros g1 H1. fails_with ([] : owned) IBV_QPS_RTR ([] : list failure) (server_sizes n). shape H1. }
  { intros p g1 H1. fails_with ([] : owned) IBV_QPS_RTR ([] : list failure) (server_sizes n). shape H1. }
  clear g H. intros hb h g Hhb H. fields.
  eapply wp_malloc_array; [exact H| |]; clear H g; [intros g H|intros p1 g Hp1 H].
  { fails_with ([] : owned) IBV_QPS_RTR [FMalloc] (server_sizes n). shape H. }
  set (B := [(p1, OBlock (u64 (u64 n * sizeof_recv_buffer)))]). fields. nonzero.
  apply wp_int_expr; [lia|].
  eapply wp_malloc_array; [exact H| |]; clear H g; [intros g H|intros p2 g Hp2 H].
  { apply wp_bind. vstep. cbn [arr_ptr null_array Z.eqb].
    fails_with B IBV_QPS_RTR [FMalloc] (server_sizes n). shape H. }
  apply wp_bind. vstep. fields. nonzero.
  eapply wp_malloc_array; [exact H| |]; clear H g; [intros g H|intros p3 g Hp3 H].
  { apply wp_bind. vstep. cbn [arr_ptr null_array Z.eqb].
    fails_with B IBV_QPS_RTR [FMalloc] (server_sizes n). shape H. }
  apply wp_bind. vstep. fields. nonzero. do 3 (apply wp_bind; vstep; fields).
  apply wp_bind. rewrite recv_ring_loop;
    [|lia|by apply length_junk_1|rewrite length_junk; unfold sizeof_ibv_sge; lia
    |by apply length_junk_1].
  vstep. do 2 (apply wp_bind; vstep; fields).
  assert (Hr : mr_handle r <> b).
  { pose proof (grown_NoDup _ _ (holds_grown _ _ _ _ _ H)) as Hd. simpl in Hd.
    rewrite !NoDup_cons, !not_elem_of_cons in Hd. tauto. }
  pose proof (buffers_apart (mr_handle r, _) _ _ _ _ _ Hr Hhb) as Hapart.
  destruct Hb as (_ & Hb1 & Hb2 & _), Hhb as ([Hhb0 _] & Hhb1 & Hhb2 & _).
  rewrite E40 in Hhb2, Hapart. rewrite buffer_size in Hb2, Hapart by done.
  apply (server_finish p1 p2 p3 n mtu ps fl ctx pd cq qp b hb h r); try done.
  clear H g. intros g H. exists r, h. unfold with_recv_ring, with_buffer. fields.
  split; [unfold recv_owned in H; shape H|]. by repeat (split; [done|]).
Qed.

End resources.

(** ** Properties *)

(** The witnesses instantiate the libraries with these. *)
#[local] Existing Instance text_example.
#[local] Existing Instance junk_example.

(** Nothing has gone wrong or been posted yet, and only plain memory blocks are
    alive. *)
Definition idle (g : nic) : Prop :=
  failed g = [] /\ misuse g = [] /\ outstanding g = [] /\ blocks_only (live g).

Lemma idle_holds g : idle g -> holds (live g) (outstanding g, transmitted g) [] [] g.
Proof. by intros (HF & Hm & _). Qed.

Lemma idle_nic_fed inc : idle (nic_fed inc).
Proof. by repeat split. Qed.

Lemma idle_nic0 : idle nic0.
Proof. apply idle_nic_fed. Qed.

(** C21: [rdma_init], whatever the library answers.  If it returns, the caller
    owns exactly a context, a protection domain, a completion queue and a queue
    pair that is ready to receive, and [max_mtu] is a size in bytes.  If it
    exits, the code is EXIT_FAILURE, and unless a release failed everything it
    created is gone, except that the context stays open when ibv_alloc_pd
    failed; and no rule of the library was broken, except that the name of the
    device is read after its list was freed when ibv_open_device failed. *)
Theorem rdma_init_correct `{!AddrText} `{!Junk} sigint name n s g :
  idle g -> fresh_statics s ->
  nic_wp sigint (rdma_init name n s) (fun o g' =>
    match o with
    | Done _ s' =>
        live g' = grow (core s' IBV_QPS_RTR) (live g) /\ grown (core s' IBV_QPS_RTR) (live g) /\
        misuse g' = [] /\ queue_size s' = n /\
        max_mtu s' ∈ [256; 512; 1024; 2048; 4096]
    | Exit c s' =>
        c = EXIT_FAILURE /\
        (FRelease ∉ failed g' ->
         live g' = (if decide (FAllocPd ∈ failed g') then (<[context s' := OContext]> (live g))
                    else live g) /\
         misuse g' = (if decide (FOpenDevice ∈ failed g') then ["dead device"] else []))
    | _ => False
    end) g.
Proof.
  intros Hg Hs. eapply wp_mono; [by apply rdma_init_spec, idle_holds; [apply Hg|]|].
  intros o g' Ho. destruct o as [[] s'|c s'|w|s']; [| |done|done].
  - destruct Ho as (_ & (Hgr & Hl & _ & Hm & _) & Hq & _ & mtu & Hmtu).
    repeat (split; [done|]). rewrite Hmtu. destruct mtu; vm_compute; by repeat constructor.
  - destruct Ho as [-> Ho]. split; [done|]. intros HF.
    destruct Ho as [[]|[(_ & -> & -> & -> & _)|[(_ & -> & -> & -> & _)|(-> & -> & -> & _)]]];
      [done|done|done|done].
Qed.

Lemma rdma_init_correct_witness :
  nic_wp (fun _ => false) (rdma_init (string_bytes "mlx5_0") 20 rdma0) (fun o _ =>
    forall w, o <> Undef w) nic0.
Proof.
  eapply wp_mono.
  - apply (rdma_init_correct (fun _ => false) (string_bytes "mlx5_0") 20 rdma0 nic0).
    + exact idle_nic0.
    + by repeat split.
  - intros o g' Ho w ->. exact Ho.
Defined.

(** What is left alive when an initialiser exits and no release failed. *)
Definition init_leaves (m : gmap Z obj) (rsize : Z) (s : rdma) (g : nic) : Prop :=
  misuse g = (if decide (FOpenDevice ∈ failed g) then ["dead device"] else []) /\
  (live g = (if decide (FAllocPd ∈ failed g) then (<[context s := OContext]> m) else m) \/
   FMalloc ∈ failed g /\ exists p, m !! p = None /\ live g = <[p := OBlock rsize]> m).

Lemma endpoint_failed_leaves m io rsize s g :
  endpoint_failed m io rsize s g -> FRelease ∉ failed g -> init_leaves m rsize s g.
Proof.
  unfold init_leaves. intros [Hi|[(F & HA & H)|[[p H]|(l & F & H)]]] HF.
  - destruct Hi as [[]|[(_ & -> & -> & -> & _)|[(_ & -> & -> & -> & _)|(-> & -> & -> & _)]]];
      [done|auto..].
  - destruct H as (_ & -> & -> & -> & _). destruct HA as [->| ->]; auto.
  - destruct H as ([[_ Hp] _] & -> & -> & -> & _). split; [done|]. right. split; [by left|].
    by exists p.
  - by apply holds_failed in H.
Qed.

(** C18: [rdma_init_client], whatever the library answers.  If it returns, the
    caller owns exactly the endpoint's objects with the queue pair ready to
    send, and the ring: buffer [i] is the [i]-th slice of the registered buffer,
    request [i] sends it to the server and links to request [i + 1] modulo [n].
    If it exits and no release failed, everything is gone but for the leaks of
    [init_leaves]: the context when ibv_alloc_pd failed, and the array of
    buffers when a later malloc failed. *)
Theorem rdma_init_client_correct `{!AddrText} `{!Junk} sigint name n lid gid qpn s g :
  idle g -> fresh_statics s -> 0 < n -> n * MSG_SIZE <= INT_MAX ->
  nic_wp sigint (rdma_init_client name n lid gid qpn s) (fun o g' =>
    match o with
    | Done result s' => client_ready (live g) (outstanding g, transmitted g) n qpn result s' g'
    | Exit c s' => c = EXIT_FAILURE /\
        (FRelease ∉ failed g' -> init_leaves (live g) (u64 (u64 n * sizeof_send_buffer)) s' g')
    | _ => False
    end) g.
Proof.
  intros Hg Hs Hn Hsize.
  eapply wp_mono.
  { apply (rdma_init_client_spec sigint (live g) (outstanding g, transmitted g)); try done;
      [apply Hg|apply Hg|by apply idle_holds]. }
  intros o g' Ho. destruct o as [r s'|c s'|w|s']; [done| |done|done].
  destruct Ho as [-> Ho]. split; [done|]. by eapply endpoint_failed_leaves.
Qed.

Lemma rdma_init_client_correct_witness :
  nic_wp (fun _ => false) (rdma_init_client [] 20 1 [] 2 rdma0) (fun o _ =>
    forall w, o <> Undef w) nic0.
Proof.
  eapply wp_mono.
  - apply (rdma_init_client_correct (fun _ => false) [] 20 1 [] 2 rdma0 nic0).
    + exact idle_nic0.
    + by repeat split.
    + reflexivity.
    + discriminate.
  - intros o g' Ho w ->. exact Ho.
Defined.

(** C19: [rdma_init_server], likewise: the queue pair is ready to receive, and
    request [i] scatters a datagram's 40 header bytes to slice [i] of the
    header buffer and its payload to slice [i] of the data buffer. *)
Theorem rdma_init_server_correct `{!AddrText} `{!Junk} sigint name n s g :
  idle g -> fresh_statics s -> 0 < n -> n * MSG_SIZE <= INT_MAX ->
  nic_wp sigint (rdma_init_server name n s) (fun o g' =>
    match o with
    | Done result s' => server_ready (live g) (outstanding g, transmitted g) n result s' g'
    | Exit c s' => c = EXIT_FAILURE /\
        (FRelease ∉ failed g' -> init_leaves (live g) (u64 (u64 n * sizeof_recv_buffer)) s' g')
    | _ => False
    end) g.
Proof.
  intros Hg Hs Hn Hsize.
  eapply wp_mono.
  { apply (rdma_init_server_spec sigint (live g) (outstanding g, transmitted g)); try done;
      [apply Hg|apply Hg|by apply idle_holds]. }
  intros o g' Ho. destruct o as [r s'|c s'|w|s']; [done| |done|done].
  destruct Ho as [-> Ho]. split; [done|]. by eapply endpoint_failed_leaves.
Qed.

Lemma rdma_init_server_correct_witness :
  nic_wp (fun _ => false) (rdma_init_server [] 100 rdma0) (fun o _ =>
    forall w, o <> Undef w) nic0.
Proof.
  eapply wp_mono.
  - apply (rdma_init_server_correct (fun _ => false) [] 100 rdma0 nic0).
    + exact idle_nic0.
    + by repeat split.
    + reflexivity.
    + discriminate.
  - intros o g' Ho w ->. exact Ho.
Defined.

(** C20: [rdma_cleanup] of an endpoint, at any time after initialisation and
    with any requests outstanding: if it returns, every resource of the endpoint
    was released exactly once and only the caller's blocks [B] are left; it
    exits only when a release failed.  In either case no block was freed twice, and
    nothing was released that something still alive used: no queue, protection
    domain or context before what was created from it, and no block before the
    memory region that registers it, through which the card reaches it.  (An
    outstanding request is no use in this sense: the library sets no rule against
    releasing under one, and with its region gone it reaches no memory.) *)
Theorem rdma_cleanup_correct `{!AddrText} `{!Junk} sigint m io st z B F s g :
  blocks_only m -> blocks B -> is_Some (memory_region s) ->
  (header_memory_region s = None -> header_buffer s = 0) ->
  holds m io (endpoint s st z B) F g ->
  nic_wp sigint (rdma_cleanup s) (fun o g' => misuse g' = [] /\
    match o with
    | Done _ _ => live g' = grow B m /\ failed g' = F
    | Exit c _ => c = EXIT_FAILURE /\ FRelease ∈ failed g'
    | _ => False
    end) g.
Proof.
  intros Hm HB [r Hr] Hh He. eapply wp_mono; [by eapply rdma_cleanup_spec|].
  intros o g' Ho. destruct o as [[] s'|c s'|w|s']; [| |done|done].
  - destruct Ho as [_ (_ & Hl & HF & Hmis & _)]. done.
  - destruct Ho as (-> & _ & l & Hl). split; [apply Hl|]. split; [done|]. by eapply holds_failed.
Qed.

(** An endpoint with one buffer, and the environment in which it is alive. *)
Definition rdma_example : rdma :=
  mk_rdma 4096 4096 1 2 1 2 3 4 0 8192 null_array null_array null_array
    (Some {| mr_handle := 5; lkey := 7 |}) None 0.
Definition sizes_example : sizes :=
  {| z_buffer := 8940; z_header := 0; z_sg := 0; z_recv := 0; z_send := 0 |}.
Definition nic_example : nic :=
  {| live := grow (endpoint rdma_example IBV_QPS_RTR sizes_example []) ∅; devices := [];
     mem := fun _ => 0; known := fun _ => false; incoming := fun _ => [];
     arrived := 0; trail := []; outstanding := []; transmitted := []; failed := []; misuse := [];
     vpolls := 0 |}.

Lemma rdma_cleanup_correct_witness :
  nic_wp (fun _ => false) (rdma_cleanup rdma_example) (fun o g' =>
    forall s, o = Done tt s -> live g' = ∅) nic_example.
Proof.
  eapply wp_mono.
  - apply (rdma_cleanup_correct (fun _ => false) ∅ ([], []) IBV_QPS_RTR sizes_example [] []).
    + apply map_Forall_empty.
    + constructor.
    + by eexists.
    + done.
    + split; [by vm_compute|]. by repeat split.
  - intros o g' [_ Ho] s ->. apply Ho.
Defined.
