(* ===== verification/RdmaClient.v ===== *)
(** rdma_client.c: the program that keeps a ring of numbered messages in
    flight.

    The program's state is the loop flag, main's local [count] and rdma.c's
    statics.  The theorem follows the messages: whatever the card, the library
    and the signals do, what was handed over for transmission are messages
    0, 1, 2, ... in order, complete and for the server, and no buffer is
    written while the card owns it. *)
From stdpp Require Import gmap.
From S2P Require Import Prelude CInt CLib RawPacket Prog Posix Verbs VerbsRules.
From S2P Require Import Rdma RdmaRing RdmaResources Calls RdmaCalls QueueSpec.
Local Open Scope Z_scope.
Local Open Scope c_scope.

Record client := { client_loop : Z; c_count : Z; c_rdma : rdma }.

Definition set_client_loop x (s : client) : client :=
  {| client_loop := x; c_count := c_count s; c_rdma := c_rdma s |}.
Definition set_c_count x (s : client) : client :=
  {| client_loop := client_loop s; c_count := x; c_rdma := c_rdma s |}.
Definition set_c_rdma x (s : client) : client :=
  {| client_loop := client_loop s; c_count := c_count s; c_rdma := x |}.

Definition client0 : client := {| client_loop := 1; c_count := 0; c_rdma := rdma0 |}.

(** The signal handler. *)
Definition stop_loop (s : client) : client := set_client_loop 0 s.

Definition completion_queue_size : Z := 20.

Section code.
Context `{!AddrText} `{!Junk}.

Definition in_rdma {A} (m : M verbs rdma A) : M verbs client A := zoom c_rdma set_c_rdma m.

(** [memset(buffers[i].data_buffer, count++, MSG_SIZE)] *)
Definition fill_buffer (buffers : array send_buffer) (i : Z) : M verbs client unit :=
  let! b := defined "buffers[i]" (nthZ (elems buffers) i) in
  let! c := gets c_count in
  if c =? INT_MAX then undef "count++ overflows" else
  modify (set_c_count (c + 1)) ;!
  call (Memset (sb_data_buffer b) c MSG_SIZE).

Definition client_loop_test : M verbs client bool :=
  let! delivered := call VSigint in
  (if delivered : bool then modify stop_loop else ret tt) ;!
  gets (fun s => negb (client_loop s =? 0)).

(** The loop over the completed requests; [Some result] goes to cleanup. *)
Fixpoint check_completed (buffers : array send_buffer) (wc : list ibv_wc) :
    M verbs client (option Z) :=
  match wc with
  | [] => ret None
  | w :: wc =>
      if bool_decide (wc_status w <> IBV_WC_SUCCESS) then
        let! text := call (Wc_status_str (wc_status w)) in
        eprintf (string_bytes "Failed status " ++ text ++ string_bytes " (" ++
                 fmt_d (ibv_wc_status_val (wc_status w)) ++ string_bytes ") for wr_id " ++
                 fmt_d (i32 (wc_wr_id w)) ++ [10]) ;!
        ret (Some EXIT_FAILURE)
      else
        fill_buffer buffers (wc_wr_id w) ;!
        check_completed buffers wc
  end.

(** [post_sends(wc[0].wr_id, ne)], when there were completed requests. *)
Definition requeue (ne : Z) (wc : list ibv_wc) : M verbs client Z :=
  if 0 <? ne then
    let! first := defined "wc[0]" (head wc) in
    in_rdma (post_sends (i32 (wc_wr_id first)) ne)
  else ret 0.

(** The body of the loop; [Some result] leaves it for cleanup. *)
Definition client_turn (buffers : array send_buffer) : M verbs client (option Z) :=
  let! q := gets (fun s => completion_queue (c_rdma s)) in
  let! (ne, wc) := call (Poll_cq q 10) in
  if ne <? 0 then
    eprintf (string_bytes "poll CQ failed " ++ fmt_d ne ++ [10]) ;! ret (Some EXIT_FAILURE)
  else
  eprintf (string_bytes "sent " ++ fmt_d ne ++ string_bytes " messages" ++ [10]) ;!
  let! r := check_completed buffers (take (Z.to_nat ne) wc) in
  match r with
  | Some code => ret (Some code)
  | None =>
      let! failed := requeue ne wc in
      if negb (failed =? 0) then eputs "Couldn't post sends" ;! ret (Some EXIT_FAILURE) else
      call VSleep ;!
      ret None
  end.

(** [while (client_loop)] *)
Definition client_body (buffers : array send_buffer) : M verbs client (option Z) :=
  let! go := client_loop_test in
  if negb go then ret (Some EXIT_SUCCESS) else client_turn buffers.

Definition client_run (fuel : nat) (buffers : array send_buffer) : M verbs client Z :=
  modify (set_c_count 0) ;!
  let! _ := for_upto (R := Z) (Z.to_nat completion_queue_size) 0
              (fun i => fill_buffer buffers i ;! ret None) in
  let! failed := in_rdma (post_sends 0 completion_queue_size) in
  let! result :=
    if negb (failed =? 0) then eputs "Couldn't post sends" ;! ret EXIT_FAILURE
    else loop fuel (client_body buffers) in
  call (Free (arr_ptr buffers)) ;!
  in_rdma rdma_cleanup ;!
  ret result.

Definition arg (argv : list (list Z)) (i : nat) : list Z := default [] (argv !! i).

Definition main (fuel : nat) (argv : list (list Z)) : M verbs client Z :=
  if negb (length argv =? 5)%nat then
    eputs "Usage: rdma_client <IB driver> <IB GID> <IB LID> <IB QP>" ;! ret EXIT_FAILURE
  else
  let! lid := defined "atoi" (atoi (arg argv 3)) in
  let! qpn := defined "atoi" (atoi (arg argv 4)) in
  let gid := default junk_gid (inet_pton6 (arg argv 2)) in
  let! r := call VSigaction in
  if negb (r =? 0) then eputs "Couldn't mask signals." ;! ret EXIT_FAILURE else
  let! buffers := in_rdma (rdma_init_client (arg argv 1) completion_queue_size lid gid (u32 qpn)) in
  client_run fuel buffers.

End code.

(** ** Messages in flight *)

(** Message [k], in a ring of [n]: it travels in slot [k mod n], to queue pair
    [qpn] of the host at [ah], and every byte of it is [k] modulo 256. *)
Definition numbered_message (n ah qpn k : Z) : transmit :=
  {| t_id := k mod n;
     t_ud := {| ud_ah := ah; ud_remote_qpn := qpn; ud_remote_qkey := QKEY |};
     t_data := replicate (Z.to_nat MSG_SIZE) (u8 k) |}.

Section flight.
Context {TX : AddrText} {JK : Junk} (sigint : nat -> bool).
Variables (m : gmap Z obj) (n qpn : Z) (rd : rdma) (result : array send_buffer) (r : ibv_mr).
Variable t0 : list vevent.
Hypothesis Hm : blocks_only m.
Hypothesis Hn : 0 < n.
Hypothesis Hsize : n * MSG_SIZE <= INT_MAX.

Definition resources : owned :=
  endpoint rd IBV_QPS_RTS (client_sizes n)
    [(arr_ptr result, OBlock (u64 (u64 n * sizeof_send_buffer)))].

Definition message_work (k : Z) : work :=
  {| w_recv := false; w_id := k mod n; w_sges := [send_sge_at (buffer rd) (lkey r) (k mod n)] |}.
Local Abbreviation message := (numbered_message n (ah rd) qpn).

(** Messages [a], ..., [b - 1] are the card's; [0], ..., [b - 1] were handed
    over; and the trail so far is the queue's. *)
Definition flight (a b : Z) (g : nic) : Prop :=
  holds m (message_work <$> seqZ a (b - a), message <$> seqZ 0 b) resources [] g /\
  behaves (fifo n) (0, 0) t0 g (a, b).

(** The slots of messages [b], ..., [c - 1] hold their bytes. *)
Definition pending (b c : Z) (g : nic) : Prop :=
  forall k x, b <= k < c -> 0 <= x < MSG_SIZE ->
    mem g (buffer rd + (k mod n) * MSG_SIZE + x) = u8 k.

Hypothesis Hmr : memory_region rd = Some r.
Hypothesis Hqs : queue_size rd = n.
Hypothesis Hah : ah rd <> 0.
Hypothesis Hlow : 0 < buffer rd.
Hypothesis Hhigh : buffer rd + n * MSG_SIZE <= 2 ^ 64.
Hypothesis Hres : elems result = send_buffer_at (buffer rd) <$> seqZ 0 n.
Hypothesis Hsg : elems (scatter_gather rd) = send_sge_at (buffer rd) (lkey r) <$> seqZ 0 n.
Hypothesis Hwrs : elems (send_requests rd) =
  send_wr_at n (send_flags rd) (ah rd) qpn <$> seqZ 0 n.
Local Abbreviation wpn := (nic_wp sigint).

Lemma owns h o l F g io : removed h o resources l -> holds m io resources F g -> live g !! h = Some o.
Proof.
  intros Hr H. rewrite (holds_live _ _ _ _ _ H).
  eapply removed_lookup; [exact Hr|by eapply holds_grown].
Qed.

Lemma owns_core g io F :
  holds m io resources F g ->
  live g !! queue_pair rd = Some (OQp (protection_domain rd) (completion_queue rd) IBV_QPS_RTS) /\
  live g !! completion_queue rd = Some (OCq (context rd)) /\
  live g !! ah rd = Some (OAh (protection_domain rd)) /\
  live g !! mr_handle r =
    Some (OMr (protection_domain rd) (buffer rd) (n * MSG_SIZE) (lkey r)) /\
  live g !! buffer rd = Some (OBlock (n * MSG_SIZE)).
Proof.
  intros H. rewrite <- (buffer_size n Hn Hsize).
  repeat split; (eapply owns; [|exact H]); unfold resources, endpoint, ah_owned, core;
    rewrite Hmr; rewrite (proj2 (Z.eqb_neq _ _) Hah); cbn [region_owned z_buffer client_sizes].
  all: cbn [app region_owned]; removal.
Qed.

Lemma slot_range k : 0 <= k mod n < n.
Proof. by apply Z.mod_pos_bound. Qed.

Lemma slot_inj k k' : k mod n = k' mod n -> - n < k - k' < n -> k = k'.
Proof.
  intros E H. assert (Hd : (k - k') mod n = 0) by (rewrite Zminus_mod, E, Z.sub_diag; by apply Z.mod_0_l; lia).
  apply Z.mod_divide in Hd as [q Hq]; [|lia]. assert (q = 0) by nia. lia.
Qed.

(** Slots do not overlap. *)
Lemma slots_apart k k' x x' :
  k mod n <> k' mod n -> 0 <= x < MSG_SIZE -> 0 <= x' < MSG_SIZE ->
  buffer rd + (k mod n) * MSG_SIZE + x <> buffer rd + (k' mod n) * MSG_SIZE + x'.
Proof. intros Hk Hx Hx' E. apply Hk. unfold MSG_SIZE in *. nia. Qed.

Lemma slot_addr k :
  u64 (buffer rd + (k mod n) * MSG_SIZE) = buffer rd + (k mod n) * MSG_SIZE.
Proof. pose proof (slot_range k). apply Z.mod_small. unfold MSG_SIZE in *. nia. Qed.

Lemma card_owns_other a b c :
  a <= b <= c -> c - a < n ->
  card_owns (message_work <$> seqZ a (b - a)) (buffer rd + (c mod n) * MSG_SIZE) MSG_SIZE = false.
Proof.
  intros Hab Hc. unfold card_owns. apply not_true_iff_false. rewrite existsb_exists.
  intros (w & Hw & Hov). apply list_elem_of_In, list_elem_of_fmap in Hw as (k & -> & Hk).
  apply elem_of_seqZ in Hk. cbn [message_work w_sges existsb] in Hov. rewrite orb_false_r in Hov.
  unfold overlaps, send_sge_at in Hov. cbn [sge_addr sge_length] in Hov. rewrite slot_addr in Hov.
  apply andb_true_iff in Hov as [H1%Z.ltb_lt H2%Z.ltb_lt].
  assert (k mod n <> c mod n) by (intros E%slot_inj; lia).
  unfold MSG_SIZE in *. nia.
Qed.

Lemma flight_mem a b g g' :
  flight a b g -> live g' = live g -> failed g' = failed g -> misuse g' = misuse g ->
  outstanding g' = outstanding g -> transmitted g' = transmitted g -> trail g' = trail g ->
  flight a b g'.
Proof.
  unfold flight, holds, behaves. by intros [(? & ? & ? & ? & ?) ?] -> -> -> -> -> ->.
Qed.

Lemma fill_buffer_spec a b c s g Q :
  flight a b g -> pending b c g -> c_count s = c -> 0 <= a <= b -> b <= c < INT_MAX -> c - a < n ->
  (forall g', flight a b g' -> pending b (c + 1) g' -> Q (Done tt (set_c_count (c + 1) s)) g') ->
  wpn (fill_buffer result (c mod n) s) Q g.
Proof.
  intros H Hp Hc Hab Hbc Hca HQ. unfold fill_buffer. pose proof (slot_range c) as Hs.
  rewrite Hres, lookup_fmap_seqZ by done. apply wp_bind. cbn [wp continue ret defined].
  apply wp_bind. cbn [wp continue gets]. rewrite Hc. rewrite (proj2 (Z.eqb_neq c INT_MAX)) by lia.
  apply wp_bind. cbn [wp continue modify send_buffer_at sb_data_buffer]. intros [] _.
  pose proof H as [(_ & _ & _ & _ & Hio) _]. apply (f_equal fst) in Hio. cbn [fst] in Hio.
  destruct (owns_core _ _ _ (proj1 H)) as (_ & _ & _ & _ & Hblk).
  apply HQ.
  - eapply flight_mem; [exact H|done|apply app_nil_r| |done|done|apply app_nil_r].
    cbn -[in_block card_owns].
    rewrite (in_block_spec _ (buffer rd) (n * MSG_SIZE)) by (done || (unfold MSG_SIZE in *; nia)).
    rewrite Hio, card_owns_other by lia. apply app_nil_r.
  - intros k x Hk Hx. cbn [gnext NicEnv nic_next mem mem_next]. unfold memset_at.
    destruct (decide (k = c)) as [->|Hne].
    + rewrite (proj2 (Z.leb_le _ _)), (proj2 (Z.ltb_lt _ _)) by lia. done.
    + assert (k mod n <> c mod n) by (intros E%slot_inj; lia).
      rewrite Hp by lia. replace (_ && _) with false; [done|]. symmetry.
      apply andb_false_iff. rewrite Z.leb_gt, Z.ltb_ge. unfold MSG_SIZE in *. nia.
Qed.

Lemma slot_wr_id k : u64 (k mod n) = k mod n.
Proof. pose proof (slot_range k). apply Z.mod_small. unfold MSG_SIZE, INT_MAX in *. lia. Qed.

Lemma slot_entries k :
  entries_of (elems (scatter_gather rd)) (send_wr_at n (send_flags rd) (ah rd) qpn (k mod n)) =
    [send_sge_at (buffer rd) (lkey r) (k mod n)].
Proof.
  cbn. unfold sg_entries. rewrite Hsg. pose proof (slot_range k) as Hk.
  pose proof (lookup_fmap_seqZ (send_sge_at (buffer rd) (lkey r)) n (k mod n) Hk) as Hl.
  unfold nthZ in Hl. rewrite (proj2 (Z.leb_le _ _)) in Hl by lia.
  cbn [s_sg_list s_num_sge send_wr_at]. by rewrite (drop_S _ _ _ Hl).
Qed.

Local Abbreviation sgl := (elems (scatter_gather rd)).
Local Abbreviation wr_at := (send_wr_at n (send_flags rd) (ah rd) qpn).

(** The requests that carry messages [b], ..., [c - 1]. *)
Definition carries (b c : Z) (l : list (ibv_send_wr * list ibv_sge)) : Prop :=
  (fun x : ibv_send_wr * list ibv_sge => (set_next None x.1, x.2)) <$> l =
    unlinked (elems (scatter_gather rd)) ∘ send_wr_at n (send_flags rd) (ah rd) qpn <$>
      ring_indexes n (b mod n) (c - b).

Lemma carries_work b c l : carries b c l -> send_work <$> l = message_work <$> seqZ b (c - b).
Proof.
  intros Hl. rewrite (posted_map send_work sgl wr_at n b (c - b) l); [|lia|done|done].
  apply list_fmap_ext. intros _ k _. unfold send_work, message_work. cbn [fst snd].
  rewrite slot_entries. cbn. by rewrite slot_wr_id.
Qed.

Lemma carries_transmission b c l g :
  carries b c l -> pending b c g ->
  transmission (mem g) <$> l = message <$> seqZ b (c - b).
Proof.
  intros Hl Hp. rewrite (posted_map (transmission (mem g)) sgl wr_at n b (c - b) l); [|lia|done|done].
  apply list_fmap_ext. intros _ k Hk%list_elem_of_lookup_2. apply elem_of_seqZ in Hk.
  unfold transmission, numbered_message. cbn [fst snd]. rewrite slot_entries.
  cbn [s_wr_id s_ud send_wr_at fmap list_fmap concat sge_bytes]. rewrite app_nil_r, slot_wr_id.
  f_equal. unfold sge_bytes, send_sge_at. cbn [sge_addr sge_length]. rewrite slot_addr.
  apply load_bytes_const. intros x Hx. apply Hp; [lia|done].
Qed.

Lemma carries_allowed b c l g io F :
  carries b c l -> holds m io resources F g -> rules _ g (Post_send (queue_pair rd) l) = [].
Proof.
  intros Hl H. destruct (owns_core _ _ _ H) as (Hqp & _ & Hah' & Hmr' & _).
  cbn [rules]. unfold is_qp. rewrite Hqp.
  set (P := fun w : ibv_send_wr * list ibv_sge =>
    forallb (registered (live g)) w.2 && is_ah (live g) (ud_ah (s_ud w.1))).
  replace (forallb P l) with true; [done|].
  pose proof (posted_map P sgl wr_at n b (c - b) l Hn ltac:(done) Hl) as E.
  rewrite <- forallb_fmap, E. symmetry. apply forallb_fmap_true. intros k. unfold P. cbn [fst snd].
  rewrite slot_entries. cbn [forallb]. unfold is_ah. cbn [send_wr_at s_ud ud_ah]. rewrite Hah'.
  rewrite (registered_spec _ (mr_handle r) (protection_domain rd) (buffer rd) (n * MSG_SIZE));
    [done|done| |]; unfold send_sge_at; cbn [sge_addr sge_length]; rewrite slot_addr;
    pose proof (slot_range k); unfold MSG_SIZE in *; nia.
Qed.

(** Posting is the queue's submission of as many requests as were accepted. *)
Lemma client_post_trail a b c l res g :
  carries b c l -> behaves (fifo n) (0, 0) t0 g (a, b) -> b <= c <= a + n ->
  (res.2 <= Z.to_nat (c - b))%nat ->
  behaves (fifo n) (0, 0) t0 (nic_next _ g (Post_send (queue_pair rd) l) res)
    (a, b + Z.of_nat res.2).
Proof.
  intros Hl Ht Hbc Hp. eapply behaves_step; [exact Ht|apply (fifo_submit n a b (Z.of_nat res.2)); lia|].
  cbn [nic_next trail trail_next]. do 3 f_equal.
  pose proof (carries_work b c l Hl) as E. apply (f_equal (fmap w_id)) in E.
  rewrite <- !list_fmap_compose in E.
  change (w_id ∘ send_work) with (fun w : ibv_send_wr * list ibv_sge => s_wr_id w.1) in E.
  rewrite fmap_take, E, <- fmap_take, take_seqZ by lia. done.
Qed.

Lemma client_post_sends_spec a b c s g Q :
  flight a b g -> pending b c g -> c_rdma s = rd -> 0 <= a <= b -> b < c <= a + n ->
  (forall v p g', 0 <= p <= c - b -> flight a (b + p) g' -> (v = 0 -> p = c - b) ->
     Q (Done v s) g') ->
  wpn (in_rdma (post_sends (b mod n) (c - b)) s) Q g.
Proof.
  intros H Hp Hs Hab Hbc HQ. apply wp_zoom. rewrite Hs.
  eapply (wp_post_sends _ _ _ n (send_wr_at n (send_flags rd) (ah rd) qpn)); try done.
  - apply slot_range.
  - lia.
  - unfold MSG_SIZE, INT_MAX in *. lia.
  - intros l res Hl [Hlen Hok]. fold (carries b c l) in Hl.
    assert (El : length l = Z.to_nat (c - b)).
    { apply (f_equal length) in Hl. unfold ring_indexes in Hl.
      rewrite !length_fmap, length_seqZ in Hl. exact Hl. }
    replace (zoomed _ _) with (Done (if res.1 =? 0 then 0 else -1) s : outcome client Z)
      by (cbn; f_equal; destruct s; cbn in *; by subst).
    apply (HQ _ (Z.of_nat res.2)).
    + lia.
    + destruct H as [H Htr]. pose proof H as (Hg & Hlive & HF & Hmis & Hio). injection Hio as Ho Ht.
      split; [|apply (client_post_trail a b c l); [done|done|lia|lia]].
      split; [done|]. split; [done|]. split; [by rewrite <- HF; apply app_nil_r|].
      split; [cbn [misuse nic_next]; by rewrite (carries_allowed b c l g _ _ Hl H), Hmis|].
      cbn [outstanding transmitted nic_next outstanding_next transmitted_next].
      rewrite Ho, Ht, !fmap_take, (carries_work b c l Hl), (carries_transmission b c l g Hl Hp).
      rewrite <- !fmap_take, take_seqZ by lia. rewrite <- !fmap_app. f_equal.
      * replace (b + Z.of_nat res.2 - a) with ((b - a) + Z.of_nat res.2) by lia.
        rewrite (seqZ_app a) by lia. do 2 f_equal. f_equal. lia.
      * by rewrite (seqZ_app 0 b) by lia.
    + destruct (Z.eqb_spec res.1 0) as [E|]; [|done]. intros _. destruct (Hok E) as [-> _]. lia.
Qed.

(** ** The loop *)

Lemma flight_sigint a b g (x : bool) :
  flight a b g -> flight a b (nic_next _ g VSigint x).
Proof.
  intros H. by eapply flight_mem; [exact H|done|apply app_nil_r|apply app_nil_r|done|done|apply app_nil_r].
Qed.

(** A poll fails, or takes the oldest [ne] messages. *)
Lemma poll_spec a b g x (g' := nic_next _ g (Poll_cq (completion_queue rd) 10) x) :
  flight a b g -> 0 <= a <= b -> poll_ok (incoming g) (arrived g) (outstanding g) 10 x ->
  x.1 < 0 /\ flight a b g' \/
  exists ne, x.1 = Z.of_nat ne /\ (ne <= 10)%nat /\ Z.of_nat ne <= b - a /\ length x.2 = ne /\
    wc_wr_id <$> x.2 = ring_ids n a (Z.of_nat ne) /\ flight (a + Z.of_nat ne) b g'.
Proof.
  intros [H Ht] Hab Hx.
  destruct (poll_numbered m n message_work (message <$> seqZ 0 b) resources []
              (completion_queue rd) (context rd) a b g x)
    as [[Hneg H']|(ne & Hne & Hle & Hle2 & Hlen & Hids & _ & H')];
    [done|by apply (owns_core _ _ _ H)|done|lia|exact Hx| |].
  - left. split; [done|]. split; [exact H'|]. eapply behaves_same; [|exact Ht].
    cbn [nic_next trail trail_next g']. by rewrite (proj2 (Z.ltb_lt _ _) Hneg), app_nil_r.
  - right. exists ne. repeat (split; [done|]).
    eapply behaves_step; [exact Ht|apply (fifo_complete n a b (Z.of_nat ne)); lia|].
    cbn [nic_next trail trail_next g']. by rewrite (proj2 (Z.ltb_ge _ _)), Hids by lia.
Qed.

Lemma check_completed_spec a b wcs c s g Q :
  flight a b g -> pending b c g -> c_count s = c -> c_rdma s = rd -> 0 <= a <= b -> b <= c ->
  wc_wr_id <$> wcs = (fun k => k mod n) <$> seqZ c (Z.of_nat (length wcs)) ->
  c + Z.of_nat (length wcs) <= a + n -> c + Z.of_nat (length wcs) <= INT_MAX ->
  (forall s' g', flight a b g' -> c_rdma s' = rd -> Q (Done (Some EXIT_FAILURE) s') g') ->
  (forall s' g', flight a b g' -> pending b (c + Z.of_nat (length wcs)) g' ->
     c_count s' = c + Z.of_nat (length wcs) -> c_rdma s' = rd -> Q (Done None s') g') ->
  wpn (check_completed result wcs s) Q g.
Proof.
  revert c s g. induction wcs as [|w wcs IH]; intros c s g H Hp Hc Hs Hab Hbc Hids Hn1 Hn2 HF HD.
  { cbn [length] in HD. rewrite Z.add_0_r in HD. by apply HD. }
  cbn [check_completed length] in *. rewrite (seqZ_cons c) in Hids by lia.
  rewrite !fmap_cons in Hids. injection Hids as Hid Hids.
  replace (Z.pred (Z.of_nat (S (length wcs)))) with (Z.of_nat (length wcs)) in Hids by lia.
  case_bool_decide.
  - apply wp_quiet_call; [intros x; by apply nic_next_quiet|]. intros text _.
    apply wp_quiet_call; [intros x; by apply nic_next_quiet|]. intros [] _. by apply HF.
  - apply wp_bind. rewrite Hid. eapply fill_buffer_spec; [exact H|exact Hp|done|lia|lia|lia|].
    intros g' H' Hp'. cbn [continue].
    replace (c + Z.of_nat (S (length wcs))) with (c + 1 + Z.of_nat (length wcs)) in * by lia.
    apply (IH (c + 1)); try done; lia.
Qed.

(** At the top of the loop the card owns [n] consecutive messages. *)
Definition loop_inv (i : nat) (s : client) (g : nic) : Prop :=
  exists a, 0 <= a <= 10 * Z.of_nat i /\ flight a (a + n) g /\ c_count s = a + n /\ c_rdma s = rd.

(** When the loop is left. *)
Definition loop_done (code : Z) (s : client) (g : nic) : Prop :=
  (code = EXIT_SUCCESS \/ code = EXIT_FAILURE) /\ c_rdma s = rd /\
  exists a b, 0 <= a <= b /\ flight a b g.

(** One turn, from the top of the loop. *)
Definition turn_post (i : nat) (o : outcome client (option Z)) (g : nic) : Prop :=
  match o with
  | Done None s => loop_inv (S i) s g
  | Done (Some code) s => loop_done code s g
  | _ => False
  end.

Lemma quit_turn i a b s g :
  0 <= a <= b -> flight a b g -> c_rdma s = rd -> turn_post i (Done (Some EXIT_FAILURE) s) g.
Proof. intros Hab H Hs. split; [by right|]. split; [done|]. by exists a, b. Qed.

Lemma requeue_spec a b ne wc s g Q :
  flight a b g -> pending b (b + Z.of_nat ne) g -> 0 <= a <= b -> b + Z.of_nat ne <= a + n ->
  c_rdma s = rd -> length wc = ne -> wc_wr_id <$> wc = (fun k => k mod n) <$> seqZ b (Z.of_nat ne) ->
  (forall v p g', 0 <= p <= Z.of_nat ne -> flight a (b + p) g' -> (v = 0 -> p = Z.of_nat ne) ->
     Q (Done v s) g') ->
  wpn (requeue (Z.of_nat ne) wc s) Q g.
Proof.
  intros H Hp Hab Hn1 Hs Hlen Hids HQ. unfold requeue. destruct (Z.ltb_spec 0 (Z.of_nat ne)) as [Hne|Hne].
  - destruct wc as [|w wc]; [simpl in Hlen; lia|]. rewrite (seqZ_cons b) in Hids by lia.
    injection Hids as Hid _. apply wp_bind. cbn [head defined ret wp continue].
    rewrite Hid, i32_small by (pose proof (slot_range b); unfold MSG_SIZE, INT_MAX, INT_MIN in *; lia).
    replace (Z.of_nat ne) with (b + Z.of_nat ne - b) by lia.
    eapply client_post_sends_spec; [exact H|exact Hp|done|lia|lia|].
    intros v p g' Hp' H' Hv. apply (HQ v p); [lia|done|]. intros E. specialize (Hv E). lia.
  - apply (HQ 0 0); [lia| |lia]. by rewrite Z.add_0_r.
Qed.

Lemma client_turn_spec i a s g :
  0 <= a <= 10 * Z.of_nat i -> flight a (a + n) g -> c_count s = a + n -> c_rdma s = rd ->
  n + 10 * (Z.of_nat i + 1) <= INT_MAX ->
  wpn (client_turn result s) (turn_post i) g.
Proof.
  intros Ha H Hc Hs Hbound. unfold client_turn. apply wp_bind. cbn [wp continue gets]. rewrite Hs.
  apply wp_bind. intros x Hx. cbn [continue]. destruct (poll_spec a (a + n) g x H ltac:(lia) Hx)
    as [[Hneg H1]|(ne & Hne & Hle & Hle2 & Hlen & Hids & H1)];
    destruct x as [rc wc]; cbn [fst snd] in *; revert H1; cbn [gnext NicEnv];
    generalize (nic_next _ g (Poll_cq (completion_queue rd) 10) (rc, wc)); clear g H Hx; intros g H.
  - cbn [wp continue]. rewrite (proj2 (Z.ltb_lt _ _) Hneg).
    apply wp_quiet_call; [intros y; by apply nic_next_quiet|]. intros [] _.
    eapply quit_turn; [|exact H|done]. lia.
  - subst rc. cbn [wp continue]. rewrite (proj2 (Z.ltb_ge _ _)) by lia.
    apply wp_quiet_call; [intros y; by apply nic_next_quiet|]. intros [] _.
    rewrite Nat2Z.id, <- Hlen, firstn_all.
    assert (Hids' : wc_wr_id <$> wc = (fun k => k mod n) <$> seqZ (a + n) (Z.of_nat (length wc))).
    { rewrite Hids, Hlen. replace (a + n) with (n + a) by lia. rewrite <- (fmap_add_seqZ n a).
      rewrite <- list_fmap_compose. apply list_fmap_ext. intros _ k _. unfold compose.
      rewrite <- (Z.mul_1_l n) at 2. rewrite Z.add_comm. symmetry. apply Z.mod_add. lia. }
    apply wp_bind. eapply check_completed_spec; [exact H| |exact Hc|exact Hs|lia|lia|exact Hids'|lia|lia| |].
    + intros k y Hk. lia.
    + intros s' g' H' Hs'. cbn [continue wp]. eapply quit_turn; [|exact H'|done]. lia.
    + intros s' g' H' Hp Hc' Hs'. cbn [continue]. apply wp_bind. rewrite Hlen in *.
      eapply requeue_spec; [exact H'|exact Hp|lia|lia|done|done|done|].
      intros v p g2 Hp2 H2 Hv. cbn [continue]. destruct (Z.eqb_spec v 0) as [E|E]; cbn [negb].
      * specialize (Hv E). subst p. apply wp_quiet_call; [intros y; by apply nic_next_quiet|].
        intros [] _. exists (a + Z.of_nat ne). split; [lia|].
        replace (a + Z.of_nat ne + n) with (a + n + Z.of_nat ne) by lia. done.
      * apply wp_quiet_call; [intros y; by apply nic_next_quiet|]. intros [] _.
        eapply quit_turn; [|exact H2|done]. lia.
Qed.

Lemma client_body_spec i s g :
  loop_inv i s g -> n + 10 * (Z.of_nat i + 1) <= INT_MAX ->
  wpn (client_body result s) (turn_post i) g.
Proof.
  intros (a & Ha & H & Hc & Hs) Hbound. unfold client_body, client_loop_test.
  apply wp_bind, wp_bind. intros del _. cbn [continue gnext NicEnv].
  pose proof (flight_sigint _ _ _ del H) as H1. revert H1. generalize (nic_next _ g VSigint del).
  clear g H. intros g H. apply wp_bind.
  destruct del; cbn [modify ret wp continue gets].
  - change (client_loop (stop_loop s)) with 0. cbn [Z.eqb negb].
    split; [by left|]. split; [done|]. exists a, (a + n). split; [lia|done].
  - destruct (client_loop s =? 0); cbn [negb].
    + split; [by left|]. split; [done|]. exists a, (a + n). split; [lia|done].
    + by eapply client_turn_spec.
Qed.

(** ** From the first message to cleanup *)

(** What is true of the environment when the program ends, or has run [fuel]
    turns. *)
Definition run_post (o : outcome client Z) (g : nic) : Prop :=
  misuse g = [] /\
  exists a k, 0 <= k /\ transmitted g = message <$> seqZ 0 k /\
    behaves (fifo n) (0, 0) t0 g (a, k) /\
    match o with
    | Done code _ => (code = EXIT_SUCCESS \/ code = EXIT_FAILURE) /\ live g = m /\ failed g = []
    | Exit c _ => c = EXIT_FAILURE /\ FRelease ∈ failed g
    | NoFuel _ => n <= k /\ outstanding g = message_work <$> seqZ (k - n) n
    | Undef _ => False
    end.

Lemma run_end code a b s g :
  code = EXIT_SUCCESS \/ code = EXIT_FAILURE -> c_rdma s = rd -> 0 <= a <= b -> flight a b g ->
  header_memory_region rd = None -> header_buffer rd = 0 ->
  wpn (bind (call (Free (arr_ptr result))) (fun _ =>
       bind (in_rdma rdma_cleanup) (fun _ => ret code)) s) run_post g.
Proof.
  intros Hcode Hs Hab [H Ht] Hh Hhb. apply wp_bind. intros [] Hleg. cbn [continue].
  apply (behaves_same _ _ _ g (nic_next _ g (Free (arr_ptr result)) tt)) in Ht; [|apply app_nil_r].
  assert (H1 : holds m (message_work <$> seqZ a (b - a), message <$> seqZ 0 b)
    (endpoint rd IBV_QPS_RTS (client_sizes n) []) [] (nic_next _ g (Free (arr_ptr result)) tt)).
  { eapply holds_free; [done|exact H|unfold resources, endpoint; removal|].
    apply (closed_endpoint rd IBV_QPS_RTS (client_sizes n) []). constructor. }
  revert Ht H1. cbn [gnext NicEnv]. generalize (nic_next _ g (Free (arr_ptr result)) tt).
  clear g H Hleg. intros g Ht H. apply wp_bind, wp_zoom. rewrite Hs.
  eapply wp_mono; [apply (wp_quietly sigint); [apply calls_rdma_cleanup|];
    apply (rdma_cleanup_spec sigint m
    (message_work <$> seqZ a (b - a), message <$> seqZ 0 b) Hm [] IBV_QPS_RTS (client_sizes n) [] r)|];
    [constructor|done|by intros|exact H|].
  intros o g' [Ho (Hu & _)]. apply (behaves_same _ _ _ _ _ _ Hu) in Ht.
  destruct o as [[] s'|c s'|w|s']; [| |done|done]; cbn [zoomed continue ret wp].
  - destruct Ho as [_ (_ & Hl & HF & Hmis & Hio)]. injection Hio as _ Htr. split; [done|].
    exists a, b. split; [lia|]. by repeat (split; [done|]).
  - destruct Ho as (-> & _ & l & (_ & _ & HF & Hmis & Hio)). injection Hio as _ Htr. split; [done|].
    exists a, b. split; [lia|]. split; [done|]. split; [done|]. split; [done|]. rewrite HF. by left.
Qed.

Lemma fill_all s g Q :
  flight 0 0 g -> c_count s = 0 -> c_rdma s = rd -> n < INT_MAX ->
  (forall s' g', flight 0 0 g' -> pending 0 n g' -> c_count s' = n -> c_rdma s' = rd ->
     Q (Done None s') g') ->
  wpn (for_upto (R := Z) (Z.to_nat n) 0 (fun i => bind (fill_buffer result i) (fun _ => ret None)) s) Q g.
Proof.
  intros H Hc Hs Hnm HQ.
  apply (wp_for (fun i s g => flight 0 0 g /\ pending 0 i g /\ c_count s = i /\ c_rdma s = rd)).
  - split; [done|]. split; [|done]. intros k x Hk. lia.
  - intros i s1 g1 Hi (H1 & Hp1 & Hc1 & Hs1). apply wp_bind.
    assert (E : fill_buffer result i = fill_buffer result (i mod n))
      by (by rewrite Z.mod_small by lia).
    rewrite E. eapply fill_buffer_spec; [exact H1|exact Hp1|done|lia|lia|lia|].
    intros g2 H2 Hp2. cbn [continue ret wp]. done.
  - intros s1 g1 (H1 & Hp1 & Hc1 & Hs1). rewrite Z2Nat.id in * by lia. by apply HQ.
Qed.

Lemma client_run_spec fuel s g :
  n = completion_queue_size -> flight 0 0 g -> c_rdma s = rd ->
  header_memory_region rd = None -> header_buffer rd = 0 -> n + 10 * Z.of_nat fuel <= INT_MAX ->
  wpn (client_run fuel result s) run_post g.
Proof.
  intros Hn20 H Hs Hh Hhb Hfuel. unfold client_run. rewrite <- Hn20. apply wp_bind.
  cbn [modify wp continue]. apply wp_bind.
  apply fill_all; [exact H|done|exact Hs|unfold MSG_SIZE, INT_MAX in *; lia|].
  clear g H. intros s1 g H Hp Hc1 Hs1. cbn [continue]. apply wp_bind.
  replace (post_sends 0 n) with (post_sends (0 mod n) (n - 0))
    by (rewrite Z.mod_0_l by lia; f_equal; lia).
  eapply client_post_sends_spec; [exact H|exact Hp|done|lia|lia|].
  clear g H Hp. intros v p g Hp H Hv. cbn [continue]. apply wp_bind.
  destruct (Z.eqb_spec v 0) as [E|E]; cbn [negb].
  - specialize (Hv E). rewrite Z.add_0_l in H. subst p.
    apply (wp_loop loop_inv).
    + exists 0. rewrite Z.sub_0_r in H. split; [lia|done].
    + intros i s2 g2 Hi Hinv. eapply wp_mono; [eapply client_body_spec; [exact Hinv|lia]|].
      intros o g3 Ho. destruct o as [[code|] s3|c s3|w|s3]; cbn [turn_post] in Ho; [|done..].
      destruct Ho as (Hcode & Hs3 & a & b & Hab & H3). cbn [continue]. by eapply run_end.
    + intros s2 g2 (a & Ha & [H2 Htr] & _). cbn [continue wp]. split; [apply H2|].
      exists a, (a + n). split; [lia|]. destruct H2 as (_ & _ & _ & _ & Hio). injection Hio as Ho Ht.
      split; [done|]. split; [done|]. split; [lia|]. rewrite Ho. do 2 f_equal; lia.
  - apply wp_quiet_call; [intros y; by apply nic_next_quiet|]. intros [] _.
    cbn [continue ret wp]. eapply run_end; [by right|exact Hs1| |exact H|done|done]. lia.
Qed.

End flight.

(** ** Properties *)

(** The witnesses instantiate the libraries with these. *)
#[local] Existing Instance text_example.
#[local] Existing Instance junk_example.

Lemma endpoint_failed_io m io rsize s g :
  endpoint_failed m io rsize s g -> (outstanding g, transmitted g) = io.
Proof.
  intros [[[_ H]|[H|[H|(_ & _ & _ & H)]]]|[(F & _ & H)|[[p H]|(l & F & H)]]];
    try done; by eapply holds_io.
Qed.

Lemma endpoint_failed_client m rsize s g :
  endpoint_failed m ([], []) rsize s g ->
  transmitted g = [] /\ (FRelease ∉ failed g -> init_leaves m rsize s g).
Proof.
  intros H. split; [|intros HF; by eapply endpoint_failed_leaves].
  apply endpoint_failed_io in H. by injection H as _ ->.
Qed.

(** What was handed over, and how the queue was driven: [a] of [k] messages
    completed. *)
Definition client_sent (t0 : list vevent) (a k : Z) (g : nic) : Prop :=
  0 <= k /\
  (exists ah qpn, transmitted g = numbered_message completion_queue_size ah qpn <$> seqZ 0 k) /\
  behaves (fifo completion_queue_size) (0, 0) t0 g (a, k).

Lemma client_sent_none t0 g : transmitted g = [] -> trail g = t0 -> client_sent t0 0 0 g.
Proof.
  intros Ht Htr. split; [done|]. split; [by exists 0, 0|]. by apply behaves_start.
Qed.

Lemma client_main_spec `{!AddrText} `{!Junk} sigint fuel argv g :
  idle g -> transmitted g = [] -> completion_queue_size + 10 * Z.of_nat fuel <= INT_MAX ->
  nic_wp sigint (main fuel argv client0) (fun o g' =>
    (exists a k, client_sent (trail g) a k g') /\
    match o with
    | Done code _ =>
        (code = EXIT_SUCCESS \/ code = EXIT_FAILURE) /\
        misuse g' = [] /\ live g' = live g /\ failed g' = []
    | Exit c s =>
        c = EXIT_FAILURE /\
        (FRelease ∉ failed g' ->
         init_leaves (live g) (u64 (u64 completion_queue_size * sizeof_send_buffer)) (c_rdma s) g')
    | NoFuel _ => misuse g' = []
    | Undef w => w = "atoi"
    end) g.
Proof.
  intros Hg Ht Hfuel. unfold main.
  assert (Hnone : exists a k, client_sent (trail g) a k g) by (exists 0, 0; by apply client_sent_none).
  assert (Hclean : misuse g = [] /\ live g = live g /\ failed g = [])
    by (split; apply Hg || (split; apply Hg || done)).
  destruct (length argv =? 5)%nat; cbn [negb].
  2: { apply wp_quiet_call; [intros y; by apply nic_next_quiet|]. intros [] _.
       split; [done|]. split; [by right|done]. }
  apply wp_bind. destruct (atoi _) as [lid|]; cbn [defined ret undef wp continue]; [|done].
  apply wp_bind. destruct (atoi _) as [qpn|]; cbn [defined ret undef wp continue]; [|done].
  apply wp_quiet_call; [intros y; by apply nic_next_quiet|]. intros rc _.
  destruct (rc =? 0); cbn [negb].
  2: { apply wp_quiet_call; [intros y; by apply nic_next_quiet|]. intros [] _.
       split; [done|]. split; [by right|done]. }
  apply wp_bind, wp_zoom. eapply wp_mono.
  { apply (wp_quietly sigint); [apply calls_rdma_init_client|].
    apply (rdma_init_client_spec sigint (live g) ([], [])); [apply Hg|done|done|done|by repeat split|].
    pose proof (idle_holds g Hg) as Hi. destruct Hg as (_ & _ & Ho & _). by rewrite Ho, Ht in Hi. }
  intros o g' [Ho (Hu & _)].
  destruct o as [result s|c s|w|s]; cbn [client_post zoomed] in *; [| |done|done].
  - destruct Ho as (r & Hown & Hmr & Hh & Hhb & _ & Hah & Hq & Hlow & Hhigh & Hres & Hsg & Hwrs).
    cbn [continue]. eapply wp_mono.
    { eapply (client_run_spec sigint (live g) completion_queue_size (u32 qpn) s result r (trail g));
        try done; [apply Hg|]. split; [done|]. by apply behaves_start. }
    clear. intros o g' (Hmis & a & k & Hk & Ht & Hb & Ho).
    split; [exists a, k; split; [done|]; split; [by eexists _, _|done]|].
    destruct o as [code s'|c s'|w|s']; [| |done|done].
    + destruct Ho as (Hcode & Hl & HF). done.
    + destruct Ho as [-> HF]. split; [done|]. by intros [].
  - destruct Ho as [-> Ho]. cbn [continue wp].
    destruct (endpoint_failed_client _ _ _ _ Ho) as [H1 H2]. split; [|done].
    exists 0, 0. by apply client_sent_none.
Qed.

(** C9: the client, for every command line, signal schedule, and behaviour of
    the library and the card.  What it handed over for transmission are messages
    0, 1, ..., k - 1, in order and each complete (every byte is the number of
    the message modulo 256), to one destination, for some k.  It never wrote to
    a buffer the card owned, and broke no rule of the library (but for the one
    of [rdma_init]).  When main returns, every resource was released; when it
    exits, what is left is what [init_leaves] says, unless a release failed.  It
    has no undefined behaviour but an argument that is not an int. *)
Theorem client_main_correct `{!AddrText} `{!Junk} sigint fuel argv g :
  idle g -> transmitted g = [] -> completion_queue_size + 10 * Z.of_nat fuel <= INT_MAX ->
  nic_wp sigint (main fuel argv client0) (fun o g' =>
    (exists ah qpn k, 0 <= k /\
       transmitted g' = numbered_message completion_queue_size ah qpn <$> seqZ 0 k) /\
    match o with
    | Done code _ =>
        (code = EXIT_SUCCESS \/ code = EXIT_FAILURE) /\
        misuse g' = [] /\ live g' = live g /\ failed g' = []
    | Exit c s =>
        c = EXIT_FAILURE /\
        (FRelease ∉ failed g' ->
         init_leaves (live g) (u64 (u64 completion_queue_size * sizeof_send_buffer)) (c_rdma s) g')
    | NoFuel _ => misuse g' = []
    | Undef w => w = "atoi"
    end) g.
Proof.
  intros Hg Ht Hfuel. eapply wp_mono; [by apply client_main_spec|].
  intros o g' [(a & k & Hk & (ah & qpn & E) & _) Ho]. split; [by exists ah, qpn, k|done].
Qed.

Lemma client_main_correct_witness :
  nic_wp (Nat.eqb 2) (main 3 [[]; []; []; string_bytes "1"; string_bytes "2"] client0) (fun o g' =>
    exists ah qpn k, transmitted g' = numbered_message 20 ah qpn <$> seqZ 0 k) nic0.
Proof.
  eapply wp_mono.
  - apply (client_main_correct (Nat.eqb 2) 3).
    + exact idle_nic0.
    + reflexivity.
    + discriminate.
  - intros o g' [(h & qpn & k & _ & E) _]. by exists h, qpn, k.
Defined.

(** C17: the client refines the bounded queue: in every environment, what it is
    seen to do (the ids it posts and those it finds completed) is a trace of
    [fifo]: requests are submitted in the order of their numbers, at most
    [completion_queue_size] are in flight, and the messages it handed over are
    exactly those submitted. *)
Theorem client_refines_fifo `{!AddrText} `{!Junk} sigint fuel argv g :
  idle g -> transmitted g = [] -> completion_queue_size + 10 * Z.of_nat fuel <= INT_MAX ->
  nic_wp sigint (main fuel argv client0) (fun _ g' =>
    exists t a k, trail g' = trail g ++ t /\
      trace (fifo completion_queue_size) (0, 0) t (a, k) /\
      t_id <$> transmitted g' = submitted_ids t) g.
Proof.
  intros Hg Ht Hfuel. eapply wp_mono; [by apply client_main_spec|].
  intros o g' [(a & k & Hk & (h & qpn & E) & t & Htr & Htrace) _]. exists t, a, k.
  split; [done|]. split; [done|]. rewrite E.
  destruct (fifo_trace completion_queue_size t a k ltac:(done) Htrace) as (_ & _ & -> & _).
  by rewrite <- list_fmap_compose.
Qed.

Lemma client_refines_fifo_witness :
  nic_wp (Nat.eqb 2) (main 3 [[]; []; []; string_bytes "1"; string_bytes "2"] client0) (fun _ g' =>
    exists t a k, trail g' = t /\ trace (fifo 20) (0, 0) t (a, k)) nic0.
Proof.
  eapply wp_mono.
  - apply (client_refines_fifo (Nat.eqb 2) 3).
    + exact idle_nic0.
    + reflexivity.
    + discriminate.
  - intros o g' (t & a & k & E & Ht & _). exists t, a, k. split; [exact E|exact Ht].
Defined.
