(* ===== verification/RdmaServer.v ===== *)
(** rdma_server.c: the program that keeps every receive buffer posted and
    reports the datagrams that arrive.

    The program's state is the loop flag and rdma.c's statics.  The theorem: a
    buffer is read only between its completion and its repost, and at the top of
    the loop every buffer is posted, in ring order. *)
From stdpp Require Import gmap.
From S2P Require Import Prelude CInt CLib RawPacket Prog Posix Verbs VerbsRules.
From S2P Require Import Rdma RdmaRing RdmaResources Calls RdmaCalls QueueSpec.
Local Open Scope Z_scope.
Local Open Scope c_scope.

Record server := { server_loop : Z; s_rdma : rdma }.

Definition set_server_loop x (s : server) : server :=
  {| server_loop := x; s_rdma := s_rdma s |}.
Definition set_s_rdma x (s : server) : server :=
  {| server_loop := server_loop s; s_rdma := x |}.

Definition server0 : server := {| server_loop := 1; s_rdma := rdma0 |}.

(** The signal handler. *)
Definition stop_loop (s : server) : server := set_server_loop 0 s.

Definition completion_queue_size : Z := 100.

(** A char and a uint64_t as printf shows them with %d and %ld. *)
Definition i8 (x : Z) : Z := (x + 2 ^ 7) mod 2 ^ 8 - 2 ^ 7.
Definition i64 (x : Z) : Z := (x + 2 ^ 63) mod 2 ^ 64 - 2 ^ 63.

(** The line printed for a completed request: its id, the first byte of its data
    and its length. *)
Definition report_line (wr_id c byte_len : Z) : list Z :=
  string_bytes "Message for WR #" ++ fmt_d (i64 wr_id) ++ string_bytes ": index #" ++
  fmt_d (i8 c) ++ string_bytes " size: " ++ fmt_d (i32 byte_len) ++
  string_bytes " bytes" ++ [10].

Section code.
Context `{!AddrText} `{!Junk}.

Definition in_rdma {A} (m : M verbs rdma A) : M verbs server A := zoom s_rdma set_s_rdma m.

Definition server_loop_test : M verbs server bool :=
  let! delivered := call VSigint in
  (if delivered : bool then modify stop_loop else ret tt) ;!
  gets (fun s => negb (server_loop s =? 0)).

(** The loop over the completed requests; [Some result] goes to cleanup. *)
Fixpoint report_completed (buffers : array recv_buffer) (wc : list ibv_wc) :
    M verbs server (option Z) :=
  match wc with
  | [] => ret None
  | w :: wc =>
      let! b := defined "buffers[wc[i].wr_id]" (nthZ (elems buffers) (wc_wr_id w)) in
      let! c := call (Load_char (rb_data_buffer b)) in
      call (VPrintf (report_line (wc_wr_id w) c (wc_byte_len w))) ;!
      if bool_decide (wc_status w <> IBV_WC_SUCCESS) then
        let! text := call (Wc_status_str (wc_status w)) in
        eprintf (string_bytes "Failed status " ++ text ++ string_bytes " (" ++
                 fmt_d (ibv_wc_status_val (wc_status w)) ++ string_bytes ") for wr_id " ++
                 fmt_d (i32 (wc_wr_id w)) ++ [10]) ;!
        ret (Some EXIT_FAILURE)
      else report_completed buffers wc
  end.

(** [post_recvs(wc[0].wr_id, ne)], when there were completed requests. *)
Definition requeue (ne : Z) (wc : list ibv_wc) : M verbs server Z :=
  if 0 <? ne then
    let! first := defined "wc[0]" (head wc) in
    in_rdma (post_recvs (i32 (wc_wr_id first)) ne)
  else ret 0.

(** The body of the loop; [Some result] leaves it for cleanup. *)
Definition server_turn (buffers : array recv_buffer) : M verbs server (option Z) :=
  let! q := gets (fun s => completion_queue (s_rdma s)) in
  let! (ne, wc) := call (Poll_cq q 10) in
  if ne <? 0 then
    eprintf (string_bytes "poll CQ failed " ++ fmt_d ne ++ [10]) ;! ret (Some EXIT_FAILURE)
  else
  (if ne =? 0 then call VSleep
   else eprintf (string_bytes "received " ++ fmt_d ne ++ string_bytes " messages" ++ [10])) ;!
  let! r := report_completed buffers (take (Z.to_nat ne) wc) in
  match r with
  | Some code => ret (Some code)
  | None =>
      let! failed := requeue ne wc in
      if negb (failed =? 0) then eputs "Couldn't post receives" ;! ret (Some EXIT_FAILURE)
      else ret None
  end.

(** [while (server_loop)] *)
Definition server_body (buffers : array recv_buffer) : M verbs server (option Z) :=
  let! go := server_loop_test in
  if negb go then ret (Some EXIT_SUCCESS) else server_turn buffers.

Definition server_run (fuel : nat) (buffers : array recv_buffer) : M verbs server Z :=
  let! failed := in_rdma (post_recvs 0 completion_queue_size) in
  let! result :=
    if negb (failed =? 0) then eputs "Couldn't post receives" ;! ret EXIT_FAILURE
    else loop fuel (server_body buffers) in
  call (Free (arr_ptr buffers)) ;!
  in_rdma rdma_cleanup ;!
  ret result.

Definition main (fuel : nat) (argv : list (list Z)) : M verbs server Z :=
  if negb (length argv =? 2)%nat then
    eputs "Usage: rdma_server <IB driver>" ;! ret EXIT_FAILURE
  else
  let! r := call VSigaction in
  if negb (r =? 0) then eputs "Couldn't mask signals." ;! ret EXIT_FAILURE else
  let! buffers := in_rdma (rdma_init_server (default [] (argv !! 1%nat)) completion_queue_size) in
  server_run fuel buffers.

End code.

(** ** Specification *)

(** The server, abstractly: a queue of numbered receives, of which [completed]
    have been completed, [reported] reported and [submitted] submitted. *)
Record server_queue := { completed : Z; reported : Z; submitted : Z; stopped : bool }.

(** The first byte of a datagram's payload, after the 40 bytes of its header. *)
Definition first_byte (d : list Z) : option Z := head (drop 40 d).

Section spec.
Variables (n : Z) (datagram : Z -> list Z).

Abbreviation state a c b f :=
  {| completed := a; reported := c; submitted := b; stopped := f |}.

(** A receive's number is submitted again once it is reported; completed ones are
    reported before more are taken; a report shows the datagram's length and its
    first byte, if it has one.  After the report of a failed receive the server
    stops. *)
Inductive server_spec : server_queue -> vevent -> server_queue -> Prop :=
| spec_submit a c b p :
    0 <= p -> b + p <= c + n ->
    server_spec (state a c b false) (EPost (ring_ids n b p)) (state a c (b + p) false)
| spec_complete a b k :
    0 <= k -> a + k <= b ->
    server_spec (state a a b false) (EComplete (ring_ids n a k)) (state (a + k) a b false)
| spec_report a c b byte :
    c < a -> (forall x, first_byte (datagram c) = Some x -> byte = x) ->
    server_spec (state a c b false)
      (EPrint (report_line (c mod n) byte (Z.of_nat (length (datagram c)))))
      (state a (c + 1) b false)
| spec_stop a c b byte len :
    c < a ->
    server_spec (state a c b false) (EPrint (report_line (c mod n) byte len))
      (state a (c + 1) b true).

Definition server_start : server_queue := state 0 0 0 false.

(** The line a report of receive [k] may be. *)
Definition reports (k : Z) (line : list Z) : Prop :=
  exists byte, (forall x, first_byte (datagram k) = Some x -> byte = x) /\
    line = report_line (k mod n) byte (Z.of_nat (length (datagram k))).

(** The reports of a trace, in order; the last one, of a failed receive, is
    only known to be for its number. *)
Lemma server_spec_reports t st :
  trace server_spec server_start t st ->
  0 <= reported st <= completed st /\
  exists lines last, printed_lines t = lines ++ last /\
    (if stopped st
     then Forall2 reports (seqZ 0 (reported st - 1)) lines /\ 1 <= reported st /\
          exists byte len, last = [report_line ((reported st - 1) mod n) byte len]
     else Forall2 reports (seqZ 0 (reported st)) lines /\ last = []).
Proof.
  apply (trace_invariant server_spec (fun st t => 0 <= reported st <= completed st /\
    exists lines last, printed_lines t = lines ++ last /\
    (if stopped st
     then Forall2 reports (seqZ 0 (reported st - 1)) lines /\ 1 <= reported st /\
          exists byte len, last = [report_line ((reported st - 1) mod n) byte len]
     else Forall2 reports (seqZ 0 (reported st)) lines /\ last = []))).
  { split; [done|]. by exists [], []. }
  clear. intros st t l st' _ (Hc & lines & last & Hp & Ho) Hstep.
  unfold printed_lines in *. rewrite omap_app, Hp.
  destruct Hstep as [a c b p Hp1 Hp2|a b k Hk1 Hk2|a c b byte Hca Hb|a c b byte len Hca];
    cbn [reported completed stopped omap list_omap] in *; (split; [lia|]); rewrite ?app_nil_r.
  - by exists lines, last.
  - by exists lines, last.
  - destruct Ho as [Ho ->]. rewrite app_nil_r. eexists (lines ++ [_]), []. rewrite app_nil_r.
    split; [done|]. split; [|done]. rewrite seqZ_app by lia. apply Forall2_app; [done|].
    rewrite Z.add_0_l. constructor; [by exists byte|constructor].
  - destruct Ho as [Ho ->]. rewrite app_nil_r. eexists lines, [_]. split; [done|].
    replace (c + 1 - 1) with c by lia. split; [done|]. split; [lia|]. by exists byte, len.
Qed.

(** Without its reports, the server's queue is the bounded queue. *)
Definition no_print (e : vevent) : Prop := match e with EPrint _ => False | _ => True end.

#[export] Instance no_print_dec e : Decision (no_print e).
Proof. destruct e; cbn; apply _. Defined.

Lemma server_spec_fifo t st :
  trace server_spec server_start t st ->
  reported st <= completed st /\
  trace (fifo n) (0, 0) (filter no_print t) (completed st, submitted st).
Proof.
  apply (trace_invariant server_spec (fun st t => reported st <= completed st /\
    trace (fifo n) (0, 0) (filter no_print t) (completed st, submitted st))).
  { split; [done|]. apply trace_nil. }
  clear. intros st t l st' _ (Hc & Ht) Hstep. rewrite filter_app.
  destruct Hstep as [a c b p Hp1 Hp2|a b k Hk1 Hk2|a c b byte Hca Hb|a c b byte len Hca];
    cbn [reported completed submitted] in *; (split; [lia|]).
  - eapply trace_snoc; [exact Ht|]. apply fifo_submit; lia.
  - eapply trace_snoc; [exact Ht|]. apply fifo_complete; lia.
  - by rewrite app_nil_r.
  - by rewrite app_nil_r.
Qed.

End spec.

(** ** Receives in flight *)

Section flight.
Context {TX : AddrText} {JK : Junk} (sigint : nat -> bool).
Variables (m : gmap Z obj) (n : Z) (rd : rdma) (result : array recv_buffer) (r h : ibv_mr).
Variables (t0 : list vevent) (inc : nat -> list Z) (k0 : nat).
Hypothesis Hm : blocks_only m.
Hypothesis Hn : 0 < n.
Hypothesis Hsize : n * MSG_SIZE <= INT_MAX.

Definition resources : owned :=
  endpoint rd IBV_QPS_RTR (server_sizes n)
    [(arr_ptr result, OBlock (u64 (u64 n * sizeof_recv_buffer)))].

Local Abbreviation sge_at := (recv_sge_at (header_buffer rd) (buffer rd) (lkey h) (lkey r)).

(** Receive number [k] is slot [k mod n] of both buffers. *)
Definition slot_work (k : Z) : work :=
  {| w_recv := true; w_id := k mod n; w_sges := [sge_at (2 * (k mod n)); sge_at (2 * (k mod n) + 1)] |}.

(** The datagram of receive [k]. *)
Definition datagram (k : Z) : list Z := inc (k0 + Z.to_nat k)%nat.

(** The card owns receives [a], ..., [b - 1]; [0], ..., [c - 1] have been
    reported; and the trail so far is the abstract server's. *)
Definition posted (a c b : Z) (f : bool) (g : nic) : Prop :=
  holds m (slot_work <$> seqZ a (b - a), []) resources [] g /\
  arrived g = (k0 + Z.to_nat a)%nat /\ incoming g = inc /\
  behaves (server_spec n datagram) server_start t0 g
    {| completed := a; reported := c; submitted := b; stopped := f |}.

Hypothesis Hmr : memory_region rd = Some r.
Hypothesis Hhmr : header_memory_region rd = Some h.
Hypothesis Hqs : queue_size rd = n.
Hypothesis Hlow : 0 < buffer rd.
Hypothesis Hhigh : buffer rd + n * MSG_SIZE <= 2 ^ 64.
Hypothesis Hlow' : 0 < header_buffer rd.
Hypothesis Hhigh' : header_buffer rd + n * 40 <= 2 ^ 64.
Hypothesis Hapart : header_buffer rd + n * 40 <= buffer rd \/
                    buffer rd + n * MSG_SIZE <= header_buffer rd.
Hypothesis Hres : elems result = recv_buffer_at (header_buffer rd) (buffer rd) <$> seqZ 0 n.
Hypothesis Hsg : elems (scatter_gather rd) = sge_at <$> seqZ 0 (2 * n).
Hypothesis Hwrs : elems (recv_requests rd) = recv_wr_at n <$> seqZ 0 n.
Local Abbreviation wpn := (nic_wp sigint).
Local Abbreviation sgl := (elems (scatter_gather rd)).
Local Abbreviation wr_at := (recv_wr_at n).

Lemma recv_owns_core g io F :
  holds m io resources F g ->
  (exists st, live g !! queue_pair rd = Some (OQp (protection_domain rd) (completion_queue rd) st)) /\
  live g !! completion_queue rd = Some (OCq (context rd)) /\
  live g !! mr_handle r =
    Some (OMr (protection_domain rd) (buffer rd) (n * MSG_SIZE) (lkey r)) /\
  live g !! mr_handle h =
    Some (OMr (protection_domain rd) (header_buffer rd) (n * 40) (lkey h)) /\
  live g !! buffer rd = Some (OBlock (n * MSG_SIZE)).
Proof.
  intros H. rewrite <- (buffer_size n Hn Hsize).
  assert (E40 : n * 40 = u64 (n * 40))
    by (symmetry; apply Z.mod_small; unfold MSG_SIZE, INT_MAX in *; lia).
  rewrite E40, (holds_live _ _ _ _ _ H). pose proof (holds_grown _ _ _ _ _ H) as Hg.
  repeat split; try exists IBV_QPS_RTR; (eapply removed_lookup; [|exact Hg]);
    unfold resources, endpoint, core; rewrite Hmr, Hhmr;
    cbn [app region_owned z_buffer z_header server_sizes]; removal.
Qed.

Lemma recv_slot_range k : 0 <= k mod n < n.
Proof. by apply Z.mod_pos_bound. Qed.

Lemma header_sge k :
  sge_at (2 * (k mod n)) =
    {| sge_addr := header_buffer rd + (k mod n) * 40; sge_length := 40; sge_lkey := lkey h |}.
Proof.
  pose proof (recv_slot_range k). unfold recv_sge_at. rewrite Z.even_mul, Z.mul_comm, Z.div_mul by lia.
  cbn [Z.even orb recv_buffer_at rb_header_buffer]. f_equal. apply Z.mod_small.
  change sizeof_ib_grh with 40. lia.
Qed.

Lemma data_sge k :
  sge_at (2 * (k mod n) + 1) =
    {| sge_addr := buffer rd + (k mod n) * MSG_SIZE; sge_length := MSG_SIZE; sge_lkey := lkey r |}.
Proof.
  pose proof (recv_slot_range k). unfold recv_sge_at. rewrite Z.even_add, Z.even_mul.
  replace ((2 * (k mod n) + 1) / 2) with (k mod n) by (apply Z.div_unique with 1; lia).
  cbn [Z.even orb Bool.eqb recv_buffer_at rb_data_buffer]. f_equal. apply Z.mod_small.
  unfold MSG_SIZE in *. nia.
Qed.

Lemma recv_slot_entries k : entries_of sgl (wr_at (k mod n)) = w_sges (slot_work k).
Proof.
  pose proof (recv_slot_range k) as Hk. cbn. unfold sg_entries. rewrite Hsg.
  assert (Hl : forall i, 0 <= i < 2 * n -> (sge_at <$> seqZ 0 (2 * n)) !! Z.to_nat i = Some (sge_at i)).
  { intros i Hi. pose proof (lookup_fmap_seqZ sge_at (2 * n) i Hi) as Hl. unfold nthZ in Hl.
    by rewrite (proj2 (Z.leb_le _ _)) in Hl by lia. }
  cbn [r_sg_list r_num_sge recv_wr_at].
  rewrite (drop_S _ _ _ (Hl (2 * (k mod n)) ltac:(lia))).
  replace (S (Z.to_nat (2 * (k mod n)))) with (Z.to_nat (2 * (k mod n) + 1)) by lia.
  by rewrite (drop_S _ _ _ (Hl (2 * (k mod n) + 1) ltac:(lia))).
Qed.

Lemma recv_slot_inj k k' : k mod n = k' mod n -> - n < k - k' < n -> k = k'.
Proof.
  intros E Hk. assert (Hd : (k - k') mod n = 0)
    by (rewrite Zminus_mod, E, Z.sub_diag; apply Z.mod_0_l; lia).
  apply Z.mod_divide in Hd as [q Hq]; [|lia]. assert (q = 0) by nia. lia.
Qed.

(** The first byte of a completed slot is not the card's. *)
Lemma recv_card_owns_other a b c :
  a <= b <= c -> c - a < n ->
  card_owns (slot_work <$> seqZ a (b - a)) (buffer rd + (c mod n) * MSG_SIZE) 1 = false.
Proof.
  intros Hab Hc. unfold card_owns. apply not_true_iff_false. rewrite existsb_exists.
  intros (w & Hw & Hov). apply list_elem_of_In, list_elem_of_fmap in Hw as (k & -> & Hk).
  apply elem_of_seqZ in Hk. cbn [slot_work w_sges existsb] in Hov.
  rewrite header_sge, data_sge in Hov. unfold overlaps in Hov. cbn [sge_addr sge_length] in Hov.
  assert (k mod n <> c mod n) by (intros E%recv_slot_inj; lia).
  pose proof (recv_slot_range k). pose proof (recv_slot_range c).
  rewrite orb_false_r, orb_true_iff, !andb_true_iff, !Z.ltb_lt in Hov. unfold MSG_SIZE in *. nia.
Qed.

Lemma recv_slot_wr_id k : u64 (k mod n) = k mod n.
Proof. pose proof (recv_slot_range k). apply Z.mod_small. unfold MSG_SIZE, INT_MAX in *. lia. Qed.

(** The requests that post receives [b], ..., [c - 1]. *)
Definition carries (b c : Z) (l : list (ibv_recv_wr * list ibv_sge)) : Prop :=
  (fun x : ibv_recv_wr * list ibv_sge => (set_next None x.1, x.2)) <$> l =
    unlinked sgl ∘ wr_at <$> ring_indexes n (b mod n) (c - b).

Lemma recv_carries_work b c l : carries b c l -> recv_work <$> l = slot_work <$> seqZ b (c - b).
Proof.
  intros Hl. rewrite (posted_map recv_work sgl wr_at n b (c - b) l); [|lia|done|done].
  apply list_fmap_ext. intros _ k _. unfold recv_work. cbn [fst snd].
  rewrite recv_slot_entries. cbn [r_wr_id recv_wr_at]. by rewrite recv_slot_wr_id.
Qed.

Lemma recv_carries_allowed b c l g io F :
  carries b c l -> holds m io resources F g -> rules _ g (Post_recv (queue_pair rd) l) = [].
Proof.
  intros Hl H. destruct (recv_owns_core _ _ _ H) as ([st Hqp] & _ & Hmr' & Hhmr' & _).
  cbn [rules]. unfold is_qp. rewrite Hqp.
  set (P := fun w : ibv_recv_wr * list ibv_sge => forallb (registered (live g)) w.2).
  replace (forallb P l) with true; [done|].
  pose proof (posted_map P sgl wr_at n b (c - b) l Hn ltac:(done) Hl) as E.
  rewrite <- forallb_fmap, E. symmetry. apply forallb_fmap_true. intros k. unfold P.
  cbn [fst snd]. rewrite recv_slot_entries. cbn [forallb slot_work w_sges]. rewrite header_sge, data_sge.
  pose proof (recv_slot_range k).
  rewrite (registered_spec _ (mr_handle h) (protection_domain rd) (header_buffer rd) (n * 40));
    [|done|cbn; nia|cbn; nia].
  rewrite (registered_spec _ (mr_handle r) (protection_domain rd) (buffer rd) (n * MSG_SIZE));
    [done|done| |]; cbn [sge_addr sge_length]; unfold MSG_SIZE in *; nia.
Qed.

(** Posting is the abstract server's submission of what was accepted. *)
Lemma server_post_trail a c b e l res g :
  carries b e l -> 0 <= b <= e -> e <= c + n -> (res.2 <= Z.to_nat (e - b))%nat ->
  behaves (server_spec n datagram) server_start t0 g
    {| completed := a; reported := c; submitted := b; stopped := false |} ->
  behaves (server_spec n datagram) server_start t0 (nic_next _ g (Post_recv (queue_pair rd) l) res)
    {| completed := a; reported := c; submitted := b + Z.of_nat res.2; stopped := false |}.
Proof.
  intros Hl Hbe He Hp Ht.
  eapply behaves_step; [exact Ht|apply (spec_submit n datagram a c b (Z.of_nat res.2)); lia|].
  cbn [nic_next trail trail_next]. do 3 f_equal.
  pose proof (recv_carries_work b e l Hl) as E. apply (f_equal (fmap w_id)) in E.
  rewrite <- !list_fmap_compose in E.
  change (w_id ∘ recv_work) with (fun w : ibv_recv_wr * list ibv_sge => r_wr_id w.1) in E.
  rewrite fmap_take, E, <- fmap_take, take_seqZ by lia. done.
Qed.

Lemma server_post_recvs_spec a c b e s g Q :
  posted a c b false g -> s_rdma s = rd -> 0 <= c <= a -> a <= b -> b < e <= c + n ->
  (forall v p g', 0 <= p <= e - b -> posted a c (b + p) false g' -> (v = 0 -> p = e - b) ->
     Q (Done v s) g') ->
  wpn (in_rdma (post_recvs (b mod n) (e - b)) s) Q g.
Proof.
  intros (H & Ha & Hi & Ht) Hs Hca Hab Hbc HQ. apply wp_zoom. rewrite Hs.
  eapply (wp_post_recvs _ _ _ n wr_at); try done.
  - apply recv_slot_range.
  - lia.
  - unfold MSG_SIZE, INT_MAX in *. lia.
  - intros l res Hl [Hlen Hok]. fold (carries b e l) in Hl.
    assert (El : length l = Z.to_nat (e - b)).
    { apply (f_equal length) in Hl. unfold ring_indexes in Hl.
      rewrite !length_fmap, length_seqZ in Hl. exact Hl. }
    replace (zoomed _ _) with (Done (if res.1 =? 0 then 0 else -1) s : outcome server Z)
      by (cbn; f_equal; destruct s; cbn in *; by subst).
    apply (HQ _ (Z.of_nat res.2)).
    + lia.
    + split; [|split; [exact Ha|split; [exact Hi|apply (server_post_trail a c b e l); try done; lia]]].
      pose proof H as (Hg & Hlive & HF & Hmis & Hio). injection Hio as Ho Htr.
      split; [done|]. split; [done|]. split; [by rewrite <- HF; apply app_nil_r|].
      split; [cbn [misuse nic_next]; by rewrite (recv_carries_allowed b e l g _ _ Hl H), Hmis|].
      cbn [outstanding transmitted nic_next outstanding_next transmitted_next].
      rewrite Ho, Htr, !fmap_take, (recv_carries_work b e l Hl).
      rewrite <- !fmap_take, take_seqZ by lia. rewrite <- !fmap_app. do 2 f_equal.
      replace (b + Z.of_nat res.2 - a) with ((b - a) + Z.of_nat res.2) by lia.
      rewrite (seqZ_app a) by lia. f_equal. f_equal. lia.
    + destruct (Z.eqb_spec res.1 0) as [E|]; [|done]. intros _. specialize (Hok E). lia.
Qed.

Lemma posted_quiet a c b f g g' :
  posted a c b f g -> live g' = live g -> failed g' = failed g -> misuse g' = misuse g ->
  outstanding g' = outstanding g -> transmitted g' = transmitted g ->
  arrived g' = arrived g -> incoming g' = incoming g -> trail g' = trail g -> posted a c b f g'.
Proof.
  unfold posted, holds, behaves. by intros [(? & ? & ? & ? & ?) ?] -> -> -> -> -> -> -> ->.
Qed.

(** *** Delivery *)

(** Where the first byte of receive [k] is. *)
Definition slot_addr (k : Z) : Z := buffer rd + (k mod n) * MSG_SIZE.

Lemma store_at_other {A} (f : Z -> A) a l z :
  z < a \/ a + Z.of_nat (length l) <= z -> store_at f a l z = f z.
Proof.
  intros Hz. unfold store_at. destruct (Z.leb_spec a z); [|done].
  by rewrite lookup_ge_None_2 by lia.
Qed.

(** Scattering a datagram into slot [k]. *)
Lemma scatter_slot {A} (f : Z -> A) k l j :
  k mod n <> j mod n -> scatter f (w_sges (slot_work k)) l (slot_addr j) = f (slot_addr j).
Proof.
  intros Hkj. pose proof (recv_slot_range k). pose proof (recv_slot_range j).
  cbn [slot_work w_sges]. rewrite header_sge, data_sge. cbn [scatter sge_addr sge_length].
  unfold slot_addr. rewrite !store_at_other; [done| |]; rewrite length_take, ?length_drop;
    unfold MSG_SIZE in *; nia.
Qed.

Lemma scatter_first {A} (f : Z -> A) k l x :
  head (drop 40 l) = Some x -> scatter f (w_sges (slot_work k)) l (slot_addr k) = x.
Proof.
  intros Hx. cbn [slot_work w_sges]. rewrite header_sge, data_sge.
  cbn [scatter sge_addr sge_length]. change (Z.to_nat 40) with 40%nat.
  unfold store_at at 1. fold (slot_addr k). rewrite Z.leb_refl, Z.sub_diag.
  destruct (drop 40 l) as [|y l']; [done|]. injection Hx as ->. unfold MSG_SIZE. done.
Qed.

Lemma deliver_other {A} (of_byte : Z -> A) k a p wcs f j :
  (forall i, a <= i < a + Z.of_nat (length wcs) -> i mod n <> j mod n) ->
  deliver of_byte inc k (slot_work <$> seqZ a p) wcs f (slot_addr j) = f (slot_addr j).
Proof.
  revert k a p f. induction wcs as [|w wcs IH]; intros k a p f Hj; [by destruct (slot_work <$> seqZ a p)|].
  destruct (decide (0 < p)); [|by rewrite seqZ_nil by lia].
  rewrite seqZ_cons by lia. cbn [fmap list_fmap deliver slot_work w_recv].
  rewrite IH by (intros i Hi; apply Hj; cbn [length]; lia).
  destruct (decide _); [|done]. apply scatter_slot, Hj. cbn [length]. lia.
Qed.

Lemma deliver_first {A} (of_byte : Z -> A) k a p wcs f i w x :
  Z.of_nat (length wcs) <= p <= n -> wcs !! i = Some w -> wc_status w = IBV_WC_SUCCESS ->
  first_byte (inc (k + i)%nat) = Some x ->
  deliver of_byte inc k (slot_work <$> seqZ a p) wcs f (slot_addr (a + Z.of_nat i)) = of_byte x.
Proof.
  revert k a p f i. induction wcs as [|w' wcs IH]; intros k a p f i Hp Hw Hs Hx; [done|].
  cbn [length] in Hp. rewrite seqZ_cons by lia. cbn [fmap list_fmap deliver slot_work w_recv].
  destruct i as [|i].
  - injection Hw as ->. rewrite decide_True by done. rewrite Z.add_0_r.
    rewrite deliver_other by (intros i Hi E; apply recv_slot_inj in E; lia).
    rewrite Nat.add_0_r in Hx. apply scatter_first.
    unfold first_byte in Hx. rewrite <- fmap_drop.
    destruct (drop 40 (inc k)) as [|y l]; [done|]. by injection Hx as ->.
  - replace (a + Z.of_nat (S i)) with (Z.succ a + Z.of_nat i) by lia.
    replace (k + S i)%nat with (S k + i)%nat in Hx by lia. apply IH; try done. lia.
Qed.

Lemma completions_length k a p wcs i w :
  completions_ok inc k (slot_work <$> seqZ a p) wcs -> Z.of_nat (length wcs) <= p ->
  wcs !! i = Some w -> wc_status w = IBV_WC_SUCCESS ->
  wc_byte_len w = Z.of_nat (length (inc (k + i)%nat)).
Proof.
  revert k a p i. induction wcs as [|w' wcs IH]; intros k a p i Hc Hp Hw Hs; [done|].
  cbn [length] in Hp. rewrite seqZ_cons in Hc by lia.
  cbn [fmap list_fmap completions_ok slot_work w_recv] in Hc. destruct Hc as [H1 Hc].
  destruct i as [|i].
  - injection Hw as ->. rewrite Nat.add_0_r. by apply H1.
  - replace (k + S i)%nat with (S k + i)%nat by lia. eapply (IH (S k)); [exact Hc|lia|done|done].
Qed.

(** The completions [wcs] are those of receives [c], [c + 1], ...; what succeeded
    has its datagram's length, and its first byte is in its slot. *)
Definition delivered (c : Z) (wcs : list ibv_wc) (g : nic) : Prop :=
  forall i w, wcs !! i = Some w -> wc_status w = IBV_WC_SUCCESS ->
    let d := datagram (c + Z.of_nat i) in
    wc_byte_len w = Z.of_nat (length d) /\
    (forall x, first_byte d = Some x ->
       known g (slot_addr (c + Z.of_nat i)) = true /\ mem g (slot_addr (c + Z.of_nat i)) = x).

Lemma delivered_tail c w wcs g : delivered c (w :: wcs) g -> delivered (c + 1) wcs g.
Proof.
  intros H i w' Hw. specialize (H (S i) w' Hw).
  by replace (c + 1 + Z.of_nat i) with (c + Z.of_nat (S i)) by lia.
Qed.

Lemma delivered_quiet c wcs g g' :
  delivered c wcs g -> mem g' = mem g -> known g' = known g -> delivered c wcs g'.
Proof. unfold delivered. by intros H -> ->. Qed.

(** *** Reports *)

Local Abbreviation spec_state a c b f :=
  {| completed := a; reported := c; submitted := b; stopped := f |}.

Lemma posted_print a c b c' f out g :
  posted a c b false g ->
  server_spec n datagram (spec_state a c b false) (EPrint out) (spec_state a c' b f) ->
  posted a c' b f (nic_next _ g (VPrintf out) tt).
Proof.
  intros (H & Ha & Hi & Ht) Hstep. split; [|split; [done|split; [done|]]].
  - destruct H as (Hg & Hl & HF & Hmis & Hio). split; [done|]. split; [done|].
    split; [by rewrite <- HF; apply app_nil_r|]. split; [by rewrite <- Hmis; apply app_nil_r|done].
  - eapply behaves_step; [exact Ht|exact Hstep|done].
Qed.

Lemma load_slot a c b g x (g' := nic_next _ g (Load_char (slot_addr c)) x) :
  posted a c b false g -> 0 <= c < a -> a <= b <= c + n ->
  posted a c b false g' /\ mem g' = mem g /\ known g' = known g.
Proof.
  intros H Hc Hab. split; [|done]. pose proof (recv_slot_range c) as Hs.
  eapply posted_quiet; [exact H|done|apply app_nil_r| |done|done|done|done|apply app_nil_r].
  destruct H as (H & _). destruct (recv_owns_core _ _ _ H) as (_ & _ & _ & _ & Hblk).
  pose proof H as (_ & _ & _ & _ & Hio). injection Hio as Ho _.
  cbn -[in_block card_owns]. unfold slot_addr.
  rewrite (in_block_spec _ (buffer rd) (n * MSG_SIZE)) by (done || (unfold MSG_SIZE in *; nia)).
  rewrite Ho. replace (c mod n) with ((c + n) mod n)
    by (rewrite <- (Z.mul_1_l n) at 1; apply Z.mod_add; lia).
  rewrite recv_card_owns_other by lia. apply app_nil_r.
Qed.

(** The oldest unreported receive is reported. *)
Lemma report_slot a c b w wcs g x
    (g1 := nic_next _ g (Load_char (slot_addr c)) x)
    (g2 := nic_next _ g1 (VPrintf (report_line (wc_wr_id w) x (wc_byte_len w))) tt) :
  posted a c b false g -> delivered c (w :: wcs) g -> 0 <= c < a -> a <= b <= c + n ->
  wc_wr_id w = c mod n -> (known g (slot_addr c) = true -> x = mem g (slot_addr c)) ->
  posted a (c + 1) b (bool_decide (wc_status w <> IBV_WC_SUCCESS)) g2 /\
  delivered (c + 1) wcs g2.
Proof.
  intros H Hd Hc Hab Hid Hx. destruct (load_slot a c b g x H Hc Hab) as (H1 & Hm1 & Hk1).
  split; [|by apply (delivered_tail c w wcs), Hd]. apply (posted_print _ c); [exact H1|]. rewrite Hid.
  case_bool_decide as Hst.
  - apply spec_stop. lia.
  - destruct (Hd 0%nat w eq_refl Hst) as [-> Hfirst].
    rewrite Z.add_0_r in *. apply spec_report; [lia|]. intros y Hy.
    destruct (Hfirst y Hy) as [Hk <-]. by apply Hx.
Qed.

Lemma report_completed_spec a b c wcs s g Q :
  posted a c b false g -> delivered c wcs g -> 0 <= c -> c + Z.of_nat (length wcs) = a ->
  a <= b <= c + n -> wc_wr_id <$> wcs = ring_ids n c (Z.of_nat (length wcs)) ->
  (forall c' g', posted a c' b true g' -> Q (Done (Some EXIT_FAILURE) s) g') ->
  (forall g', posted a a b false g' -> Q (Done None s) g') ->
  wpn (report_completed result wcs s) Q g.
Proof.
  revert c g. induction wcs as [|w wcs IH]; intros c g H Hd Hc Ha Hab Hids HF HD.
  { cbn [length] in Ha. rewrite Z.add_0_r in Ha. subst c. by apply HD. }
  cbn [report_completed length] in *. unfold ring_ids in Hids. rewrite (seqZ_cons c) in Hids by lia.
  rewrite !fmap_cons in Hids. injection Hids as Hid Hids.
  replace (Z.pred (Z.of_nat (S (length wcs)))) with (Z.of_nat (length wcs)) in Hids by lia.
  replace (Z.succ c) with (c + 1) in Hids by lia.
  rewrite Hid, Hres, lookup_fmap_seqZ by apply recv_slot_range.
  apply wp_bind. cbn [defined ret wp continue recv_buffer_at rb_data_buffer].
  fold (slot_addr c). apply wp_bind. intros x Hx. cbn [continue]. apply wp_bind. intros [] _. cbn [continue].
  rewrite <- Hid. destruct (report_slot a c b w wcs g x H Hd ltac:(lia) ltac:(lia) Hid Hx) as [H2 Hd2].
  revert H2 Hd2. cbn [gnext NicEnv].
  generalize (nic_next _ (nic_next _ g (Load_char (slot_addr c)) x)
    (VPrintf (report_line (wc_wr_id w) x (wc_byte_len w))) tt).
  clear g H Hd Hx. intros g H Hd. case_bool_decide.
  - apply wp_quiet_call; [intros y; by apply nic_next_quiet|]. intros text _.
    apply wp_quiet_call; [intros y; by apply nic_next_quiet|]. intros [] _. by eapply HF.
  - apply (IH (c + 1)); try done; lia.
Qed.

(** *** Polling *)

Lemma filter_receives (l : list Z) : filter (fun w => w_recv w = true) (slot_work <$> l) = slot_work <$> l.
Proof.
  induction l as [|k l IH]; [done|]. rewrite fmap_cons, filter_cons_True by done. by f_equal.
Qed.

Lemma poll_delivers a b g x (g' := nic_next _ g (Poll_cq (completion_queue rd) 10) x) :
  posted a a b false g -> 0 <= a <= b -> b <= a + n -> 0 <= x.1 -> Z.of_nat (length x.2) <= b - a ->
  completions_ok (incoming g) (arrived g) (slot_work <$> seqZ a (b - a)) x.2 -> delivered a x.2 g'.
Proof.
  intros (H & Ha & Hi & _) Hab Hbn Hx Hlen Hc i w Hw Hst.
  destruct H as (_ & _ & _ & _ & Hio). injection Hio as Ho _. rewrite Hi in Hc. cbn zeta.
  assert (Ed : datagram (a + Z.of_nat i) = inc (arrived g + i)%nat).
  { unfold datagram. rewrite Ha. f_equal. lia. }
  rewrite Ed. split; [by eapply completions_length|]. intros y Hy.
  unfold g'. cbn [nic_next mem known mem_next known_next]. rewrite (proj2 (Z.ltb_ge _ _)) by lia.
  rewrite Ho, Hi. split.
  - by apply (deliver_first (fun _ => true) _ _ _ _ _ i w y); [lia|..].
  - by apply (deliver_first (fun b => b) _ _ _ _ _ i w y); [lia|..].
Qed.

Lemma server_poll_spec a b g x (g' := nic_next _ g (Poll_cq (completion_queue rd) 10) x) :
  posted a a b false g -> 0 <= a <= b -> b <= a + n ->
  poll_ok (incoming g) (arrived g) (outstanding g) 10 x ->
  x.1 < 0 /\ posted a a b false g' \/
  exists ne, x.1 = Z.of_nat ne /\ Z.of_nat ne <= b - a /\ length x.2 = ne /\
    wc_wr_id <$> x.2 = ring_ids n a (Z.of_nat ne) /\ posted (a + Z.of_nat ne) a b false g' /\
    delivered a x.2 g'.
Proof.
  intros Hp Hab Hbn Hx. pose proof Hp as (H & Ha & Hi & Ht).
  destruct (poll_numbered m n slot_work [] resources [] (completion_queue rd) (context rd) a b g x)
    as [[Hneg H']|(ne & Hne & Hle & Hle2 & Hlen & Hids & Hcomp & H')];
    [done|by apply (recv_owns_core _ _ _ H)|done|lia|exact Hx| |].
  - left. split; [done|]. split; [exact H'|]. apply Z.ltb_lt in Hneg.
    unfold g'. cbn [nic_next arrived arrived_next incoming]. rewrite Hneg.
    split; [done|]. split; [done|]. eapply behaves_same; [|exact Ht].
    cbn [nic_next trail trail_next]. by rewrite Hneg, app_nil_r.
  - right. exists ne. repeat (split; [done|]). split; [|apply (poll_delivers a b); try done; lia].
    split; [exact H'|]. assert (Hpos : (x.1 <? 0) = false) by (apply Z.ltb_ge; lia).
    unfold g'. cbn [nic_next arrived arrived_next incoming]. rewrite Hpos. split; [|split; [done|]].
    + destruct H as (_ & _ & _ & _ & Hio). injection Hio as -> _.
      rewrite <- fmap_take, filter_receives, length_fmap, length_take, length_seqZ, Ha. lia.
    + eapply behaves_step; [exact Ht|apply (spec_complete n datagram a b (Z.of_nat ne)); lia|].
      cbn [nic_next trail trail_next]. by rewrite Hpos, Hids.
Qed.

(** ** The loop *)

(** At the top of the loop everything completed is reported, and the card owns
    every buffer, in ring order. *)
Definition loop_inv (s : server) (g : nic) : Prop :=
  exists a, 0 <= a /\ posted a a (a + n) false g /\ s_rdma s = rd.

(** When the loop is left. *)
Definition loop_done (code : Z) (s : server) (g : nic) : Prop :=
  (code = EXIT_SUCCESS \/ code = EXIT_FAILURE) /\ s_rdma s = rd /\
  exists a c b f, posted a c b f g /\ (code = EXIT_SUCCESS -> c = a /\ f = false).

Definition turn_post (o : outcome server (option Z)) (g : nic) : Prop :=
  match o with
  | Done None s => loop_inv s g
  | Done (Some code) s => loop_done code s g
  | _ => False
  end.

Lemma recv_quit_turn a c b f s g :
  posted a c b f g -> s_rdma s = rd -> turn_post (Done (Some EXIT_FAILURE) s) g.
Proof. intros H Hs. split; [by right|]. split; [done|]. by exists a, c, b, f. Qed.

Lemma recv_requeue_spec a b ne wc s g Q :
  posted a a b false g -> 0 <= a <= b -> b + Z.of_nat ne <= a + n ->
  s_rdma s = rd -> length wc = ne -> wc_wr_id <$> wc = ring_ids n b (Z.of_nat ne) ->
  (forall v p g', 0 <= p <= Z.of_nat ne -> posted a a (b + p) false g' ->
     (v = 0 -> p = Z.of_nat ne) -> Q (Done v s) g') ->
  wpn (requeue (Z.of_nat ne) wc s) Q g.
Proof.
  intros H Hab Hn1 Hs Hlen Hids HQ. unfold requeue. destruct (Z.ltb_spec 0 (Z.of_nat ne)) as [Hne|Hne].
  - destruct wc as [|w wc]; [simpl in Hlen; lia|]. unfold ring_ids in Hids.
    rewrite (seqZ_cons b) in Hids by lia.
    injection Hids as Hid _. apply wp_bind. cbn [head defined ret wp continue].
    rewrite Hid, i32_small by (pose proof (recv_slot_range b); unfold MSG_SIZE, INT_MAX, INT_MIN in *; lia).
    replace (Z.of_nat ne) with (b + Z.of_nat ne - b) by lia.
    eapply server_post_recvs_spec; [exact H|done|lia|lia|lia|].
    intros v p g' Hp' H' Hv. apply (HQ v p); [lia|done|]. intros E. specialize (Hv E). lia.
  - apply (HQ 0 0); [lia| |lia]. by rewrite Z.add_0_r.
Qed.

(** From the completed requests to the end of the turn. *)
Lemma server_requests_spec a ne wc s g :
  posted (a + Z.of_nat ne) a (a + n) false g -> delivered a wc g -> 0 <= a -> Z.of_nat ne <= n ->
  s_rdma s = rd -> length wc = ne -> wc_wr_id <$> wc = ring_ids n a (Z.of_nat ne) ->
  wpn (bind (report_completed result (take (Z.to_nat (Z.of_nat ne)) wc)) (fun r =>
    match r with
    | Some code => ret (Some code)
    | None => bind (requeue (Z.of_nat ne) wc) (fun failed =>
        if negb (failed =? 0) then bind (eputs "Couldn't post receives") (fun _ => ret (Some EXIT_FAILURE))
        else ret None)
    end) s) turn_post g.
Proof.
  intros H Hd Ha Hle Hs Hlen Hids. rewrite Nat2Z.id, <- Hlen, firstn_all. rewrite <- Hlen in *.
  apply wp_bind. eapply report_completed_spec; [exact H|exact Hd|done|lia|lia|exact Hids| |].
  - intros c' g' H'. cbn [continue ret wp]. by eapply recv_quit_turn.
  - intros g' H'. cbn [continue]. apply wp_bind.
    assert (Hids' : wc_wr_id <$> wc = ring_ids n (a + n) (Z.of_nat (length wc))).
    { rewrite Hids. unfold ring_ids. replace (a + n) with (n + a) by lia. rewrite <- (fmap_add_seqZ n a).
      rewrite <- list_fmap_compose. apply list_fmap_ext. intros _ k _. unfold compose.
      rewrite <- (Z.mul_1_l n) at 2. rewrite Z.add_comm. symmetry. apply Z.mod_add. lia. }
    eapply (recv_requeue_spec _ (a + n)); [exact H'|lia|lia|done|done|exact Hids'|].
    intros v p g2 Hp2 H2 Hv. cbn [continue]. destruct (Z.eqb_spec v 0) as [E|E]; cbn [negb].
    + specialize (Hv E). subst p. eexists. split; [|split; [|exact Hs]]; [|].
      2: { replace (a + n + Z.of_nat (length wc)) with (a + Z.of_nat (length wc) + n) in H2 by lia.
           exact H2. }
      lia.
    + apply wp_quiet_call; [intros z; by apply nic_next_quiet|]. intros [] _.
      by eapply recv_quit_turn.
Qed.

Lemma server_turn_spec s g : loop_inv s g -> wpn (server_turn result s) turn_post g.
Proof.
  intros (a & Ha & H & Hs). unfold server_turn. apply wp_bind. cbn [wp continue gets]. rewrite Hs.
  apply wp_bind. intros x Hx. cbn [continue].
  destruct (server_poll_spec a (a + n) g x H ltac:(lia) ltac:(lia) Hx)
    as [[Hneg H1]|(ne & Hne & Hle & Hlen & Hids & H1 & Hd)];
    destruct x as [rc wc]; cbn [fst snd] in *; [clear H Hx; rename H1 into H|revert H1 Hd];
    cbn [gnext NicEnv].
  - cbn [wp continue]. rewrite (proj2 (Z.ltb_lt _ _) Hneg).
    apply wp_quiet_call; [intros y; by apply nic_next_quiet|]. intros [] _.
    by eapply recv_quit_turn.
  - generalize (nic_next _ g (Poll_cq (completion_queue rd) 10) (rc, wc)). clear g H Hx. intros g H Hd.
    subst rc. cbn [wp continue]. rewrite (proj2 (Z.ltb_ge _ _)) by lia.
    apply wp_bind. pose proof (server_requests_spec a ne wc s g H Hd Ha ltac:(lia) Hs Hlen Hids) as Hrest.
    destruct (Z.of_nat ne =? 0); intros [] _; cbn [continue gnext NicEnv];
      by rewrite nic_next_quiet.
Qed.

Lemma server_body_spec s g : loop_inv s g -> wpn (server_body result s) turn_post g.
Proof.
  intros (a & Ha & H & Hs). unfold server_body, server_loop_test.
  apply wp_bind, wp_bind. intros del _. cbn [continue gnext NicEnv].
  assert (H1 : posted a a (a + n) false (nic_next _ g VSigint del)).
  { by eapply posted_quiet; [exact H|done|apply app_nil_r|apply app_nil_r|done|done|done|done|apply app_nil_r]. }
  revert H1. generalize (nic_next _ g VSigint del). clear g H. intros g H. apply wp_bind.
  assert (Hquit : forall s', s_rdma s' = rd -> loop_done EXIT_SUCCESS s' g).
  { intros s' Hs'. split; [by left|]. split; [done|]. by eexists a, a, (a + n), false. }
  destruct del; cbn [modify ret wp continue gets].
  - change (server_loop (stop_loop s)) with 0. cbn [Z.eqb negb]. by apply Hquit.
  - destruct (server_loop s =? 0); cbn [negb]; [by apply Hquit|].
    apply server_turn_spec. by exists a.
Qed.

(** ** From the first receive to cleanup *)

(** What was seen is the abstract server's doing, from its start; when [all],
    everything that was completed is reported. *)
Definition observed (all : Prop) (g : nic) : Prop :=
  exists st, behaves (server_spec n datagram) server_start t0 g st /\
    (all -> reported st = completed st /\ stopped st = false).

Definition complete_run (o : outcome server Z) : Prop :=
  match o with Done code _ => code = EXIT_SUCCESS | NoFuel _ => True | _ => False end.

Definition run_post (o : outcome server Z) (g : nic) : Prop :=
  misuse g = [] /\ observed (complete_run o) g /\
  match o with
  | Done code _ => (code = EXIT_SUCCESS \/ code = EXIT_FAILURE) /\ live g = m /\ failed g = []
  | Exit c _ => c = EXIT_FAILURE /\ FRelease ∈ failed g
  | NoFuel _ => exists a, 0 <= a /\ outstanding g = slot_work <$> seqZ a n
  | Undef _ => False
  end.

Lemma recv_run_end code a c b f s g :
  code = EXIT_SUCCESS \/ code = EXIT_FAILURE -> s_rdma s = rd -> posted a c b f g ->
  (code = EXIT_SUCCESS -> c = a /\ f = false) ->
  wpn (bind (call (Free (arr_ptr result))) (fun _ =>
       bind (in_rdma rdma_cleanup) (fun _ => ret code)) s) run_post g.
Proof.
  intros Hcode Hs H Hall. apply wp_bind. intros [] Hleg. cbn [continue].
  destruct H as (H & _ & _ & Ht).
  apply (behaves_same _ _ _ g (nic_next _ g (Free (arr_ptr result)) tt)) in Ht; [|apply app_nil_r].
  assert (H1 : holds m (slot_work <$> seqZ a (b - a), []) (endpoint rd IBV_QPS_RTR (server_sizes n) []) []
    (nic_next _ g (Free (arr_ptr result)) tt)).
  { eapply holds_free; [done|exact H|unfold resources, endpoint; removal|].
    apply (closed_endpoint rd IBV_QPS_RTR (server_sizes n) []). constructor. }
  revert Ht H1. cbn [gnext NicEnv]. generalize (nic_next _ g (Free (arr_ptr result)) tt).
  clear g H Hleg. intros g Ht H. apply wp_bind, wp_zoom. rewrite Hs.
  eapply wp_mono; [apply (wp_quietly sigint); [apply calls_rdma_cleanup|];
    apply (rdma_cleanup_spec sigint m (slot_work <$> seqZ a (b - a), []) Hm [] IBV_QPS_RTR
      (server_sizes n) [] r)|];
    [constructor|done|by rewrite Hhmr|exact H|].
  intros o g' [Ho (Hu & _)]. apply (behaves_same _ _ _ _ _ _ Hu) in Ht.
  destruct o as [[] s'|c' s'|w|s']; [| |done|done]; cbn [zoomed continue ret wp].
  - destruct Ho as [_ (_ & Hl & HF & Hmis & _)]. split; [done|]. split; [by eexists|done].
  - destruct Ho as (-> & _ & l & (_ & _ & HF & Hmis & _)). split; [done|]. split; [by eexists|].
    split; [done|]. rewrite HF. by left.
Qed.

Lemma server_run_spec fuel s g :
  n = completion_queue_size -> posted 0 0 0 false g -> s_rdma s = rd ->
  wpn (server_run fuel result s) run_post g.
Proof.
  intros Hn100 H Hs. unfold server_run. rewrite <- Hn100. apply wp_bind.
  replace (post_recvs 0 n) with (post_recvs (0 mod n) (n - 0))
    by (rewrite Z.mod_0_l by lia; f_equal; lia).
  eapply server_post_recvs_spec; [exact H|done|lia|lia|lia|].
  clear g H. intros v p g Hp H Hv. cbn [continue]. apply wp_bind.
  destruct (Z.eqb_spec v 0) as [E|E]; cbn [negb].
  - specialize (Hv E). rewrite Z.add_0_l in H. subst p.
    apply (wp_loop (fun _ => loop_inv)).
    + exists 0. rewrite Z.sub_0_r in H. done.
    + intros i s2 g2 Hi Hinv. eapply wp_mono; [by eapply server_body_spec|].
      intros o g3 Ho. destruct o as [[code|] s3|c s3|w|s3]; cbn [turn_post] in Ho; [|done..].
      destruct Ho as (Hcode & Hs3 & a & c & b & f & H3 & Hall). cbn [continue].
      by eapply recv_run_end.
    + intros s2 g2 (a & Ha & H2 & _). cbn [continue wp].
      destruct H2 as ((_ & _ & _ & Hmis & Hio) & _ & _ & Htr). injection Hio as Ho Ht.
      split; [done|]. split; [by eexists|]. exists a. split; [done|]. rewrite Ho. do 2 f_equal. lia.
  - apply wp_quiet_call; [intros y; by apply nic_next_quiet|]. intros [] _.
    cbn [continue ret wp]. by eapply recv_run_end; [right|..].
Qed.

End flight.

(** ** Properties *)

(** The witnesses instantiate the libraries with these. *)
#[local] Existing Instance text_example.
#[local] Existing Instance junk_example.

(** The datagrams the server will receive, by the number of the receive. *)
Definition to_come (g : nic) (k : Z) : list Z := incoming g (arrived g + Z.to_nat k)%nat.

(** The trail grew by a run of the abstract server. *)
Definition server_saw (g g' : nic) (all : Prop) : Prop :=
  observed completion_queue_size (trail g) (incoming g) (arrived g) all g'.

Lemma server_saw_nothing g g' all : trail g' = trail g -> server_saw g g' all.
Proof. intros E. exists server_start. split; [by apply behaves_start|done]. Qed.

Lemma server_main_spec `{!AddrText} `{!Junk} sigint fuel argv g :
  idle g -> transmitted g = [] ->
  nic_wp sigint (main fuel argv server0) (fun o g' =>
    server_saw g g' (complete_run o) /\
    match o with
    | Done code _ =>
        (code = EXIT_SUCCESS \/ code = EXIT_FAILURE) /\
        misuse g' = [] /\ live g' = live g /\ failed g' = []
    | Exit c s =>
        c = EXIT_FAILURE /\
        (FRelease ∉ failed g' ->
         init_leaves (live g) (u64 (u64 completion_queue_size * sizeof_recv_buffer)) (s_rdma s) g')
    | NoFuel _ =>
        misuse g' = [] /\
        exists a, 0 <= a /\
          w_id <$> outstanding g' = (fun k => k mod completion_queue_size) <$> seqZ a completion_queue_size
    | Undef _ => False
    end) g.
Proof.
  intros Hg Ht. unfold main.
  assert (Hclean : misuse g = [] /\ live g = live g /\ failed g = [])
    by (split; [apply Hg|]; split; [done|apply Hg]).
  assert (Hnone : forall all, server_saw g g all) by (intros all; by apply server_saw_nothing).
  destruct (length argv =? 2)%nat; cbn [negb].
  2: { apply wp_quiet_call; [intros y; by apply nic_next_quiet|]. intros [] _.
       split; [done|]. split; [by right|done]. }
  apply wp_quiet_call; [intros y; by apply nic_next_quiet|]. intros rc _.
  destruct (rc =? 0); cbn [negb].
  2: { apply wp_quiet_call; [intros y; by apply nic_next_quiet|]. intros [] _.
       split; [done|]. split; [by right|done]. }
  apply wp_bind, wp_zoom. eapply wp_mono.
  { apply (wp_quietly sigint); [apply calls_rdma_init_server|].
    apply (rdma_init_server_spec sigint (live g) ([], [])); [apply Hg|done|done|done|by repeat split|].
    pose proof (idle_holds g Hg) as Hi. destruct Hg as (_ & _ & Ho & _). by rewrite Ho, Ht in Hi. }
  intros o g' [Ho (Hu & Harr & Hinc)].
  destruct o as [result s|c s|w|s]; cbn [server_post zoomed] in *; [| |done|done].
  - destruct Ho as (r & h & Hown & Hmr & Hhmr & _ & _ & Hq & Hlow & Hhigh & Hlow' & Hhigh' & Hapart &
      Hres & Hsg & Hwrs).
    cbn [continue]. eapply wp_mono.
    { eapply (server_run_spec sigint (live g) completion_queue_size s result r h
        (trail g) (incoming g) (arrived g)); try done; [apply Hg|].
      split; [done|]. split; [by rewrite Nat.add_0_r|]. split; [done|]. by apply behaves_start. }
    clear. intros o g' (Hmis & Hsaw & Ho). split; [exact Hsaw|].
    destruct o as [code s'|c s'|w|s']; [| |done|].
    + destruct Ho as (Hcode & Hl & HF). done.
    + destruct Ho as [-> HF]. split; [done|]. by intros [].
    + destruct Ho as (a & Ha & Ho). split; [done|]. exists a. split; [done|]. rewrite Ho.
      rewrite <- list_fmap_compose. done.
  - destruct Ho as [-> Ho]. cbn [continue wp]. split; [by apply server_saw_nothing|]. split; [done|].
    intros HF. by eapply endpoint_failed_leaves.
Qed.

(** C10: the server, for every command line, signal schedule, and behaviour of
    the library and the card.  It never reads a buffer the card owns, and breaks
    no rule of the library (but for the one of [rdma_init]); each time it is
    about to test the loop flag all of its buffers are posted, in ring order.
    When main returns, every resource was released; when it exits, what is left
    is what [init_leaves] says, unless a release failed.  It has no undefined
    behaviour. *)
Theorem server_main_correct `{!AddrText} `{!Junk} sigint fuel argv g :
  idle g -> transmitted g = [] ->
  nic_wp sigint (main fuel argv server0) (fun o g' =>
    match o with
    | Done code _ =>
        (code = EXIT_SUCCESS \/ code = EXIT_FAILURE) /\
        misuse g' = [] /\ live g' = live g /\ failed g' = []
    | Exit c s =>
        c = EXIT_FAILURE /\
        (FRelease ∉ failed g' ->
         init_leaves (live g) (u64 (u64 completion_queue_size * sizeof_recv_buffer)) (s_rdma s) g')
    | NoFuel _ =>
        misuse g' = [] /\
        exists a, 0 <= a /\
          w_id <$> outstanding g' = (fun k => k mod completion_queue_size) <$> seqZ a completion_queue_size
    | Undef _ => False
    end) g.
Proof.
  intros Hg Ht. eapply wp_mono; [by apply server_main_spec|]. by intros o g' [_ Ho].
Qed.

Lemma server_main_correct_witness :
  nic_wp (Nat.eqb 2) (main 3 [[]; string_bytes "mlx5_0"] server0) (fun o g' =>
    forall w, o <> Undef w) nic0.
Proof.
  eapply wp_mono.
  - apply (server_main_correct (Nat.eqb 2) 3).
    + exact idle_nic0.
    + reflexivity.
  - intros o g' Ho w ->. exact Ho.
Defined.

(** C16: the server refines the abstract server: in every environment, what it is
    seen to do (the ids it posts, those it finds completed, the lines it prints)
    is a trace of [server_spec] on the datagrams to come.  In particular its
    receives are a bounded queue: submitted in order, at most
    [completion_queue_size] at a time, and completed in order. *)
Theorem server_refines_spec `{!AddrText} `{!Junk} sigint fuel argv g :
  idle g -> transmitted g = [] ->
  nic_wp sigint (main fuel argv server0) (fun _ g' =>
    exists t st, trail g' = trail g ++ t /\
      trace (server_spec completion_queue_size (to_come g)) server_start t st /\
      trace (fifo completion_queue_size) (0, 0) (filter no_print t) (completed st, submitted st)) g.
Proof.
  intros Hg Ht. eapply wp_mono; [by apply server_main_spec|].
  intros o g' [(st & (t & Htr & Hrun) & _) _]. exists t, st. split; [done|]. split; [done|].
  by apply server_spec_fifo in Hrun as [_ Hrun].
Qed.

Lemma server_refines_spec_witness :
  nic_wp (Nat.eqb 2) (main 3 [[]; string_bytes "mlx5_0"] server0) (fun _ g' =>
    exists t st, trail g' = t /\ trace (server_spec 100 (fun _ => [])) server_start t st) nic0.
Proof.
  eapply wp_mono.
  - apply (server_refines_spec (Nat.eqb 2) 3).
    + exact idle_nic0.
    + reflexivity.
  - intros o g' (t & st & E & Ht & _). exists t, st. split; [exact E|exact Ht].
Defined.

(** What the reports of a run are: one for each completed receive, but that
    after the report of a failed receive the server stops. *)
Lemma server_saw_reports g g' all :
  server_saw g g' all ->
  exists t k lines last, trail g' = trail g ++ t /\ printed_lines t = lines ++ last /\
    Forall2 (reports completion_queue_size (to_come g)) (seqZ 0 k) lines /\ 0 <= k /\
    (last = [] \/ exists byte len, last = [report_line (k mod completion_queue_size) byte len]) /\
    (all -> last = [] /\ completed_ids t = ring_ids completion_queue_size 0 k).
Proof.
  intros (st & (t & Htr & Hrun) & Hall).
  destruct (server_spec_reports _ _ _ _ Hrun) as (Hle & lines & last & Hp & Ho).
  destruct (server_spec_fifo _ _ _ _ Hrun) as [_ Hf]. apply fifo_trace in Hf as (_ & _ & _ & Hids); [|done].
  destruct (stopped st) eqn:Est.
  - destruct Ho as (Hlines & Hpos & Hlast). exists t, (reported st - 1), lines, last.
    split; [done|]. split; [done|]. split; [done|]. split; [lia|]. split; [by right|].
    by intros [_ E]%Hall.
  - destruct Ho as [Hlines ->]. exists t, (reported st), lines, [].
    split; [done|]. split; [done|]. split; [done|]. split; [lia|]. split; [by left|].
    intros [-> _]%Hall. split; [done|]. rewrite <- Hids. clear. induction t as [|e t IH]; [done|].
    unfold completed_ids in *. rewrite filter_cons. by destruct e; cbn; rewrite ?IH.
Qed.

(** What the server prints: a line for each completed receive, in order.  The
    line of the [k]-th receive shows its slot, the length of its datagram with
    its 40-byte header, and the first byte of the payload, if there is any.  Only
    the last line can be that of a failed receive, whose byte and length mean
    nothing; when main returns EXIT_SUCCESS there is no such line, and every
    receive that was found completed is reported. *)
Theorem server_reports `{!AddrText} `{!Junk} sigint fuel argv g :
  idle g -> transmitted g = [] ->
  nic_wp sigint (main fuel argv server0) (fun o g' =>
    exists t k lines last, trail g' = trail g ++ t /\ printed_lines t = lines ++ last /\
      Forall2 (reports completion_queue_size (to_come g)) (seqZ 0 k) lines /\ 0 <= k /\
      (last = [] \/ exists byte len, last = [report_line (k mod completion_queue_size) byte len]) /\
      match o with
      | Done code _ => code = EXIT_SUCCESS ->
          last = [] /\ completed_ids t = ring_ids completion_queue_size 0 k
      | _ => True
      end) g.
Proof.
  intros Hg Ht. eapply wp_mono; [by apply server_main_spec|]. intros o g' [Hsaw _].
  apply server_saw_reports in Hsaw as (t & k & lines & last & Htr & Hp & Hl & Hk & Hlast & Hall).
  exists t, k, lines, last. repeat (split; [done|]). by destruct o.
Qed.

Lemma server_reports_witness :
  nic_wp (Nat.eqb 2) (main 3 [[]; string_bytes "mlx5_0"] server0) (fun o g' =>
    exists k lines last, printed_lines (trail g') = lines ++ last /\
      Forall2 (reports 100 (fun _ => [])) (seqZ 0 k) lines) nic0.
Proof.
  eapply wp_mono.
  - apply (server_reports (Nat.eqb 2) 3).
    + exact idle_nic0.
    + reflexivity.
  - intros o g' (t & k & lines & last & E & Hp & Hl & _). exists k, lines, last.
    rewrite E. split; [exact Hp|exact Hl].
Defined.
