(* ===== verification/ClientServer.v ===== *)
(** The client's messages, as the server reports them.

    The two programs are composed through the network alone: the datagrams the
    server's card delivers are some of those the client handed over, each after
    a 40-byte global routing header, in an order ([pick]) the network chooses;
    unreliable datagrams may be lost or overtake each other. *)
From S2P Require Import Prelude CInt CLib RawPacket Prog Posix Verbs VerbsRules.
From S2P Require Import Rdma RdmaRing RdmaResources QueueSpec.
From S2P Require RdmaClient RdmaServer.
Local Open Scope Z_scope.

(** The server's receive [k] brings transmission number [pick k], if the client
    made that many. *)
Definition network (sent : list transmit) (pick : Z -> nat) (g : nic) : Prop :=
  forall k t, 0 <= k -> sent !! pick k = Some t ->
    exists hdr, length hdr = 40%nat /\ RdmaServer.to_come g k = hdr ++ t_data t.

(** The line for message number [j], received as number [k]. *)
Definition message_line (k j : Z) : list Z :=
  string_bytes "Message for WR #" ++ fmt_d (k mod 100) ++ string_bytes ": index #" ++
  fmt_d (RdmaServer.i8 j) ++ string_bytes " size: 8980 bytes" ++ [10].

Lemma message_line_report k j :
  RdmaServer.report_line (k mod RdmaServer.completion_queue_size) (u8 j) (40 + MSG_SIZE) =
    message_line k j.
Proof.
  unfold RdmaServer.report_line, message_line. change RdmaServer.completion_queue_size with 100.
  assert (E1 : RdmaServer.i64 (k mod 100) = k mod 100).
  { unfold RdmaServer.i64. pose proof (Z.mod_pos_bound k 100). rewrite Z.mod_small by lia. lia. }
  assert (E2 : RdmaServer.i8 (u8 j) = RdmaServer.i8 j).
  { unfold RdmaServer.i8, u8. change (2 ^ 8) with 256. by rewrite Z.add_mod_idemp_l by lia. }
  by rewrite E1, E2.
Qed.

(** A report of a receive that brought a message is its line. *)
Lemma reports_message sent ah qpn pick g k line c :
  sent = RdmaClient.numbered_message RdmaClient.completion_queue_size ah qpn <$> seqZ 0 c ->
  network sent pick g -> 0 <= k -> (pick k < length sent)%nat ->
  RdmaServer.reports RdmaServer.completion_queue_size (RdmaServer.to_come g) k line ->
  line = message_line k (Z.of_nat (pick k)).
Proof.
  intros Hsent Hnet Hk Hpick (byte & Hbyte & ->).
  destruct (lookup_lt_is_Some_2 _ _ Hpick) as [t Ht]. destruct (Hnet k t Hk Ht) as (hdr & Hlen & Hd).
  rewrite Hsent, list_lookup_fmap in Ht. apply fmap_Some in Ht as (j & Hj & ->).
  apply lookup_seqZ in Hj as [-> _]. rewrite Hd in *.
  rewrite Z.add_0_l in *. rewrite (Hbyte (u8 (Z.of_nat (pick k)))).
  - rewrite length_app, Hlen, <- message_line_report. unfold RdmaClient.numbered_message. cbn [t_data].
    by rewrite length_replicate.
  - unfold RdmaServer.first_byte. rewrite drop_app_length' by done. done.
Qed.

(** The witnesses instantiate the libraries with these. *)
#[local] Existing Instance text_example.
#[local] Existing Instance junk_example.

(** C11: client and server together.  Run the client in any environment, and then
    the server in any environment whose network delivers, in any order, messages
    the client handed over: for each of its receives that brought one, the server
    prints the line "Message for WR #i: index #b size: 8980 bytes", where [i] is
    the slot of the receive and [b] the number of the client's message modulo 256,
    as a signed char.  Lines come in the order of the receives, one for each. *)
Theorem server_reports_messages `{!AddrText} `{!Junk} sigc sigs fuelc fuels argvc argvs gc :
  idle gc -> transmitted gc = [] ->
  RdmaClient.completion_queue_size + 10 * Z.of_nat fuelc <= INT_MAX ->
  nic_wp sigc (RdmaClient.main fuelc argvc RdmaClient.client0) (fun _ gc' =>
    forall pick gs, idle gs -> transmitted gs = [] -> network (transmitted gc') pick gs ->
    nic_wp sigs (RdmaServer.main fuels argvs RdmaServer.server0) (fun _ gs' =>
      exists t k lines last, trail gs' = trail gs ++ t /\ printed_lines t = lines ++ last /\
        0 <= k /\ (length last <= 1)%nat /\ length lines = Z.to_nat k /\
        forall i line, 0 <= i < k -> (pick i < length (transmitted gc'))%nat ->
          lines !! Z.to_nat i = Some line -> line = message_line i (Z.of_nat (pick i))) gs) gc.
Proof.
  intros Hgc Htc Hf. eapply wp_mono; [by apply RdmaClient.client_main_spec|].
  intros oc gc' [(a & c & _ & (ah & qpn & Hsent) & _) _] pick gs Hgs Hts Hnet.
  eapply wp_mono; [by apply RdmaServer.server_main_spec|]. intros os gs' [Hsaw _].
  apply RdmaServer.server_saw_reports in Hsaw as (t & k & lines & last & Htr & Hp & Hl & Hk & Hlast & _).
  exists t, k, lines, last. repeat (split; [done|]). split.
  { destruct Hlast as [-> | (byte & len & ->)]; cbn; lia. }
  split; [by rewrite <- (Forall2_length _ _ _ Hl), length_seqZ|].
  intros i line Hi Hpick Hline. eapply reports_message; try done; [lia|].
  eapply Forall2_lookup_lr; [exact Hl| |exact Hline]. rewrite lookup_seqZ. lia.
Qed.

(** A network that delivers nothing but the client's first message, again and
    again. *)
Definition first_message (_ : nat) : list Z := replicate 40 0 ++ replicate (Z.to_nat MSG_SIZE) 0.

Lemma nic_fed_network ah qpn c :
  network (RdmaClient.numbered_message RdmaClient.completion_queue_size ah qpn <$> seqZ 0 c)
    (fun _ => 0%nat) (nic_fed first_message).
Proof.
  intros k t _ Ht. exists (replicate 40 0). split; [apply length_replicate|].
  rewrite list_lookup_fmap in Ht. apply fmap_Some in Ht as (j & Hj & ->).
  apply lookup_seqZ in Hj as [-> _]. done.
Qed.

Lemma server_reports_messages_witness :
  nic_wp (Nat.eqb 2) (RdmaClient.main 3 [[]; []; []; string_bytes "1"; string_bytes "2"]
      RdmaClient.client0) (fun _ gc' =>
    nic_wp (Nat.eqb 2) (RdmaServer.main 3 [[]; string_bytes "mlx5_0"] RdmaServer.server0) (fun _ gs' =>
      exists k lines last, printed_lines (trail gs') = lines ++ last /\ length lines = Z.to_nat k /\
        forall i line, 0 <= i < k -> (0 < length (transmitted gc'))%nat ->
          lines !! Z.to_nat i = Some line -> line = message_line i 0) (nic_fed first_message))
    nic0.
Proof.
  eapply wp_mono.
  - apply wp_and.
    + apply (server_reports_messages (Nat.eqb 2) (Nat.eqb 2) 3 3 _ [[]; string_bytes "mlx5_0"]).
      * exact idle_nic0.
      * reflexivity.
      * discriminate.
    + apply (RdmaClient.client_main_spec (Nat.eqb 2) 3); [exact idle_nic0|reflexivity|discriminate].
  - intros oc gc' [H [(a & c & _ & (h & qpn & Hsent) & _) _]].
    eapply wp_mono; [apply (H (fun _ => 0%nat) (nic_fed first_message))|].
    + apply idle_nic_fed.
    + reflexivity.
    + rewrite Hsent. apply nic_fed_network.
    + intros os gs' (t & k & lines & last & E & Hp & _ & _ & Hlen & Hl). exists k, lines, last.
      rewrite E. split; [exact Hp|]. split; [exact Hlen|exact Hl].
Defined.
