(* ===== verification/RawPath.v ===== *)
(** From raw_ibverbs to rdma_server.

    raw_ibverbs builds by hand what the client's card builds for it; rdma_server
    cannot tell the difference.  [card_receives] is the receiving card: of a frame
    for one of its queue pairs that passes the checks of the InfiniBand
    architecture it delivers the global routing header and the payload. *)
From S2P Require Import Prelude CInt CLib RawPacket Prog Posix LookupAddr ClApi FpgaHost IbHeaders.
From S2P Require Import RawIbverbs Verbs QueueSpec.
From S2P Require Rdma RdmaResources RdmaServer ClientServer.
Local Open Scope Z_scope.

(** A RoCEv1 frame with a UD "send only" for the queue pair [qpn] with the queue
    key [qkey]: the lengths agree, and the invariant checksum is right. *)
Definition card_receives (qpn qkey : Z) (f : list Z) : option (list Z) :=
  let h := Wire.parse (field 14 60 f) in
  let size := Wire.w_paylen (Wire.w_grh h) - 24 - Wire.w_pad (Wire.w_bth h) in
  if bool_decide (field 12 2 f = [0x89; 0x15]) && receiver_accepts f &&
     (Wire.w_version (Wire.w_grh h) =? 6) && (Wire.w_nxthdr (Wire.w_grh h) =? 0x1B) &&
     (Wire.w_paylen (Wire.w_grh h) =? Z.of_nat (length f) - 54) &&
     (Wire.w_opcode (Wire.w_bth h) =? 0x64) && (Wire.w_tver (Wire.w_bth h) =? 0) &&
     (Wire.w_destqp (Wire.w_bth h) =? qpn) && (Wire.w_qkey (Wire.w_deth h) =? qkey)
  then Some (field 14 40 f ++ field 74 (Z.to_nat size) f) else None.

(** A frame with the program's headers and a payload of the announced size is
    received, whole. *)
Lemma card_receives_with local remote qp pl :
  wf_addr local -> wf_addr remote -> wf_bytes pl -> Z.of_nat (length pl) = MSG_SIZE ->
  let f := frame_with (init_headers full_packet0 local remote qp) pl in
  card_receives (qp mod 2 ^ 24) Rdma.QKEY f = Some (field 14 40 f ++ pl).
Proof.
  intros Hl Hr Hwp Hlp f. set (p := init_headers full_packet0 local remote qp) in *.
  assert (Hw : wf_packet p) by (apply wf_init_headers; [apply wf_full_packet0|done|done]).
  destruct (frame_fields p pl Hw) as [Hf Hd]. fold f in Hf, Hd.
  pose proof (receiver_accepts_with p pl Hw Hwp) as Hacc. fold f in Hacc.
  destruct (init_headers_wire_spec local remote qp Hl Hr) as [Heth Hwire]. fold p in Heth, Hwire.
  pose proof (length_headers_of p Hw) as Hlh.
  assert (Hlen : Z.of_nat (length f) - 54 = MSG_SIZE + 24).
  { unfold f, frame_with. rewrite !length_app, Hlh, length_le_bytes. lia. }
  assert (Htype : field 12 2 f = [0x89; 0x15]).
  { unfold f, frame_with, headers_of. rewrite Heth, <- !app_assoc.
    destruct Hl as (Hm & _), Hr as (Hm' & _). destruct Hm as [Hm _], Hm' as [Hm' _].
    rewrite app_assoc. rewrite field_skip by (rewrite length_app; lia).
    rewrite length_app, Hm, Hm'. by apply (field_head 2 [0x89; 0x15]). }
  assert (Hpay : field 74 (Z.to_nat (MSG_SIZE + 24 - 24 - 0)) f = pl).
  { unfold field. rewrite Hd. apply take_app_length'. lia. }
  unfold card_receives. rewrite Hf, Hwire. cbn [Wire.w_grh Wire.w_bth Wire.w_deth Wire.w_paylen
    Wire.w_pad Wire.w_version Wire.w_nxthdr Wire.w_opcode Wire.w_tver Wire.w_destqp Wire.w_qkey].
  rewrite Hpay, Hlen, Hacc, bool_decide_eq_true_2 by done.
  change (286331153 =? Rdma.QKEY) with true. by rewrite !Z.eqb_refl.
Qed.

Lemma card_receives_frame local remote qp k :
  wf_addr local -> wf_addr remote ->
  let f := frame (init_headers full_packet0 local remote qp) k in
  card_receives (qp mod 2 ^ 24) Rdma.QKEY f = Some (field 14 40 f ++ payload k).
Proof.
  intros Hl Hr. apply card_receives_with; [done|done|apply wf_payload|].
  rewrite length_payload. apply MSG_SIZE_nat.
Qed.

(** The server's receive [k] brings frame number [pick k], if there are so many
    and its queue pair takes it. *)
Definition wire (frames : list (list Z)) (qpn : Z) (pick : Z -> nat) (g : nic) : Prop :=
  forall k f, 0 <= k -> frames !! pick k = Some f ->
    card_receives qpn Rdma.QKEY f = Some (RdmaServer.to_come g k).

(** The line for any message of the program: its first byte is the M of
    "Message". *)
Definition raw_line (k : Z) : list Z :=
  string_bytes "Message for WR #" ++ fmt_d (k mod 100) ++ string_bytes ": index #77 size: 8980 bytes" ++
  [10].

Lemma report_payload n k line d grh m :
  n = RdmaServer.completion_queue_size -> d k = grh ++ payload m -> length grh = 40%nat ->
  RdmaServer.reports n d k line -> line = raw_line k.
Proof.
  intros -> Hd Hg (byte & Hb & ->). rewrite Hd in *.
  rewrite (Hb 77).
  - rewrite length_app, Hg, length_payload. unfold RdmaServer.report_line, raw_line.
    change RdmaServer.completion_queue_size with 100.
    assert (E : RdmaServer.i64 (k mod 100) = k mod 100).
    { unfold RdmaServer.i64. pose proof (Z.mod_pos_bound k 100). rewrite Z.mod_small by lia. lia. }
    rewrite E. done.
  - unfold RdmaServer.first_byte. by rewrite drop_app_length' by done.
Qed.

(** The witnesses instantiate the libraries with these. *)
#[local] Existing Instance text_example.
#[local] Existing Instance Rdma.junk_example.

(** C12: the raw sender and the server together.  Run raw_ibverbs with any
    arguments, in any environment: there is a queue pair number such that the card
    of a host with the server's queue key receives each of its frames for that
    queue pair, as the 40 bytes of its routing header and the whole payload.  And
    a server whose card delivers, in any order, what it receives of these frames
    prints for each of those receives "Message for WR #i: index #77 size: 8980
    bytes": 77 is the first letter of the message. *)
Theorem server_reports_raw_frames `{!AddrText} `{!AddrTextOk _} `{!Rdma.Junk}
    sigr sigs fuelr fuels argvr argvs after gr :
  Z.of_nat fuelr < INT_MAX -> started gr ->
  net_wp sigr (RawIbverbs.main fuelr argvr (raw_init after)) (fun _ gr' =>
    let frames := (fun x : Z * list Z * sockaddr_ll => x.1.2) <$> sent gr' in
    exists qpn,
      Forall (fun f => exists grh m, length grh = 40%nat /\
        card_receives qpn Rdma.QKEY f = Some (grh ++ payload m)) frames /\
      forall pick gs, RdmaResources.idle gs -> transmitted gs = [] -> wire frames qpn pick gs ->
      nic_wp sigs (RdmaServer.main fuels argvs RdmaServer.server0) (fun _ gs' =>
        exists t k lines last, trail gs' = trail gs ++ t /\ printed_lines t = lines ++ last /\
          0 <= k /\ (length last <= 1)%nat /\ length lines = Z.to_nat k /\
          forall i line, 0 <= i < k -> (pick i < length frames)%nat ->
            lines !! Z.to_nat i = Some line -> line = raw_line i) gs) gr.
Proof.
  intros Hf Hst. eapply wp_mono; [by apply main_transmissions_spec|].
  intros o gr' (local & remote & qp & Hl & Hr & Hsent & _) frames. exists (qp mod 2 ^ 24).
  assert (Hrec : Forall (fun f => exists grh m, length grh = 40%nat /\
    card_receives (qp mod 2 ^ 24) Rdma.QKEY f = Some (grh ++ payload m)) frames).
  { unfold frames. apply Forall_fmap. eapply Forall_impl; [exact Hsent|].
    intros x (m & Hx & _). unfold compose. rewrite Hx. eexists _, m.
    split; [|by apply card_receives_frame]. apply field_length.
    unfold frame, frame_with. rewrite length_app, length_headers_of; [lia|].
    apply wf_init_headers; [apply wf_full_packet0|done|done]. }
  split; [exact Hrec|]. intros pick gs Hgs Hts Hwire.
  eapply wp_mono; [by apply RdmaServer.server_main_spec|]. intros os gs' [Hsaw _].
  apply RdmaServer.server_saw_reports in Hsaw as (t & k & lines & last & Htr & Hp & Hlines & Hk & Hlast & _).
  exists t, k, lines, last. repeat (split; [done|]). split.
  { destruct Hlast as [-> | (byte & len & ->)]; cbn; lia. }
  split; [by rewrite <- (Forall2_length _ _ _ Hlines), length_seqZ|].
  intros i line Hi Hpick Hline. destruct (lookup_lt_is_Some_2 _ _ Hpick) as [f Hfi].
  pose proof (Hwire i f ltac:(lia) Hfi) as Hd.
  destruct (proj1 (Forall_lookup _ _) Hrec _ _ Hfi) as (grh & m & Hgrh & Hcard).
  rewrite Hcard in Hd. injection Hd as Hd.
  eapply (report_payload _ _ _ (RdmaServer.to_come gs) grh m); [done|done|done|].
  eapply Forall2_lookup_lr; [exact Hlines| |exact Hline]. rewrite lookup_seqZ. lia.
Qed.

(** A network that delivers nothing but the first frame, again and again. *)
Definition first_frame (qpn : Z) (frames : list (list Z)) (_ : nat) : list Z :=
  default [] (frames !! 0%nat ≫= card_receives qpn Rdma.QKEY).

Lemma first_frame_wire qpn frames :
  Forall (fun f => exists grh m, length grh = 40%nat /\
    card_receives qpn Rdma.QKEY f = Some (grh ++ payload m)) frames ->
  wire frames qpn (fun _ => 0%nat) (Verbs.nic_fed (first_frame qpn frames)).
Proof.
  intros Hrec k f _ Hf. destruct (proj1 (Forall_lookup _ _) Hrec _ _ Hf) as (grh & m & _ & Hcard).
  unfold RdmaServer.to_come, first_frame. cbn [incoming Verbs.nic_fed]. rewrite Hf. cbn.
  by rewrite Hcard.
Qed.

Lemma server_reports_raw_frames_witness :
  net_wp (Nat.eqb 2)
    (@RawIbverbs.main text_example 3 [[]; string_bytes "host"; []; []; string_bytes "7"]
      (raw_init [0; 0; 0; 0]))
    (fun _ gr' =>
      let frames := (fun x : Z * list Z * sockaddr_ll => x.1.2) <$> sent gr' in
      exists qpn,
        nic_wp (Nat.eqb 2)
          (RdmaServer.main 3 [[]; string_bytes "mlx5_0"] RdmaServer.server0) (fun _ gs' =>
          exists k lines last, printed_lines (trail gs') = lines ++ last /\
            length lines = Z.to_nat k /\
            forall i line, 0 <= i < k -> (0 < length frames)%nat ->
              lines !! Z.to_nat i = Some line -> line = raw_line i)
          (Verbs.nic_fed (first_frame qpn frames))) net0.
Proof.
  eapply wp_mono.
  - apply (@server_reports_raw_frames text_example text_example_ok Rdma.junk_example
      (Nat.eqb 2) (Nat.eqb 2) 3 3 _ [[]; string_bytes "mlx5_0"]).
    + reflexivity.
    + repeat split.
  - intros o gr' (qpn & Hrec & H). exists qpn.
    eapply wp_mono; [apply (H (fun _ => 0%nat))|].
    + apply RdmaResources.idle_nic_fed.
    + reflexivity.
    + by apply first_frame_wire.
    + intros os gs' (t & k & lines & last & E & Hp & _ & _ & Hlen & Hl). exists k, lines, last.
      rewrite E. split; [exact Hp|]. split; [exact Hlen|exact Hl].
Defined.
