(* ===== verification/FrameErrors.v ===== *)
(** Damaged frames of raw_ibverbs: what the card of the server makes of them.

    The invariant checksum covers all of a frame from the InfiniBand headers on,
    but for the fields that routers may change ([covered]).  Up to three wrong bits
    in what it covers, and whatever is in the rest, the card delivers nothing or
    the payload that was sent. *)
From Stdlib Require Import Sorted.
From S2P Require Import Prelude CInt CLib Crc32 Crc32Errors RawPacket Prog Posix LookupAddr.
From S2P Require Import ClApi FpgaHost IbHeaders RawIbverbs RawPath.
From S2P Require Rdma.
Local Open Scope Z_scope.

(** What the checksum of a frame is computed over, and the checksum. *)
Definition covered (f : list Z) : list Z := icrc_mask (field 14 60 f) ++ drop 74 f.

Lemma receiver_accepts_covered f : receiver_accepts f = bool_decide (crc32_ref 0 (covered f) = 0x2144DF1C).
Proof. done. Qed.

Lemma length_icrc_mask l : length l = 60%nat -> length (icrc_mask l) = 68%nat.
Proof.
  intros Hl. unfold icrc_mask. rewrite !length_app, length_replicate, !field_length, length_drop by lia.
  simpl. lia.
Qed.

Lemma wf_covered f : wf_bytes f -> wf_bytes (covered f).
Proof.
  intros Hf. apply Forall_app_2; [by apply wf_icrc_mask, field_wf|by apply Forall_drop].
Qed.

Lemma length_covered f : (74 <= length f)%nat -> length (covered f) = (length f - 6)%nat.
Proof.
  intros Hf. unfold covered. rewrite length_app, length_icrc_mask, length_drop; [lia|].
  apply field_length. lia.
Qed.

Lemma hamming_refl x : hamming x x = 0%nat.
Proof.
  induction x as [|a x IH]; [done|]. cbn [hamming]. rewrite IH. unfold differ.
  replace (filter _ _) with (@nil Z); [done|]. symmetry. apply elem_of_nil_inv. intros j Hj.
  by apply list_elem_of_filter in Hj as [Hj _].
Qed.

Lemma field_field a n b m (l : list Z) :
  (a + n <= m)%nat -> field a n (field b m l) = field (b + a) n l.
Proof.
  intros Ha. unfold field. rewrite skipn_firstn_comm, take_take, drop_drop. f_equal. lia.
Qed.

(** The mask keeps the bytes from the addresses to the partition key. *)
Lemma mask_keeps l : length l = 60%nat -> field 16 36 (icrc_mask l) = field 8 36 l.
Proof.
  intros Hl. unfold icrc_mask. rewrite !(app_assoc _ _ (field 8 36 l ++ _)), <- !app_assoc.
  set (q := field 8 36 l).
  assert (Hq : length q = 36%nat) by (apply field_length; lia).
  assert (H3 : length (field 4 3 l) = 3%nat) by (apply field_length; lia).
  transitivity (field 16 36 ((replicate 8 255 ++ [Z.lor (nth_field 0 l) 15; 255; 255; 255] ++
    field 4 3 l ++ [255]) ++ q ++ [255] ++ drop 45 l)); [by rewrite <- !app_assoc|].
  rewrite field_skip by (rewrite !length_app, length_replicate, H3; simpl; lia).
  rewrite !length_app, length_replicate, H3. by apply field_head.
Qed.

Lemma covered_payload f f' :
  length f = length f' -> (74 <= length f)%nat -> covered f = covered f' ->
  drop 74 f = drop 74 f' /\
  Wire.w_pad (Wire.w_bth (Wire.parse (field 14 60 f))) =
    Wire.w_pad (Wire.w_bth (Wire.parse (field 14 60 f'))).
Proof.
  intros Hl H74 E. unfold covered in E.
  assert (H60 : length (field 14 60 f) = 60%nat) by (apply field_length; lia).
  assert (H60' : length (field 14 60 f') = 60%nat) by (apply field_length; lia).
  apply app_inj_1 in E as [Em Ed]; [|by rewrite !length_icrc_mask]. split; [done|].
  apply (f_equal (field 16 36)) in Em. rewrite !mask_keeps in Em by done.
  assert (Hpad : forall h : list Z, field 1 1 (field 40 12 h) = field 33 1 (field 8 36 h)).
  { intros h. by rewrite !field_field by lia. }
  unfold Wire.parse, Wire.parse_bth. cbn [Wire.w_bth Wire.w_pad]. by rewrite !Hpad, Em.
Qed.

(** A frame the card receives passed the check, and the announced size is the
    frame's. *)
Lemma card_receives_inv qpn qkey f d :
  card_receives qpn qkey f = Some d -> (54 <= length f)%nat ->
  receiver_accepts f = true /\
  drop 40 d = take (length f - 78 - Z.to_nat (Wire.w_pad (Wire.w_bth (Wire.parse (field 14 60 f)))))
                (drop 74 f).
Proof.
  unfold card_receives. set (h := Wire.parse (field 14 60 f)). intros Hd Hl.
  assert (Hp : 0 <= Wire.w_pad (Wire.w_bth h)).
  { cbn [h Wire.parse Wire.w_bth Wire.parse_bth Wire.w_pad]. apply Z.mod_pos_bound. lia. }
  clearbody h.
  match type of Hd with (if ?b then _ else _) = _ => destruct b eqn:Ec; [|done] end.
  repeat match goal with H : _ && _ = true |- _ => apply andb_prop in H as [H ?] end.
  split; [done|]. injection Hd as <-.
  rewrite drop_app_length' by (symmetry; apply field_length; lia). unfold field at 1.
  match goal with H : (Wire.w_paylen _ =? _) = true |- _ => apply Z.eqb_eq in H; rewrite H end.
  f_equal. lia.
Qed.

Lemma wf_frame_with p pl : wf_packet p -> wf_bytes pl -> wf_bytes (frame_with p pl).
Proof.
  intros Hp Hpl. apply Forall_app_2; [|apply Forall_app_2; [done|apply wf_le_bytes]].
  rewrite <- packet_headers_eq by done. by apply Forall_take, wf_packet_bytes.
Qed.

(** Whatever the card receives of such a frame is the payload. *)
Lemma damaged_frame_spec local remote qp pl f' qpn qkey d
    (f := frame_with (init_headers full_packet0 local remote qp) pl) :
  wf_addr local -> wf_addr remote -> wf_bytes pl -> Z.of_nat (length pl) = MSG_SIZE ->
  length f' = length f -> wf_bytes f' -> (hamming (covered f) (covered f') <= 3)%nat ->
  card_receives qpn qkey f' = Some d -> drop 40 d = pl.
Proof.
  intros Hl Hr Hwp Hlp Hlen Hwf Hh Hd. set (p := init_headers full_packet0 local remote qp) in *.
  assert (Hw : wf_packet p) by (apply wf_init_headers; [apply wf_full_packet0|done|done]).
  pose proof (frame_fields p pl Hw) as [Hf Hdrop]. fold f in Hf, Hdrop.
  assert (Hlf : Z.of_nat (length f) = 78 + MSG_SIZE).
  { unfold f, frame_with. rewrite !length_app, length_headers_of, length_le_bytes by done. lia. }
  assert (HM : MSG_SIZE = 8940) by done.
  apply card_receives_inv in Hd as [Hacc' Hd]; [|lia].
  pose proof (receiver_accepts_with p pl Hw Hwp) as Hacc. fold f in Hacc.
  rewrite receiver_accepts_covered, bool_decide_eq_true in Hacc, Hacc'.
  assert (Hwff : wf_bytes f) by by apply wf_frame_with.
  assert (Hlc : forall g, length g = length f -> length (covered g) = Z.to_nat 9012).
  { intros g Hg. rewrite length_covered by lia. lia. }
  assert (E : covered f = covered f').
  { destruct (decide (covered f = covered f')) as [|Hne]; [done|]. exfalso.
    enough (4 <= hamming (covered f) (covered f'))%nat by lia.
    destruct (crc32_ref_distance 0 (covered f) (covered f')) as [_ H4];
      try (by apply wf_covered); try done.
    - by rewrite !Hlc.
    - rewrite Hlc by done. lia.
    - by rewrite Hacc, Hacc'.
    - apply H4. rewrite Hlc by done. pose proof CODE_BYTES_eq. lia. }
  apply covered_payload in E as [Ed Ep]; [|done|lia].
  destruct (init_headers_wire_spec local remote qp Hl Hr) as [_ Hwire]. fold p in Hwire.
  rewrite Hf, Hwire in Ep. cbn [Wire.w_bth Wire.w_pad] in Ep.
  rewrite Hd, <- Ep, <- Ed, Hdrop. apply take_app_length'. lia.
Qed.

#[local] Existing Instance text_example.

(** C13: damage on the way.  Of every frame that raw_ibverbs sends, altered by the
    network in up to three bits of what the invariant checksum covers and in any
    way in the rest, the card of a server delivers nothing, or the payload as it
    was sent. *)
Theorem damaged_frames_dropped `{!AddrText} `{!AddrTextOk _} sigint fuel argv after g :
  Z.of_nat fuel < INT_MAX -> started g ->
  net_wp sigint (RawIbverbs.main fuel argv (raw_init after)) (fun _ g' =>
    Forall (fun x : Z * list Z * sockaddr_ll => exists k, forall f' qpn qkey d,
      length f' = length x.1.2 -> wf_bytes f' ->
      (hamming (covered x.1.2) (covered f') <= 3)%nat ->
      card_receives qpn qkey f' = Some d -> drop 40 d = payload k) (sent g')) g.
Proof.
  intros Hf Hst. eapply wp_mono; [by apply main_transmissions_spec|].
  intros o g' (local & remote & qp & Hl & Hr & Hsent & _).
  eapply Forall_impl; [exact Hsent|]. intros x (k & Hx & _). exists k. rewrite Hx.
  intros f' qpn qkey d. apply damaged_frame_spec; [done|done|apply wf_payload|].
  rewrite length_payload. apply MSG_SIZE_nat.
Qed.

Lemma damaged_frames_dropped_witness :
  net_wp (Nat.eqb 2) (RawIbverbs.main 3 [[]; string_bytes "host"; []; []; string_bytes "7"]
    (raw_init [0; 0; 0; 0]))
    (fun _ g => Forall (fun x : Z * list Z * sockaddr_ll => exists k, forall f' qpn qkey d,
      length f' = length x.1.2 -> wf_bytes f' ->
      (hamming (covered x.1.2) (covered f') <= 3)%nat ->
      card_receives qpn qkey f' = Some d -> drop 40 d = payload k) (sent g)) net0.
Proof.
  apply (@damaged_frames_dropped text_example text_example_ok (Nat.eqb 2) 3).
  - reflexivity.
  - repeat split.
Defined.
