(* ===== verification/Ipv4Check.v ===== *)
(** raw_udp.c, first part: [ipv4check], the ones' complement checksum of the
    IPv4 header.

    The code adds the 16-bit words of the header as the host loads them, in an
    int, and folds the sum twice.  The specification is RFC 791's and RFC
    1071's: a header is valid when the ones' complement sum of its words, as
    the network orders them, is 65535. *)
From S2P Require Import Prelude CInt CLib.
Local Open Scope Z_scope.

(** [data[i]] of a uint16_t pointer to the bytes [l]. *)
Definition word_at (l : list Z) (i : nat) : option Z :=
  a ← l !! (2 * i)%nat; b ← l !! (2 * i + 1)%nat; Some (le_val [a; b]).

(** The loop; an int sum that overflows is undefined. *)
Fixpoint ipv4check_loop (n i : nat) (sum : Z) (l : list Z) : option Z :=
  match n with
  | O => Some sum
  | S n =>
      w ← word_at l i;
      let sum := sum + w in
      if INT_MAX <? sum then None else ipv4check_loop n (S i) sum l
  end.

Definition ipv4check (raw_data : list Z) (n : Z) : option Z :=
  let n := 1 + Z.quot (n - 1) 2 in
  sum ← ipv4check_loop (Z.to_nat n) 0 0 raw_data;
  let sum := Z.shiftr sum 16 + Z.land sum 0xffff in
  let sum := sum + Z.shiftr sum 16 in
  Some (u16 (Z.lnot sum)).

(** ** Specification *)

(** Ones' complement addition of 16-bit numbers: the carry is added back. *)
Definition oc_add (a b : Z) : Z := if 65535 <? a + b then a + b - 65535 else a + b.

Fixpoint be_words (l : list Z) : list Z :=
  match l with
  | a :: b :: l => (256 * a + b) :: be_words l
  | _ => []
  end.

Definition oc_sum (l : list Z) : Z := foldr oc_add 0 (be_words l).

(** The receiver's test. *)
Definition ipv4_header_valid (l : list Z) : bool := oc_sum l =? 65535.

(** ** Sums modulo 65535 *)

Fixpoint le_words (l : list Z) : list Z :=
  match l with
  | a :: b :: l => le_val [a; b] :: le_words l
  | _ => []
  end.

Definition total (l : list Z) : Z := foldr Z.add 0 l.

Lemma two_ind {A} (P : list A -> Prop) :
  P [] -> (forall a, P [a]) -> (forall a b l, P l -> P (a :: b :: l)) -> forall l, P l.
Proof.
  intros H0 H1 H2. fix IH 1. intros [|a [|b l]]; [exact H0|apply H1|]. apply H2, IH.
Qed.

Lemma le_val_2 a b : is_byte a -> is_byte b -> le_val [a; b] = a + 256 * b.
Proof.
  unfold is_byte. intros Ha Hb. cbn [le_val]. rewrite Z.shiftl_0_l, Z.lor_0_r.
  rewrite (lor_shift_add 8) by lia. lia.
Qed.

Lemma oc_add_spec a b :
  0 <= a <= 65535 -> 0 <= b <= 65535 ->
  0 <= oc_add a b <= 65535 /\ (oc_add a b) mod 65535 = (a + b) mod 65535 /\
  (oc_add a b = 0 -> a = 0 /\ b = 0).
Proof.
  intros Ha Hb. unfold oc_add. destruct (Z.ltb_spec 65535 (a + b)).
  - split; [lia|]. split; [|lia]. replace (a + b - 65535) with (a + b + (-1) * 65535) by lia.
    by apply Z.mod_add.
  - split; [lia|]. split; [done|lia].
Qed.

Lemma oc_sum_spec ws :
  Forall (fun w => 0 <= w <= 65535) ws ->
  0 <= foldr oc_add 0 ws <= 65535 /\ (foldr oc_add 0 ws) mod 65535 = (total ws) mod 65535 /\
  (foldr oc_add 0 ws = 0 -> total ws = 0).
Proof.
  induction 1 as [|w ws Hw Hws (IH1 & IH2 & IH3)]; simpl; [done|].
  destruct (oc_add_spec w (foldr oc_add 0 ws) Hw IH1) as (H1 & H2 & H3).
  split; [done|]. split.
  - by rewrite H2, Z.add_mod, IH2, <- Z.add_mod.
  - intros E. destruct (H3 E) as [-> E']. by rewrite IH3.
Qed.

(** Swapping the bytes of every word multiplies the sum by 256. *)
Lemma total_words l :
  wf_bytes l -> (total (be_words l)) mod 65535 = (256 * total (le_words l)) mod 65535.
Proof.
  induction l as [|a|a b l IH] using two_ind; [done|done|]. intros H.
  inversion H as [|? ? Ha H']. inversion H' as [|? ? Hb Hl]. subst. specialize (IH Hl).
  cbn [be_words le_words total foldr]. fold (total (be_words l)) (total (le_words l)).
  rewrite le_val_2 by done. rewrite Z.add_mod, IH, <- Z.add_mod by done.
  replace (256 * (a + 256 * b + total (le_words l)))
    with (256 * a + b + 256 * total (le_words l) + b * 65535) by lia.
  by rewrite Z.mod_add.
Qed.

Lemma be_words_range l : wf_bytes l -> Forall (fun w => 0 <= w <= 65535) (be_words l).
Proof.
  induction l as [|a|a b l IH] using two_ind; [constructor|constructor|]. intros H.
  inversion H as [|? ? Ha H']. inversion H' as [|? ? Hb Hl]. subst. unfold is_byte in *.
  simpl. constructor; [lia|by apply IH].
Qed.

Lemma le_words_range l : wf_bytes l -> Forall (fun w => 0 <= w <= 65535) (le_words l).
Proof.
  induction l as [|a|a b l IH] using two_ind; [constructor|constructor|]. intros H.
  inversion H as [|? ? Ha H']. inversion H' as [|? ? Hb Hl]. subst.
  cbn [le_words]. rewrite le_val_2 by done. unfold is_byte in *. constructor; [lia|by apply IH].
Qed.

Lemma total_bound l k :
  Forall (fun w => 0 <= w <= 65535) l -> (length l <= k)%nat ->
  0 <= total l <= 65535 * Z.of_nat k.
Proof.
  intros H. revert k. induction H as [|w l Hw Hl IH]; intros k Hk; simpl in *; [lia|].
  destruct k as [|k]; [lia|]. specialize (IH k ltac:(lia)). lia.
Qed.

(** A header whose word sum is a multiple of 65535, but not all zero, is valid. *)
Lemma valid_iff l :
  wf_bytes l -> 0 < total (le_words l) -> (total (le_words l)) mod 65535 = 0 ->
  0 < total (be_words l) -> ipv4_header_valid l = true.
Proof.
  intros Hl H0 Hm Hb. unfold ipv4_header_valid, oc_sum.
  destruct (oc_sum_spec _ (be_words_range l Hl)) as (H1 & H2 & H3).
  rewrite total_words, <- Z.mul_mod_idemp_r, Hm in H2 by done.
  apply Z.eqb_eq. assert (foldr oc_add 0 (be_words l) <> 0) by (intros E; specialize (H3 E); lia).
  rewrite Z.mul_0_r, Z.mod_0_l in H2 by done. apply Z.mod_divide in H2 as [q Hq]; [|done]. lia.
Qed.

Lemma total_pos l : wf_bytes l -> 0 < total (le_words l) -> 0 < total (be_words l).
Proof.
  induction l as [|a|a b l IH] using two_ind; [done|done|]. intros H.
  inversion H as [|? ? Ha H']. inversion H' as [|? ? Hb Hl]. subst.
  pose proof (total_bound _ _ (be_words_range l Hl) (le_n _)).
  pose proof (total_bound _ _ (le_words_range l Hl) (le_n _)). 
  cbn [be_words le_words total foldr]. fold (total (be_words l)) (total (le_words l)).
  rewrite le_val_2 by done. unfold is_byte in *. intros Hp.
  destruct (decide (0 < total (le_words l))) as [Hpos|Hz]; [specialize (IH Hl Hpos)|]; lia.
Qed.

(** ** The code *)

Lemma word_at_le l i :
  word_at l i = le_words l !! i.
Proof.
  revert i. induction l as [|a|a b l IH] using two_ind; intros i.
  - unfold word_at. by rewrite lookup_nil.
  - unfold word_at. destruct i as [|i]; [done|]. rewrite lookup_cons_ne_0 by lia.
    by rewrite lookup_nil.
  - destruct i as [|i]; [done|]. unfold word_at in *.
    replace (2 * S i)%nat with (S (S (2 * i))) by lia. simpl. simpl in IH. apply IH.
Qed.

Lemma ipv4check_loop_spec n i sum l :
  wf_bytes l -> (i + n <= length (le_words l))%nat -> 0 <= sum ->
  sum + 65535 * Z.of_nat n <= INT_MAX ->
  ipv4check_loop n i sum l = Some (sum + total (take n (drop i (le_words l)))).
Proof.
  intros Hl. revert i sum. induction n as [|n IH]; intros i sum Hi Hs Hb; simpl.
  - by rewrite Z.add_0_r.
  - rewrite word_at_le. destruct (lookup_lt_is_Some_2 (le_words l) i ltac:(lia)) as [w Hw].
    rewrite Hw. simpl.
    pose proof (Forall_lookup_1 _ _ _ _ (le_words_range l Hl) Hw) as Hr. simpl in Hr.
    rewrite (proj2 (Z.ltb_ge _ _)) by lia. rewrite IH by lia.
    rewrite (drop_S _ _ _ Hw). simpl. f_equal. lia.
Qed.

(** The two folds. *)
Lemma fold_spec s :
  0 <= s <= INT_MAX ->
  let t := Z.shiftr s 16 + Z.land s 0xffff in
  let u := u16 (Z.lnot (t + Z.shiftr t 16)) in
  0 <= u <= 65535 /\ (s + u) mod 65535 = 0 /\ (s = 0 -> u = 65535).
Proof.
  intros Hs t u. unfold INT_MAX in Hs.
  assert (Ht : t = s / 65536 + s mod 65536).
  { unfold t. rewrite Z.shiftr_div_pow2 by lia. change 0xffff with (Z.ones 16).
    by rewrite Z.land_ones. }
  pose proof (Z.mod_pos_bound s 65536). pose proof (Z.div_mod s 65536).
  assert (0 <= s / 65536 < 32768) by (split; [apply Z.div_pos|apply Z.div_lt_upper_bound]; lia).
  assert (Hsh : Z.shiftr t 16 = if 65536 <=? t then 1 else 0).
  { rewrite Z.shiftr_div_pow2 by lia. destruct (Z.leb_spec 65536 t).
    - symmetry. apply Z.div_unique with (t - 65536); lia.
    - apply Z.div_small. lia. }
  assert (Hu : u = 65535 - (if 65536 <=? t then t - 65535 else t)).
  { unfold u, u16. rewrite Hsh. unfold Z.lnot.
    destruct (Z.leb_spec 65536 t).
    - symmetry. apply Z.mod_unique with (-2); lia.
    - symmetry. apply Z.mod_unique with (-1); lia. }
  rewrite Hu. destruct (Z.leb_spec 65536 t); (split; [lia|]); (split; [|lia]);
    (apply Z.mod_divide; [done|]).
  - exists (s / 65536 + 2). lia.
  - exists (s / 65536 + 1). lia.
Qed.

(** ** Properties *)

(** A header whose checksum field, the two bytes at [off], is zero. *)
Definition with_check (l : list Z) (off : nat) (c : Z) : list Z :=
  take off l ++ le_bytes 2 c ++ drop (off + 2) l.

Lemma le_words_app l l' : Nat.Even (length l) -> le_words (l ++ l') = le_words l ++ le_words l'.
Proof.
  induction l as [|a|a b l IH] using two_ind; [done|by intros [k Hk]; simpl in Hk; lia|].
  intros [k Hk]. simpl in *. rewrite IH; [done|]. exists (pred k). lia.
Qed.

Lemma total_app l l' : total (l ++ l') = total l + total l'.
Proof. induction l as [|x l IH]; [done|]. cbn [app total foldr] in *. fold (total (l ++ l')) (total l). lia. Qed.

Lemma length_le_words l : Nat.Even (length l) -> (length (le_words l) * 2 = length l)%nat.
Proof.
  induction l as [|a|a b l IH] using two_ind; [done|by intros [k Hk]; simpl in Hk; lia|].
  intros [k Hk]. simpl in *. rewrite <- IH; [done|]. exists (pred k). lia.
Qed.

Lemma ipv4check_value l n :
  wf_bytes l -> n = Z.of_nat (length l) -> Nat.Even (length l) -> 0 < n <= 65535 ->
  exists c, ipv4check l n = Some c /\ 0 <= c <= 65535 /\
    (total (le_words l) + c) mod 65535 = 0 /\ (total (le_words l) = 0 -> c = 65535).
Proof.
  intros Hl -> He Hn. pose proof (length_le_words l He) as Hw. unfold ipv4check.
  assert (Hq : Z.to_nat (1 + Z.quot (Z.of_nat (length l) - 1) 2) = length (le_words l)).
  { rewrite Z.quot_div_nonneg by lia.
    replace (Z.of_nat (length l) - 1) with (1 + (Z.of_nat (length (le_words l)) - 1) * 2) by lia.
    rewrite Z.div_add by done. change (1 / 2) with 0. lia. }
  pose proof (total_bound _ _ (le_words_range l Hl) (le_n _)) as Hb.
  rewrite Hq, ipv4check_loop_spec; [|done|lia|lia|unfold INT_MAX; lia]. cbn [mbind option_bind].
  rewrite drop_0, firstn_all, Z.add_0_l.
  destruct (fold_spec (total (le_words l))) as (H1 & H2 & H3); [unfold INT_MAX; lia|].
  eexists. split; [done|]. done.
Qed.

Lemma ipv4check_valid l off n :
  wf_bytes l -> n = Z.of_nat (length l) -> Nat.Even (length l) -> Nat.Even off -> n <= 65535 ->
  (off + 2 <= length l)%nat -> with_check l off 0 = l ->
  exists c, ipv4check l n = Some c /\ is_u 16 c /\ ipv4_header_valid (with_check l off c) = true.
Proof.
  intros Hl Hn He Ho Hmax Hoff Hz.
  destruct (ipv4check_value l n Hl Hn He ltac:(lia)) as (c & Hc & Hr & Hm & H0).
  exists c. split; [done|]. split; [unfold is_u; lia|].
  assert (Hwf : wf_bytes (with_check l off c)).
  { unfold with_check. apply Forall_app_2; [by apply Forall_take|].
    apply Forall_app_2; [apply wf_le_bytes|by apply Forall_drop]. }
  assert (Htot : forall x, 0 <= x <= 65535 -> total (le_words (with_check l off x)) =
    total (le_words (take off l)) + x + total (le_words (drop (off + 2) l))).
  { intros x Hx. unfold with_check.
    rewrite le_words_app by (rewrite length_take_le by lia; done).
    rewrite le_words_app by (rewrite length_le_bytes; by exists 1%nat).
    rewrite !total_app. replace (total (le_words (le_bytes 2 x))) with x; [lia|].
    cbn [le_bytes le_words total foldr]. rewrite Z.add_0_r.
    pose proof (le_val_le_bytes 2 x) as E. cbn [le_bytes] in E. rewrite E.
    symmetry. apply Z.mod_small. change (8 * Z.of_nat 2) with 16. lia. }
  pose proof (Htot 0 ltac:(lia)) as T0. rewrite Hz in T0. pose proof (Htot c Hr) as Tc.
  assert (Tsum : total (le_words (with_check l off c)) = total (le_words l) + c) by lia.
  pose proof (total_bound _ _ (le_words_range l Hl) (le_n _)) as Hb.
  assert (Hpos : 0 < total (le_words (with_check l off c))).
  { rewrite Tsum. destruct (decide (total (le_words l) = 0)) as [E|]; [|lia].
    rewrite E, (H0 E). done. }
  apply valid_iff; [done|done|by rewrite Tsum|by apply total_pos].
Qed.

(** C24: storing [ipv4check]'s result in the zeroed checksum field of a header of
    [n] bytes, [n] even and at most 65535, makes the header valid: the ones'
    complement sum of its words, in network order, is 65535.  (The code adds
    the words in host order and stores the result in host order.) *)
Theorem ipv4check_correct l off n :
  wf_bytes l -> n = Z.of_nat (length l) -> Nat.Even (length l) -> Nat.Even off -> n <= 65535 ->
  (off + 2 <= length l)%nat -> with_check l off 0 = l ->
  exists c, ipv4check l n = Some c /\ is_u 16 c /\ ipv4_header_valid (with_check l off c) = true.
Proof. apply ipv4check_valid. Qed.

(** The example header of RFC 1071's literature: 192.168.0.1 to 192.168.0.199. *)
Definition header_example : list Z :=
  [0x45; 0; 0; 0x73; 0; 0; 0x40; 0; 0x40; 0x11; 0; 0; 0xc0; 0xa8; 0; 1; 0xc0; 0xa8; 0; 0xc7].

Lemma ipv4check_correct_witness :
  ipv4check header_example 20 = Some (htons 0xb861) /\
  exists c, ipv4check header_example 20 = Some c /\ is_u 16 c /\
    ipv4_header_valid (with_check header_example 10 c) = true.
Proof.
  split; [reflexivity|]. apply (ipv4check_correct header_example 10 20).
  - repeat constructor; discriminate.
  - reflexivity.
  - by exists 10%nat.
  - by exists 5%nat.
  - discriminate.
  - simpl. lia.
  - reflexivity.
Defined.

(** At the edges of its argument the function looks past the data it was
    given: a length of zero still sums one word, and an odd length a byte more
    than there is. *)
Theorem ipv4check_edges :
  ipv4check [] 0 = None /\ forall a, ipv4check [a] 1 = None.
Proof. by split. Qed.
