(* ===== verification/RawUdp.v ===== *)
(** raw_udp.c, second part: the program that sends UDP datagrams over a raw
    socket, headers and all.

    [ether_buffer] is one array that the program views through structure
    pointers; here it is the three headers and the payload that follows them,
    and [buffer_bytes] is the array.  A multi-byte field holds the value the
    host loads from it. *)
From S2P Require Import Prelude CInt CLib RawPacket Prog Posix LookupAddr Ipv4Check.
Local Open Scope Z_scope.
Local Open Scope c_scope.

(** ** Data *)

Record iphdr := {
  ihl : Z; version : Z; tos : Z; tot_len : Z; id_ : Z; frag_off : Z; ttl : Z; protocol : Z;
  check : Z; saddr : Z; daddr : Z }.
Record udphdr := { source : Z; dest : Z; len : Z; udp_check : Z }.

Definition ip_bytes (h : iphdr) : list Z :=
  [pack [(4, ihl h); (4, version h)]; tos h] ++ le_bytes 2 (tot_len h) ++ le_bytes 2 (id_ h) ++
  le_bytes 2 (frag_off h) ++ [ttl h; protocol h] ++ le_bytes 2 (check h) ++
  le_bytes 4 (saddr h) ++ le_bytes 4 (daddr h).
Definition udp_bytes (h : udphdr) : list Z :=
  le_bytes 2 (source h) ++ le_bytes 2 (dest h) ++ le_bytes 2 (len h) ++ le_bytes 2 (udp_check h).

Definition IP_MAXPACKET : Z := 65535.
Definition sizeof_iphdr : Z := 20.
Definition sizeof_udphdr : Z := 8.
Definition IPPROTO_UDP : Z := 17.
Definition header_size : Z := sizeof_ethhdr + sizeof_iphdr + sizeof_udphdr.
Definition max_msg_size : Z := IP_MAXPACKET - header_size.

Record raw_udp := {
  packet_loop : Z;
  ether_header : ethhdr;
  ip_header : iphdr;
  udp_header : udphdr;
  udp_data : list Z;
  count : Z  (** main's local *)
}.

Definition buffer_bytes (s : raw_udp) : list Z :=
  eth_bytes (ether_header s) ++ ip_bytes (ip_header s) ++ udp_bytes (udp_header s) ++ udp_data s.

Definition set_packet_loop x (s : raw_udp) : raw_udp :=
  {| packet_loop := x; ether_header := ether_header s; ip_header := ip_header s;
     udp_header := udp_header s; udp_data := udp_data s; count := count s |}.
Definition set_ether_header x (s : raw_udp) : raw_udp :=
  {| packet_loop := packet_loop s; ether_header := x; ip_header := ip_header s;
     udp_header := udp_header s; udp_data := udp_data s; count := count s |}.
Definition set_ip_header x (s : raw_udp) : raw_udp :=
  {| packet_loop := packet_loop s; ether_header := ether_header s; ip_header := x;
     udp_header := udp_header s; udp_data := udp_data s; count := count s |}.
Definition set_udp_header x (s : raw_udp) : raw_udp :=
  {| packet_loop := packet_loop s; ether_header := ether_header s; ip_header := ip_header s;
     udp_header := x; udp_data := udp_data s; count := count s |}.
Definition set_udp_data x (s : raw_udp) : raw_udp :=
  {| packet_loop := packet_loop s; ether_header := ether_header s; ip_header := ip_header s;
     udp_header := udp_header s; udp_data := x; count := count s |}.
Definition set_count x (s : raw_udp) : raw_udp :=
  {| packet_loop := packet_loop s; ether_header := ether_header s; ip_header := ip_header s;
     udp_header := udp_header s; udp_data := udp_data s; count := x |}.

Definition set_tot_len x (h : iphdr) : iphdr :=
  {| ihl := ihl h; version := version h; tos := tos h; tot_len := x; id_ := id_ h;
     frag_off := frag_off h; ttl := ttl h; protocol := protocol h; check := check h;
     saddr := saddr h; daddr := daddr h |}.
Definition set_check x (h : iphdr) : iphdr :=
  {| ihl := ihl h; version := version h; tos := tos h; tot_len := tot_len h; id_ := id_ h;
     frag_off := frag_off h; ttl := ttl h; protocol := protocol h; check := x;
     saddr := saddr h; daddr := daddr h |}.
Definition set_len x (h : udphdr) : udphdr :=
  {| source := source h; dest := dest h; len := x; udp_check := udp_check h |}.

(** The initial values of the static objects: all zero. *)
Definition raw_udp0 : raw_udp :=
  {| packet_loop := 1;
     ether_header := {| h_dest := replicate 6 0; h_source := replicate 6 0; h_proto := 0 |};
     ip_header := {| ihl := 0; version := 0; tos := 0; tot_len := 0; id_ := 0; frag_off := 0;
                     ttl := 0; protocol := 0; check := 0; saddr := 0; daddr := 0 |};
     udp_header := {| source := 0; dest := 0; len := 0; udp_check := 0 |};
     udp_data := replicate (Z.to_nat max_msg_size) 0;
     count := 0 |}.

(** The signal handler. *)
Definition stop_loop (s : raw_udp) : raw_udp := set_packet_loop 0 s.

(** ** The program *)

Section code.
Context `{!AddrText}.

Definition loop_test : M posix raw_udp bool :=
  let! delivered := call SigintDelivered in
  (if delivered : bool then modify stop_loop else ret tt) ;!
  gets (fun s => negb (packet_loop s =? 0)).

(** The headers, before the loop: lines 99 to 118. *)
Definition init_eth (local remote : addr) (h : ethhdr) : ethhdr :=
  {| h_dest := mac remote; h_source := mac local; h_proto := htons 0x0800 |}.
Definition init_ip (local remote : addr) (h : iphdr) : iphdr :=
  {| ihl := 5; version := 4; tos := 0; tot_len := tot_len h; id_ := u16 (htonl 54321);
     frag_off := 0; ttl := 255; protocol := IPPROTO_UDP; check := check h;
     saddr := ipv4 local; daddr := ipv4 remote |}.
Definition init_udp (port : Z) (h : udphdr) : udphdr :=
  {| source := htons 4242; dest := htons port; len := len h; udp_check := 0 |}.

(** The body of the loop; [Some tt] leaves it. *)
Definition send_body (sock : Z) (device : sockaddr_ll) : M posix raw_udp (option unit) :=
  let! go := loop_test in
  if negb go then ret (Some tt) else
  let! s := gets id in
  let (msg_size, buf) := snprintf (udp_data s) max_msg_size (message (count s)) in
  if count s =? INT_MAX then undef "count++ overflows" else
  modify (set_count (count s + 1)) ;!
  let! buf := defined "snprintf writes past ether_buffer" buf in
  modify (set_udp_data buf) ;!
  if (msg_size <? 0) || (max_msg_size <=? msg_size) then die "Error creating message" else
  let total_length := u16 (header_size + msg_size) in
  let ip_length := u16 (total_length - sizeof_ethhdr) in
  let ip := set_check 0 (set_tot_len (htons ip_length) (ip_header s)) in
  modify (set_udp_header (set_len (htons (8 + msg_size)) (udp_header s))) ;!
  let! c := defined "ipv4check" (ipv4check (ip_bytes ip) sizeof_iphdr) in
  modify (set_ip_header (set_check c ip)) ;!
  let! s := gets id in
  let! result := call (SendToLL sock (take (Z.to_nat total_length) (buffer_bytes s)) device) in
  if result =? -1 then die "Error sending message" else
  let! _ := call (Sleep 1) in
  ret None.

Definition send_loop (fuel : nat) (device : sockaddr_ll) : M posix raw_udp unit :=
  let! sock := call (Socket AF_PACKET SOCK_RAW (htons ETH_P_ALL)) in
  if sock =? -1 then die "Error creating socket" else
  modify (set_count 0) ;!
  loop fuel (send_body sock device).

Definition arg (argv : list (list Z)) (i : nat) : list Z := default [] (argv !! i).

Definition main (fuel : nat) (argv : list (list Z)) : M posix raw_udp Z :=
  let! r := call Sigaction in
  if negb (r =? 0) then die "Couldn't install signal handler" else
  if negb ((length argv =? 4)%nat || (length argv =? 3)%nat) then
    let! _ := call (Eprintf (string_bytes
      "Usage: raw <UDP port> <destination IP> [<interface name>]" ++ newline)) in
    exit_ EXIT_FAILURE
  else
  let ifname := if (length argv =? 4)%nat then arg argv 3 else string_bytes "eth4" in
  let! local := lookup_local_addr ifname in
  let! _ := call (Printf (string_bytes "Local address:" ++ newline)) in
  print_addr local ;!
  let! remote := lookup_remote_addr ifname (arg argv 2) None in
  let! _ := call (Printf (newline ++ string_bytes "Remote address:" ++ newline)) in
  print_addr remote ;!
  let! ifindex := call (IfNametoindex ifname) in
  if ifindex =? 0 then die "if_nametoindex() failed to obtain interface index " else
  let device := {| sll_family := AF_PACKET; sll_ifindex := ifindex; sll_halen := 6;
                   sll_addr := mac remote ++ [0; 0] |} in
  let! s := gets id in
  modify (set_ether_header (init_eth local remote (ether_header s))) ;!
  modify (set_ip_header (init_ip local remote (ip_header s))) ;!
  let! port := defined "atoi" (atoi (arg argv 1)) in
  modify (set_udp_header (init_udp port (udp_header s))) ;!
  send_loop fuel device ;!
  ret 0.

End code.

(** ** Specification *)

(** The receiver's view of a frame. *)
Record datagram := {
  g_dest_mac : list Z; g_source_mac : list Z; g_ethertype : Z;
  g_version_ihl : Z; g_total_length : Z; g_id : Z; g_fragment : Z; g_ttl : Z; g_protocol : Z;
  g_source : list Z; g_destination : list Z; g_header_valid : bool;
  g_source_port : Z; g_dest_port : Z; g_udp_length : Z; g_udp_check : Z; g_payload : list Z }.

Definition parse_datagram (l : list Z) : datagram :=
  {| g_dest_mac := field 0 6 l; g_source_mac := field 6 6 l; g_ethertype := be_val (field 12 2 l);
     g_version_ihl := nth_field 14 l; g_total_length := be_val (field 16 2 l);
     g_id := be_val (field 18 2 l); g_fragment := be_val (field 20 2 l);
     g_ttl := nth_field 22 l; g_protocol := nth_field 23 l;
     g_source := field 26 4 l; g_destination := field 30 4 l;
     g_header_valid := ipv4_header_valid (field 14 20 l);
     g_source_port := be_val (field 34 2 l); g_dest_port := be_val (field 36 2 l);
     g_udp_length := be_val (field 38 2 l); g_udp_check := be_val (field 40 2 l);
     g_payload := drop 42 l |}.

(** The datagram that carries message [k]. *)
Definition expected_datagram (local remote : addr) (port : Z) (k : nat) : datagram :=
  let m := message (Z.of_nat k) in
  {| g_dest_mac := mac remote; g_source_mac := mac local; g_ethertype := 0x0800;
     g_version_ihl := 0x45; g_total_length := 28 + Z.of_nat (length m);
     g_id := 0; g_fragment := 0; g_ttl := 255; g_protocol := 17;
     g_source := le_bytes 4 (ipv4 local); g_destination := le_bytes 4 (ipv4 remote);
     g_header_valid := true;
     g_source_port := 4242; g_dest_port := u16 port; g_udp_length := 8 + Z.of_nat (length m);
     g_udp_check := 0; g_payload := m |}.

(** The headers the loop starts from, but for the fields it sets. *)
Definition base_ip (h : iphdr) : iphdr := set_check 0 (set_tot_len 0 h).
Definition base_udp (h : udphdr) : udphdr := set_len 0 h.

Definition sent_ip (h : iphdr) (m : list Z) : iphdr :=
  let ip := set_check 0 (set_tot_len (htons (28 + Z.of_nat (length m))) h) in
  set_check (default 0 (ipv4check (ip_bytes ip) sizeof_iphdr)) ip.

Definition udp_frame (s : raw_udp) (k : nat) : list Z :=
  let m := message (Z.of_nat k) in
  eth_bytes (ether_header s) ++ ip_bytes (sent_ip (ip_header s) m) ++
  udp_bytes (set_len (htons (8 + Z.of_nat (length m))) (udp_header s)) ++ m.

Definition wf_ip (h : iphdr) : Prop :=
  is_u 4 (ihl h) /\ is_u 4 (version h) /\ is_byte (tos h) /\ is_byte (ttl h) /\
  is_byte (protocol h).

(** ** Headers *)

Lemma length_ip_bytes h : length (ip_bytes h) = 20%nat.
Proof. done. Qed.

Lemma length_udp_bytes h : length (udp_bytes h) = 8%nat.
Proof. done. Qed.

Lemma pack_nibbles a b : is_u 4 a -> is_u 4 b -> pack [(4, a); (4, b)] = a + 16 * b /\ is_byte (a + 16 * b).
Proof.
  unfold is_u, is_byte. intros Ha Hb. cbn [pack]. rewrite Z.shiftl_0_l, Z.lor_0_r.
  rewrite (lor_shift_add 4) by lia. lia.
Qed.

Lemma wf_ip_bytes h : wf_ip h -> wf_bytes (ip_bytes h).
Proof.
  intros (H1 & H2 & H3 & H4 & H5). destruct (pack_nibbles _ _ H1 H2) as [E Hb].
  unfold ip_bytes. rewrite E.
  repeat (apply Forall_app_2 || apply wf_le_bytes || constructor; try done).
Qed.

(** The loop's checksum makes the header valid. *)
Lemma sent_ip_valid h m : wf_ip h -> ipv4_header_valid (ip_bytes (sent_ip h m)) = true.
Proof.
  intros Hw. unfold sent_ip.
  set (ip := set_check 0 (set_tot_len (htons (28 + Z.of_nat (length m))) h)).
  assert (Hip : wf_bytes (ip_bytes ip)) by by apply (wf_ip_bytes ip).
  destruct (ipv4check_valid (ip_bytes ip) 10 20) as (c & Hc & _ & Hv); try done.
  - by exists 10%nat.
  - by exists 5%nat.
  - rewrite length_ip_bytes. lia.
  - unfold sizeof_iphdr. rewrite Hc. exact Hv.
Qed.

Lemma be_val_htons x : be_val (le_bytes 2 (htons x)) = u16 x.
Proof.
  rewrite le_bytes_htons, be_val_be_bytes. done.
Qed.

Lemma message_short k : 0 <= Z.of_nat (length (message k)) <= 50.
Proof. pose proof (length_message k). lia. Qed.

(** The headers the program writes. *)
Definition headers_ok (local remote : addr) (port : Z) (s : raw_udp) : Prop :=
  ether_header s = init_eth local remote (ether_header s) /\
  ip_header s = init_ip local remote (ip_header s) /\
  udp_header s = init_udp port (udp_header s).

Lemma parse_udp_frame local remote port s k :
  wf_addr local -> wf_addr remote -> headers_ok local remote port s ->
  parse_datagram (udp_frame s k) = expected_datagram local remote port k.
Proof.
  intros ([Hlm _] & Hl4 & _) ([Hrm _] & Hr4 & _) (He & Hi & Hu). unfold udp_frame.
  set (m := message (Z.of_nat k)). pose proof (message_short (Z.of_nat k)) as Hm. fold m in Hm.
  assert (Hw : wf_ip (ip_header s)).
  { rewrite Hi. repeat split; vm_compute; congruence. }
  pose proof (sent_ip_valid (ip_header s) m Hw) as Hv.
  rewrite He. unfold eth_bytes, init_eth. cbn [h_dest h_source h_proto].
  set (ip := sent_ip (ip_header s) m) in *.
  assert (Hf : exists c, ip_bytes ip = [0x45; 0] ++ le_bytes 2 (htons (28 + Z.of_nat (length m))) ++
    le_bytes 2 0 ++ le_bytes 2 0 ++ [255; 17] ++ c ++ le_bytes 4 (ipv4 local) ++ le_bytes 4 (ipv4 remote) /\
    length c = 2%nat).
  { eexists. unfold ip, sent_ip. rewrite Hi. split; [reflexivity|].
    apply length_le_bytes. }
  destruct Hf as (c & Eip & Hc).
  rewrite Hu. unfold udp_bytes, init_udp, set_len. cbn [source dest len udp_check].
  destruct (mac remote) as [|d0 [|d1 [|d2 [|d3 [|d4 [|d5 [|]]]]]]] eqn:Ed; try discriminate Hrm.
  destruct (mac local) as [|s0 [|s1 [|s2 [|s3 [|s4 [|s5 [|]]]]]]] eqn:Es; try discriminate Hlm.
  destruct c as [|c0 [|c1 [|]]]; try discriminate Hc.
  assert (Hvf : ipv4_header_valid (field 14 20 (([d0; d1; d2; d3; d4; d5] ++ [s0; s1; s2; s3; s4; s5] ++
     le_bytes 2 (htons 2048)) ++ ip_bytes ip ++ (le_bytes 2 (htons 4242) ++ le_bytes 2 (htons port) ++
     le_bytes 2 (htons (8 + Z.of_nat (length m))) ++ le_bytes 2 0) ++ m)) = true).
  { rewrite field_skip by done. simpl length. by rewrite field_head. }
  unfold parse_datagram. rewrite Hvf, Eip. unfold expected_datagram. rewrite Ed, Es. fold m.
  f_equal; try reflexivity.
  - change (be_val (le_bytes 2 (htons (28 + Z.of_nat (length m)))) = 28 + Z.of_nat (length m)).
    rewrite be_val_htons. apply Z.mod_small. lia.
  - change (be_val (le_bytes 2 (htons port)) = u16 port). apply be_val_htons.
  - change (be_val (le_bytes 2 (htons (8 + Z.of_nat (length m)))) = 8 + Z.of_nat (length m)).
    rewrite be_val_htons. apply Z.mod_small. lia.
Qed.

(** ** The loop *)

(** The state after some messages: the headers are those of [s0] but for the
    fields the loop sets. *)
Definition after_messages (s0 : raw_udp) (n : nat) (s : raw_udp) : Prop :=
  packet_loop s = 1 /\ count s = Z.of_nat n /\ ether_header s = ether_header s0 /\
  base_ip (ip_header s) = base_ip (ip_header s0) /\
  base_udp (udp_header s) = base_udp (udp_header s0) /\
  Z.of_nat (length (udp_data s)) = max_msg_size.

Definition frames_sent (sock : Z) (device : sockaddr_ll) (s0 : raw_udp) (n : nat) :
    list (Z * list Z * sockaddr_ll) :=
  (fun k => (sock, udp_frame s0 k, device)) <$> seq 0 n.

Lemma raw_udp_frames_sent_S sock device s0 n :
  frames_sent sock device s0 (S n) =
    frames_sent sock device s0 n ++ [(sock, udp_frame s0 n, device)].
Proof. unfold frames_sent. by rewrite seq_S, fmap_app. Qed.

Lemma sent_ip_base h h' m : base_ip h = base_ip h' -> sent_ip h m = sent_ip h' m.
Proof.
  intros E. unfold sent_ip.
  assert (Eb : forall x, set_check 0 (set_tot_len x h) = set_check 0 (set_tot_len x h')).
  { intros x. apply (f_equal (set_tot_len x)) in E. exact E. }
  by rewrite Eb.
Qed.

Lemma udp_base h h' x : base_udp h = base_udp h' -> set_len x h = set_len x h'.
Proof. intros E. apply (f_equal (set_len x)) in E. exact E. Qed.

(** The bytes handed to sendto are the frame. *)
Lemma sent_bytes s0 n s data :
  length (eth_bytes (ether_header s0)) = 14%nat -> after_messages s0 n s ->
  let m := message (Z.of_nat n) in
  let ip := sent_ip (ip_header s) m in
  let udp := set_len (htons (8 + Z.of_nat (length m))) (udp_header s) in
  take (Z.to_nat (u16 (header_size + Z.of_nat (length m))))
    (eth_bytes (ether_header s) ++ ip_bytes ip ++ udp_bytes udp ++ m ++ data) = udp_frame s0 n.
Proof.
  intros Hl (_ & _ & He & Hi & Hu & _) m ip udp. pose proof (message_short (Z.of_nat n)) as Hm.
  fold m in Hm. unfold udp_frame. fold m. rewrite <- He in *.
  rewrite <- (sent_ip_base _ _ m Hi), <- (udp_base _ _ _ Hu). fold ip udp.
  rewrite !app_assoc. apply take_app_length'.
  rewrite !length_app, Hl, length_ip_bytes, length_udp_bytes.
  unfold u16, header_size, sizeof_ethhdr, sizeof_iphdr, sizeof_udphdr. rewrite Z.mod_small by lia. lia.
Qed.

Section loop.
Context `{!AddrText} (sigint : nat -> bool).
Local Abbreviation wpn := (net_wp sigint).

Lemma raw_udp_send_body_spec sock device s0 n s (g : net) (Q : outcome raw_udp (option unit) -> net -> Prop) :
  length (eth_bytes (ether_header s0)) = 14%nat -> wf_ip (ip_header s0) ->
  Z.of_nat n < INT_MAX -> after_messages s0 n s ->
  (sigint (polls g) = true -> Q (Done (Some tt) (stop_loop s)) (add_poll g)) ->
  (forall s', sigint (polls g) = false -> after_messages s0 (S n) s' ->
     Q (Done None s') (add_sent (sock, udp_frame s0 n, device) (add_poll g))) ->
  (forall s', sigint (polls g) = false -> Q (Exit EXIT_FAILURE s') (add_fault (add_poll g))) ->
  wpn (send_body sock device s) Q g.
Proof.
  intros Hlen Hwf Hn Ha Hstop Hnext Hexit. pose proof Ha as (A1 & A2 & A3 & A4 & A5 & A6).
  unfold send_body, loop_test. net_steps. subst x.
  destruct (sigint (polls g)) eqn:Esig; net_steps; [by apply Hstop|].
  rewrite A1. cbn [Z.eqb negb]. net_steps. unfold id. rewrite A2.
  pose proof (message_short (Z.of_nat n)) as Hm. set (m := message (Z.of_nat n)) in *.
  assert (Hmax : 50 < max_msg_size) by done.
  rewrite snprintf_fits by lia. rewrite (proj2 (Z.eqb_neq _ _)) by lia. net_steps.
  rewrite (proj2 (Z.ltb_ge _ _)), (proj2 (Z.leb_gt _ _)) by lia. cbn [orb]. net_steps.
  assert (Elen : u16 (u16 (header_size + Z.of_nat (length m)) - sizeof_ethhdr) =
                 28 + Z.of_nat (length m)).
  { unfold u16, header_size, sizeof_ethhdr, sizeof_iphdr, sizeof_udphdr.
    rewrite (Z.mod_small (14 + 20 + 8 + _)) by lia. rewrite Z.mod_small by lia. lia. }
  rewrite Elen.
  set (ip := set_check 0 (set_tot_len (htons (28 + Z.of_nat (length m))) (ip_header s))).
  assert (Hip : wf_bytes (ip_bytes ip)).
  { apply wf_ip_bytes. change (wf_ip (base_ip (ip_header s))). by rewrite A4. }
  destruct (ipv4check_valid (ip_bytes ip) 10 20) as (c & Hc & _ & _); try done.
  { by exists 10%nat. } { by exists 5%nat. } { rewrite length_ip_bytes. lia. }
  unfold sizeof_iphdr. rewrite Hc. net_steps. unfold id, buffer_bytes.
  cbn [ether_header ip_header udp_header udp_data set_ip_header set_udp_header set_udp_data set_count].
  pose proof (sent_bytes s0 n s (0 :: drop (S (length m)) (udp_data s)) Hlen Ha) as Hb.
  cbv zeta in Hb. fold m in Hb. unfold sent_ip in Hb. fold ip in Hb.
  unfold sizeof_iphdr in Hb. rewrite Hc in Hb. cbn [default from_option] in Hb.
  unfold id in Hb. rewrite Hb.
  destruct (Z.eqb_spec x (-1)) as [->|]; net_steps; [by apply wp_die, Hexit|].
  apply Hnext; [done|]. unfold after_messages.
  cbn [packet_loop count ether_header ip_header udp_header udp_data set_ip_header set_udp_header
    set_udp_data set_count].
  split; [done|]. split; [lia|]. split; [done|]. split; [exact A4|]. split; [exact A5|].
  rewrite length_app. cbn [length]. rewrite length_drop. lia.
Qed.

Lemma raw_udp_send_loop_spec sock device s0 (g : net) fuel :
  length (eth_bytes (ether_header s0)) = 14%nat -> wf_ip (ip_header s0) ->
  Z.of_nat fuel < INT_MAX -> after_messages s0 0 s0 ->
  wpn (loop fuel (send_body sock device) s0)
    (fun o g' =>
       exists n, sent g' = sent g ++ frames_sent sock device s0 n /\ asked g g' /\
         blamed (faults g) o g' /\
         (forall i, (i < n)%nat -> sigint (polls g + i) = false) /\
         match o with
         | Done _ _ => (n < fuel)%nat /\ sigint (polls g + n)%nat = true
         | Exit code _ => (n < fuel)%nat /\ code = EXIT_FAILURE
         | NoFuel _ => n = fuel
         | Undef _ => False
         end) g.
Proof.
  intros Hlen Hwf Hfuel Ha0.
  apply (wp_loop (fun n s g' => after_messages s0 n s /\ polls g' = (polls g + n)%nat /\
           (forall i, (i < n)%nat -> sigint (polls g + i) = false) /\ asked g g' /\
           faults g' = faults g /\ sent g' = sent g ++ frames_sent sock device s0 n)).
  - split; [done|]. split; [lia|]. split; [lia|]. do 2 (split; [done|]). symmetry. apply app_nil_r.
  - intros n s g' Hn (HI & Hp & Hsig & Hask & Hfa & Hsent).
    apply (raw_udp_send_body_spec sock device s0 n); [done|done|lia|done|..]; rewrite Hp.
    + intros Ht. exists n. by repeat split; try apply Hask.
    + intros s' Hf HI'. split; [done|]. split; [simpl; lia|]. split; [|split; [exact Hask|split; [exact Hfa|]]].
      * intros i Hi. destruct (decide (i = n)) as [->|]; [done|]. apply Hsig. lia.
      * simpl. by rewrite Hsent, raw_udp_frames_sent_S, <- app_assoc.
    + intros s' Hf. exists n. do 2 (split; [done|]). split; [cbn; lia|done].
  - intros s g' (_ & _ & Hsig & Hask & Hfa & Hsent). by exists fuel.
Qed.

End loop.

(** ** Properties *)

(** The interface of the command line. *)
Definition interface_of (argv : list (list Z)) : list Z :=
  if (length argv =? 4)%nat then arg argv 3 else string_bytes "eth4".

(** Where the addresses, the port, the interface's index and the socket of a run
    come from: the lookups, asked for the host of the command line, and the port of
    the command line. *)
Definition looked_up `{!AddrText} (argv : list (list Z)) (g : net) (local remote : addr)
    (port ifindex sock : Z) : Prop :=
  (length argv = 3 \/ length argv = 4)%nat /\ atoi (arg argv 1) = Some port /\
  hosts_found (interface_of argv) (arg argv 2) None []
    [LSocket AF_PACKET SOCK_RAW (htons ETH_P_ALL) sock] g local remote ifindex.

(** What may be sent: nothing, or the datagrams of messages 0, 1, 2, ... in order,
    between the hosts and to the port that were looked up, through the socket and
    the interface of the run to the remote host's hardware address. *)
Definition datagrams_ok `{!AddrText} (argv : list (list Z)) (g : net) : Prop :=
  sent g = [] \/
  exists local remote port ifindex sock n,
    looked_up argv g local remote port ifindex sock /\ wf_addr local /\ wf_addr remote /\
    (fun x => parse_datagram x.1.2) <$> sent g = expected_datagram local remote port <$> seq 0 n /\
    Forall (fun x => x.1.1 = sock /\ x.2 = link_address ifindex remote) (sent g).

Lemma datagrams_frames `{!AddrText} argv sock ifindex local remote port s n (g : net) :
  looked_up argv g local remote port ifindex sock -> wf_addr local -> wf_addr remote ->
  headers_ok local remote port s ->
  sent g = frames_sent sock (link_address ifindex remote) s n -> datagrams_ok argv g.
Proof.
  intros Hlook Hl Hr Hh Hs. right. exists local, remote, port, ifindex, sock, n.
  split; [done|]. split; [done|]. split; [done|].
  rewrite Hs. unfold frames_sent. split.
  - rewrite <- list_fmap_compose. apply list_fmap_ext. intros _ k _. unfold compose. cbn [fst snd].
    by apply parse_udp_frame.
  - apply Forall_fmap, Forall_true. by intros k.
Qed.

(** The program from its headers on. *)
Lemma raw_udp_send_part `{!AddrText} sigint fuel argv local remote port ifindex s (g : net)
    (Q : outcome raw_udp unit -> net -> Prop) :
  wf_addr local -> wf_addr remote -> headers_ok local remote port s -> packet_loop s = 1 ->
  Z.of_nat (length (udp_data s)) = max_msg_size -> Z.of_nat fuel < INT_MAX -> sent g = [] ->
  polls g = 0%nat ->
  (forall sock, looked_up argv
     (add_lookup (LSocket AF_PACKET SOCK_RAW (htons ETH_P_ALL) sock) g)
     local remote port ifindex sock) ->
  (forall o g', datagrams_ok argv g' -> paced tt sigint fuel (length (sent g')) [] o ->
     blamed (faults g) o g' -> Q o g') ->
  net_wp sigint (send_loop fuel (link_address ifindex remote) s) Q g.
Proof.
  intros Hl Hr Hh Hloop Hdata Hfuel Hg Hp Hlook HQ. pose proof Hh as (He & Hi & Hu).
  assert (Hlen : length (eth_bytes (ether_header s)) = 14%nat).
  { rewrite He. cbn. rewrite !length_app. cbn. destruct Hl as ([-> _] & _), Hr as ([-> _] & _). done. }
  assert (Hwf : wf_ip (ip_header s)) by (rewrite Hi; repeat split; vm_compute; congruence).
  unfold send_loop. net_steps. destruct (_ =? -1).
  { apply wp_die, HQ; [by left| |cbn; lia]. cbn. rewrite Hg. repeat split; cbn; lia. }
  net_steps.
  eapply wp_mono; [apply (raw_udp_send_loop_spec sigint _ _ (set_count 0 s)); [exact Hlen|exact Hwf|exact Hfuel|]|].
  { by repeat (split; [done|]). }
  intros o g' (n & Hs & [Ha1 Ha2] & Hb & Hsig & Ho). cbn [sent polls add_lookup note_fault] in *.
  rewrite Hg in Hs.
  apply HQ.
  - eapply (datagrams_frames argv x ifindex local remote port (set_count 0 s) n); [|done..].
    unfold looked_up, hosts_found. rewrite Ha1, Ha2. apply Hlook.
  - rewrite Hs. unfold frames_sent. rewrite length_app, length_fmap, length_seq. rewrite Hp in *.
    cbn [length Nat.add] in *. destruct o as [[]| | |]; unfold paced; intuition lia.
  - exact Hb.
Qed.

(** What the program does not handle: a host that does not resolve, an entry of
    the interface without an address, a port that is no int. *)
Definition raw_udp_undefs : list string := lookup_undefs ++ ["atoi"].

(** A whole run; it has a wrong number of arguments when it prints its usage. *)
Definition raw_udp_run_ok `{!AddrText} sigint fuel argv (o : outcome raw_udp Z) (g : net) : Prop :=
  datagrams_ok argv g /\ paced EXIT_SUCCESS sigint fuel (length (sent g)) raw_udp_undefs o /\
  ((length argv = 3 \/ length argv = 4)%nat -> blamed 0 o g).

Lemma raw_udp_stopped `{!AddrText} sigint fuel argv (o : outcome raw_udp Z) g :
  sent g = [] ->
  match o with
  | Exit code _ => code = EXIT_FAILURE /\
      ((length argv = 3 \/ length argv = 4)%nat -> (0 < faults g)%nat)
  | Undef w => w ∈ raw_udp_undefs
  | _ => False
  end ->
  raw_udp_run_ok sigint fuel argv o g.
Proof.
  intros Hs Ho. split; [by left|]. rewrite Hs. destruct o as [z s|c s|w|s]; try done.
  destruct Ho as [-> Hf]. split; [|done]. cbn. repeat split; lia.
Qed.

Lemma raw_udp_main_spec `{!AddrText} `{!AddrTextOk _} sigint fuel argv :
  Z.of_nat fuel < INT_MAX ->
  net_wp sigint (main fuel argv raw_udp0) (raw_udp_run_ok sigint fuel argv) net0.
Proof.
  intros Hfuel. unfold main. net_steps.
  destruct (negb (x =? 0)).
  { apply wp_die, raw_udp_stopped; [done|]. split; [done|]. cbn. lia. }
  destruct (negb _) eqn:Eargc.
  { net_steps. apply raw_udp_stopped; [done|]. split; [done|]. rewrite <- !Nat.eqb_eq.
    intros [E|E]; rewrite E in Eargc; rewrite ?orb_true_r in Eargc; discriminate. }
  apply negb_false_iff, orb_true_iff in Eargc. rewrite !Nat.eqb_eq in Eargc.
  fold (interface_of argv).
  assert (HU : forall w, w ∈ lookup_undefs -> w ∈ raw_udp_undefs)
    by (intros; apply elem_of_app; by left).
  apply wp_lookup_local; [|intros g' [E _] Hf; apply raw_udp_stopped; [done|split; [done|lia]]
    |by intros w g' Hw [E _]; apply raw_udp_stopped, HU].
  intros l g1 (Hg1 & _ & _ & Hp1) Hq1 Hl1 Hf1 Hl.
  apply wp_bind. intros [] _. cbn [wp continue]. apply wp_bind. apply wp_printf_all. cbn [wp continue].
  apply wp_lookup_remote; [|intros g' [E _] Hf; apply raw_udp_stopped; [by rewrite E|split; [done|lia]]
    |by intros w g' Hw [E _]; apply raw_udp_stopped; [rewrite E|apply HU]].
  intros x3 fd arp g3 (Hg3 & _ & _ & Hp3) Hq3 Hl3 Hf3 Hr.
  cbn in Hg3, Hq3, Hl3, Hp3, Hf3, Hf1. rewrite Hg1 in Hg3. rewrite Hq1 in Hq3. rewrite Hl1 in Hl3.
  rewrite Hp1 in Hp3. rewrite Hf1 in Hf3.
  apply wp_bind. intros [] _. cbn [wp continue]. apply wp_bind. apply wp_printf_all.
  cbn [wp continue]. apply wp_bind. intros ifindex _. cbn [wp continue gnext NetEnv net_next].
  destruct (_ =? 0).
  { apply wp_die, raw_udp_stopped; [done|]. split; [done|]. cbn. lia. }
  net_steps. destruct (atoi _) as [port|] eqn:Eport; net_steps;
    [|apply raw_udp_stopped; [done|by repeat constructor]].
  unfold id. eapply (raw_udp_send_part _ _ argv (local_addr_spec (interface_of argv) l addr0)
    (remote_addr None x3 arp.2) port ifindex); try done.
  - split; [by destruct Eargc; auto|]. split; [done|]. split; [by exists l|].
    exists x3, fd, arp. split; [done|]. cbn. by rewrite Hq3.
  - cbn [faults note_fault add_lookup add_printed]. rewrite Hf3.
    intros o g' Hok Hpace Hb. destruct o as [[] s1|c s1|w|s1]; net_steps; (split; [exact Hok|]).
    + by destruct Hpace as [_ Hpace].
    + by split.
    + by apply elem_of_nil in Hpace.
    + by split.
Qed.

(** C23: the program, for every command line, signal schedule and answer of the
    system: what it sends are, in order, the datagrams of messages 0, 1, 2, ...,
    through the socket it opened and the interface of the command line: an
    Ethernet frame between the two hosts' hardware addresses, an IPv4 header that
    is valid and has the right lengths and the two hosts' addresses, a UDP header
    from port 4242 to the port of the command line, and exactly the message as
    payload.  The local addresses are those the system lists for the interface;
    the remote ones are the resolver's for the host of the command line, and the
    ARP table's for that address on that interface.  (The identification the
    receiver sees is 0, and the don't-fragment bit is clear.)  It returns at the
    first test of the flag after SIGINT, having sent one datagram per test before;
    otherwise it exits with EXIT_FAILURE, because a call failed or its arguments
    are too few or too many, or its behaviour is undefined in one of the three
    ways of [raw_udp_undefs]. *)
Theorem raw_udp_main_correct `{!AddrText} `{!AddrTextOk _} sigint fuel argv :
  Z.of_nat fuel < INT_MAX ->
  net_wp sigint (main fuel argv raw_udp0) (fun o g =>
    datagrams_ok argv g /\ paced EXIT_SUCCESS sigint fuel (length (sent g)) raw_udp_undefs o /\
    ((length argv = 3 \/ length argv = 4)%nat -> blamed 0 o g)) net0.
Proof. apply raw_udp_main_spec. Qed.

Lemma raw_udp_main_correct_witness :
  let argv := [[]; string_bytes "4242"; string_bytes "host"] in
  net_wp (Nat.eqb 2) (@main text_example 3 argv raw_udp0) (fun o g =>
    @datagrams_ok text_example argv g /\ paced EXIT_SUCCESS (Nat.eqb 2) 3 (length (sent g)) raw_udp_undefs o /\
    ((length argv = 3 \/ length argv = 4)%nat -> blamed 0 o g)) net0.
Proof.
  apply (@raw_udp_main_correct text_example text_example_ok (Nat.eqb 2) 3). reflexivity.
Defined.

(** The loop sends one frame per turn, and stops at the first test of the
    loop flag after SIGINT, or exits when the socket or a send fails. *)
Theorem raw_udp_loop_correct sigint fuel device s0 (g : net) :
  length (eth_bytes (ether_header s0)) = 14%nat -> wf_ip (ip_header s0) -> packet_loop s0 = 1 ->
  Z.of_nat (length (udp_data s0)) = max_msg_size -> Z.of_nat fuel < INT_MAX ->
  net_wp sigint (send_loop fuel device s0) (fun o g' =>
    exists sock n, sent g' = sent g ++ frames_sent sock device s0 n /\
      (forall i, (i < n)%nat -> sigint (polls g + i)%nat = false) /\
      match o with
      | Done _ _ => (n < fuel)%nat /\ sigint (polls g + n)%nat = true
      | Exit code _ => code = EXIT_FAILURE
      | NoFuel _ => n = fuel
      | Undef _ => False
      end) g.
Proof.
  intros Hlen Hwf Hloop Hdata Hfuel. unfold send_loop. net_steps.
  destruct (Z.eqb_spec x (-1)) as [->|]; net_steps.
  { apply wp_die. exists 0, O. split; [symmetry; apply app_nil_r|]. split; [lia|done]. }
  eapply wp_mono; [apply (raw_udp_send_loop_spec sigint x device (set_count 0 s0)); done|].
  intros o g' (m & Hs & _ & _ & Hi & Ho). exists x, m. split; [exact Hs|]. split; [done|].
  by destruct o; intuition.
Qed.

Lemma raw_udp_loop_correct_witness :
  net_wp (Nat.eqb 2) (send_loop 3 {| sll_family := AF_PACKET; sll_ifindex := 1;
      sll_halen := 6; sll_addr := replicate 8 0 |} raw_udp0)
    (fun o g => forall s, o <> NoFuel s) net0.
Proof.
  eapply wp_mono.
  - apply (raw_udp_loop_correct (Nat.eqb 2) 3).
    + reflexivity.
    + repeat split; vm_compute; congruence.
    + reflexivity.
    + change (udp_data raw_udp0) with (replicate (Z.to_nat max_msg_size) 0).
      by rewrite length_replicate.
    + reflexivity.
  - intros o g' (sock & n & _ & Hi & Ho) s ->. subst n. specialize (Hi 2%nat). simpl in Hi.
    discriminate Hi. lia.
Defined.
