(* ===== verification/Udp.v ===== *)
(** udp.c: UDP datagrams through an ordinary socket; the receiving and the
    sending program in one.

    The state is the loop flag, the static buffer, and the local variables that
    live across iterations: the sender's counter and the receiver's address
    text, [None] while it is uninitialised. *)
From S2P Require Import Prelude CInt CLib RawPacket Prog Posix.
Local Open Scope Z_scope.
Local Open Scope c_scope.

Definition sizeof_udp_buffer : Z := 65535.
Definition IPPROTO_UDP : Z := 17.
Definition AI_PASSIVE : Z := 1.
Definition AI_NUMERICHOST : Z := 4.

Record udp := {
  packet_loop : Z;
  udp_buffer : list Z;
  count : Z;
  addr_str : option (list Z)
}.

Definition set_packet_loop x (s : udp) : udp :=
  {| packet_loop := x; udp_buffer := udp_buffer s; count := count s; addr_str := addr_str s |}.
Definition set_udp_buffer x (s : udp) : udp :=
  {| packet_loop := packet_loop s; udp_buffer := x; count := count s; addr_str := addr_str s |}.
Definition set_count x (s : udp) : udp :=
  {| packet_loop := packet_loop s; udp_buffer := udp_buffer s; count := x; addr_str := addr_str s |}.
Definition set_addr_str x (s : udp) : udp :=
  {| packet_loop := packet_loop s; udp_buffer := udp_buffer s; count := count s; addr_str := x |}.

Definition udp0 : udp :=
  {| packet_loop := 1; udp_buffer := replicate (Z.to_nat sizeof_udp_buffer) 0; count := 0;
     addr_str := None |}.

(** The signal handler. *)
Definition stop_loop (s : udp) : udp := set_packet_loop 0 s.

(** The string at the start of a buffer, as %s prints it. *)
Fixpoint c_string (l : list Z) : list Z :=
  match l with
  | [] => []
  | c :: l => if c =? 0 then [] else c :: c_string l
  end.

Section code.
Context `{!AddrText}.

Definition loop_test : M posix udp bool :=
  let! delivered := call SigintDelivered in
  (if delivered : bool then modify stop_loop else ret tt) ;!
  gets (fun s => negb (packet_loop s =? 0)).

(** The switch on the address family.  [src_addr] is a struct sockaddr, too
    small for the address of an IPv6 peer. *)
Definition format_source (src : sockaddr) : M posix udp unit :=
  match src with
  | SaInet a => modify (set_addr_str (Some (inet_ntop4 a)))
  | SaInet6 _ => undef "sin6_addr is outside src_addr"
  | _ => ret tt
  end.

(** The body of the receiving loop; [Some tt] leaves it. *)
Definition receive_body (sock : Z) : M posix udp (option unit) :=
  let! go := loop_test in
  if negb go then ret (Some tt) else
  let! (size, bytes, src) := call (RecvFrom sock sizeof_udp_buffer) in
  if size =? -1 then die "Error receiving packet" else
  let! s := gets id in
  let! buf := defined "recvfrom" (store_bytes 0 bytes (udp_buffer s)) in
  let! buf := defined "udp_buffer[size]" (store_bytes (Z.to_nat size) [0] buf) in
  modify (set_udp_buffer buf) ;!
  format_source src ;!
  let! a := gets addr_str in
  let! a := defined "addr_str is uninitialised" a in
  let! _ := call (Printf (a ++ string_bytes ": " ++ c_string buf ++ newline)) in
  ret None.

Definition server_loop (fuel : nat) (sock : Z) : M posix udp unit :=
  modify (set_addr_str None) ;!
  loop fuel (receive_body sock).

(** The body of the sending loop. *)
Definition send_body (sock : Z) (ai_addr : sockaddr) : M posix udp (option unit) :=
  let! go := loop_test in
  if negb go then ret (Some tt) else
  let! s := gets id in
  let (msg_size, buf) := snprintf (udp_buffer s) sizeof_udp_buffer (message (count s)) in
  if count s =? INT_MAX then undef "count++ overflows" else
  modify (set_count (count s + 1)) ;!
  let! buf := defined "snprintf writes past udp_buffer" buf in
  modify (set_udp_buffer buf) ;!
  if (msg_size <? 0) || (sizeof_udp_buffer <=? msg_size) then
    call (Perror "Error creating message") ;! call Freeaddrinfo ;! exit_ EXIT_FAILURE
  else
  let! result := call (SendTo sock (take (Z.to_nat msg_size) buf) ai_addr) in
  if negb (result =? msg_size) then
    call (Perror "Error sending message") ;! call Freeaddrinfo ;! exit_ EXIT_FAILURE
  else
  call (Sleep 1) ;!
  ret None.

Definition client_loop (fuel : nat) (sock : Z) (address port : list Z) : M posix udp unit :=
  modify (set_count 0) ;!
  let! (result, ai_addr) := call (Getaddrinfo (Some address) (Some port) AI_NUMERICHOST) in
  if negb (result =? 0) then
    let! e := call (GaiStrerror result) in
    call (Eprintf (string_bytes "Error finding local adddress: " ++ e ++ [10])) ;!
    exit_ EXIT_FAILURE
  else
  loop fuel (send_body sock ai_addr) ;!
  call Freeaddrinfo.

Definition arg (argv : list (list Z)) (i : nat) : list Z := default [] (argv !! i).

Definition main (fuel : nat) (argv : list (list Z)) : M posix udp Z :=
  let! r := call Sigaction in
  if negb (r =? 0) then die "Couldn't install signal handler" else
  let argc := length argv in
  if negb ((argc =? 2)%nat || (argc =? 3)%nat) then
    call (Eprintf (string_bytes "Usage: udp <port number> [<destination IP>]" ++ newline)) ;!
    exit_ EXIT_FAILURE
  else
  let local_port := if (argc =? 2)%nat then arg argv 1 else string_bytes "0" in
  let! (result, ai_addr) := call (Getaddrinfo None (Some local_port) AI_PASSIVE) in
  if negb (result =? 0) then
    let! e := call (GaiStrerror result) in
    call (Eprintf (string_bytes "Error finding local adddress: " ++ e ++ [10])) ;!
    exit_ EXIT_FAILURE
  else
  let! sock := call (Socket AF_INET SOCK_DGRAM IPPROTO_UDP) in
  if sock =? -1 then die "Error creating socket" else
  let! result := call (Bind sock ai_addr) in
  if result =? -1 then
    call (Perror "Error binding socket") ;! call Freeaddrinfo ;! exit_ EXIT_FAILURE
  else
  call Freeaddrinfo ;!
  (if (argc =? 3)%nat then client_loop fuel sock (arg argv 2) (arg argv 1)
   else server_loop fuel sock) ;!
  ret 0.

End code.

(** ** The sender *)

Definition after_messages (n : nat) (s : udp) : Prop :=
  packet_loop s = 1 /\ count s = Z.of_nat n /\
  Z.of_nat (length (udp_buffer s)) = sizeof_udp_buffer.

Definition messages_sent (sock : Z) (dest : sockaddr) (n : nat) : list (Z * list Z * sockaddr) :=
  (fun k => (sock, message (Z.of_nat k), dest)) <$> seq 0 n.

Lemma messages_sent_S sock dest n :
  messages_sent sock dest (S n) =
    messages_sent sock dest n ++ [(sock, message (Z.of_nat n), dest)].
Proof. unfold messages_sent. by rewrite seq_S, fmap_app. Qed.

Section sender.
Context `{!AddrText} (sigint : nat -> bool).
Local Abbreviation wpn := (net_wp sigint).

Lemma udp_send_body_spec sock dest n s (g : net) (Q : outcome udp (option unit) -> net -> Prop) :
  Z.of_nat n < INT_MAX -> after_messages n s ->
  (sigint (polls g) = true -> Q (Done (Some tt) (stop_loop s)) (add_poll g)) ->
  (forall s', sigint (polls g) = false -> after_messages (S n) s' ->
     Q (Done None s') (add_sent_in (sock, message (Z.of_nat n), dest) (add_poll g))) ->
  (forall s' g', sigint (polls g) = false -> faults g' = S (faults g) ->
     sent_in g' = sent_in g \/ sent_in g' = sent_in g ++ [(sock, message (Z.of_nat n), dest)] ->
     Q (Exit EXIT_FAILURE s') g') ->
  wpn (send_body sock dest s) Q g.
Proof.
  intros Hn (A1 & A2 & A3) Hstop Hnext Hexit.
  unfold send_body, loop_test. net_steps. subst x.
  destruct (sigint (polls g)) eqn:Esig; net_steps; [by apply Hstop|].
  rewrite A1. cbn [Z.eqb negb]. net_steps. unfold id. rewrite A2.
  pose proof (length_message (Z.of_nat n)) as Hm. set (m := message (Z.of_nat n)) in *.
  assert (Hmax : 50 < sizeof_udp_buffer) by done.
  rewrite snprintf_fits by lia. rewrite (proj2 (Z.eqb_neq _ _)) by lia. net_steps.
  rewrite (proj2 (Z.ltb_ge _ _)), (proj2 (Z.leb_gt _ _)) by lia. cbn [orb]. net_steps.
  rewrite Nat2Z.id, take_app_length. destruct (Z.eqb_spec x (Z.of_nat (length m))) as [->|Hne]; cbn [negb].
  - rewrite (proj2 (Z.eqb_neq _ _)) by lia. net_steps. apply Hnext; [done|].
    split; [done|]. cbn [count udp_buffer set_udp_buffer set_count]. split; [lia|].
    rewrite length_app. cbn [length]. rewrite length_drop. lia.
  - net_steps. destruct (x =? -1).
    + apply Hexit; [done|done|by left].
    + apply Hexit; [done|done|by right].
Qed.

Lemma udp_send_loop_spec sock dest s0 (g : net) fuel :
  Z.of_nat fuel < INT_MAX -> after_messages 0 s0 ->
  wpn (loop fuel (send_body sock dest) s0)
    (fun o g' =>
       exists n, sent_in g' = sent_in g ++ messages_sent sock dest n /\ blamed (faults g) o g' /\
         match o with
         | Done _ _ => (n < fuel)%nat /\ sigint (polls g + n)%nat = true /\
                       (forall i, (i < n)%nat -> sigint (polls g + i) = false)
         | Exit code _ => (n <= fuel)%nat /\ code = EXIT_FAILURE
         | NoFuel _ => n = fuel /\ (forall i, (i < n)%nat -> sigint (polls g + i) = false)
         | Undef _ => False
         end) g.
Proof.
  intros Hfuel Ha0.
  apply (wp_loop (fun n s g' => after_messages n s /\ polls g' = (polls g + n)%nat /\
           (forall i, (i < n)%nat -> sigint (polls g + i) = false) /\ faults g' = faults g /\
           sent_in g' = sent_in g ++ messages_sent sock dest n)).
  - split; [done|]. split; [lia|]. split; [lia|]. split; [done|]. symmetry. apply app_nil_r.
  - intros n s g' Hn (HI & Hp & Hsig & Hfa & Hsent).
    apply (udp_send_body_spec sock dest n); [lia|done|..]; rewrite Hp.
    + intros Ht. exists n. by repeat split.
    + intros s' Hf HI'. split; [done|]. split; [simpl; lia|]. split; [|split; [exact Hfa|]].
      * intros i Hi. destruct (decide (i = n)) as [->|]; [done|]. apply Hsig. lia.
      * simpl. by rewrite Hsent, messages_sent_S, <- app_assoc.
    + intros s' g2 Hf Hf2 [E|E].
      * exists n. rewrite E. split; [done|]. split; [cbn; lia|]. split; [lia|done].
      * exists (S n). rewrite E, Hsent, messages_sent_S, <- app_assoc. split; [done|].
        split; [cbn; lia|]. split; [lia|done].
  - intros s g' (_ & _ & Hsig & Hfa & Hsent). by exists fuel.
Qed.

End sender.

(** ** The receiver *)

Lemma c_string_app_0 l l' : c_string (l ++ 0 :: l') = c_string l.
Proof. induction l as [|c l IH]; simpl; [done|]. destruct (c =? 0); [done|]. by rewrite IH. Qed.

(** Storing a datagram and its terminating zero: fine unless the datagram fills
    the buffer. *)
Lemma store_datagram bytes buf :
  Z.of_nat (length buf) = sizeof_udp_buffer ->
  Z.of_nat (length bytes) <= sizeof_udp_buffer ->
  store_bytes 0 bytes buf = Some (bytes ++ drop (length bytes) buf) /\
  store_bytes (length bytes) [0] (bytes ++ drop (length bytes) buf) =
    (if Z.of_nat (length bytes) =? sizeof_udp_buffer then None
     else Some (bytes ++ 0 :: drop (S (length bytes)) buf)).
Proof.
  intros Hb Hs. split.
  - rewrite store_bytes_Some by lia. done.
  - unfold store_bytes. rewrite length_app, length_drop. cbn [length].
    destruct (Z.eqb_spec (Z.of_nat (length bytes)) sizeof_udp_buffer).
    + rewrite (proj2 (Nat.leb_gt _ _)) by lia. done.
    + rewrite (proj2 (Nat.leb_le _ _)) by lia. rewrite take_app_length. do 2 f_equal.
      rewrite drop_app_ge by lia. rewrite drop_drop. simpl. do 2 f_equal. lia.
Qed.

(** What the receiver prints for the datagrams it gets, by [heard]: the text of
    the address, or why there is none and the program's behaviour is undefined.
    [last] is the text of the datagram before. *)
Definition heard `{!AddrText} (last : option (list Z)) (d : list Z * sockaddr) : list Z + string :=
  if Z.of_nat (length d.1) =? sizeof_udp_buffer then inr "udp_buffer[size]"%string
  else match d.2 with
       | SaInet a => inl (inet_ntop4 a)
       | SaInet6 _ => inr "sin6_addr is outside src_addr"%string
       | _ => match last with
              | Some a => inl a
              | None => inr "addr_str is uninitialised"%string
              end
       end.

(** The reasons. *)
Definition receiver_undefs : list string :=
  ["udp_buffer[size]"; "sin6_addr is outside src_addr"; "addr_str is uninitialised"].

Definition udp_line (address bytes : list Z) : list Z :=
  address ++ string_bytes ": " ++ c_string bytes ++ newline.

(** The lines for a sequence of datagrams, and the text it ends with or the
    reason it is undefined. *)
Fixpoint served `{!AddrText} (last : option (list Z)) (ds : list (list Z * sockaddr)) :
    list (list Z) * (option (list Z) + string) :=
  match ds with
  | [] => ([], inl last)
  | d :: ds =>
      match heard last d with
      | inr why => ([], inr why)
      | inl a => let r := served (Some a) ds in (udp_line a d.1 :: r.1, r.2)
      end
  end.

Lemma served_undef `{!AddrText} last ds w : (served last ds).2 = inr w -> w ∈ receiver_undefs.
Proof.
  revert last. induction ds as [|d ds IH]; intros last; cbn [served]; [done|].
  destruct (heard last d) as [a|why] eqn:E; cbn [snd]; [apply IH|]. intros [= ->].
  unfold heard in E. repeat case_match; try done; injection E as <-; by repeat constructor.
Qed.

Lemma served_snoc `{!AddrText} last ds d a :
  (served last ds).2 = inl a ->
  served last (ds ++ [d]) =
    match heard a d with
    | inr why => ((served last ds).1, inr why)
    | inl t => ((served last ds).1 ++ [udp_line t d.1], inl (Some t))
    end.
Proof.
  revert last. induction ds as [|e ds IH]; intros last Hs; cbn [app served] in *.
  - injection Hs as ->. by destruct (heard a d).
  - destruct (heard last e) as [t|w]; [|done]. cbn [fst snd] in *. rewrite (IH _ Hs).
    by destruct (heard a d).
Qed.

(** How the receiver ended, after the datagrams [ds]: its flag was set at the test
    before each of them.  It returns only when the next test finds it cleared. *)
Definition received_all `{!AddrText} {A} (running : nat -> bool) (fuel : nat)
    (last : option (list Z)) (ds : list (list Z * sockaddr)) (o : outcome udp A) : Prop :=
  (forall i, (i < length ds)%nat -> running i = true) /\
  match o with
  | Undef w => (served last ds).2 = inr w
  | Done _ _ => (length ds < fuel)%nat /\ running (length ds) = false
  | Exit code _ => (length ds < fuel)%nat /\ running (length ds) = true /\ code = EXIT_FAILURE
  | NoFuel _ => length ds = fuel
  end /\
  (forall w, (served last ds).2 = inr w -> o = Undef w).

(** Whether test [i] from now on finds the flag set. *)
Definition runs_at (sigint : nat -> bool) (g : net) (i : nat) : bool :=
  negb (sigint (polls g + i)%nat).

Section receiver.
Context `{!AddrText} (sigint : nat -> bool).
Local Abbreviation wpn := (net_wp sigint).

Lemma udp_receive_body_spec sock s (g : net) (Q : outcome udp (option unit) -> net -> Prop) :
  packet_loop s = 1 -> Z.of_nat (length (udp_buffer s)) = sizeof_udp_buffer ->
  (sigint (polls g) = true -> Q (Done (Some tt) (stop_loop s)) (add_poll g)) ->
  (sigint (polls g) = false -> Q (Exit EXIT_FAILURE s) (add_fault (add_poll g))) ->
  (forall d, sigint (polls g) = false ->
     match heard (addr_str s) d with
     | inr why => Q (Undef why) (add_datagram d (add_poll g))
     | inl a => forall s', packet_loop s' = 1 -> addr_str s' = Some a ->
         Z.of_nat (length (udp_buffer s')) = sizeof_udp_buffer ->
         Q (Done None s') (add_printed [udp_line a d.1] (add_datagram d (add_poll g)))
     end) ->
  wpn (receive_body sock s) Q g.
Proof.
  intros Hloop Hbuf Hstop Hexit Hnext. unfold receive_body, loop_test. net_steps. subst x.
  destruct (sigint (polls g)) eqn:Esig; net_steps; [by apply Hstop|].
  rewrite Hloop. cbn [Z.eqb negb]. net_steps. destruct x as [[size bytes] src]. cbn [fst snd] in *.
  net_steps. destruct (Z.eqb_spec size (-1)) as [->|Hne]; net_steps; [by apply wp_die, Hexit|].
  destruct Hx as [|((H0 & Hle) & Hlen & Hb)]; [done|]. subst size. unfold id.
  destruct (store_datagram bytes (udp_buffer s) Hbuf ltac:(lia)) as [E1 E2].
  rewrite E1. net_steps. rewrite Nat2Z.id, E2. specialize (Hnext (bytes, src) eq_refl).
  unfold heard in Hnext. cbn [fst snd] in Hnext.
  destruct (Z.eqb_spec (Z.of_nat (length bytes)) sizeof_udp_buffer) as [Emax|Emax]; net_steps; [done|].
  set (buf := bytes ++ 0 :: drop (S (length bytes)) (udp_buffer s)).
  assert (Hbl : Z.of_nat (length buf) = sizeof_udp_buffer).
  { unfold buf. rewrite length_app. cbn [length]. rewrite length_drop. lia. }
  assert (Hstr : c_string buf = c_string bytes) by apply c_string_app_0.
  unfold format_source. rewrite Hstr.
  destruct src as [a|a|a|f]; net_steps; cbn [addr_str set_addr_str set_udp_buffer].
  3,4: destruct (addr_str s) as [t|] eqn:Et.
  all: net_steps; try done; by apply Hnext.
Qed.

(** The receiving loop. *)
Lemma udp_receive_loop_spec sock s0 (g : net) fuel :
  packet_loop s0 = 1 -> Z.of_nat (length (udp_buffer s0)) = sizeof_udp_buffer ->
  wpn (loop fuel (receive_body sock) s0)
    (fun o g' => exists ds, datagrams g' = datagrams g ++ ds /\
       printed g' = printed g ++ (served (addr_str s0) ds).1 /\ blamed (faults g) o g' /\
       received_all (runs_at sigint g) fuel (addr_str s0) ds o) g.
Proof.
  intros Hloop Hbuf.
  apply (wp_loop (fun n s g' => packet_loop s = 1 /\
           Z.of_nat (length (udp_buffer s)) = sizeof_udp_buffer /\ polls g' = (polls g + n)%nat /\
           exists ds, length ds = n /\ datagrams g' = datagrams g ++ ds /\
             printed g' = printed g ++ (served (addr_str s0) ds).1 /\
             (forall i, (i < length ds)%nat -> runs_at sigint g i = true) /\ faults g' = faults g /\
             (served (addr_str s0) ds).2 = inl (addr_str s))).
  - split; [done|]. split; [done|]. split; [lia|]. exists []. rewrite !app_nil_r.
    repeat (split; [done|]). split; [cbn; lia|done].
  - intros n s g' Hn (Hl & Hb & Hp & ds & Hds & Hd & Hpr & Hrun & Hfa & Hs). unfold received_all.
    assert (Hat : runs_at sigint g (length ds) = negb (sigint (polls g')))
      by (by rewrite Hp, Hds).
    apply udp_receive_body_spec; [done|done|..].
    + intros Ht. exists ds. rewrite Hat, Ht, Hs, Hds. by rewrite Hds in Hrun.
    + intros Ht. exists ds. rewrite Hat, Ht, Hs, Hds. rewrite Hds in Hrun.
      split; [done|]. split; [done|]. split; [cbn; lia|done].
    + intros d Ht. pose proof (served_snoc _ _ d _ Hs) as E.
      assert (Hrun' : forall i, (i < length (ds ++ [d]))%nat -> runs_at sigint g i = true).
      { intros i. rewrite length_app. cbn. intros Hi. destruct (decide (i = length ds)) as [->|];
          [by rewrite Hat, Ht|apply Hrun; lia]. }
      destruct (heard (addr_str s) d) as [a|w].
      * intros s' Hl' Ha' Hb'. split; [done|]. split; [done|]. split; [simpl; lia|].
        exists (ds ++ [d]). rewrite E, Ha'. cbn [datagrams printed add_printed add_datagram add_poll].
        rewrite Hd, Hpr, <- !app_assoc. split; [rewrite length_app; simpl; lia|]. by repeat split.
      * exists (ds ++ [d]). rewrite E. cbn [datagrams printed add_datagram add_poll].
        rewrite Hd, Hpr, <- !app_assoc. repeat split; [done|]. by intros ? [= ->].
  - intros s g' (_ & _ & _ & ds & Hds & Hd & Hpr & Hrun & Hfa & Hs). exists ds. unfold received_all.
    rewrite Hs. by repeat split.
Qed.

End receiver.

(** ** Properties *)

Lemma udp_client_spec sigint fuel sock address port s (g : net) :
  packet_loop s = 1 -> Z.of_nat (length (udp_buffer s)) = sizeof_udp_buffer ->
  Z.of_nat fuel < INT_MAX ->
  net_wp sigint (client_loop fuel sock address port s) (fun o g' =>
    blamed (faults g) o g' /\
    exists dest n, sent_in g' = sent_in g ++ messages_sent sock dest n /\
      match o with
      | Done _ _ => (n < fuel)%nat /\ sigint (polls g + n)%nat = true /\
                    (forall i, (i < n)%nat -> sigint (polls g + i)%nat = false)
      | Exit code _ => code = EXIT_FAILURE
      | NoFuel _ => n = fuel /\ (forall i, (i < n)%nat -> sigint (polls g + i)%nat = false)
      | Undef _ => False
      end) g.
Proof.
  intros Hloop Hbuf Hfuel. unfold client_loop. net_steps. destruct x as [r dest]. net_steps.
  destruct (r =? 0) eqn:Er; cbn [negb]; net_steps.
  2: { split; [cbn; rewrite Er; cbn; lia|]. exists dest, O. split; [symmetry; apply app_nil_r|done]. }
  eapply wp_mono; [apply (udp_send_loop_spec sigint sock dest (set_count 0 s)); by try repeat split|].
  cbn [faults sent_in polls note_fault add_lookup set_resolved fst]. rewrite Er. cbn [negb].
  intros o g' (n & Hs & Hb & Ho). destruct o as [[] s'|c s'|w|s']; net_steps;
    (split; [exact Hb|]); exists dest, n; (split; [exact Hs|]); by intuition.
Qed.

(** The sender, for every signal schedule and answer of the system.  It
    sends messages 0, 1, 2, ... in order, each exactly its text and without the
    terminating zero, to the resolved address; it stops at the first test of
    the loop flag after SIGINT; it exits when the address cannot be resolved or
    a message is not sent whole. *)
Theorem udp_client_correct sigint fuel sock address port s (g : net) :
  packet_loop s = 1 -> Z.of_nat (length (udp_buffer s)) = sizeof_udp_buffer ->
  Z.of_nat fuel < INT_MAX ->
  net_wp sigint (client_loop fuel sock address port s) (fun o g' =>
    exists dest n, sent_in g' = sent_in g ++ messages_sent sock dest n /\
      match o with
      | Done _ _ => (n < fuel)%nat /\ sigint (polls g + n)%nat = true /\
                    (forall i, (i < n)%nat -> sigint (polls g + i)%nat = false)
      | Exit code _ => code = EXIT_FAILURE
      | NoFuel _ => n = fuel /\ (forall i, (i < n)%nat -> sigint (polls g + i)%nat = false)
      | Undef _ => False
      end) g.
Proof. intros. eapply wp_mono; [by apply udp_client_spec|]. by intros o g' [_ Ho]. Qed.

Lemma udp_client_correct_witness :
  net_wp (Nat.eqb 2) (client_loop 3 5 [] [] udp0) (fun o g => forall w, o <> Undef w) net0.
Proof.
  eapply wp_mono.
  - apply (udp_client_correct (Nat.eqb 2) 3).
    + reflexivity.
    + change (udp_buffer udp0) with (replicate (Z.to_nat sizeof_udp_buffer) 0).
      by rewrite length_replicate.
    + reflexivity.
  - intros o g' (dest & n & _ & Ho) w ->. exact Ho.
Defined.

(** What one turn of the receiver does with a datagram of [bytes] from [src]. *)
Definition received `{!AddrText} (s : udp) (bytes : list Z) (src : sockaddr)
    (o : outcome udp (option unit)) (out : list (list Z)) : Prop :=
  if Z.of_nat (length bytes) =? sizeof_udp_buffer then o = Undef "udp_buffer[size]"
  else
    let line a := a ++ string_bytes ": " ++ c_string bytes ++ newline in
    let next a := exists s', o = Done None s' /\ packet_loop s' = 1 /\ addr_str s' = Some a /\
                    Z.of_nat (length (udp_buffer s')) = sizeof_udp_buffer /\ out = [line a] in
    match src with
    | SaInet a => next (inet_ntop4 a)
    | SaInet6 _ => o = Undef "sin6_addr is outside src_addr"
    | _ => match addr_str s with
           | Some a => next a
           | None => o = Undef "addr_str is uninitialised"
           end
    end.

(** The end of a turn: print the datagram. *)
Lemma received_end `{!AddrText} sigint s bytes src (g : net)
    (buf := bytes ++ 0 :: drop (S (length bytes)) (udp_buffer s)) :
  packet_loop s = 1 -> Z.of_nat (length (udp_buffer s)) = sizeof_udp_buffer ->
  Z.of_nat (length bytes) < sizeof_udp_buffer ->
  net_wp sigint ((format_source src ;!
     let! a := gets addr_str in
     let! a := defined "addr_str is uninitialised" a in
     let! _ := call (Printf (a ++ string_bytes ": " ++ c_string buf ++ newline)) in
     ret None)%C (set_udp_buffer buf s))
   (fun o g' => exists out, received s bytes src o out /\
      (forall a s', o = Done a s' -> printed g' = printed g ++ out)) g.
Proof.
  intros Hloop Hbuf Hlt. unfold received. rewrite (proj2 (Z.eqb_neq _ _)) by lia.
  assert (Hbl : Z.of_nat (length buf) = sizeof_udp_buffer).
  { unfold buf. rewrite length_app. cbn [length]. rewrite length_drop. lia. }
  assert (Hstr : c_string buf = c_string bytes) by apply c_string_app_0.
  unfold format_source. rewrite Hstr.
  destruct src as [a|a|a|f]; net_steps; cbn [addr_str set_addr_str set_udp_buffer].
  2: { by exists []. }
  2,3: destruct (addr_str s) as [t|] eqn:Et; net_steps; [|by exists []].
  all: eexists; split; [|by intros]; eexists; by repeat split.
Qed.

(** One turn of the receiving loop.  After SIGINT it stops.  Otherwise it
    receives a datagram of at most 65535 bytes, or exits when that fails.  From
    an IPv4 peer it prints the peer's address and the datagram, up to its first
    zero byte, on one line.  A datagram of 65535 bytes makes it store a zero
    past the end of its buffer; a peer of another family makes it print the
    address of the previous datagram, or an uninitialised one. *)
Theorem udp_server_turn `{!AddrText} sigint sock s (g : net) :
  packet_loop s = 1 -> Z.of_nat (length (udp_buffer s)) = sizeof_udp_buffer ->
  net_wp sigint (receive_body sock s) (fun o g' =>
    if sigint (polls g) then o = Done (Some tt) (stop_loop s) /\ printed g' = printed g
    else
      o = Exit EXIT_FAILURE s /\ printed g' = printed g \/
      exists bytes src out, wf_bytes bytes /\ Z.of_nat (length bytes) <= sizeof_udp_buffer /\
        received s bytes src o out /\ (forall a s', o = Done a s' -> printed g' = printed g ++ out)) g.
Proof.
  intros Hloop Hbuf. unfold receive_body, loop_test. net_steps. subst x.
  destruct (sigint (polls g)) eqn:Esig; net_steps; [done|].
  rewrite Hloop. cbn [Z.eqb negb]. net_steps. destruct x as [[size bytes] src]. cbn [fst snd] in *.
  net_steps. destruct (Z.eqb_spec size (-1)) as [->|Hne]; net_steps; [by apply wp_die; left|].
  destruct Hx as [|((H0 & Hle) & Hlen & Hb)]; [done|]. subst size. unfold id.
  destruct (store_datagram bytes (udp_buffer s) Hbuf ltac:(lia)) as [E1 E2].
  rewrite E1. net_steps. rewrite Nat2Z.id, E2.
  destruct (Z.eqb_spec (Z.of_nat (length bytes)) sizeof_udp_buffer) as [Emax|Emax].
  { net_steps. right. exists bytes, src, []. split; [done|]. split; [done|]. split; [|done].
    unfold received. by rewrite (proj2 (Z.eqb_eq _ _)). }
  cbn [defined ret wp continue]. apply wp_bind. cbn [modify wp continue].
  eapply wp_mono; [apply received_end; [done|done|lia]|].
  intros o g' (out & Hrec & Hout). right. by exists bytes, src, out.
Qed.

Lemma udp_server_turn_witness :
  net_wp (fun _ => true) (@receive_body text_example 5 udp0) (fun o g' =>
    o = Done (Some tt) (stop_loop udp0)) net0.
Proof.
  eapply wp_mono.
  - apply (@udp_server_turn text_example (fun _ => true) 5).
    + reflexivity.
    + change (udp_buffer udp0) with (replicate (Z.to_nat sizeof_udp_buffer) 0).
      by rewrite length_replicate.
  - intros o g' [Ho _]. exact Ho.
Defined.

Lemma udp_server_spec `{!AddrText} sigint fuel sock s (g : net) :
  packet_loop s = 1 -> Z.of_nat (length (udp_buffer s)) = sizeof_udp_buffer ->
  net_wp sigint (server_loop fuel sock s) (fun o g' =>
    exists ds, datagrams g' = datagrams g ++ ds /\
      printed g' = printed g ++ (served None ds).1 /\ blamed (faults g) o g' /\
      received_all (runs_at sigint g) fuel None ds o) g.
Proof.
  intros Hloop Hbuf. unfold server_loop. net_steps.
  by apply (udp_receive_loop_spec sigint sock (set_addr_str None s)).
Qed.

(** C26: the receiver, for every sequence of datagrams, failures and signals: it
    prints one line for each datagram, in order, with the peer's IPv4 address and
    the text up to the first zero byte ([served]).  It receives only while the
    loop flag is set: at the first test after SIGINT it returns, and with SIGINT
    at a test below [fuel] it is never still running.  It exits when a receive
    fails, and is undefined exactly where [served] is: on a datagram that fills
    the buffer, an IPv6 peer, or a peer of another family before any IPv4 one. *)
Theorem udp_server_correct `{!AddrText} sigint fuel sock s (g : net) :
  packet_loop s = 1 -> Z.of_nat (length (udp_buffer s)) = sizeof_udp_buffer ->
  net_wp sigint (server_loop fuel sock s) (fun o g' =>
    exists ds, datagrams g' = datagrams g ++ ds /\
      printed g' = printed g ++ (served None ds).1 /\
      received_all (runs_at sigint g) fuel None ds o) g.
Proof.
  intros. eapply wp_mono; [by apply udp_server_spec|].
  intros o g' (ds & Hd & Hp & _ & Ho). by exists ds.
Qed.

Lemma udp_server_correct_witness :
  net_wp (Nat.eqb 2) (@server_loop text_example 3 5 udp0) (fun o g' =>
    printed g' = (@served text_example None (datagrams g')).1 /\ (forall s, o <> NoFuel s)) net0.
Proof.
  eapply wp_mono.
  - apply (@udp_server_correct text_example (Nat.eqb 2) 3 5 udp0 net0).
    + reflexivity.
    + change (udp_buffer udp0) with (replicate (Z.to_nat sizeof_udp_buffer) 0).
      by rewrite length_replicate.
  - intros o g' (ds & Hd & Hp & Hrun & Ho & _). split; [rewrite Hd; exact Hp|].
    intros s ->. specialize (Hrun 2%nat). rewrite Ho in Hrun. discriminate Hrun. lia.
Defined.
