(* ===== verification/UdpPath.v ===== *)
(** From the UDP senders to the receiver.

    Two programs send messages that udp.c receives: udp.c itself, through its
    host's network stack, and raw_udp.c, which builds the packets.  The network
    may lose, repeat and reorder them; [stack_receives] is what the receiving
    host's stack makes of a frame. *)
From S2P Require Import Prelude CInt CLib RawPacket Prog Posix LookupAddr Ipv4Check.
From S2P Require Import Udp.
From S2P Require RawUdp.
Local Open Scope Z_scope.

(** ** The programs' mains *)

(** [return 0] after the loops. *)
Definition then_0 (o : outcome udp unit) : outcome udp Z :=
  match o with
  | Done _ s => Done 0 s
  | Exit c s => Exit c s
  | Undef w => Undef w
  | NoFuel s => NoFuel s
  end.

(** How the sender ended after [n] messages. *)
Definition paced_from (sigint : nat -> bool) (g : net) (fuel n : nat) (o : outcome udp Z) : Prop :=
  match o with
  | Done c _ => c = EXIT_SUCCESS /\ (n < fuel)%nat /\ sigint (polls g + n)%nat = true /\
                (forall i, (i < n)%nat -> sigint (polls g + i)%nat = false)
  | Exit code _ => code = EXIT_FAILURE
  | NoFuel _ => n = fuel /\ (forall i, (i < n)%nat -> sigint (polls g + i)%nat = false)
  | Undef _ => False
  end.

(** Nothing received, printed or sent. *)
Definition same_traffic (g g' : net) : Prop :=
  datagrams g' = datagrams g /\ printed g' = printed g /\ sent_in g' = sent_in g.

Section mains.
Context `{!AddrText} (sigint : nat -> bool).
Local Abbreviation wpn := (net_wp sigint).

(** [main] is the receiver with one argument and the sender with two, on a socket
    it has bound; otherwise it exits, for a failed call unless its arguments are too
    few or too many. *)
Definition good_usage (argv : list (list Z)) : Prop := (length argv = 2 \/ length argv = 3)%nat.

Lemma udp_main_spec fuel argv (g : net) (Q : outcome udp Z -> net -> Prop) :
  (forall s g', same_traffic g g' -> (good_usage argv -> (faults g < faults g')%nat) ->
     Q (Exit EXIT_FAILURE s) g') ->
  (forall sock g', same_traffic g g' -> faults g' = faults g -> polls g' = polls g ->
     if (length argv =? 3)%nat
     then wpn (client_loop fuel sock (arg argv 2) (arg argv 1) udp0) (fun o => Q (then_0 o)) g'
     else length argv = 2%nat ->
          wpn (server_loop fuel sock udp0) (fun o => Q (then_0 o)) g') ->
  wpn (main fuel argv udp0) Q g.
Proof.
  intros HE HL. unfold main. net_steps.
  destruct (negb (x =? 0)); [by apply wp_die, HE; [|cbn; lia]|].
  destruct (negb _) eqn:Eargc.
  { net_steps. apply HE; [done|]. unfold good_usage. rewrite <- !Nat.eqb_eq.
    intros [E|E]; rewrite E in Eargc; rewrite ?orb_true_r in Eargc; discriminate. }
  net_steps. destruct x0 as [result ai_addr]. cbn [fst].
  destruct (negb (result =? 0)); net_steps; [by apply HE; [|cbn; lia]|].
  destruct (_ =? -1); [by apply wp_die, HE; [|cbn; lia]|]. net_steps.
  destruct (_ =? -1); net_steps; [by apply HE; [|cbn; lia]|].
  match goal with |- context [wp _ _ ?g'] => specialize (HL x0 g') end.
  destruct (length argv =? 3)%nat.
  - eapply wp_mono; [by apply HL|]. by intros [].
  - rewrite orb_false_r in Eargc. apply negb_false_iff, Nat.eqb_eq in Eargc.
    eapply wp_mono; [by apply HL|]. by intros [].
Qed.

(** What the sender hands to its stack are numbered messages. *)
Lemma udp_main_sender fuel argv (g : net) :
  length argv = 3%nat -> Z.of_nat fuel < INT_MAX ->
  wpn (main fuel argv udp0) (fun o g' => blamed (faults g) o g' /\
    exists sock dest n, sent_in g' = sent_in g ++ messages_sent sock dest n /\
      paced_from sigint g fuel n o) g.
Proof.
  intros Hargc Hfuel. apply udp_main_spec.
  - intros s g' (_ & _ & E) Hf. split; [by apply Hf; right|]. exists 0, (SaOther 0), 0%nat.
    rewrite E, app_nil_r. by split.
  - intros sock g' (_ & _ & E) Hf Hp. rewrite Hargc. cbn [Nat.eqb].
    eapply wp_mono; [apply (udp_client_spec sigint fuel sock _ _ udp0); done|].
    rewrite Hf, Hp. intros o g2 [Hb (dest & n & Hsent & Ho)]. split; [by destruct o|].
    exists sock, dest, n. rewrite Hsent, E. split; [done|]. by destruct o.
Qed.

(** What the receiver prints. *)
Lemma udp_main_receiver fuel argv (g : net) :
  length argv = 2%nat ->
  wpn (main fuel argv udp0) (fun o g' => blamed (faults g) o g' /\
    exists ds, datagrams g' = datagrams g ++ ds /\
      printed g' = printed g ++ (served None ds).1 /\
      match o with
      | Exit code _ => code = EXIT_FAILURE
      | _ => received_all (runs_at sigint g) fuel None ds o
      end /\ (forall c s, o = Done c s -> c = EXIT_SUCCESS)) g.
Proof.
  intros Hargc. apply udp_main_spec.
  - intros s g' (E1 & E2 & _) Hf. split; [by apply Hf; left|]. exists []. by rewrite E1, E2, !app_nil_r.
  - intros sock g' (E1 & E2 & _) Hf Hp. rewrite Hargc. cbn [Nat.eqb]. intros _.
    eapply wp_mono; [apply (udp_server_spec sigint fuel sock udp0); done|].
    assert (Hrun : runs_at sigint g' = runs_at sigint g) by (unfold runs_at; by rewrite Hp).
    rewrite Hf, Hrun. intros o g2 (ds & Hd & Hpr & Hb & Ho). split; [by destruct o|].
    exists ds. rewrite Hd, Hpr, E1, E2. split; [done|]. split; [done|].
    split; [|by destruct o; intros ? ? [= <-]].
    unfold received_all in *. destruct o; cbn [then_0]; intuition; try congruence.
    all: match goal with H : forall w, _ -> _ = Undef w, E : _ = inr _ |- _ => by specialize (H _ E) end.
Qed.

End mains.

(** ** Messages received *)

Lemma c_string_text l : Forall (fun c => c <> 0) l -> c_string l = l.
Proof.
  induction 1 as [|c l Hc Hl IH]; [done|]. simpl. by rewrite (proj2 (Z.eqb_neq _ _) Hc), IH.
Qed.

(** The receiver's line for message [k] from the IPv4 host [a]. *)
Definition arrival_line `{!AddrText} (a : Z) (k : nat) : list Z :=
  inet_ntop4 a ++ string_bytes ": Message: " ++ fmt_d (Z.of_nat k) ++ newline.

(** Datagram [d] carries a message below [n], and [line] tells so. *)
Definition arrived `{!AddrText} (n : nat) (d : list Z * sockaddr) (line : list Z) : Prop :=
  exists a k, (k < n)%nat /\ d = (message (Z.of_nat k), SaInet a) /\ line = arrival_line a k.

Lemma heard_message `{!AddrText} last a k :
  heard last (message (Z.of_nat k), SaInet a) = inl (inet_ntop4 a) /\
  udp_line (inet_ntop4 a) (message (Z.of_nat k)) = arrival_line a k.
Proof.
  unfold heard. cbn [fst snd]. pose proof (length_message (Z.of_nat k)).
  rewrite (proj2 (Z.eqb_neq _ _)) by (unfold sizeof_udp_buffer; lia). split; [done|].
  unfold udp_line. rewrite c_string_text by apply message_text. unfold message, arrival_line.
  by rewrite <- (app_assoc (string_bytes "Message: ")).
Qed.

Lemma served_messages `{!AddrText} n last ds :
  Forall (fun d => exists a k, (k < n)%nat /\ d = (message (Z.of_nat k), SaInet a)) ds ->
  Forall2 (arrived n) ds (served last ds).1 /\ (forall w, (served last ds).2 <> inr w).
Proof.
  intros Hds. revert last. induction Hds as [|d ds (a & k & Hk & ->) Hds IH]; intros last.
  - split; [constructor|done].
  - cbn [served]. destruct (heard_message last a k) as [-> E]. cbn [fst snd]. rewrite E.
    destruct (IH (Some (inet_ntop4 a))) as [IH1 IH2]. split; [|done].
    constructor; [|done]. by exists a, k.
Qed.

(** What the receiver shows when all it gets are such messages. *)
Definition shows `{!AddrText} (n : nat) (from : list Z * sockaddr -> Prop) (g : net)
    (o : outcome udp Z) (g' : net) : Prop :=
  exists ds, datagrams g' = datagrams g ++ ds /\
    (Forall from ds -> (forall w, o <> Undef w) /\
       exists lines, printed g' = printed g ++ lines /\ Forall2 (arrived n) ds lines).

Lemma receiver_shows `{!AddrText} sigint fuel argv n from (g : net) :
  length argv = 2%nat ->
  (forall d, from d -> exists a k, (k < n)%nat /\ d = (message (Z.of_nat k), SaInet a)) ->
  net_wp sigint (main fuel argv udp0) (shows n from g) g.
Proof.
  intros Hargc Hfrom. eapply wp_mono; [by apply udp_main_receiver|].
  intros o g' (_ & ds & Hd & Hp & Ho & _). exists ds. split; [done|]. intros Hall.
  destruct (served_messages n None ds) as [Hl Hu].
  { eapply Forall_impl; [exact Hall|exact Hfrom]. }
  split; [|by exists (served None ds).1]. intros w ->. destruct Ho as (_ & Hw & _). by apply Hu in Hw.
Qed.

(** A datagram the network makes of something the sender sent, from whatever
    address. *)
Definition delivered (l : list (Z * list Z * sockaddr)) (d : list Z * sockaddr) : Prop :=
  exists x a, x ∈ l /\ d = (x.1.2, SaInet a).

(** *** Raw packets *)

(** The receiving host's stack: of a frame with an IPv4 header that is valid and
    is not a fragment's, for this address, with a UDP datagram for this port and
    without a UDP checksum, it delivers the datagram's payload and its source. *)
Definition stack_receives (ip : list Z) (port : Z) (f : list Z) : option (list Z * sockaddr) :=
  let d := RawUdp.parse_datagram f in
  if (RawUdp.g_ethertype d =? 0x0800) && (RawUdp.g_version_ihl d =? 0x45) &&
     RawUdp.g_header_valid d && (RawUdp.g_fragment d =? 0) && (RawUdp.g_protocol d =? 17) &&
     bool_decide (RawUdp.g_destination d = ip) && (RawUdp.g_dest_port d =? port) &&
     (RawUdp.g_total_length d <=? Z.of_nat (length f) - 14) &&
     (RawUdp.g_udp_length d =? RawUdp.g_total_length d - 20) && (RawUdp.g_udp_check d =? 0)
  then Some (take (Z.to_nat (RawUdp.g_udp_length d - 8)) (RawUdp.g_payload d),
             SaInet (le_val (RawUdp.g_source d)))
  else None.

Lemma message_nonempty k : (0 < length (message k))%nat.
Proof. unfold message. rewrite length_app. change (length (string_bytes _)) with 9%nat. lia. Qed.

Lemma stack_receives_message local remote port k f :
  wf_addr local -> RawUdp.parse_datagram f = RawUdp.expected_datagram local remote port k ->
  stack_receives (le_bytes 4 (ipv4 remote)) (u16 port) f =
    Some (message (Z.of_nat k), SaInet (ipv4 local)).
Proof.
  intros (_ & Hip & _) E. set (m := message (Z.of_nat k)) in *.
  assert (Hlen : Z.of_nat (length f) = 42 + Z.of_nat (length m)).
  { pose proof (f_equal (fun d => length (RawUdp.g_payload d)) E) as Ep.
    cbn [RawUdp.parse_datagram RawUdp.expected_datagram RawUdp.g_payload] in Ep.
    rewrite length_drop in Ep. fold m in Ep. pose proof (message_nonempty (Z.of_nat k)) as Hm.
    fold m in Hm. lia. }
  unfold stack_receives. rewrite E. unfold RawUdp.expected_datagram. fold m.
  cbn [RawUdp.g_ethertype RawUdp.g_version_ihl RawUdp.g_header_valid RawUdp.g_fragment
    RawUdp.g_protocol RawUdp.g_destination RawUdp.g_dest_port RawUdp.g_total_length
    RawUdp.g_udp_length RawUdp.g_udp_check RawUdp.g_payload RawUdp.g_source].
  rewrite bool_decide_eq_true_2 by done. rewrite !Z.eqb_refl, (proj2 (Z.leb_le _ _)) by lia.
  rewrite (proj2 (Z.eqb_eq (8 + _) _)) by lia. cbn [Z.eqb Pos.eqb andb].
  rewrite take_ge by lia. rewrite le_val_le_bytes, u_small by exact Hip. done.
Qed.

(** ** Properties *)

#[local] Existing Instance text_example.

(** C15: udp.c to udp.c.  Whatever the sender's run, a receiver whose datagrams all
    come from it, in any order and any number of times, prints for each the line
    "address: Message: k" with the number of a message that was sent, in the order
    of arrival, and its behaviour is defined throughout. *)
Theorem udp_messages_shown `{!AddrText} sigc sigs fuelc fuels argvc argvs gc :
  length argvc = 3%nat -> length argvs = 2%nat -> Z.of_nat fuelc < INT_MAX -> sent_in gc = [] ->
  net_wp sigc (main fuelc argvc udp0) (fun _ gc' => forall gs,
    net_wp sigs (main fuels argvs udp0)
      (shows (length (sent_in gc')) (delivered (sent_in gc')) gs) gs) gc.
Proof.
  intros Hc Hs Hf Hsent. eapply wp_mono; [by apply udp_main_sender|].
  intros o gc' (_ & sock & dest & n & E & _) gs. rewrite Hsent in E. cbn [app] in E. apply receiver_shows; [done|].
  intros d (x & a & Hx & ->). rewrite E in *. unfold messages_sent in *. rewrite length_fmap, length_seq.
  apply list_elem_of_fmap in Hx as (k & -> & Hk). apply elem_of_seq in Hk. exists a, k.
  split; [lia|done].
Qed.

Lemma udp_messages_shown_witness :
  net_wp (Nat.eqb 2) (main 3 [[]; string_bytes "4242"; string_bytes "10.0.0.1"] udp0)
    (fun _ gc' => forall gs, net_wp (Nat.eqb 5) (main 6 [[]; string_bytes "4242"] udp0)
      (shows (length (sent_in gc')) (delivered (sent_in gc')) gs) gs) net0.
Proof.
  apply (udp_messages_shown (Nat.eqb 2) (Nat.eqb 5) 3 6).
  - reflexivity.
  - reflexivity.
  - reflexivity.
  - reflexivity.
Defined.

(** C14: raw_udp.c to udp.c.  If raw_udp sends anything, then from every packet the
    host with the address that the host of the command line resolved to, at the
    port of the command line, delivers exactly the message, as coming from the
    address the sender's system lists for the interface; the packets' numbers are
    their positions.  A receiver there, whose datagrams all come from these packets,
    prints for each the line with the number of a message that was sent, and its
    behaviour is defined. *)
Theorem raw_udp_messages_shown `{!AddrText} `{!AddrTextOk _} sigr sigs fuelr fuels argvr argvs :
  length argvs = 2%nat -> Z.of_nat fuelr < INT_MAX ->
  net_wp sigr (RawUdp.main fuelr argvr RawUdp.raw_udp0) (fun _ gr' =>
    let frames := (fun x : Z * list Z * sockaddr_ll => x.1.2) <$> sent gr' in
    frames = [] \/
    exists local remote port ifindex sock,
      RawUdp.looked_up argvr gr' local remote port ifindex sock /\
      let stack := stack_receives (le_bytes 4 (ipv4 remote)) (u16 port) in
      (forall f k, frames !! k = Some f ->
         stack f = Some (message (Z.of_nat k), SaInet (ipv4 local))) /\
      forall gs, net_wp sigs (main fuels argvs udp0)
        (shows (length frames) (fun d => exists f, f ∈ frames /\ stack f = Some d) gs) gs) net0.
Proof.
  intros Hs Hf. eapply wp_mono; [by apply RawUdp.raw_udp_main_spec|].
  intros o gr' [Hd _] frames.
  destruct Hd as [Hd|(local & remote & port & ifindex & sock & n & Hlook & Hl & Hr & Hd & _)].
  { left. unfold frames. by rewrite Hd. }
  right. exists local, remote, port, ifindex, sock. split; [done|]. intros stack.
  assert (Hrec : forall f k, frames !! k = Some f ->
    (k < n)%nat /\ stack f = Some (message (Z.of_nat k), SaInet (ipv4 local))).
  { intros f k Hk. assert (E : RawUdp.parse_datagram <$> frames = RawUdp.expected_datagram local remote port <$> seq 0 n).
    { unfold frames. by rewrite <- list_fmap_compose. }
    apply (f_equal (fun l => l !! k)) in E. rewrite !list_lookup_fmap, Hk in E. cbn [fmap option_fmap option_map] in E.
    destruct (seq 0 n !! k) as [j|] eqn:Ej; [|done]. apply lookup_seq in Ej as [-> Hlt].
    apply (inj Some) in E. split; [lia|]. by apply stack_receives_message. }
  assert (Hn : length frames = n).
  { apply (f_equal length) in Hd. rewrite !length_fmap, length_seq in Hd. unfold frames. by rewrite length_fmap. }
  split; [intros f k Hk; by apply Hrec|]. intros gs. apply receiver_shows; [done|].
  intros d (f & Hin & Hd'). apply list_elem_of_lookup in Hin as [k Hk].
  destruct (Hrec f k Hk) as [Hlt E]. rewrite E in Hd'. injection Hd' as <-. exists (ipv4 local), k.
  split; [lia|done].
Qed.

Lemma raw_udp_messages_shown_witness :
  let argv := [[]; string_bytes "4242"; string_bytes "host"] in
  net_wp (Nat.eqb 2) (RawUdp.main 3 argv RawUdp.raw_udp0) (fun _ gr' =>
    let frames := (fun x : Z * list Z * sockaddr_ll => x.1.2) <$> sent gr' in
    frames = [] \/
    exists remote, forall f, f ∈ frames ->
      exists d, stack_receives (le_bytes 4 (ipv4 remote)) 4242 f = Some d) net0.
Proof.
  intros argv. eapply wp_mono.
  - apply (@raw_udp_messages_shown text_example text_example_ok (Nat.eqb 2) (Nat.eqb 5) 3 6
             argv [[]; string_bytes "4242"]); reflexivity.
  - intros o gr' [H|(local & remote & port & ifindex & sock & Hlook & Hrec & _)]; [by left|right].
    exists remote. intros f [k Hk]%list_elem_of_lookup. specialize (Hrec f k Hk).
    destruct Hlook as (_ & Hport & _). vm_compute in Hport. injection Hport as <-. by eexists.
Defined.
