(* ===== verification/Fpga.v ===== *)
(** ibverbs.cl: the FPGA kernel that completes a packet and sends it to the
    network port as 32-byte lines.

    The kernel's array is [data]; what its stores do not write is [junk], the
    array's contents before.  [data[i]] outside the array is undefined.  The
    unaligned store of the checksum is modelled as the four byte stores an
    unaligned 32-bit store makes. *)
From S2P Require Import Prelude CInt CLib Crc32 RawPacket.
Local Open Scope Z_scope.

Definition FLAG_FIRST : Z := 1.
Definition FLAG_LAST : Z := 2.

Record line := { payload : list Z; flags : Z }.

Definition sizeof_data : Z := MSG_SIZE + 100.

(** The copy of the header. *)
Fixpoint copy_header (n i : nat) (header data : list Z) : option (list Z) :=
  match n with
  | O => Some data
  | S n =>
      c ← header !! i;
      data ← store_bytes i [u8 c] data;
      copy_header n (S i) header data
  end.

(** The [i]-th 32 bytes of the array. *)
Definition load_line (i : nat) (data : list Z) : option (list Z) :=
  if (32 * i + 32 <=? length data)%nat then Some (take 32 (drop (32 * i) data)) else None.

Definition line_flags (i size : Z) : Z :=
  let f := 0 in
  let f := if i =? 0 then Z.lor f FLAG_FIRST else f in
  let f := if i =? u32 (size - 1) / 32
           then u8 (Z.lor f (Z.lor FLAG_LAST (Z.shiftl (u32 (- size) mod 32) 3))) else f in
  f.

(** The loop over the lines, and what it writes to the channel. *)
Fixpoint write_lines (fuel : nat) (i : nat) (size : Z) (data : list Z) : option (list line) :=
  match fuel with
  | O => None
  | S fuel =>
      if u32 (32 * Z.of_nat i) <? size then
        p ← load_line i data;
        l ← write_lines fuel (S i) size data;
        Some ({| payload := p; flags := line_flags (Z.of_nat i) size |} :: l)
      else Some []
  end.

Definition write_ibverb_packet (fuel : nat) (header : list Z) (header_crc header_size chan : Z)
    (junk : list Z) : option (list line) :=
  data ← copy_header (Z.to_nat header_size) 0 header junk;
  foo ← crc32 header_crc (drop (Z.to_nat header_size) data) MSG_SIZE;
  data ← store_bytes (Z.to_nat (u32 (header_size + MSG_SIZE))) (le_bytes 4 foo) data;
  let size := u32 (header_size + MSG_SIZE + 4) in
  write_lines fuel 0 size data.

(** ** Specification: what the port sends *)

(** The port concatenates the lines from a first to a last one, and leaves out
    the bytes of the last that its flags declare empty. *)
Definition is_first (l : line) : bool := Z.testbit (flags l) 0.
Definition is_last (l : line) : bool := Z.testbit (flags l) 1.
Definition empty_bytes (l : line) : nat := Z.to_nat (Z.shiftr (flags l) 3).

Fixpoint reassemble (ls : list line) : option (list Z) :=
  match ls with
  | [] => None
  | l :: ls =>
      if is_last l then
        match ls with [] => Some (take (32 - empty_bytes l) (payload l)) | _ => None end
      else rest ← reassemble ls; Some (payload l ++ rest)
  end.

Definition port_output (ls : list line) : option (list Z) :=
  match ls with
  | l :: ls => if is_first l && forallb (fun l => negb (is_first l)) ls then reassemble (l :: ls) else None
  | [] => None
  end.

(** ** Lemmas *)

Lemma copy_header_spec n i header data :
  wf_bytes header -> (i + n <= length header)%nat -> (i + n <= length data)%nat ->
  copy_header n i header data =
    Some (take i data ++ take n (drop i header) ++ drop (i + n) data).
Proof.
  intros Hw. revert i data. induction n as [|n IH]; intros i data Hh Hd; simpl.
  - by rewrite Nat.add_0_r, take_drop.
  - destruct (lookup_lt_is_Some_2 header i ltac:(lia)) as [c Hc]. rewrite Hc. simpl.
    pose proof (Forall_lookup_1 _ _ _ _ Hw Hc) as Hb. simpl in Hb. unfold is_byte in Hb.
    assert (Eb : u8 c = c) by (apply Z.mod_small; lia).
    rewrite Eb, store_bytes_Some by (simpl; lia). simpl.
    assert (Htake : length (take i data) = i) by (rewrite length_take; lia).
    assert (Htake1 : length (take i data ++ [c]) = S i) by (rewrite length_app, Htake; simpl; lia).
    rewrite (cons_middle c), app_assoc.
    rewrite IH; [|lia|rewrite length_app, Htake1, length_drop; lia].
    rewrite take_app_length' by lia. rewrite (drop_S header c i Hc). simpl.
    rewrite drop_app_ge by lia. rewrite Htake1, drop_drop, <- app_assoc. simpl.
    do 5 f_equal. lia.
Qed.

(** The number of 32-byte lines of [size] bytes. *)
Definition line_count (size : Z) : Z := (size + 31) / 32.

(** The flag byte has three disjoint fields. *)
Lemma flag_fields : Forall (fun x =>
    u8 (Z.lor FLAG_FIRST (Z.lor FLAG_LAST (Z.shiftl x 3))) = FLAG_FIRST + (FLAG_LAST + 8 * x) /\
    u8 (Z.lor 0 (Z.lor FLAG_LAST (Z.shiftl x 3))) = 0 + (FLAG_LAST + 8 * x)) (seqZ 0 32).
Proof. vm_compute. repeat constructor. Qed.

Lemma empty_fields : Forall (fun x =>
    Z.testbit (FLAG_FIRST + (FLAG_LAST + 8 * x)) 0 = true /\
    Z.testbit (0 + (FLAG_LAST + 8 * x)) 0 = false /\
    Forall (fun f => Z.testbit (f + (FLAG_LAST + 8 * x)) 1 = true /\
                     Z.shiftr (f + (FLAG_LAST + 8 * x)) 3 = x) [0; FLAG_FIRST]) (seqZ 0 32).
Proof. vm_compute. repeat constructor. Qed.

Lemma line_count_bounds size : size <= 32 * line_count size < size + 32.
Proof. unfold line_count. pose proof (Z.div_mod (size + 31) 32). pose proof (Z.mod_pos_bound (size + 31) 32). lia. Qed.

Lemma line_flags_eq i size : 0 <= i -> 0 < size < 2 ^ 31 ->
  line_flags i size =
    (if i =? 0 then FLAG_FIRST else 0) +
    (if i =? line_count size - 1 then FLAG_LAST + 8 * (32 * line_count size - size) else 0).
Proof.
  intros Hi Hs. unfold line_flags, u32. rewrite (Z.mod_small (size - 1)) by lia.
  assert (Eq : (size - 1) / 32 = line_count size - 1).
  { unfold line_count. replace (size + 31) with (size - 1 + 1 * 32) by lia.
    rewrite Z.div_add; lia. }
  rewrite Eq. destruct (Z.eqb_spec i (line_count size - 1)); [|by destruct (i =? 0)].
  pose proof (line_count_bounds size) as Hc.
  assert (E : (- size) mod 2 ^ 32 mod 32 = 32 * line_count size - size).
  { rewrite Z.mod_mod_divide by (by exists (2 ^ 27)).
    symmetry. apply Z.mod_unique with (- line_count size); lia. }
  rewrite E. pose proof (proj1 (Forall_forall _ _) flag_fields (32 * line_count size - size)) as H.
  destruct H as [H1 H0]; [apply elem_of_seqZ; lia|]. by destruct (i =? 0).
Qed.

(** What the flags of line [i] say. *)
Lemma line_flags_read i size p (l := {| payload := p; flags := line_flags i size |}) :
  0 <= i < line_count size -> 0 < size < 2 ^ 31 ->
  is_first l = (i =? 0) /\ is_last l = (i =? line_count size - 1) /\
  (is_last l = true -> Z.of_nat (empty_bytes l) = 32 * line_count size - size).
Proof.
  intros Hi Hs. pose proof (line_count_bounds size) as Hc.
  unfold is_first, is_last, empty_bytes, l. cbn [flags]. rewrite line_flags_eq by lia.
  destruct (i =? line_count size - 1); [|by destruct (i =? 0)].
  pose proof (proj1 (Forall_forall _ _) empty_fields (32 * line_count size - size)) as H.
  destruct H as (H1 & H0 & Hf); [apply elem_of_seqZ; lia|].
  rewrite !Forall_cons in Hf. destruct Hf as ([L0 S0] & [L1 S1] & _).
  destruct (i =? 0).
  - rewrite H1, L1, S1. split_and!; [done..|]. intros _. lia.
  - rewrite H0, L0, S0. split_and!; [done..|]. intros _. lia.
Qed.

Lemma load_line_Some i data :
  (32 * i + 32 <= length data)%nat -> load_line i data = Some (take 32 (drop (32 * i) data)).
Proof. intros H. unfold load_line. by rewrite (proj2 (Nat.leb_le _ _)). Qed.

(** The loop from line [i], [n] lines before the end. *)
Lemma write_lines_spec n fuel i size data :
  0 < size < 2 ^ 31 -> (32 * line_count size <= Z.of_nat (length data)) ->
  Z.of_nat i + Z.of_nat n = line_count size -> (0 < n)%nat -> (n < fuel)%nat ->
  exists ls, write_lines fuel i size data = Some ls /\ length ls = n /\
    reassemble ls = Some (drop (32 * i) (take (Z.to_nat size) data)) /\
    match ls with
    | l :: ls => is_first l = (i =? 0)%nat /\ forallb (fun l => negb (is_first l)) ls = true
    | [] => False
    end.
Proof.
  intros Hs Hd. pose proof (line_count_bounds size) as Hc. revert fuel i.
  induction n as [|n IH]; intros [|fuel] i Hn Hpos Hf; try lia.
  cbn [write_lines]. unfold u32 at 1. rewrite Z.mod_small by lia.
  rewrite (proj2 (Z.ltb_lt _ _)) by lia. rewrite load_line_Some by lia. cbn [mbind option_bind].
  set (l := {| payload := _; flags := _ |}).
  destruct (line_flags_read (Z.of_nat i) size (payload l)) as (H1 & H2 & H3); [lia|lia|].
  change (is_first l = (Z.of_nat i =? 0)) in H1.
  change (is_last l = (Z.of_nat i =? line_count size - 1)) in H2.
  change (is_last l = true -> Z.of_nat (empty_bytes l) = 32 * line_count size - size) in H3.
  assert (P : payload l = take 32 (drop (32 * i) data)) by done.
  assert (F : is_first l = (i =? 0)%nat) by (rewrite H1; by destruct i).
  destruct n as [|n].
  - rewrite (proj2 (Z.eqb_eq _ _)) in H2 by lia. specialize (H3 H2).
    destruct fuel as [|fuel]; [lia|]. cbn [write_lines]. unfold u32.
    rewrite Z.mod_small by lia. rewrite (proj2 (Z.ltb_ge _ _)) by lia. simpl.
    exists [l]. split; [done|]. split; [done|]. split; [|done].
    cbn [reassemble]. rewrite H2, P. f_equal.
    rewrite skipn_firstn_comm, take_take. f_equal. lia.
  - rewrite (proj2 (Z.eqb_neq _ _)) in H2 by lia.
    destruct (IH fuel (S i)) as (ls & -> & Hlen & Hr & Hh); [lia..|]. cbn [mbind option_bind].
    exists (l :: ls). split; [done|]. split; [simpl; by rewrite Hlen|].
    split; [|split; [done|]].
    + cbn [reassemble]. rewrite H2, Hr, P. cbn [mbind option_bind]. f_equal.
      rewrite <- (take_drop 32 (drop (32 * i) (take _ data))), drop_drop.
      replace (32 * i + 32)%nat with (32 * S i)%nat by lia. f_equal.
      rewrite skipn_firstn_comm, take_take. f_equal. lia.
    + destruct ls as [|l' ls]; [done|]. destruct Hh as [E Hh]. simpl. by rewrite E, Hh.
Qed.

(** The whole kernel. *)
Lemma write_ibverb_packet_spec fuel header header_crc chan junk
    (h := Z.of_nat (length header)) (n := line_count (h + MSG_SIZE + 4))
    (body := take (Z.to_nat MSG_SIZE) (drop (length header) junk)) :
  wf_bytes header -> wf_bytes junk -> is_u 32 header_crc ->
  Z.of_nat (length junk) = sizeof_data -> h <= 80 -> n < Z.of_nat fuel ->
  exists ls, write_ibverb_packet fuel header header_crc h chan junk = Some ls /\
    Z.of_nat (length ls) = n /\
    port_output ls = Some (header ++ body ++ le_bytes 4 (crc32_ref header_crc body)).
Proof.
  unfold sizeof_data. subst h. intros Hh Hj Hc Hl H80 Hf. unfold write_ibverb_packet, u32, MSG_SIZE in *.
  assert (Hb : length body = Z.to_nat 8940) by (subst body; rewrite length_take, length_drop; lia).
  rewrite copy_header_spec by (done || lia). cbn [mbind option_bind].
  rewrite take_0, drop_0, take_ge by lia. cbn [app Nat.add]. rewrite Nat2Z.id.
  rewrite drop_app_length, crc32_eq; [|done|by apply Forall_drop|done|rewrite length_drop; lia].
  fold body. cbn [mbind option_bind]. set (foo := crc32_ref header_crc body).
  rewrite !Z.mod_small by lia.
  rewrite <- (take_drop (Z.to_nat 8940) (drop (length header) junk)). fold body. rewrite app_assoc.
  rewrite store_bytes_Some by
    (rewrite !length_app, length_le_bytes, Hb, !length_drop; lia).
  rewrite take_app_length' by (rewrite length_app, Hb; lia).
  set (rest := drop (_ + length (le_bytes 4 foo)) _). cbn [mbind option_bind].
  assert (Hrest : length rest = (96 - length header)%nat).
  { subst rest. rewrite length_drop, !length_app, length_le_bytes, Hb, !length_drop. lia. }
  assert (Hn : n = line_count (Z.of_nat (length header) + 8940 + 4)) by done.
  pose proof (line_count_bounds (Z.of_nat (length header) + 8940 + 4)).
  destruct (write_lines_spec (Z.to_nat n) fuel 0 (Z.of_nat (length header) + 8940 + 4)
              ((header ++ body) ++ le_bytes 4 foo ++ rest)) as (ls & -> & Hlen & Hr & Hfirst);
    [lia| |lia..|].
  { rewrite !length_app, length_le_bytes, Hb, Hrest.
    assert (line_count (Z.of_nat (length header) + 8940 + 4) < 283); [|lia].
    apply Z.div_lt_upper_bound; lia. }
  eexists. split_and!; [done|lia|]. destruct ls as [|l ls]; [done|]. destruct Hfirst as [F Hall].
  unfold port_output. rewrite F, Hall. cbn [Nat.eqb andb]. rewrite Hr. f_equal.
  rewrite Nat.mul_0_r, drop_0, app_assoc, app_assoc.
  rewrite take_app_length'; [by rewrite <- app_assoc|].
  rewrite !length_app, length_le_bytes, Hb. lia.
Qed.

(** ** Properties *)

(** C25: the port's output is the header, [MSG_SIZE] bytes of the array's
    contents before and the checksum of those bytes, little-endian, seeded
    with the header's; it takes as many lines as that needs, for a header that
    fits the array in whole lines. *)
Theorem write_ibverb_packet_correct fuel header header_crc chan junk
    (h := Z.of_nat (length header)) (n := line_count (h + MSG_SIZE + 4))
    (body := take (Z.to_nat MSG_SIZE) (drop (length header) junk)) :
  wf_bytes header -> wf_bytes junk -> is_u 32 header_crc ->
  Z.of_nat (length junk) = sizeof_data -> h <= 80 -> n < Z.of_nat fuel ->
  exists ls, write_ibverb_packet fuel header header_crc h chan junk = Some ls /\
    Z.of_nat (length ls) = n /\
    port_output ls = Some (header ++ body ++ le_bytes 4 (crc32_ref header_crc body)).
Proof. intros. by apply write_ibverb_packet_spec. Qed.

Lemma write_ibverb_packet_correct_witness :
  exists ls, write_ibverb_packet 283 (replicate 74 7) 5 74 1 (replicate (Z.to_nat sizeof_data) 9)
               = Some ls /\
    Z.of_nat (length ls) = 282 /\
    port_output ls =
      Some (replicate 74 7 ++
            take (Z.to_nat MSG_SIZE) (drop 74 (replicate (Z.to_nat sizeof_data) 9)) ++
            le_bytes 4 (crc32_ref 5
              (take (Z.to_nat MSG_SIZE) (drop 74 (replicate (Z.to_nat sizeof_data) 9))))).
Proof.
  apply (write_ibverb_packet_correct 283 (replicate 74 7) 5 1
           (replicate (Z.to_nat sizeof_data) 9)).
  - repeat constructor; discriminate.
  - apply Forall_replicate. unfold is_byte. lia.
  - unfold is_u. lia.
  - rewrite length_replicate. reflexivity.
  - discriminate.
  - reflexivity.
Defined.
