(* ===== verification/FpgaPath.v ===== *)
(** From the command line to the FPGA's port: raw_ibverbs.c, fpga_host.cc and
    ibverbs.cl together.

    A launch the host makes is the kernel's call; the kernel is taken to read what
    the host enqueued for it, which OpenCL leaves undefined here.  A cooperative
    environment shows that the path can be completed. *)
From S2P Require Import Prelude CInt CLib Crc32 RawPacket Prog ClApi Posix LookupAddr IbHeaders.
From S2P Require Import OpenClUtils FpgaHost RawIbverbs Fpga RawPath.
From S2P Require Rdma.
Local Open Scope Z_scope.

(** The kernel on the launch's arguments, with [header] in the buffer and
    [junk] in its array. *)
Definition kernel_run (fuel : nat) (l : launch) (header junk : list Z) : option (list line) :=
  match l_args l 1, l_args l 2, l_args l 3 with
  | Some (ArgUint header_crc), Some (ArgUint size), Some (ArgInt chan) =>
      write_ibverb_packet fuel header header_crc size chan junk
  | _, _, _ => None
  end.

(** The bytes of the array that the kernel sends as the payload. *)
Definition kernel_payload (junk : list Z) : list Z :=
  take (Z.to_nat MSG_SIZE) (drop (Z.to_nat header_size) junk).

(** What the host means the kernel to find are the headers. *)
Lemma headers_launch_intends p crc l b header :
  headers_launch p crc l -> l_args l 0 = Some (ArgBuffer b) ->
  intended l b = Some (Some <$> header) -> header = packet_headers p.
Proof.
  intros (pr & d & _ & H0 & _ & _ & _ & Hi & _) Hb Hm. rewrite H0 in Hb. injection Hb as <-.
  rewrite Hi in Hm. by apply (inj Some), (inj (fmap Some)) in Hm.
Qed.

(** ** An environment in which everything works *)

Definition cl_coop (X : Type) (s : cl_state) (e : cl X) : cl_error + X :=
  let failure := {| err := -1; what := [] |} in
  let fresh := fresh_handle (cl_used s) in
  match e in cl X return cl_error + X with
  | Platform_get => inr (m_platforms (cl_machine s))
  | Platform_getInfo p CL_PLATFORM_NAME => inr (m_name (cl_machine s) p)
  | Platform_getInfo _ _ | Device_getName _ => inr []
  | Platform_getDevices p t =>
      match m_devices (cl_machine s) p t with [] => inl failure | l => inr l end
  | Device_getInfo _ _ => inr 0
  | Context_new _ | Program_new _ _ _ | Kernel_new _ _ | Queue_new _ _ _ | Buffer_new _ _ _
  | EnqueueNDRangeKernel _ _ _ => inr fresh
  | Program_getContext _ | EnqueueMapBuffer _ _ _ _ _ _ => inr 1
  | EnqueueCopyBuffer _ _ _ _ _ _ | EnqueueUnmapMemObject _ _ _ | Kernel_setArg _ _ _
  | Event_wait (Some _) => inr tt
  | Event_wait None => inl failure
  end.

Section coop.
Variable sigint : nat -> bool.

Definition net_coop (X : Type) (g : net) (e : posix X) : X :=
  match e in posix X return X with
  | Sigaction | Bind _ _ | Close _ => 0
  | SigintDelivered => sigint (polls g)
  | Socket _ _ _ => 3
  | SendToLL _ buf _ | SendTo _ buf _ => Z.of_nat (length buf)
  | RecvFrom _ _ => (-1, [], SaOther 0)
  | Sleep _ | Printf _ | Perror _ | Eprintf _ | Freeaddrinfo | Freeifaddrs | StoreMapped _ _ => tt
  | Getaddrinfo _ _ _ => (0, SaInet 0)
  | GaiStrerror _ => []
  | Getifaddrs => Some []
  | IoctlGetArp _ _ => (0, replicate 14 0)
  | IfNametoindex _ => 1
  | Getenv name => environ g name
  | ReadFile name => files g name
  | Cl e => cl_coop _ (opencl g) e
  end.

Lemma cl_coop_legal X s (e : cl X) x : cl_coop X s e = inr x -> cl_legal X s e x.
Proof.
  destruct e; cbn; try done; try (intros [= <-]; try done; apply fresh_handle_fresh).
  - destruct param; by intros [= <-].
  - destruct (m_devices _ _ _) eqn:E; [done|]. by intros [= <-].
  - by destruct event.
Qed.

Lemma net_coop_legal X g (e : posix X) : net_legal sigint X g e (net_coop X g e).
Proof.
  destruct e; try done; cbn; try (by left).
  - split; [unfold is_u; lia|eauto].
  - split; [done|]. repeat constructor; discriminate.
  - destruct (cl_coop _ _ _) eqn:E; [done|]. by apply cl_coop_legal.
Qed.

End coop.

(** ** Properties *)

#[local] Existing Instance text_example.

(** C28: the whole path: when the kernel of a launch main may make finds in its
    buffer what the host means it to find (OpenCL does not promise it, as
    [headers_launch] says), what it sends to the port is 282 lines that carry one
    frame: the packet's headers, a payload of the array's contents, and a
    checksum that the receiver accepts; the card of a server with that queue pair
    receives it, whole. *)
Theorem fpga_frame_accepted fuel local remote qp l b header junk
    (p := init_headers full_packet0 local remote qp) :
  wf_addr local -> wf_addr remote -> valid_launch local remote qp l ->
  l_args l 0 = Some (ArgBuffer b) -> intended l b = Some (Some <$> header) ->
  wf_bytes junk -> Z.of_nat (length junk) = sizeof_data -> (282 < fuel)%nat ->
  exists ls f, kernel_run fuel l header junk = Some ls /\ length ls = 282%nat /\
    port_output ls = Some f /\ f = frame_with p (kernel_payload junk) /\ receiver_accepts f = true /\
    card_receives (qp mod 2 ^ 24) Rdma.QKEY f = Some (field 14 40 f ++ kernel_payload junk).
Proof.
  intros Hl Hr Hv Hb Hm Hj Hlen Hf.
  assert (Hw : wf_packet p) by (apply wf_init_headers; [apply wf_full_packet0|done|done]).
  rewrite (headers_launch_intends _ _ _ _ _ Hv Hb Hm). fold p.
  destruct Hv as (pr & d & _ & _ & H1 & H2 & H3 & _). fold p in H1.
  unfold kernel_run. rewrite H1, H2, H3, packet_headers_eq by done.
  pose proof (length_headers_of p Hw) as H74. set (crc := crc32_ref _ _).
  pose proof Hw as (He & Hh & _).
  assert (Hc : is_u 32 crc).
  { apply crc32_ref_range; [unfold is_u; lia|]. by apply wf_icrc_mask, wf_ib_headers_bytes. }
  assert (Hwh : wf_bytes (headers_of p)).
  { rewrite <- packet_headers_eq by done. by apply Forall_take, wf_packet_bytes. }
  destruct (write_ibverb_packet_spec fuel (headers_of p) crc 1 junk) as (ls & E & Hls & Ho);
    [done|done|done|done|rewrite H74; done|rewrite H74; change (line_count (Z.of_nat 74 + MSG_SIZE + 4)) with 282; lia|].
  rewrite H74 in E, Hls, Ho. change header_size with 74.
  change (line_count (Z.of_nat 74 + MSG_SIZE + 4)) with 282 in Hls.
  exists ls, (frame_with p (kernel_payload junk)).
  split; [exact E|]. split; [lia|]. split; [|split; [done|]].
  - rewrite Ho. unfold frame_with, icrc, kernel_payload. by rewrite crc32_ref_app.
  - assert (Hwk : wf_bytes (kernel_payload junk)) by by apply Forall_take, Forall_drop.
    split; [by apply receiver_accepts_with|]. apply card_receives_with; [done..|].
    unfold kernel_payload. rewrite length_take, length_drop.
    unfold sizeof_data in Hlen. change header_size with 74. pose proof MSG_SIZE_nat. lia.
Qed.

Definition launch_example (p : packet) (crc : Z) : launch :=
  {| l_queue := 2; l_event := 9; l_kernel := (1, string_bytes "write_ibverb_packet");
     l_args := fun i => [ArgBuffer 4; ArgUint crc; ArgUint header_size; ArgInt 1] !! Z.to_nat i;
     l_memory := {[4 := replicate (Z.to_nat header_size) None; 5 := Some <$> packet_headers p]};
     l_pending := [header_copy 6 5 4]; l_undefined := [4; 5] |}.

Lemma launch_example_ok p crc : wf_packet p ->
  headers_launch p crc (launch_example p crc) /\
  intended (launch_example p crc) 4 = Some (Some <$> packet_headers p).
Proof.
  intros Hp.
  assert (Hi : intended (launch_example p crc) 4 = Some (Some <$> packet_headers p))
    by by apply perform_header_copy.
  split; [|exact Hi]. exists 1, 4. repeat (split; [done|]). split; [by left|]. split; [done|]. intros bytes.
  rewrite may_read_unsynchronised by done. by rewrite length_replicate.
Qed.

Lemma fpga_frame_accepted_witness :
  let p := init_headers full_packet0 addr0 addr0 7 in
  let crc := crc32_ref 0 (icrc_mask (ib_headers_bytes (ib_header p))) in
  exists ls f,
    kernel_run 283 (launch_example p crc) (packet_headers p)
      (replicate (Z.to_nat sizeof_data) 0) = Some ls /\ length ls = 282%nat /\
    port_output ls = Some f /\
    f = frame_with p (kernel_payload (replicate (Z.to_nat sizeof_data) 0)) /\
    receiver_accepts f = true /\
    card_receives 7 Rdma.QKEY f =
      Some (field 14 40 f ++ kernel_payload (replicate (Z.to_nat sizeof_data) 0)).
Proof.
  intros p crc.
  assert (Hp : wf_packet p)
    by (apply wf_init_headers; [apply wf_full_packet0|apply wf_addr0|apply wf_addr0]).
  destruct (launch_example_ok p crc Hp) as [Hl Hr].
  apply (fpga_frame_accepted 283 addr0 addr0 7 (launch_example p crc) 4 (packet_headers p)
           (replicate (Z.to_nat sizeof_data) 0)).
  - apply wf_addr0.
  - apply wf_addr0.
  - exact Hl.
  - reflexivity.
  - exact Hr.
  - apply Forall_replicate. unfold is_byte. lia.
  - rewrite length_replicate. reflexivity.
  - lia.
Defined.

(** A machine with the platform the code looks for, and one device. *)
Definition machine_example : machine :=
  {| m_platforms := [8; 5]; m_name := fun p => if p =? 5 then default_platform else [];
     m_devices := fun _ _ => [77] |}.

Definition net_example : net :=
  {| sent := []; sent_in := []; datagrams := []; printed := []; eprinted := []; polls := 0; if_list := None;
     resolved := (0, SaOther 0); arp_reply := (0, []); environ := fun _ => None;
     files := fun _ => Some [1; 2; 3]; lookups := []; faults := 0; opencl := cl_init machine_example |}.

Definition fpga_argv : list (list Z) :=
  [[]; string_bytes "fpga"; []; []; []; string_bytes "7"].
Definition fpga_run : outcome raw_state Z * net :=
  @run posix net (NetEnv (fun _ => false)) _ (net_coop (fun _ => false))
    (main 1 fpga_argv (raw_init []) : prog posix (outcome raw_state Z)) net_example.

Lemma fpga_run_exec :
  @exec posix net (NetEnv (fun _ => false)) _ (main 1 fpga_argv (raw_init [])) net_example
    fpga_run.1 fpga_run.2.
Proof. apply (@run_exec posix net (NetEnv (fun _ => false))). apply net_coop_legal. Qed.

(** The FPGA's successful run exists: on a machine whose second platform is
    the expected one, with one device, main returns 0 after a single launch of
    the kernel on that device, which it has waited for. *)
Theorem fpga_can_succeed :
  exists s g,
    @exec posix net (NetEnv (fun _ => false)) _ (main 1 fpga_argv (raw_init [])) net_example
      (Done 0 s) g /\
    l_event <$> cl_launches (opencl g) = [8] /\ cl_waited (opencl g) = [8] /\
    cl_contexts (opencl g) !! 1 = Some [77] /\ sent g = [].
Proof.
  assert (H : returned 0 fpga_run.1) by exact_no_check (eq_refl 0).
  destruct (returned_Done _ _ H) as [s Hs]. exists s, fpga_run.2. rewrite <- Hs.
  split; [apply fpga_run_exec|].
  split; [exact_no_check (eq_refl [8])|].
  split; [exact_no_check (eq_refl [8])|].
  split; [exact_no_check (eq_refl (Some [77]))|].
  exact_no_check (eq_refl (@nil (Z * list Z * sockaddr_ll))).
Qed.
