(* ===== verification/Termination.v ===== *)
(** The programs stop after SIGINT.

    Every loop of the five programs tests a flag that the signal handler
    clears.  [PollEnv] lets the libraries, the kernel and the card answer
    anything at all and counts the tests; a computation without tests is
    [calls].  The theorems: when SIGINT is delivered by test [k], [k + 1]
    iterations of fuel are enough, so the program returns, exits, or runs into one
    of the undefined behaviours that the programs' own theorems name. *)
From S2P Require Import Prelude CInt Prog Calls RdmaCalls ClApi Posix LookupAddr OpenClUtils FpgaHost Verbs.
From S2P Require RawIbverbs RawUdp Udp UdpPath Rdma RdmaClient RdmaServer.
Local Open Scope Z_scope.
Local Open Scope c_scope.

(** The answer of a call that tests the loop flag. *)
Class SignalCall (E : Type -> Type) := signal_answer : forall X, E X -> X -> option bool.
Arguments signal_answer {E _ X} e x.

#[export] Instance posix_signal : SignalCall posix := fun X e =>
  match e in posix X return X -> option bool with
  | SigintDelivered => Some
  | _ => fun _ => None
  end.

#[export] Instance verbs_signal : SignalCall verbs := fun X e =>
  match e in verbs X return X -> option bool with
  | VSigint => Some
  | _ => fun _ => None
  end.

Definition PollEnv E `{!SignalCall E} (sigint : nat -> bool) : EnvSpec E nat :=
  {| legal X n e x := forall b, signal_answer e x = Some b -> b = sigint n;
     gnext X n e x := match signal_answer e x with Some _ => S n | None => n end |}.

(** No test of the flag, and no loop. *)
Definition no_test E `{!SignalCall E} (X : Type) (e : E X) : Prop :=
  forall x, signal_answer e x = None.

Abbreviation straight := (calls_only (no_test _)).

Section rules.
Context {E : Type -> Type} `{!SignalCall E} (sigint : nat -> bool).

#[local] Instance env : EnvSpec E nat := PollEnv E sigint.

(** Enough fuel: SIGINT comes within [fuel] tests from now. *)
Definition stops {S A} (fuel : nat) (m : M E S A) : Prop := forall s n k,
  sigint k = true -> (n <= k < n + fuel)%nat -> wp (m s) (fun o _ => forall s', o <> NoFuel s') n.

Context {S : Type}.

Lemma straight_wp {A} (m : M E S A) s n :
  straight m -> wp (m s) (fun o n' => n' = n /\ forall s', o <> NoFuel s') n.
Proof.
  intros Hm. eapply wp_mono.
  - apply (wp_calls (no_test E) eq m s n); [|exact Hm].
    intros X e n1 x He. cbn. by rewrite He.
  - by intros o n' [<- Ho].
Qed.

Lemma straight_stops {A} fuel (m : M E S A) : straight m -> stops fuel m.
Proof. intros Hm s n k _ _. eapply wp_mono; [by apply straight_wp|]. by intros o n' [_ Ho]. Qed.

(** Before a loop nothing tests the flag; after it nothing has to. *)
Lemma stops_bind {A B} fuel (m : M E S A) (f : A -> M E S B) :
  straight m -> (forall a, stops fuel (f a)) -> stops fuel (bind m f).
Proof.
  intros Hm Hf s n k Hk Hn. apply wp_bind. eapply wp_mono; [by apply straight_wp|].
  intros [a s'|c s'|w|s'] n' [-> Ho]; [by apply (Hf _ _ _ k)|done|done|by destruct (Ho s')].
Qed.

Lemma stops_then {A B} fuel (m : M E S A) (f : A -> M E S B) :
  stops fuel m -> (forall a, straight (f a)) -> stops fuel (bind m f).
Proof.
  intros Hm Hf s n k Hk Hn. apply wp_bind. eapply wp_mono; [by apply (Hm _ _ k)|].
  intros [a s'|c s'|w|s'] n' Ho; [|done|done|by destruct (Ho s')].
  cbn [continue]. eapply wp_mono; [apply straight_wp, Hf|]. by intros o n2 [_ Ho2].
Qed.

(** A loop whose body first tests the flag, and leaves when it is cleared. *)
Lemma stops_loop {R} fuel (test : M E S bool) (done_ : R) (turn : M E S (option R)) :
  (forall s n, wp (test s) (fun o n' => n' = Datatypes.S n /\
     (exists go s', o = Done go s' /\ (sigint n = true -> go = false))) n) ->
  straight turn ->
  stops fuel (loop fuel (let! go := test in if negb go then ret (Some done_) else turn)).
Proof.
  intros Ht Hturn. induction fuel as [|fuel IH]; intros s n k Hk Hn; [lia|].
  cbn [loop]. apply wp_bind, wp_bind. eapply wp_mono; [apply Ht|].
  intros o n' (-> & go & s' & -> & Hgo). cbn [continue]. destruct go; cbn [negb]; [|done].
  eapply wp_mono; [by apply straight_wp|].
  intros [[r|] s2|c s2|w|s2] n2 [-> Ho]; cbn [continue];
    [done| |done|done|by destruct (Ho s2)].
  apply (IH _ _ k); [done|]. destruct (decide (n = k)) as [->|]; [by specialize (Hgo Hk)|lia].
Qed.

End rules.

(** The same before a loop, for [stops]. *)
Ltac stops_step :=
  lazymatch goal with
  | |- forall _, _ => intros ?
  | |- stops _ _ (bind _ _) =>
      first [apply stops_bind; [solve [calls]|] | apply stops_then; [|solve [calls]]]
  | |- stops _ _ (match ?x with _ => _ end) => destruct x
  | |- _ => first [solve [eauto 3 with calls] | apply straight_stops; solve [calls]]
  end.
Ltac stops := repeat stops_step.

(** The three lines of every loop test. *)
Ltac flag_test :=
  let Hx := fresh "Hx" in let Hk := fresh "Hk" in
  intros ? ? [] Hx; cbn; (split; [done|]; eexists _, _; split; [done|]);
  intros Hk; [done|]; specialize (Hx _ eq_refl); congruence.

(** ** Library functions *)

Section posix.
Context {S : Type} (sigint : nat -> bool).

Lemma straight_printf_all l : straight (printf_all (S:=S) l).
Proof. induction l as [|o l IH]; simpl; calls. Qed.

Lemma straight_die {A} msg : straight (die (S:=S) (A:=A) msg).
Proof. unfold die. calls. Qed.

#[local] Hint Resolve straight_printf_all straight_die : calls.

Context {TX : AddrText}.

Lemma straight_print_addr a : straight (print_addr (S:=S) a).
Proof. apply straight_printf_all. Qed.

Lemma straight_lookup_remote_addr i h a : straight (lookup_remote_addr (S:=S) i h a).
Proof. unfold lookup_remote_addr. calls. Qed.

Lemma straight_lookup_local_addr i : straight (lookup_local_addr (S:=S) i).
Proof.
  unfold lookup_local_addr. calls. generalize addr0.
  match goal with l : list ifaddrs |- _ => induction l as [|c l IH] end; intros a; simpl; calls.
  unfold lookup_local_step. calls.
Qed.

Lemma straight_addr_from_strings m a gid : straight (addr_from_strings (S:=S) m a gid).
Proof. unfold addr_from_strings. calls. Qed.

End posix.

#[export] Hint Resolve straight_printf_all straight_die straight_print_addr
  straight_lookup_remote_addr straight_lookup_local_addr straight_addr_from_strings : calls.

(** The OpenCL set-up tests no flag. *)
Section opencl.
Context {S : Type} (sigint : nat -> bool).

Lemma straight_pure {A} (a : A) : straight (pure (S:=S) a).
Proof. apply calls_ret. Qed.

Lemma straight_lift {A} (m : M posix S A) : straight m -> straight (lift m).
Proof. intros Hm. apply calls_bind; [done|]. intros a. apply calls_ret. Qed.

Lemma straight_tbind {A B} (m : throws S A) (f : A -> throws S B) :
  straight m -> (forall a, straight (f a)) -> straight (tbind m f).
Proof. intros Hm Hf. apply calls_bind; [done|]. intros [e|a]; [apply calls_ret|apply Hf]. Qed.

Lemma straight_catch {A} (m : throws S A) h :
  straight m -> (forall e, straight (h e)) -> straight (catch m h).
Proof. intros Hm Hh. apply calls_bind; [done|]. intros [e|a]; [apply Hh|apply calls_ret]. Qed.

Lemma straight_uncaught {A} (m : throws S A) : straight m -> straight (uncaught m).
Proof. intros Hm. apply calls_bind; [done|]. intros [e|a]; calls. Qed.

Lemma straight_cl_call {X} (e : cl X) : straight (cl_call (S:=S) e).
Proof. by apply calls_call. Qed.

Lemma straight_posix_call {X} (e : posix X) :
  (forall x, signal_answer e x = None) -> straight (lift (S:=S) (call e)).
Proof. intros He. by apply straight_lift, calls_call. Qed.

Lemma straight_for_each {A R} (l : list A) (body : A -> throws S (option R)) :
  (forall x, straight (body x)) -> straight (for_each l body).
Proof.
  intros Hb. induction l as [|x l IH]; [apply straight_pure|].
  apply straight_tbind; [apply Hb|]. intros [r|]; [apply straight_pure|apply IH].
Qed.

End opencl.

#[export] Hint Resolve straight_pure straight_cl_call : calls.

Ltac straight_cl_step :=
  lazymatch goal with
  | |- forall _, _ => intros ?
  | |- calls_only _ (tbind _ _) => apply straight_tbind
  | |- calls_only _ (for_each _ _) => apply straight_for_each
  | |- calls_only _ (catch _ _) => apply straight_catch
  | |- calls_only _ (uncaught _) => apply straight_uncaught
  | |- calls_only _ (lift (call _)) => apply straight_posix_call; done
  | |- calls_only _ (lift _) => apply straight_lift
  | |- calls_only _ (match ?x with _ => _ end) => destruct x
  | |- _ => solve [eauto 3 with calls]
  end.
Ltac straight_cl := repeat straight_cl_step.

Section opencl_code.
Context {S : Type} (sigint : nat -> bool).

Lemma straight_createContext : straight (createContext (S:=S)).
Proof.
  unfold createContext, device_type, print_platform, try_platform, print_device, cout, cerr,
    OpenClUtils.exit.
  straight_cl.
Qed.

Lemma straight_get_program c d f : straight (get_program (S:=S) c d f).
Proof.
  unfold get_program, createProgramFromBinaries, cout, cerr, OpenClUtils.exit. straight_cl.
Qed.

Lemma straight_Kernel_call k args : straight (Kernel_call (S:=S) k args).
Proof.
  assert (Ha : forall n, straight (set_args_n (S:=S) n (kernel k) args)).
  { induction args as [|a args IH]; intros n; cbn [set_args_n]; straight_cl. }
  unfold Kernel_call, set_args, cerr, OpenClUtils.exit. straight_cl.
Qed.

#[local] Hint Resolve straight_createContext straight_get_program straight_Kernel_call : calls.

Lemma straight_fpga p crc : straight (ib_fpga_send_loop (S:=S) p crc).
Proof.
  unfold ib_fpga_send_loop, fpga_send, Kernel_Kernel, getContext, finish. straight_cl.
Qed.

End opencl_code.

#[export] Hint Resolve straight_fpga : calls.

Section raw_ibverbs.
Context {TX : AddrText} (sigint : nat -> bool).
Import RawIbverbs.

Lemma straight_eprintf_all l : straight (eprintf_all l).
Proof. induction l as [|o l IH]; simpl; calls. Qed.

#[local] Hint Resolve straight_eprintf_all : calls.

Lemma straight_parse_args argv : straight (parse_args argv).
Proof. unfold parse_args. calls. Qed.

#[local] Hint Resolve straight_parse_args : calls.

Lemma stops_host_send_loop fuel crc : stops sigint fuel (ib_host_send_loop fuel crc).
Proof.
  unfold ib_host_send_loop. stops. apply stops_loop.
  - flag_test.
  - calls.
Qed.

#[local] Hint Resolve stops_host_send_loop : calls.

Lemma stops_raw_ibverbs fuel argv : stops sigint fuel (main fuel argv).
Proof. unfold main. stops. Qed.

End raw_ibverbs.

Section raw_udp.
Context {TX : AddrText} (sigint : nat -> bool).
Import RawUdp.

Lemma stops_raw_udp fuel argv : stops sigint fuel (main fuel argv).
Proof.
  unfold main, send_loop. stops. apply stops_loop; [flag_test|calls].
Qed.

End raw_udp.

Section udp.
Context {TX : AddrText} (sigint : nat -> bool).
Import Udp.

Lemma stops_udp_client_loop fuel sock a p : stops sigint fuel (client_loop fuel sock a p).
Proof. unfold client_loop. stops. apply stops_loop; [flag_test|calls]. Qed.

Lemma stops_udp_server_loop fuel sock : stops sigint fuel (server_loop fuel sock).
Proof.
  unfold server_loop. stops. apply stops_loop; [flag_test|calls]. unfold format_source. calls.
Qed.

#[local] Hint Resolve stops_udp_client_loop stops_udp_server_loop : calls.

Lemma stops_udp fuel argv : stops sigint fuel (main fuel argv).
Proof. unfold main. stops. Qed.

End udp.

(** ** The RDMA programs *)

Section rdma.
Context {TX : AddrText} {JK : Rdma.Junk} (sigint : nat -> bool).
Import Rdma.

(** Quiet calls are no tests. *)
Lemma quietly_straight {S A} (m : M verbs S A) : calls_only RdmaCalls.quiet_call m -> straight m.
Proof. apply calls_mono. intros X e He x. by destruct e. Qed.

#[local] Hint Resolve calls_int_expr calls_eprintf calls_eputs quietly_straight : calls.

Lemma straight_last_index start count : straight (last_index start count).
Proof. unfold last_index. calls. Qed.

#[local] Hint Resolve straight_last_index : calls.

Lemma straight_post_sends start count : straight (post_sends start count).
Proof. unfold post_sends. calls. Qed.

Lemma straight_post_recvs start count : straight (post_recvs start count).
Proof. unfold post_recvs. calls. Qed.

End rdma.

#[export] Hint Resolve quietly_straight straight_post_sends straight_post_recvs : calls.

Section rdma_client.
Context {TX : AddrText} {JK : Rdma.Junk} (sigint : nat -> bool).
Import RdmaClient.

Lemma straight_in_rdma_client {A} (m : M verbs Rdma.rdma A) :
  straight m -> straight (in_rdma m).
Proof. apply calls_zoom. Qed.

#[local] Hint Resolve straight_in_rdma_client : calls.

Lemma straight_fill_buffer buffers i : straight (fill_buffer buffers i).
Proof. unfold fill_buffer. calls. Qed.

#[local] Hint Resolve straight_fill_buffer : calls.

Lemma straight_check_completed buffers wc : straight (check_completed buffers wc).
Proof. induction wc as [|w wc IH]; simpl; calls. Qed.

Lemma straight_client_requeue ne wc : straight (requeue ne wc).
Proof. unfold requeue. calls. Qed.

#[local] Hint Resolve straight_check_completed straight_client_requeue : calls.

Lemma stops_client fuel argv : stops sigint fuel (main fuel argv).
Proof.
  unfold main, client_run. stops.
  apply stops_loop; [flag_test|]. unfold client_turn. calls.
Qed.

End rdma_client.

Section rdma_server.
Context {TX : AddrText} {JK : Rdma.Junk} (sigint : nat -> bool).
Import RdmaServer.

Lemma straight_in_rdma_server {A} (m : M verbs Rdma.rdma A) :
  straight m -> straight (in_rdma m).
Proof. apply calls_zoom. Qed.

#[local] Hint Resolve straight_in_rdma_server : calls.

Lemma straight_report_completed buffers wc : straight (report_completed buffers wc).
Proof. induction wc as [|w wc IH]; simpl; calls. Qed.

Lemma straight_server_requeue ne wc : straight (requeue ne wc).
Proof. unfold requeue. calls. Qed.

#[local] Hint Resolve straight_report_completed straight_server_requeue : calls.

Lemma stops_server fuel argv : stops sigint fuel (main fuel argv).
Proof.
  unfold main, server_run. stops.
  apply stops_loop; [flag_test|]. unfold server_turn. calls.
Qed.

End rdma_server.

(** ** From any answers to the environments of the other theorems *)

(** [count] is how often [Env] has answered a test. *)
Class Polling {E G} `{!SignalCall E} (sigint : nat -> bool) (Env : EnvSpec E G) (count : G -> nat) := {
  polling_legal X (g : G) (e : E X) x b :
    legal g e x -> signal_answer e x = Some b -> b = sigint (count g);
  polling_next X (g : G) (e : E X) x :
    count (gnext g e x) =
      match signal_answer e x with Some _ => Datatypes.S (count g) | None => count g end
}.

#[export] Instance net_polling sigint : Polling sigint (NetEnv sigint) polls.
Proof.
  split.
  - intros X g e x b Hx Ha. destruct e; try done. cbn in *. congruence.
  - intros X g e x. destruct e; try done; cbn; first [by repeat case_match|by destruct x].
Qed.

#[export] Instance nic_polling sigint : Polling sigint (NicEnv sigint) vpolls.
Proof.
  split.
  - intros X g e x b Hx Ha. destruct e; try done. cbn in *. congruence.
  - intros X g e x. by destruct e.
Qed.

Lemma polling_wp {E G A} `{!SignalCall E} sigint (Env : EnvSpec E G) count
    `{!Polling sigint Env count} (p : prog E A) (Q : A -> Prop) g :
  @wp E nat (PollEnv E sigint) A p (fun o _ => Q o) (count g) -> wp p (fun o _ => Q o) g.
Proof.
  revert g. induction p as [o|X e f IH]; intros g Hp; [exact Hp|].
  intros x Hx. apply IH. rewrite polling_next. apply (Hp x).
  intros b Hb. by eapply polling_legal.
Qed.

Lemma stops_in {E G S A} `{!SignalCall E} sigint (Env : EnvSpec E G) count
    `{!Polling sigint Env count} fuel (m : M E S A) s g k :
  stops sigint fuel m -> sigint k = true -> (count g <= k < count g + fuel)%nat ->
  wp (m s) (fun o _ => forall s', o <> NoFuel s') g.
Proof. intros Hm Hk Hn. eapply polling_wp; [done|]. by apply (Hm _ _ k). Qed.

(** No program runs on, from whatever state. *)
Lemma programs_stop `{!AddrText} `{!Rdma.Junk} sigint k fuel argv :
  sigint k = true ->
  (forall g, (vpolls g <= k < vpolls g + fuel)%nat ->
    (forall s, nic_wp sigint (RdmaClient.main fuel argv s) (fun o _ => forall s', o <> NoFuel s') g) /\
    (forall s, nic_wp sigint (RdmaServer.main fuel argv s) (fun o _ => forall s', o <> NoFuel s') g)) /\
  (forall g, (polls g <= k < polls g + fuel)%nat ->
    (forall s, net_wp sigint (RawIbverbs.main fuel argv s) (fun o _ => forall s', o <> NoFuel s') g) /\
    (forall s, net_wp sigint (RawUdp.main fuel argv s) (fun o _ => forall s', o <> NoFuel s') g) /\
    (forall s, net_wp sigint (Udp.main fuel argv s) (fun o _ => forall s', o <> NoFuel s') g)).
Proof.
  intros Hk. split; intros g Hn; repeat split; intros s;
    (eapply stops_in; [first [apply nic_polling | apply net_polling]| |exact Hk|exact Hn]).
  - apply stops_client.
  - apply stops_server.
  - apply stops_raw_ibverbs.
  - apply stops_raw_udp.
  - apply stops_udp.
Qed.

(** ** Properties *)

(** The run is over: a return, an exit, or one of the undefined behaviours
    [undefs]. *)
Definition ended {S A} (undefs : list string) (o : outcome S A) : Prop :=
  match o with
  | Done _ _ | Exit _ _ => True
  | Undef w => w ∈ undefs
  | NoFuel _ => False
  end.

Lemma ended_of {S A} (undefs : list string) (o : outcome S A) :
  (forall s, o <> NoFuel s) -> (forall w, o = Undef w -> w ∈ undefs) -> ended undefs o.
Proof. destruct o as [a s|c s|w|s]; intros Hn Hu; cbn; try done; [by apply Hu|by apply (Hn s)]. Qed.

Lemma wp_ended {E G} `{!EnvSpec E G} {S A} (undefs : list string) (m : prog E (outcome S A)) (g : G)
    (Q : outcome S A -> G -> Prop) :
  wp m (fun o _ => forall s, o <> NoFuel s) g -> wp m Q g ->
  (forall w g', Q (Undef w) g' -> w ∈ undefs) -> wp m (fun o _ => ended undefs o) g.
Proof.
  intros Hn HQ Hu. eapply wp_mono; [apply (wp_and _ _ _ _ Hn HQ)|].
  intros o g' [H1 H2]. apply ended_of; [done|]. intros w ->. by eapply Hu.
Qed.

Definition udp_undefs (argv : list (list Z)) : list string :=
  if (length argv =? 2)%nat then Udp.receiver_undefs else [].

Lemma udp_ended `{!AddrText} sigint fuel argv g :
  Z.of_nat fuel < INT_MAX ->
  net_wp sigint (Udp.main fuel argv Udp.udp0) (fun o _ => forall s, o <> NoFuel s) g ->
  net_wp sigint (Udp.main fuel argv Udp.udp0) (fun o _ => ended (udp_undefs argv) o) g.
Proof.
  intros Hfuel Hstop. unfold udp_undefs.
  destruct (Nat.eqb_spec (length argv) 2) as [E2|E2].
  - eapply wp_ended; [exact Hstop|by apply UdpPath.udp_main_receiver|].
    intros w g' (_ & ds & _ & _ & (_ & Hw & _) & _). by eapply Udp.served_undef.
  - destruct (decide (length argv = 3%nat)) as [E3|E3].
    + eapply wp_ended; [exact Hstop|by apply UdpPath.udp_main_sender|].
      by intros w g' (_ & sock & dest & n & _ & Hw).
    + eapply wp_ended; [exact Hstop|apply (UdpPath.udp_main_spec sigint fuel argv g (fun o _ => forall w, o <> Undef w))|].
      * by intros.
      * intros sock g' _ _ _. by rewrite (proj2 (Nat.eqb_neq _ _) E3).
      * intros w g' Hw. by destruct (Hw w).
Qed.

(** C39: all five programs terminate.  When SIGINT is delivered by test [k] of a
    program's loop flag, then within [k + 1] turns its main returns or exits,
    whatever its arguments and whatever the kernel, the library and the card
    answer, but for the undefined behaviours listed: rdma_client's for an argument
    that is no int; raw_udp's and raw_ibverbs's for a host that does not resolve, an
    interface entry without an address, a text that is no int or no hardware
    address, and, without four writable bytes after [full_packet], raw_ibverbs's
    first store; and udp's, when it receives, for a datagram that fills the buffer
    or a peer that is not IPv4.  rdma_server and udp, when it sends, have none. *)
Theorem programs_terminate `{!AddrText} `{!AddrTextOk _} `{!Rdma.Junk} sigint k fuel argv after inc :
  sigint k = true -> (k < fuel)%nat -> 20 + 10 * Z.of_nat fuel <= INT_MAX ->
  nic_wp sigint (RdmaClient.main fuel argv RdmaClient.client0) (fun o _ => ended ["atoi"] o)
    (nic_fed inc) /\
  nic_wp sigint (RdmaServer.main fuel argv RdmaServer.server0) (fun o _ => ended [] o)
    (nic_fed inc) /\
  net_wp sigint (RawIbverbs.main fuel argv (RawIbverbs.raw_init after))
    (fun o _ => ended (RawIbverbs.args_undefs ++ RawIbverbs.room_undefs (length after)) o) net0 /\
  net_wp sigint (RawUdp.main fuel argv RawUdp.raw_udp0)
    (fun o _ => ended RawUdp.raw_udp_undefs o) net0 /\
  net_wp sigint (Udp.main fuel argv Udp.udp0) (fun o _ => ended (udp_undefs argv) o) net0.
Proof.
  intros Hk Hn Hfuel. destruct (programs_stop sigint k fuel argv Hk) as [Hnic Hnet].
  destruct (Hnic (nic_fed inc)) as [Hc Hs]; [cbn; lia|].
  destruct (Hnet net0) as (Hi & Hr & Hu); [cbn; lia|].
  assert (Hf : Z.of_nat fuel < INT_MAX) by lia. split; [|split; [|split; [|split]]].
  - eapply wp_ended; [apply Hc|apply RdmaClient.client_main_spec; done|].
    intros w g' [_ ->]. by left.
  - eapply wp_ended; [apply Hs|apply RdmaServer.server_main_spec; done|]. by intros w g' [_ []].
  - eapply wp_ended; [apply Hi|by apply RawIbverbs.main_spec|].
    intros w g' [_ [(_ & _ & Hw)|[(l & r & q & i & s & n & _ & _ & _ & _ & _ & _ & Hw & _)|
      (l & r & q & _ & _ & _ & _ & [])]]]; apply elem_of_app; [by left|by right].
  - eapply wp_ended; [apply Hr|by apply RawUdp.raw_udp_main_spec|]. by intros w g' (_ & Hw & _).
  - by apply udp_ended.
Qed.

Lemma programs_terminate_witness :
  nic_wp (Nat.eqb 2) (@RdmaServer.main text_example Rdma.junk_example 3 [] RdmaServer.server0)
    (fun o _ => ended [] o) nic0 /\
  net_wp (Nat.eqb 2) (@Udp.main text_example 3 [[]; []; []] Udp.udp0) (fun o _ => ended [] o) net0.
Proof.
  split.
  - apply (@programs_terminate text_example text_example_ok Rdma.junk_example (Nat.eqb 2) 2 3 [] []
             (fun _ => [])).
    + reflexivity.
    + lia.
    + discriminate.
  - apply (@programs_terminate text_example text_example_ok Rdma.junk_example (Nat.eqb 2) 2 3
             [[]; []; []] [] (fun _ => [])).
    + reflexivity.
    + lia.
    + discriminate.
Defined.
