(* ===== verification/Progress.v ===== *)
(** The socket programs get their work done.

    The theorems of the programs say what happens whatever fails.  Here nothing
    fails: [faults] counts the system calls that did, and in every run without
    one, in whatever environment, a program does one turn of its loop per test of
    the flag until SIGINT, and then returns EXIT_SUCCESS. *)
From S2P Require Import Prelude CLib CInt Prog Posix LookupAddr FpgaPath.
From S2P Require RawIbverbs RawUdp Udp UdpPath.
Local Open Scope Z_scope.

(** SIGINT is first delivered by test [k] from now. *)
Definition first_sigint (sigint : nat -> bool) (g : net) (k : nat) : Prop :=
  sigint (polls g + k)%nat = true /\ forall i, (i < k)%nat -> sigint (polls g + i)%nat = false.

(** A loop that left at the first test after SIGINT made as many turns as there
    were tests before. *)
Lemma first_sigint_unique sigint g k n :
  first_sigint sigint g k -> sigint (polls g + n)%nat = true ->
  (forall i, (i < n)%nat -> sigint (polls g + i)%nat = false) -> n = k.
Proof.
  intros [Hk Hb] Hn Hbn. destruct (Nat.lt_trichotomy n k) as [H|[H|H]]; [|done|].
  - by rewrite (Hb n H) in Hn.
  - by rewrite (Hbn k H) in Hk.
Qed.

Lemma first_sigint_late sigint g k n :
  first_sigint sigint g k -> (k < n)%nat ->
  ~ (forall i, (i < n)%nat -> sigint (polls g + i)%nat = false).
Proof. intros [Hk _] Hn H. by rewrite (H k Hn) in Hk. Qed.

(** A run without faults, paced by the flag. *)
Lemma paced_success {S} sigint g k fuel n undefs (o : outcome S Z) before g' :
  first_sigint sigint g k -> (k < fuel)%nat ->
  paced EXIT_SUCCESS (fun i => sigint (polls g + i)%nat) fuel n undefs o ->
  blamed before o g' -> faults g' = before -> (forall w, o <> Undef w) ->
  n = k /\ exists s, o = Done EXIT_SUCCESS s.
Proof.
  intros Hk Hf Hp Hb Hfa Hu. destruct o as [c s|c s|w|s]; cbn in *.
  - destruct Hp as (-> & _ & H1 & H2). split; [by eapply first_sigint_unique|by exists s].
  - lia.
  - by destruct (Hu w).
  - destruct Hp as [-> H]. exfalso. by eapply first_sigint_late; [exact Hk|exact Hf|].
Qed.

(** ** udp *)

(** A datagram the receiver can show: from an IPv4 peer, and shorter than the
    buffer; and its line. *)
Definition plain (d : list Z * sockaddr) : Prop :=
  Z.of_nat (length d.1) < Udp.sizeof_udp_buffer /\ exists a, d.2 = SaInet a.

Definition shown `{!AddrText} (d : list Z * sockaddr) (line : list Z) : Prop :=
  exists a, d.2 = SaInet a /\ line = Udp.udp_line (inet_ntop4 a) d.1.

Lemma served_plain `{!AddrText} last ds :
  Forall plain ds ->
  Forall2 shown ds (Udp.served last ds).1 /\ (forall w, (Udp.served last ds).2 <> inr w).
Proof.
  intros Hds. revert last. induction Hds as [|d ds (Hlen & a & Ha) Hds IH]; intros last.
  - by split; [constructor|].
  - cbn [Udp.served]. unfold Udp.heard. rewrite (proj2 (Z.eqb_neq _ _)), Ha by lia. cbn [fst snd].
    destruct (IH (Some (inet_ntop4 a))) as [H1 H2]. split; [|done]. constructor; [by exists a|done].
Qed.

Section progress.
Context `{!AddrText} `{!AddrTextOk _} (sigint : nat -> bool) (k fuel : nat).
Hypothesis Hfuel : (k < fuel)%nat.
Hypothesis Hmax : Z.of_nat fuel < INT_MAX.

Lemma udp_sender_progress argv g :
  length argv = 3%nat -> first_sigint sigint g k ->
  net_wp sigint (Udp.main fuel argv Udp.udp0) (fun o g' => faults g' = faults g ->
    exists s sock dest, o = Done EXIT_SUCCESS s /\
      sent_in g' = sent_in g ++ Udp.messages_sent sock dest k) g.
Proof.
  intros Hargc Hk. eapply wp_mono; [by apply UdpPath.udp_main_sender|].
  intros o g' (Hb & sock & dest & n & Hs & Ho) Hf. destruct o as [c s|c s|w|s]; cbn in *.
  - destruct Ho as (-> & _ & H1 & H2). exists s, sock, dest. split; [done|].
    by rewrite <- (first_sigint_unique sigint g k n).
  - lia.
  - done.
  - destruct Ho as [-> Hlate]. exfalso. by eapply first_sigint_late.
Qed.

Lemma udp_receiver_progress argv g :
  length argv = 2%nat -> first_sigint sigint g k ->
  net_wp sigint (Udp.main fuel argv Udp.udp0) (fun o g' =>
    exists ds, datagrams g' = datagrams g ++ ds /\
      (faults g' = faults g -> Forall plain ds ->
       length ds = k /\ exists s lines, o = Done EXIT_SUCCESS s /\
         printed g' = printed g ++ lines /\ Forall2 shown ds lines)) g.
Proof.
  intros Hargc Hk. eapply wp_mono; [by apply UdpPath.udp_main_receiver|].
  intros o g' (Hb & ds & Hd & Hp & Ho & H0). exists ds. split; [done|]. intros Hf Hplain.
  destruct (served_plain None ds Hplain) as [Hshown Hdef].
  assert (Hrun : forall i, Udp.runs_at sigint g i = true -> sigint (polls g + i)%nat = false).
  { intros i Hi. by apply negb_true_iff in Hi. }
  destruct o as [c s|c s|w|s]; cbn in Hb.
  - destruct Ho as (Hbefore & [_ Hend] & _). apply negb_false_iff in Hend.
    split; [by apply (first_sigint_unique sigint g); auto|].
    exists s, (Udp.served None ds).1. by rewrite (H0 c s eq_refl).
  - lia.
  - destruct Ho as (_ & Hw & _). by apply Hdef in Hw.
  - destruct Ho as (Hbefore & Hn & _). exfalso.
    eapply first_sigint_late; [exact Hk| |intros i Hi; apply Hrun, Hbefore, Hi]. lia.
Qed.

(** ** raw_udp and raw_ibverbs *)

Lemma raw_udp_progress argv :
  (length argv = 3 \/ length argv = 4)%nat -> first_sigint sigint net0 k ->
  net_wp sigint (RawUdp.main fuel argv RawUdp.raw_udp0) (fun o g' =>
    faults g' = 0%nat -> (forall w, o <> Undef w) ->
    RawUdp.datagrams_ok argv g' /\ length (sent g') = k /\ exists s, o = Done EXIT_SUCCESS s) net0.
Proof.
  intros Hargc Hk. eapply wp_mono; [by apply RawUdp.raw_udp_main_spec|].
  intros o g' (Hok & Hp & Hb) Hf Hu. split; [done|].
  eapply (paced_success sigint net0); [done|done|exact Hp|by apply Hb|done|done].
Qed.

Lemma raw_ibverbs_progress argv after g :
  RawIbverbs.usage_ok argv = true -> RawIbverbs.arg argv 1 = string_bytes "host" ->
  RawIbverbs.started g -> first_sigint sigint g k ->
  net_wp sigint (RawIbverbs.main fuel argv (RawIbverbs.raw_init after)) (fun o g' =>
    faults g' = faults g -> (forall w, o <> Undef w) ->
    RawIbverbs.host_sends sigint fuel argv (length after) g o g' /\
    length (sent g') = k /\ exists s, o = Done EXIT_SUCCESS s) g.
Proof.
  intros Husage Hhost Hst Hk. eapply wp_mono; [by apply RawIbverbs.main_spec|].
  intros o g' [_ [(_ & _ & Ho)|[Ho|(l & r & q & [Hfpga _] & _)]]] Hf Hu.
  - exfalso. destruct o as [c s|c s|w|s]; [done| |by destruct (Hu w)|done].
    destruct Ho as [_ Ho]. specialize (Ho Husage). lia.
  - split; [done|]. destruct Ho as (l & r & q & i & sock & n & _ & _ & _ & _ & Hs & _ & Hp & Hb & _).
    assert (length (sent g') = n) as ->.
    { rewrite Hs. unfold RawIbverbs.host_frames. by rewrite length_fmap, length_seq. }
    by eapply (paced_success sigint g).
  - rewrite Hhost in Hfpga. discriminate.
Qed.

End progress.

(** ** Properties *)

#[local] Existing Instance text_example.

(** C40: progress of the socket programs.  Let SIGINT be delivered first by test [k]
    of the loop flag.  In every run in which no system call fails: udp, sending,
    returns EXIT_SUCCESS after messages 0 to [k - 1]; udp, receiving, if every
    datagram fits the buffer and comes from an IPv4 peer, returns EXIT_SUCCESS
    after exactly [k] datagrams, with a line for each; raw_udp and raw_ibverbs in
    host mode, unless their behaviour is undefined, return EXIT_SUCCESS after
    exactly [k] of the frames that their own theorems describe. *)
Theorem programs_progress `{!AddrText} `{!AddrTextOk _} sigint k fuel argv after :
  first_sigint sigint net0 k -> (k < fuel)%nat -> Z.of_nat fuel < INT_MAX ->
  (length argv = 3%nat ->
     net_wp sigint (Udp.main fuel argv Udp.udp0) (fun o g' => faults g' = 0%nat ->
       exists s sock dest, o = Done EXIT_SUCCESS s /\
         sent_in g' = Udp.messages_sent sock dest k) net0) /\
  (length argv = 2%nat ->
     net_wp sigint (Udp.main fuel argv Udp.udp0) (fun o g' => faults g' = 0%nat ->
       Forall plain (datagrams g') ->
       length (datagrams g') = k /\ exists s, o = Done EXIT_SUCCESS s /\
         Forall2 shown (datagrams g') (printed g')) net0) /\
  ((length argv = 3 \/ length argv = 4)%nat ->
     net_wp sigint (RawUdp.main fuel argv RawUdp.raw_udp0) (fun o g' => faults g' = 0%nat ->
       (forall w, o <> Undef w) ->
       RawUdp.datagrams_ok argv g' /\ length (sent g') = k /\
       exists s, o = Done EXIT_SUCCESS s) net0) /\
  (RawIbverbs.usage_ok argv = true -> RawIbverbs.arg argv 1 = string_bytes "host" ->
     net_wp sigint (RawIbverbs.main fuel argv (RawIbverbs.raw_init after)) (fun o g' =>
       faults g' = 0%nat -> (forall w, o <> Undef w) ->
       RawIbverbs.host_sends sigint fuel argv (length after) net0 o g' /\
       length (sent g') = k /\ exists s, o = Done EXIT_SUCCESS s) net0).
Proof.
  intros Hk Hf Hm. split; [|split; [|split]].
  - intros Hargc. by exact (udp_sender_progress sigint k fuel Hf Hm argv net0 Hargc Hk).
  - intros Hargc. eapply wp_mono; [by apply udp_receiver_progress|].
    intros o g' (ds & Hd & Hds) H0 Hplain. cbn [datagrams net0 app] in Hd. rewrite Hd in *.
    destruct (Hds H0 Hplain) as (Hn & s & lines & Ho & Hp & Hsh). split; [done|]. exists s.
    split; [done|]. by rewrite Hp.
  - intros Hargc. by apply raw_udp_progress.
  - intros Hu Hh. by apply raw_ibverbs_progress.
Qed.

(** A run without faults: udp, sending, in the environment [net_coop]. *)
Definition sender_argv : list (list Z) := [[]; string_bytes "4242"; string_bytes "10.0.0.1"].
Definition sender_run : outcome Udp.udp Z * net :=
  @run posix net (NetEnv (Nat.eqb 3)) _ (net_coop (Nat.eqb 3))
    (Udp.main 4 sender_argv Udp.udp0 : prog posix (outcome Udp.udp Z)) net0.

Lemma sender_run_exec :
  @exec posix net (NetEnv (Nat.eqb 3)) _ (Udp.main 4 sender_argv Udp.udp0) net0
    sender_run.1 sender_run.2.
Proof. apply (@run_exec posix net (NetEnv (Nat.eqb 3))). apply net_coop_legal. Qed.

Lemma sender_run_faults : faults sender_run.2 = 0%nat.
Proof. exact_no_check (eq_refl 0%nat). Qed.

Lemma programs_progress_witness :
  exists s sock dest g', @exec posix net (NetEnv (Nat.eqb 3)) _
      (Udp.main 4 sender_argv Udp.udp0) net0 (Done EXIT_SUCCESS s) g' /\
    sent_in g' = Udp.messages_sent sock dest 3.
Proof.
  assert (Hk : first_sigint (Nat.eqb 3) net0 3).
  { split; [reflexivity|]. intros i Hi. apply Nat.eqb_neq. cbn. lia. }
  destruct (@programs_progress text_example text_example_ok (Nat.eqb 3) 3 4 sender_argv [])
    as [Hsend _]; [exact Hk|lia|reflexivity|].
  pose proof (proj1 (wp_exec _ _ _) (Hsend eq_refl) _ _ sender_run_exec sender_run_faults)
    as (s & sock & dest & Ho & Hs).
  exists s, sock, dest, sender_run.2. split; [|exact Hs]. rewrite <- Ho. apply sender_run_exec.
Defined.
