(* ===== verification/Cooperative.v ===== *)
(** An environment in which everything works, and the two RDMA programs run in
    it: every creation succeeds, the card completes posted requests in order,
    nothing fails.  The runs show that the hypotheses the theorems make on the
    environment leave the intended behaviour possible. *)
From stdpp Require Import gmap.
From S2P Require Import Prelude CInt CLib Prog Posix Verbs Rdma QueueSpec.
From S2P Require RdmaClient RdmaServer.
Local Open Scope Z_scope.

#[export] Instance obj_eq_dec : EqDecision obj.
Proof. solve_decision. Defined.

#[export] Instance fresh_handle_dec m h : Decision (fresh_handle m h).
Proof. unfold fresh_handle. apply _. Defined.

#[export] Instance fresh_block_dec m p size : Decision (fresh_block m p size).
Proof.
  unfold fresh_block. repeat apply and_dec; try apply _.
  apply map_Forall_dec. intros q []; apply _.
Defined.

Section coop.
Variable sigint : nat -> bool.

(** Handles and blocks are placed above all live ones. *)
Definition slot (g : nic) : Z := map_fold (fun h _ top => Z.max (h + 2 ^ 24) top) (2 ^ 24) (live g).
Definition new_handle (g : nic) : Z := if decide (fresh_handle (live g) (slot g)) then slot g else 0.
Definition new_block (g : nic) (n : Z) : Z :=
  if decide (fresh_block (live g) (slot g) n) then slot g else 0.

Definition qp_allows (g : nic) (qp : Z) (P : ibv_qp_state -> bool) : bool :=
  match live g !! qp with Some (OQp _ _ st) => P st | _ => false end.

(** The completions of the oldest requests: a receive whose datagram does not fit
    fails. *)
Fixpoint complete (inc : nat -> list Z) (k : nat) (ws : list work) : list ibv_wc :=
  match ws with
  | [] => []
  | w :: ws =>
      if w_recv w then
        let len := Z.of_nat (length (inc k)) in
        {| wc_wr_id := w_id w;
           wc_status := if len <=? capacity w then IBV_WC_SUCCESS else IBV_WC_LOC_LEN_ERR;
           wc_byte_len := len |} :: complete inc (S k) ws
      else {| wc_wr_id := w_id w; wc_status := IBV_WC_SUCCESS; wc_byte_len := 0 |} :: complete inc k ws
  end.

Definition coop (X : Type) (g : nic) (e : verbs X) : X :=
  match e in verbs X return X with
  | Sysconf_pagesize => 4096
  | Get_device_list => (new_handle g, [1])
  | Get_device_name _ => string_bytes "mlx5_0"
  | Open_device _ | Alloc_pd _ | Create_cq _ _ | Create_qp _ _ | Create_ah _ _ => new_handle g
  | Close_device _ | Dealloc_pd _ | Destroy_cq _ | Destroy_qp _ | Dereg_mr _ | Destroy_ah _ => 0
  | Query_port _ _ => (0, {| active_mtu := IBV_MTU_4096; lid := 1 |})
  | Query_gid _ _ _ => (0, replicate 16 0)
  | Query_qp _ _ =>
      (0, junk_qp_attr (Junk := junk_example),
       {| qp_context := 0; send_cq := 0; recv_cq := 0; srq := 0;
          cap := {| max_send_wr := 0; max_recv_wr := 0; max_send_sge := 1; max_recv_sge := 2;
                    max_inline_data := 64 |};
          qp_type := IBV_QPT_UD; sq_sig_all := 0 |})
  | Modify_qp qp a mask =>
      if qp_allows g qp (fun st => ud_transition st (qp_state a) mask) then 0 else 22
  | Qp_num _ => 7
  | Reg_mr _ _ _ _ =>
      if decide (fresh_handle (live g) (slot g)) then Some {| mr_handle := slot g; lkey := slot g |}
      else None
  | Post_send qp wrs =>
      if qp_allows g qp (fun st => bool_decide (st = IBV_QPS_RTS)) then (0, length wrs) else (22, 0%nat)
  | Post_recv _ wrs => (0, length wrs)
  | Poll_cq _ n =>
      let done := complete (incoming g) (arrived g) (take (Z.to_nat n) (outstanding g)) in
      if 0 <=? n then (Z.of_nat (length done), done) else (-1, [])
  | Wc_status_str _ => []
  | Posix_memalign _ n => let p := new_block g n in (if p =? 0 then 12 else 0, p)
  | Malloc n => new_block g n
  | Free _ | Free_device_list _ | Memset _ _ _ | VSleep | VEprintf _ | VPrintf _ => tt
  | Load_char p => mem g p
  | Errno => 0
  | Strerror _ => []
  | VSigaction => 0
  | VSigint => sigint (vpolls g)
  end.

Lemma new_handle_created g : created (live g) (new_handle g).
Proof. unfold new_handle. destruct (decide _); [by right|by left]. Qed.

Lemma new_block_spec g n : new_block g n = 0 \/ fresh_block (live g) (new_block g n) n.
Proof. unfold new_block. destruct (decide _); [by right|by left]. Qed.

Lemma qp_allows_spec g qp P : qp_allows g qp P = true -> qp_in (live g) qp P.
Proof. unfold qp_allows, qp_in. by destruct (live g !! qp) as [[]|]. Qed.

Lemma complete_ids inc k ws : wc_wr_id <$> complete inc k ws = w_id <$> ws.
Proof.
  revert k. induction ws as [|w ws IH]; intros k; [done|]. cbn. destruct (w_recv w); cbn; by rewrite IH.
Qed.

Lemma complete_length inc k ws : length (complete inc k ws) = length ws.
Proof. by rewrite <- (length_fmap wc_wr_id), complete_ids, length_fmap. Qed.

Lemma complete_ok inc k ws n : completions_ok inc k ws (complete inc k (take n ws)).
Proof.
  revert k n. induction ws as [|w ws IH]; intros k [|n]; try done.
  cbn. destruct (w_recv w) eqn:E; cbn; rewrite ?E; [|apply IH]. split; [|apply IH].
  destruct (Z.leb_spec (Z.of_nat (length (inc k))) (capacity w)); done.
Qed.

(** Its answers are legal in every state. *)
Lemma coop_legal X g (e : verbs X) : nic_legal sigint X g e (coop X g e).
Proof.
  destruct e; try done; try apply new_handle_created; try apply new_block_spec.
  - split; [apply new_handle_created|]. cbn. intros H. by apply list_elem_of_singleton in H.
  - split; [done|]. apply Forall_replicate. unfold is_byte. lia.
  - cbn. destruct (qp_allows _ _ _) eqn:H; [|done]. intros _. by apply qp_allows_spec.
  - cbn. by destruct (decide _).
  - cbn. destruct (qp_allows _ _ _) eqn:H; [|split; [simpl; lia|done]].
    split; [done|]. intros _. split; [done|]. by apply qp_allows_spec.
  - cbn. destruct (Z.leb_spec 0 num_entries) as [Hn|Hn]; [right|by left].
    cbn [fst snd]. rewrite complete_length, complete_ids, length_take.
    split; [lia|]. split; [lia|]. split; [lia|]. split; [|apply complete_ok].
    rewrite fmap_take.
    destruct (Nat.le_gt_cases (Z.to_nat num_entries) (length (outstanding g))).
    + f_equal. lia.
    + by rewrite !take_ge by (rewrite ?length_fmap; lia).
  - cbn. intros H. destruct (new_block_spec g size) as [E|E]; [|done].
    rewrite E in H. done.
Qed.

End coop.

(** ** Runs *)

#[local] Existing Instance text_example.
#[local] Existing Instance junk_example.

Section runs.
Variable sigint : nat -> bool.

Definition coop_run {S A} (m : M verbs S A) (s : S) (g : nic) : outcome S A * nic :=
  @run verbs nic (NicEnv sigint) _ (coop sigint) (m s) g.

Lemma coop_run_exec {S A} (m : M verbs S A) s g :
  @exec verbs nic (NicEnv sigint) _ (m s) g (coop_run m s g).1 (coop_run m s g).2.
Proof. apply (@run_exec verbs nic (NicEnv sigint)). apply coop_legal. Qed.

End runs.

Definition client_argv : list (list Z) :=
  [[]; string_bytes "mlx5_0"; string_bytes "::1"; string_bytes "1"; string_bytes "7"].
Definition client_example : outcome RdmaClient.client Z * nic :=
  coop_run (Nat.eqb 3) (RdmaClient.main 4 client_argv) RdmaClient.client0 nic0.
(** Datagrams with one byte of payload, their number. *)
Definition numbered_datagram (k : nat) : list Z := replicate 40 0 ++ [Z.of_nat k].

Definition server_example : outcome RdmaServer.server Z * nic :=
  coop_run (Nat.eqb 3) (RdmaServer.main 4 (take 2 client_argv)) RdmaServer.server0
    (nic_fed numbered_datagram).

(** ** Properties *)

(** The client's intended run exists: in three turns it hands over
    messages 0 to 49 through its 20 buffers, each starting with the byte of its
    number; after SIGINT it returns EXIT_SUCCESS with everything released and no
    rule broken. *)
Theorem client_can_succeed :
  exists s g,
    @exec verbs nic (NicEnv (Nat.eqb 3)) _ (RdmaClient.main 4 client_argv RdmaClient.client0)
      nic0 (Done EXIT_SUCCESS s) g /\
    t_id <$> transmitted g = (fun k => k mod 20) <$> seqZ 0 50 /\
    (fun t => head (t_data t)) <$> transmitted g = Some <$> seqZ 0 50 /\
    live g = ∅ /\ misuse g = [] /\ failed g = [].
Proof.
  assert (H : returned EXIT_SUCCESS client_example.1)
    by exact_no_check (eq_refl EXIT_SUCCESS).
  destruct (returned_Done _ _ H) as [s Hs]. exists s, client_example.2. rewrite <- Hs.
  split; [apply coop_run_exec|].
  split; [exact_no_check (eq_refl (t_id <$> transmitted client_example.2))|].
  split; [exact_no_check (eq_refl ((fun t => head (t_data t)) <$> transmitted client_example.2))|].
  split; [exact_no_check (eq_refl (live client_example.2))|].
  split; [exact_no_check (eq_refl (misuse client_example.2))|].
  exact_no_check (eq_refl (failed client_example.2)).
Qed.

(** So does the server's: it receives three batches of ten datagrams, each
    into a buffer that is posted again, prints for each its slot, the byte it
    brought and its length, and returns EXIT_SUCCESS with everything released and
    no rule broken. *)
Theorem server_can_succeed :
  exists s g,
    @exec verbs nic (NicEnv (Nat.eqb 3)) _
      (RdmaServer.main 4 (take 2 client_argv) RdmaServer.server0)
      (nic_fed numbered_datagram) (Done EXIT_SUCCESS s) g /\
    printed_lines (trail g) = (fun k => RdmaServer.report_line k k 41) <$> seqZ 0 30 /\
    w_id <$> outstanding g = (fun k => k mod 100) <$> seqZ 30 100 /\
    live g = ∅ /\ misuse g = [] /\ failed g = [].
Proof.
  assert (H : returned EXIT_SUCCESS server_example.1)
    by exact_no_check (eq_refl EXIT_SUCCESS).
  destruct (returned_Done _ _ H) as [s Hs]. exists s, server_example.2. rewrite <- Hs.
  split; [apply coop_run_exec|].
  split; [exact_no_check (eq_refl ((fun k => RdmaServer.report_line k k 41) <$> seqZ 0 30))|].
  split; [exact_no_check (eq_refl ((fun k => k mod 100) <$> seqZ 30 100))|].
  split; [exact_no_check (eq_refl (live server_example.2))|].
  split; [exact_no_check (eq_refl (misuse server_example.2))|].
  exact_no_check (eq_refl (failed server_example.2)).
Qed.
